(* ===== verification/_CoqProject ===== *)
-Q . S2P
Prelude.v
Memory.v
Machine.v
Frames.v
Heap.v
Arena.v
Paging.v
OaHash.v
Mutex.v
Scheduler.v
Strings.v
Words.v
StrSearch.v
Tmpfs.v
TmpfsDelete.v
Vfs.v
Kutils.v
Console.v
Descriptors.v
Loader.v
LoadImage.v
Threads.v
Syscalls.v
HeapInit.v
Devices.v
Boot.v
KernelApi.v
Acpi.v
UacpiTables.v
UacpiRefs.v
UacpiSetup.v
UacpiFadt.v
Path.v
Open.v
Dispatch.v
Start.v
Preserve.v
UacpiKept.v
UacpiFormat.v
UacpiText.v
Kernel.v
System.v
Smp.v
