(* ===== verification/Prelude.v ===== *)
(** * willowOS kernel: verification library

    willowOS is an x86-64 kernel written in C.  Its own code is under
    src/limine-c-template-x86-64/kernel/src (called K below); uacpi, flanterm,
    nanoprintf and fireworks there are vendored libraries.  Of uacpi the kernel
    compiles the table subsystem and the formatting of its log, since
    K/uacpi/platform/config.h defines UACPI_BAREBONES_MODE; start-up depends on
    them, so they are modelled too.  This library is a
    shallow embedding of the kernel's core in Rocq: every C function is a
    definition on an explicit state that returns an [outcome], a value or the
    way the code fails, and the theorems are about those definitions.

    ** The program and the files that model it

    The boot loader's memory map becomes the frame map; frames back the page
    tables; the kernel heap is a fixed list of 64-byte nodes; threads, files,
    descriptor tables and strings live in the heap; system calls and the loader
    use all of them.

    - [Prelude]: machine integers, the [outcome] monad, loops, tactics, hints.
    - [Memory]: memory as a map from addresses to bytes, [memcpy], [memset],
      [memmove], [memcmp] (K/main.c).
    - [Machine]: the state [mst] the memory managers share (memory, interrupt flag,
      frame map, heap nodes), [irq_disable_save] and [irq_restore] (K/kutils.c).
    - [Frames]: [init_memmaps] (K/main.c), [alloc_frame], [free_frame] (K/paging.c).
    - [Heap]: [kmalloc], [kfree], [krealloc_byte] and their byte wrappers
      (K/vmm.c); [Arena] is the interface the clients of the heap are verified
      against: a heap whose first [k] nodes are in use, as long as its first
      node is not freed.  [HeapInit]: [init_heap], the list of nodes built in
      memory on frames and page tables.
    - [Paging]: [map_page], [map_range], [unmap_page], [change_page_map],
      [virt_to_phys], [init_paging] (K/paging.c) and
      [create_new_userspace_page_table] (K/scheduler.c), on four-level tables in
      memory; the state [pst] adds the mappings of the running thread.
    - [OaHash]: the open-addressing hash table (K/oa_hash/oa_hash.h).
    - [Mutex]: the mutex, its interleavings and the futex queues (K/mutex.c).
    - [Scheduler]: thread contexts, the ring of threads, [reschedule],
      [switch_thread], creation, blocking and sleeping (K/scheduler.c,
      scheduler.asm, the timer handler of idt.c); the state [sst].
    - [Strings] and [StrSearch]: the string functions (K/string.c), the second
      with the spans and the substring searches up to the two-way algorithm of
      K/str-two-way.h; [Words] is the theory of borders and periods it rests on.
    - [Tmpfs]: the in-memory file system (K/tmpfs.c), on structures in memory;
      [TmpfsDelete] verifies the removal of a file.
    - [Vfs]: paths, descriptors, reading and writing (K/vfs.c); [Path] verifies
      the path walk over [strtok_r], the heap and tmpfs, and [Open] opening a path
      and reading the file through its number, all layers together.
    - [Kutils]: number formatting, tar archives, scancodes (K/kutils.c).
    - [Console]: the text [kprint], [kprintf] and the printers of numbers send to
      the terminal (K/main.c, K/kutils.c).
    - [Descriptors]: GDT, TSS and IDT (K/gdt.c, K/idt.c).
    - [Loader]: ELF images, the initial stack of a program and the entry into user
      mode (K/loader.c); user addresses go through the processor's translation.
      [LoadImage] verifies [load_elf] over the page tables and the frames.
    - [Threads]: [hot_exec_elf], [scheduler_return], [get_new_pid] (K/scheduler.c).
    - [Syscalls]: [init_syscalls], the kernel side of the system calls and
      [sys_vm_map] (K/syscalls.c); the state [kst].  [Dispatch]: the table of
      the calls and the entry code (K/syscalls.asm), and the wrappers of
      K/syscalls.c that execute the syscall instruction; it shows what becomes of
      the arguments of the open call.
    - [Preserve]: the predicate [machine_ok] on the shared state and the proof that
      every operation of the memory managers, the files and the strings keeps it, as
      a calculus of postconditions with its hint database; [Kernel]: the
      same for start-up, threads, descriptors and system calls, and the running
      kernel as a relation whose steps are stores of a program, system calls, calls
      that enter another thread, the timer, the first thread and the idle loop.
      [System] composes [Boot], [Start] and [Kernel] and evaluates a complete run.
    - [Devices]: the time stamp counter, the HPET, the local APIC timers and the
      I/O APIC (K/tsc.c, hpet.c, apic.c, ioapic.c, [sleep_handler] of idt.c); the
      state [dev] keeps the register accesses, and what the hardware answers is a
      parameter.
    - [Boot]: [kmain] from [init_memmaps] to [test_memory] (K/main.c), the
      composition of the memory managers and the descriptor tables.  [Start]: the
      rest of [kmain], [init_vfs] and [initial_thread] (K/vfs.c); the state [bst].
    - [Acpi]: the search of the ACPI tables (K/apic.c).  [Smp]: how [init_mp]
      (K/apic.c) and [start_ap] (K/main.c) start the processors one after another.
    - [KernelApi]: the callbacks of the uACPI library (K/kernel_api.c).
      [UacpiTables]: its table subsystem (K/uacpi/uacpi_src/tables.c, the array of
      internal/dynamic_array.h, the reset of uacpi.c) and [uacpi_init] of K/apic.c; the
      state [ust] adds the library's context to [pst].  [UacpiRefs]: the
      invariant of the array, reference counts, the search.  [UacpiSetup]: what set-up
      installs.  [UacpiFadt]: what becomes of the FADT.  [UacpiKept]: the library
      keeps [machine_ok].  [UacpiFormat]: [uacpi_vsnprintf], [uacpi_log] and
      [uacpi_string_to_integer] (uacpi_src/stdlib.c, utilities.c); [UacpiText]: formats
      as data, their meaning, and that it is what is written.

    ** What the theorems show

    - Frames: the frame map [init_memmaps] builds is well formed, [alloc_frame]
      refines taking an element out of the set of free frames, freeing is its
      inverse, and the error paths of [free_frame] are exact.
    - Heap: every reachable heap keeps its blocks apart, [kmalloc] and
      [krealloc_byte] are characterised on every branch; [kfree] releases nothing
      and live blocks can overlap after a free.  [init_heap] refines the initial
      state of the model.
    - Boot: [kmain] reaches the end of [test_memory] with the invariants of all
      the components it has started, and with the used node the test leaves.
    - System: whatever programs do after start-up, memory holds bytes,
      the blocks of the heap stay disjoint, the frame map keeps its shape and the
      registers hold 64-bit words.
    - Paging: mapping a page makes its translation right, keeps the tables a tree
      and every other translation; unmapping removes exactly one page.
    - Hash table and tmpfs: insertion, removal and rehashing refine finite maps;
      creating and deleting a file refine insertion into and removal from a
      directory, and what is written
      to a file is read back.  A path leads where the tree of names says;
      opening it gives a number through which the file is read, or one of
      the two failures of the code.
    - Loader: the image of a program is readable at its addresses after [load_elf],
      zero beyond the part in the file.
    - Scheduler: the ring operations refine list operations, rescheduling is
      round robin when every thread is ready and hangs on a blocked neighbour,
      the context switch and the first stack of a thread are exact; an ending
      thread leaves the ring and the first ready one is entered.
    - Mutex: [acquire_mutex] never waits and does not exclude; the first
      [futex_enqueue] faults.
    - Strings: the word-at-a-time functions equal their byte loops; [strstr] finds
      the first occurrence for every length of the needle, in a linear number of
      iterations, by the critical factorization theorem.
    - Devices: [kpass] returns exactly when the interrupt comes after the lock is
      set; when the conversions of the timers are exact, and the error of the
      calibration.
    - Acpi: the globals get the last table of each signature the table of tables
      lists.  Smp: the processors start one at a time, and all of them, when the
      boot processor is the first of the list; otherwise two can start together
      and [init_mp] can wait for ever.
    - uACPI: whatever clients call, the array of tables stays in order and a null
      pointer is never unmapped; references refine a saturating counter; set-up
      installs the tables the firmware lists, in order, the DSDT before its FADT;
      the copy of the FADT has a revision that fits and a generic address for
      every register; a search finds the first table.  A format is
      rendered as its directives say, within the buffer; numerals are read back.
    - Numbers, archives, descriptors, the initial stack of a program, the
      mappings of uACPI and the refusals of [sys_vm_map]: functional correctness
      and decoding.

    ** Conventions and bounds

    A [uintN_t] is a [Z] with the wrap-around written out ([wrap64]).  Loops with a
    count the code computes are [loop] or structural recursion on that count and
    need no fuel.  Loops that scan for a terminator take a [fuel]; the theorems
    ask for more fuel than the string or archive has elements and then show
    that the code returns.  [Loader.PHDR_FUEL] is 2^16 because the count of
    program headers has 16 bits, [Mutex] needs two attempts for any mutex, a
    64-bit numeral has at most 22 digits in the bases of [UacpiFormat], and a
    depth of 2 is enough for [UacpiTables.table_install_physical] when the DSDT a FADT
    names is not itself a FADT, which [UacpiSetup] asks for.
    [Err OutOfFuel] never stands for a result of the code; [Err Hang] is a loop
    shown not to end.

    Memory is addressed by kernel virtual address: a physical address [p] is at
    [p + hhdm_offset], and the heap and the direct map are not identified with
    each other even though heap pages have frames too.  Thread contexts and
    descriptor tables are records kept beside memory under their address;
    tmpfs structures, mapping arrays, futex queues, page tables and ELF images
    are bytes in memory.  The registers a context switch changes are part of
    the state, C stack frames are not.  Console output is modelled in [Console]
    and left out elsewhere.
    Addresses the linker or the loader fixes are parameters, and so are the
    digits [npf_snprintf] prints.

    ** Not modelled

    The framebuffer and the banner of [kmain], the device calls of [start_ap] before its
    ticket, the parts of uACPI that UACPI_BAREBONES_MODE leaves out (the interpreter, the
    namespace, events, resources), the calls of its log inside the table code,
    flanterm, nanoprintf and fireworks, [init_scheduler], [init_loader] and the threads [gen0] to [gen3] (test programs), the
    unused inode_fs stub, [scancode_to_string] and [get_key] (no caller), the commented-out keyboard
    driver and [sys_clock_get] (empty).  A call that reads a string of the
    caller ([Dispatch.syscall19]) runs on memory as the caller's page tables
    show it, and its kernel writes are kept.  For the caller's registers only
    the arguments are modelled. *)

From Stdlib Require Export ZArith Lia.
From stdpp Require Export base tactics numbers list list_numbers gmap option.

#[export] Set Default Goal Selector "!".
#[global] Open Scope Z_scope.

(** ** Machine integers

    A [uintN_t] is a [Z] in [0, 2^N); the wrap-around of the C arithmetic is
    written out with [wrapN]. *)

Definition wrap8 (x : Z) : Z := x mod 2 ^ 8.
Definition wrap16 (x : Z) : Z := x mod 2 ^ 16.
Definition wrap32 (x : Z) : Z := x mod 2 ^ 32.
Definition wrap64 (x : Z) : Z := x mod 2 ^ 64.

(** [(int) x] for a 32-bit two's complement [int] (gcc on x86-64). *)
Definition sint32 (x : Z) : Z :=
  let y := wrap32 x in if y <? 2 ^ 31 then y else y - 2 ^ 32.

Definition UINT64_MAX : Z := 2 ^ 64 - 1.
Definition UINT32_MAX : Z := 2 ^ 32 - 1.
Definition NULL : Z := 0.

Definition is_u8 (x : Z) : Prop := 0 <= x < 2 ^ 8.
Definition is_u16 (x : Z) : Prop := 0 <= x < 2 ^ 16.
Definition is_u32 (x : Z) : Prop := 0 <= x < 2 ^ 32.
Definition is_u64 (x : Z) : Prop := 0 <= x < 2 ^ 64.

(** C's conversion of a [bool] to an integer. *)
Definition Z_of_bool (b : bool) : Z := if b then 1 else 0.

(** ** Outcomes

    What a C function of the kernel can do beside returning: stop in the
    [while (1) {}] of a failed [assert], dereference a null pointer, leave the
    bounds of an array, divide by zero, spin in a loop for ever, call through
    a function pointer that holds no function, or access a user address that
    the page tables do not map. *)

Inductive fault : Type :=
| AssertFailed
| NullDeref
| OutOfBounds
| DivByZero
| Hang
| BadCall
| PageFault
| OutOfFuel.

#[export] Instance fault_eq_dec : EqDecision fault.
Proof. solve_decision. Defined.

Inductive outcome (A : Type) : Type :=
| Ok (a : A)
| Err (e : fault).
Arguments Ok {A} a.
Arguments Err {A} e.

#[export] Instance outcome_ret : MRet outcome := fun _ a => Ok a.
#[export] Instance outcome_bind : MBind outcome := fun _ _ f m =>
  match m with Ok a => f a | Err e => Err e end.
#[export] Instance outcome_fmap : FMap outcome := fun _ _ f m =>
  match m with Ok a => Ok (f a) | Err e => Err e end.

(** [assert(e)] of kutils.h. *)
Definition c_assert (b : bool) : outcome unit := if b then Ok tt else Err AssertFailed.

(** A value an array access needs: in range, or a fault. *)
Definition checked {A} (o : option A) (e : fault) : outcome A :=
  match o with Some a => Ok a | None => Err e end.

(** ** Iteration

    [loop n f s] is a C [for] loop whose body runs [n] times and may fault;
    the body is given the iteration number. *)

Fixpoint loop_from {S : Type} (n : nat) (i : Z) (f : Z -> S -> outcome S) (s : S) : outcome S :=
  match n with
  | O => Ok s
  | S n' => s' ← f i s; loop_from n' (i + 1) f s'
  end.

Definition loop {S : Type} (n : Z) (f : Z -> S -> outcome S) (s : S) : outcome S :=
  loop_from (Z.to_nat n) 0 f s.

(** Functional update of an array or memory. *)
Definition upd {A : Type} (f : Z -> A) (i : Z) (v : A) : Z -> A :=
  fun j => if j =? i then v else f j.

(** [lo <= x < hi], as a test. *)
Definition between (lo x hi : Z) : bool := (lo <=? x) && (x <? hi).

Lemma between_spec lo x hi : BoolSpec (lo <= x < hi) (~ (lo <= x < hi)) (between lo x hi).
Proof.
  unfold between.
  destruct (Z.leb_spec lo x), (Z.ltb_spec x hi); constructor; lia.
Qed.


(** ** Tactics and hints *)

Create HintDb willow.
Create Rewrite HintDb willow_rw.

(** Case analysis on the integer tests of the goal or of a hypothesis. *)
Ltac destr_cmp :=
  match goal with
  | |- context [between ?a ?x ?b] => destruct (between_spec a x b)
  | |- context [?a =? ?b] => destruct (Z.eqb_spec a b)
  | |- context [?a <? ?b] => destruct (Z.ltb_spec a b)
  | |- context [?a <=? ?b] => destruct (Z.leb_spec a b)
  | H : context [?a =? ?b] |- _ => destruct (Z.eqb_spec a b)
  | H : context [?a <? ?b] |- _ => destruct (Z.ltb_spec a b)
  | H : context [?a <=? ?b] |- _ => destruct (Z.leb_spec a b)
  end.

(** Follows one bind of the [outcome] monad in a hypothesis. *)
Ltac bind_in H :=
  match type of H with
  | mbind _ ?m = Ok _ =>
      let E := fresh "E" in
      destruct m eqn:E; simpl in H; [|discriminate H]
  end.

(** ** Shared lemmas *)

(** A step that succeeds, as an equation: rewriting with it keeps large closed terms from being evaluated. *)
Lemma bind_step {A B} (f : A -> outcome B) (a : A) : mbind f (Ok a) = f a.
Proof. done. Qed.

Lemma bind_ok {A B} (m : outcome A) (f : A -> outcome B) b :
  (m ≫= f) = Ok b <-> exists a, m = Ok a /\ f a = Ok b.
Proof.
  destruct m; simpl; split.
  - eauto.
  - intros (? & [= ->] & ?); done.
  - discriminate.
  - intros (? & ? & ?); discriminate.
Qed.

Lemma wrap8_small x : 0 <= x < 256 -> wrap8 x = x.
Proof. intros. unfold wrap8. apply Z.mod_small. lia. Qed.

Lemma wrap32_small x : 0 <= x < 2 ^ 32 -> wrap32 x = x.
Proof. intros. unfold wrap32. by apply Z.mod_small. Qed.

Lemma wrap64_small x : 0 <= x < 2 ^ 64 -> wrap64 x = x.
Proof. intros. unfold wrap64. by apply Z.mod_small. Qed.

Lemma wrap8_range x : 0 <= wrap8 x < 256.
Proof. unfold wrap8. apply Z.mod_pos_bound. lia. Qed.

Lemma wrap32_range x : 0 <= wrap32 x < 2 ^ 32.
Proof. unfold wrap32. apply Z.mod_pos_bound. lia. Qed.

Lemma wrap64_range x : 0 <= wrap64 x < 2 ^ 64.
Proof. unfold wrap64. apply Z.mod_pos_bound. lia. Qed.

#[export] Hint Resolve wrap8_range wrap32_range wrap64_range : willow.
#[export] Hint Rewrite wrap8_small wrap32_small wrap64_small using lia : willow_rw.

Lemma upd_eq {A} (f : Z -> A) i v : upd f i v i = v.
Proof. unfold upd. by rewrite Z.eqb_refl. Qed.

Lemma upd_ne {A} (f : Z -> A) i j v : j <> i -> upd f i v j = f j.
Proof. intros. unfold upd. by destruct (Z.eqb_spec j i). Qed.

(** Induction principle for [loop]: an invariant indexed by the number of
    iterations already run holds at the end, and the loop returns. *)
Lemma loop_from_inv {S : Type} (P : Z -> S -> Prop) (f : Z -> S -> outcome S) n i s :
  P i s ->
  (forall j s, i <= j < i + Z.of_nat n -> P j s -> exists s', f j s = Ok s' /\ P (j + 1) s') ->
  exists s', loop_from n i f s = Ok s' /\ P (i + Z.of_nat n) s'.
Proof.
  revert i s. induction n as [|n IH]; intros i s HP Hstep; cbn [loop_from].
  - exists s. split; [done|]. by replace (i + Z.of_nat 0) with i by lia.
  - destruct (Hstep i s) as (s1 & Hf & HP1); [lia|done|].
    rewrite Hf. simpl.
    destruct (IH (i + 1) s1) as (s2 & Hl & HP2); [done| |].
    { intros j s' Hj. apply Hstep. lia. }
    exists s2. split; [done|].
    by replace (i + Z.of_nat (Datatypes.S n)) with (i + 1 + Z.of_nat n) by lia.
Qed.

Lemma loop_inv {S : Type} (P : Z -> S -> Prop) (f : Z -> S -> outcome S) n s :
  0 <= n ->
  P 0 s ->
  (forall j s, 0 <= j < n -> P j s -> exists s', f j s = Ok s' /\ P (j + 1) s') ->
  exists s', loop n f s = Ok s' /\ P n s'.
Proof.
  intros Hn HP Hstep. unfold loop.
  destruct (loop_from_inv P f (Z.to_nat n) 0 s HP) as (s' & ? & ?).
  - intros j s0 Hj. apply Hstep. lia.
  - exists s'. split; [done|]. by replace n with (0 + Z.of_nat (Z.to_nat n)) by lia.
Qed.
