(* ===== verification/Memory.v ===== *)
(** * Byte memory and the mem* functions of main.c

    The kernel's address space as a function from (virtual) addresses to bytes,
    little-endian loads and stores of the x86-64 word sizes, and [memcpy],
    [memset], [memmove] and [memcmp] with their loops as main.c writes them
    (a copy reads the memory the previous iterations left, so overlapping
    ranges behave as they do in the code). *)

From S2P Require Import Prelude.

Definition mem : Type := Z -> Z.

(** Every cell holds a byte. *)
Definition mem_ok (m : mem) : Prop := forall a, 0 <= m a < 256.

Definition store8 (m : mem) (a v : Z) : mem := upd m a (wrap8 v).

Fixpoint load_le (n : nat) (m : mem) (a : Z) : Z :=
  match n with
  | O => 0
  | S n' => m a + 256 * load_le n' m (a + 1)
  end.

Fixpoint store_le (n : nat) (m : mem) (a v : Z) : mem :=
  match n with
  | O => m
  | S n' => store8 (store_le n' m (a + 1) (v / 256)) a v
  end.

Definition load16 := load_le 2.
Definition load32 := load_le 4.
Definition load64 := load_le 8.
Definition store16 := store_le 2.
Definition store32 := store_le 4.
Definition store64 := store_le 8.

(** ** The C functions *)

(** [for (i = 0; i < n; i++) pdest[i] = psrc[i];] from iteration [i], [k] left. *)
Fixpoint memcpy_loop (k : nat) (i : Z) (m : mem) (dest src : Z) : mem :=
  match k with
  | O => m
  | S k' => memcpy_loop k' (i + 1) (store8 m (dest + i) (m (src + i))) dest src
  end.

Definition memcpy (m : mem) (dest src n : Z) : mem :=
  memcpy_loop (Z.to_nat n) 0 m dest src.

Fixpoint memset_loop (k : nat) (i : Z) (m : mem) (s c : Z) : mem :=
  match k with
  | O => m
  | S k' => memset_loop k' (i + 1) (store8 m (s + i) c) s c
  end.

Definition memset (m : mem) (s c n : Z) : mem :=
  memset_loop (Z.to_nat n) 0 m s c.

(** [for (i = n; i > 0; i--) pdest[i - 1] = psrc[i - 1];] *)
Fixpoint memmove_down (i : nat) (m : mem) (dest src : Z) : mem :=
  match i with
  | O => m
  | S i' =>
      memmove_down i' (store8 m (dest + Z.of_nat i') (m (src + Z.of_nat i'))) dest src
  end.

Definition memmove (m : mem) (dest src n : Z) : mem :=
  if dest <? src then memcpy_loop (Z.to_nat n) 0 m dest src
  else if src <? dest then memmove_down (Z.to_nat n) m dest src
  else m.

Fixpoint memcmp_loop (k : nat) (i : Z) (m : mem) (s1 s2 : Z) : Z :=
  match k with
  | O => 0
  | S k' =>
      if negb (m (s1 + i) =? m (s2 + i))
      then (if m (s1 + i) <? m (s2 + i) then -1 else 1)
      else memcmp_loop k' (i + 1) m s1 s2
  end.

Definition memcmp (m : mem) (s1 s2 n : Z) : Z :=
  memcmp_loop (Z.to_nat n) 0 m s1 s2.

(** ** Vocabulary for specifications *)

(** The [n] bytes at [a], as a list. *)
Fixpoint bytes_at (m : mem) (a : Z) (n : nat) : list Z :=
  match n with
  | O => []
  | S n' => m a :: bytes_at m (a + 1) n'
  end.

(** Agreement of two memories outside [a, a + n). *)
Definition same_outside (m m' : mem) (a n : Z) : Prop :=
  forall x, ~ (a <= x < a + n) -> m' x = m x.

(** ** Loads and stores *)

Lemma store8_eq m a v : store8 m a v a = wrap8 v.
Proof. apply upd_eq. Qed.

Lemma store8_ne m a v x : x <> a -> store8 m a v x = m x.
Proof. apply upd_ne. Qed.

Lemma store8_ok m a v : mem_ok m -> mem_ok (store8 m a v).
Proof.
  intros H x. destruct (Z.eq_dec x a) as [->|].
  - rewrite store8_eq. apply wrap8_range.
  - by rewrite store8_ne.
Qed.

Lemma store_le_ok n m a v : mem_ok m -> mem_ok (store_le n m a v).
Proof. revert a v. induction n; intros; simpl; auto using store8_ok. Qed.

Lemma store16_ok m a v : mem_ok m -> mem_ok (store16 m a v).
Proof. apply store_le_ok. Qed.

Lemma store32_ok m a v : mem_ok m -> mem_ok (store32 m a v).
Proof. apply store_le_ok. Qed.

Lemma store64_ok m a v : mem_ok m -> mem_ok (store64 m a v).
Proof. apply store_le_ok. Qed.

#[export] Hint Resolve store8_ok store_le_ok store16_ok store32_ok store64_ok : willow.

Lemma store_le_outside n m a v : same_outside m (store_le n m a v) a (Z.of_nat n).
Proof.
  revert a v. induction n as [|n IH]; intros a v x Hx; simpl; [done|].
  rewrite store8_ne by lia. apply IH. lia.
Qed.

Lemma store16_out m a v x : ~ (a <= x < a + 2) -> store16 m a v x = m x.
Proof. apply (store_le_outside 2). Qed.

Lemma store32_out m a v x : ~ (a <= x < a + 4) -> store32 m a v x = m x.
Proof. apply (store_le_outside 4). Qed.

Lemma store64_out m a v x : ~ (a <= x < a + 8) -> store64 m a v x = m x.
Proof. apply (store_le_outside 8). Qed.

Lemma load_le_ext n m m' a :
  (forall x, a <= x < a + Z.of_nat n -> m' x = m x) -> load_le n m' a = load_le n m a.
Proof.
  revert a. induction n as [|n IH]; intros a H; simpl; [done|].
  rewrite H by lia. rewrite IH; [done|]. intros. apply H. lia.
Qed.

Lemma load_le_range n m a : mem_ok m -> 0 <= load_le n m a < 256 ^ Z.of_nat n.
Proof.
  intros Hm. revert a. induction n as [|n IH]; intros a; [simpl; lia|].
  cbn [load_le]. specialize (IH (a + 1)). specialize (Hm a).
  rewrite Nat2Z.inj_succ, Z.pow_succ_r by lia. lia.
Qed.

Lemma load_store_le_eq n m a v :
  load_le n (store_le n m a v) a = v mod 256 ^ Z.of_nat n.
Proof.
  revert a v. induction n as [|n IH]; intros a v; [by rewrite Z.mod_1_r|].
  cbn [load_le store_le]. rewrite store8_eq.
  rewrite (load_le_ext n (store_le n m (a + 1) (v / 256))).
  2: { intros x Hx. by rewrite store8_ne by lia. }
  rewrite IH. unfold wrap8.
  rewrite Nat2Z.inj_succ, Z.pow_succ_r by lia.
  rewrite Z.rem_mul_r by lia. done.
Qed.

Lemma load_store_le_ne n k m a b v :
  (b + Z.of_nat k <= a \/ a + Z.of_nat n <= b) ->
  load_le k (store_le n m a v) b = load_le k m b.
Proof.
  intros H. apply load_le_ext. intros x Hx. apply store_le_outside. lia.
Qed.

Lemma load_le_zero n m a :
  (forall x, a <= x < a + Z.of_nat n -> m x = 0) -> load_le n m a = 0.
Proof.
  revert a. induction n as [|n IH]; intros a H; simpl; [done|].
  rewrite H by lia. rewrite IH; [lia|]. intros. apply H. lia.
Qed.

Lemma load64_store64_eq m a v : is_u64 v -> load64 (store64 m a v) a = v.
Proof.
  intros H. unfold load64, store64. rewrite load_store_le_eq.
  apply Z.mod_small. exact H.
Qed.

Lemma load64_store64_ne m a b v :
  (b + 8 <= a \/ a + 8 <= b) -> load64 (store64 m a v) b = load64 m b.
Proof. intros H. apply load_store_le_ne. lia. Qed.

(** A 64-bit load depends on its eight bytes only. *)
Lemma load64_ext m m' a : (forall x, a <= x < a + 8 -> m' x = m x) -> load64 m' a = load64 m a.
Proof. apply (load_le_ext 8). Qed.

(** Equal bytes at two places load the same. *)
Lemma load_le_shift n m m' a b :
  (forall i, 0 <= i < Z.of_nat n -> m' (a + i) = m (b + i)) -> load_le n m' a = load_le n m b.
Proof.
  revert a b. induction n as [|n IH]; intros a b H; cbn [load_le]; [done|].
  pose proof (H 0 ltac:(lia)) as H0. rewrite !Z.add_0_r in H0. rewrite H0. do 2 f_equal. apply IH.
  intros i Hi. rewrite <- !Z.add_assoc. apply H. lia.
Qed.

Lemma load64_shift m m' a b :
  (forall i, 0 <= i < 8 -> m' (a + i) = m (b + i)) -> load64 m' a = load64 m b.
Proof. apply (load_le_shift 8). Qed.

Lemma load64_range m a : mem_ok m -> is_u64 (load64 m a).
Proof. intros H. apply (load_le_range 8 m a H). Qed.

Lemma load_le_byte n m a i : mem_ok m -> 0 <= i < Z.of_nat n ->
  (load_le n m a / 256 ^ i) mod 256 = m (a + i).
Proof.
  intros Hm. revert a i. induction n as [|n IH]; intros a i Hi; [lia|]. cbn [load_le].
  pose proof (Hm a). destruct (Z.eq_dec i 0) as [->|].
  - rewrite Z.pow_0_r, Z.div_1_r, Z.add_0_r.
    rewrite (Z.mul_comm 256), Z.mod_add by lia. by apply Z.mod_small.
  - replace i with (Z.succ (i - 1)) at 1 by lia.
    pose proof (Z.pow_pos_nonneg 256 (i - 1) ltac:(lia) ltac:(lia)).
    rewrite Z.pow_succ_r, <- Z.div_div by lia.
    rewrite (Z.mul_comm 256 (load_le _ _ _)), Z.div_add by lia.
    rewrite (Z.div_small (m a) 256), Z.add_0_l by lia.
    rewrite IH by lia. f_equal. lia.
Qed.

Lemma store_le_byte n m a v i : 0 <= i < Z.of_nat n ->
  store_le n m a v (a + i) = (v / 256 ^ i) mod 256.
Proof.
  revert a v i. induction n as [|n IH]; intros a v i Hi; [lia|]. cbn [store_le].
  destruct (Z.eq_dec i 0) as [->|].
  - by rewrite Z.add_0_r, store8_eq, Z.pow_0_r, Z.div_1_r.
  - rewrite store8_ne by lia. replace (a + i) with (a + 1 + (i - 1)) by lia.
    pose proof (Z.pow_pos_nonneg 256 (i - 1) ltac:(lia) ltac:(lia)).
    rewrite IH by lia. rewrite Z.div_div, <- Z.pow_succ_r by lia. do 3 f_equal. lia.
Qed.

#[global] Arguments memset : simpl never.
#[global] Arguments memcpy : simpl never.
#[global] Arguments load64 : simpl never.
#[global] Arguments store64 : simpl never.

(** Copying a word copies its eight bytes. *)
Lemma store64_load64 m d s x : mem_ok m ->
  store64 m d (load64 m s) x = if between d x (d + 8) then m (s + (x - d)) else m x.
Proof.
  intros Hm. destr_cmp.
  - replace x with (d + (x - d)) at 1 by lia. unfold store64, load64.
    rewrite store_le_byte by lia. apply load_le_byte; [done|lia].
  - apply (store_le_outside 8). lia.
Qed.

(** ** memcpy, memset *)

Lemma memcpy_loop_spec k i m dest src :
  0 <= i -> mem_ok m ->
  (dest <= src \/ src + i + Z.of_nat k <= dest) ->
  forall x, memcpy_loop k i m dest src x =
    if between (dest + i) x (dest + i + Z.of_nat k) then m (src + (x - dest)) else m x.
Proof.
  revert i m. induction k as [|k IH]; intros i m Hi Hm Hdir x; cbn [memcpy_loop].
  { destr_cmp; [lia|done]. }
  rewrite IH; [|lia|auto with willow|lia].
  repeat destr_cmp; try lia; try (by rewrite store8_ne by lia).
  - replace x with (dest + i) by lia. rewrite store8_eq, wrap8_small by apply Hm.
    f_equal. lia.
Qed.

Lemma memcpy_spec m dest src n :
  0 <= n -> mem_ok m -> (dest <= src \/ src + n <= dest) ->
  (forall i, 0 <= i < n -> memcpy m dest src n (dest + i) = m (src + i)) /\
  same_outside m (memcpy m dest src n) dest n.
Proof.
  intros Hn Hm Hdir. unfold memcpy. split.
  - intros i Hi. rewrite memcpy_loop_spec by (auto; lia).
    destr_cmp; [f_equal; lia|lia].
  - intros x Hx. rewrite memcpy_loop_spec by (auto; lia).
    destr_cmp; [lia|done].
Qed.

Lemma memcpy_loop_ok k i m dest src : mem_ok m -> mem_ok (memcpy_loop k i m dest src).
Proof. revert i m. induction k; simpl; auto with willow. Qed.

Lemma memcpy_loop_outside k i m dest src x :
  ~ (dest + i <= x < dest + i + Z.of_nat k) -> memcpy_loop k i m dest src x = m x.
Proof.
  revert i m. induction k as [|k IH]; intros i m Hx; [done|]. cbn [memcpy_loop].
  rewrite IH by lia. apply store8_ne. lia.
Qed.

Lemma memcpy_outside m dest src n : same_outside m (memcpy m dest src n) dest n.
Proof. intros x Hx. apply memcpy_loop_outside. lia. Qed.

Lemma memset_loop_spec k i m s c :
  forall x, memset_loop k i m s c x =
    if between (s + i) x (s + i + Z.of_nat k) then wrap8 c else m x.
Proof.
  revert i m. induction k as [|k IH]; intros i m x; cbn [memset_loop].
  { destr_cmp; [lia|done]. }
  rewrite IH.
  repeat destr_cmp; try lia; try done; try (by rewrite store8_ne by lia).
  replace x with (s + i) by lia. by rewrite store8_eq.
Qed.

Lemma memset_in m s c n x : s <= x < s + n -> memset m s c n x = wrap8 c.
Proof.
  intros H. unfold memset. rewrite memset_loop_spec.
  destr_cmp; [done|lia].
Qed.

Lemma memset_out m s c n x : ~ (s <= x < s + n) -> memset m s c n x = m x.
Proof.
  intros H. unfold memset. rewrite memset_loop_spec.
  destr_cmp; [lia|done].
Qed.

Lemma memset_ok m s c n : mem_ok m -> mem_ok (memset m s c n).
Proof.
  intros H x. destruct (Z_le_dec s x), (Z_lt_dec x (s + n)).
  1: rewrite memset_in by lia; apply wrap8_range.
  all: rewrite memset_out by lia; apply H.
Qed.

#[export] Hint Resolve memcpy_loop_ok memset_ok : willow.

(** ** memmove *)

Lemma memmove_down_spec k m dest src :
  mem_ok m -> src <= dest ->
  forall x, memmove_down k m dest src x =
    if between dest x (dest + Z.of_nat k) then m (src + (x - dest)) else m x.
Proof.
  revert m. induction k as [|k IH]; intros m Hm Hdir x; cbn [memmove_down].
  { destr_cmp; [lia|done]. }
  rewrite IH by auto with willow.
  repeat destr_cmp; try lia; try (by rewrite store8_ne by lia).
  replace x with (dest + Z.of_nat k) by lia.
  rewrite store8_eq, wrap8_small by apply Hm. f_equal. lia.
Qed.

(** [memmove] copies correctly whatever the overlap of the two ranges: each
    of the [n] destination bytes is the byte the source held before the call,
    and no byte outside the destination range changes. *)
Lemma memmove_correct (m : mem) (dest src n : Z) (Hn : 0 <= n) (Hm : mem_ok m) :
  (forall i, 0 <= i < n -> memmove m dest src n (dest + i) = m (src + i)) /\
  same_outside m (memmove m dest src n) dest n.
Proof.
  unfold memmove. destruct (Z.ltb_spec dest src); [|destruct (Z.ltb_spec src dest)].
  - apply memcpy_spec; auto; lia.
  - split.
    + intros i Hi. rewrite memmove_down_spec by (auto; lia).
      destr_cmp; [f_equal; lia|lia].
    + intros x Hx. rewrite memmove_down_spec by (auto; lia).
      destr_cmp; [lia|done].
  - assert (dest = src) as -> by lia. split; [done|]. by intros x _.
Qed.

Lemma memmove_correct_witness :
  let m := fun a => wrap8 a in
  memmove m 101 100 50 (101 + 49) = m (100 + 49) /\ m (100 + 49) = 149.
Proof.
  split; [|reflexivity].
  apply (proj1 (memmove_correct (fun a => wrap8 a) 101 100 50 ltac:(lia) wrap8_range)). lia.
Defined.

(** ** memcmp *)

Lemma memcmp_loop_zero k i m s1 s2 :
  memcmp_loop k i m s1 s2 = 0 <->
  (forall j, i <= j < i + Z.of_nat k -> m (s1 + j) = m (s2 + j)).
Proof.
  revert i. induction k as [|k IH]; intros i; cbn [memcmp_loop].
  { split; [intros; lia|done]. }
  destruct (Z.eqb_spec (m (s1 + i)) (m (s2 + i))); cbn [negb].
  - rewrite IH. split; intros H j Hj.
    + destruct (Z.eq_dec j i) as [->|]; [done|]. apply H. lia.
    + apply H. lia.
  - split.
    + destr_cmp; lia.
    + intros H. exfalso. apply n, H. lia.
Qed.

Lemma memcmp_zero m s1 s2 n :
  memcmp m s1 s2 n = 0 <-> (forall i, 0 <= i < n -> m (s1 + i) = m (s2 + i)).
Proof.
  unfold memcmp. rewrite memcmp_loop_zero. split; intros H j Hj; apply H; lia.
Qed.

Lemma bytes_at_eq m a b n :
  bytes_at m a n = bytes_at m b n <-> (forall i, 0 <= i < Z.of_nat n -> m (a + i) = m (b + i)).
Proof.
  revert a b. induction n as [|n IH]; intros a b; cbn [bytes_at].
  { split; [intros; lia|done]. }
  split.
  - intros [= H0 H] i Hi. destruct (Z.eq_dec i 0) as [->|]; [by rewrite !Z.add_0_r|].
    specialize (proj1 (IH (a + 1) (b + 1)) H (i - 1) ltac:(lia)).
    by replace (a + 1 + (i - 1)) with (a + i) by lia; replace (b + 1 + (i - 1)) with (b + i) by lia.
  - intros H. f_equal.
    + specialize (H 0 ltac:(lia)). by rewrite !Z.add_0_r in H.
    + apply IH. intros i Hi. specialize (H (i + 1) ltac:(lia)).
      by replace (a + 1 + i) with (a + (i + 1)) by lia; replace (b + 1 + i) with (b + (i + 1)) by lia.
Qed.

Lemma memcmp_bytes m s1 s2 n :
  memcmp m s1 s2 (Z.of_nat n) = 0 <-> bytes_at m s1 n = bytes_at m s2 n.
Proof. by rewrite memcmp_zero, bytes_at_eq. Qed.

Lemma bytes_at_same m m' a n :
  (forall i, 0 <= i < Z.of_nat n -> m' (a + i) = m (a + i)) -> bytes_at m' a n = bytes_at m a n.
Proof.
  revert a. induction n as [|n IH]; intros a H; cbn [bytes_at]; [done|].
  pose proof (H 0 ltac:(lia)) as H0. rewrite !Z.add_0_r in H0. rewrite H0. f_equal. apply IH.
  intros i Hi. rewrite <- !Z.add_assoc. apply H. lia.
Qed.

Lemma bytes_at_ext m m' a n :
  (forall x, a <= x < a + Z.of_nat n -> m' x = m x) -> bytes_at m' a n = bytes_at m a n.
Proof. intros H. apply bytes_at_same. intros i Hi. apply H. lia. Qed.

Lemma length_bytes_at m a n : length (bytes_at m a n) = n.
Proof. revert a. induction n; intros; simpl; auto. Qed.

Lemma bytes_at_lookup m a n i :
  (i < n)%nat -> bytes_at m a n !! i = Some (m (a + Z.of_nat i)).
Proof.
  revert a i. induction n as [|n IH]; intros a [|i] H; cbn [bytes_at]; try lia.
  - by rewrite Z.add_0_r.
  - simpl. rewrite IH by lia. do 2 f_equal. lia.
Qed.

(** ** Automation

    Reads a byte past writes to other addresses. *)
Ltac frame_byte :=
  repeat first
    [ rewrite store8_ne by lia | rewrite store16_out by lia | rewrite store32_out by lia
    | rewrite store64_out by lia | rewrite memset_out by lia
    | rewrite memcpy_outside by lia ].
