(* ===== verification/Machine.v ===== *)
(** * The machine state shared by the memory-management components

    The physical frame map ([memmap_arr] of main.c, declared in paging.h), the
    nodes of the kernel heap (vmm.h), the memory, and the interrupt flag with
    the two functions of kutils.c that save and restore it.  Memory is
    addressed by kernel virtual address: the byte of physical address [p] is at
    [p + hhdm_offset]. *)

From S2P Require Import Prelude Memory.

(** ** Data *)

(** [struct usable_memmaps_region]; the [next] pointer of the source is the
    order of the list, and [frame_bitmap] is an array of 600000 bytes. *)
Record region : Type := Region {
  base : Z;
  length_ : Z;
  type_ : Z;
  frame_bitmap : Z -> Z
}.

Definition FRAME_BITMAP_SIZE : Z := 600000.

(** [heap_page]: one node of 64 bytes of heap; [next] is the order of the list. *)
Record heap_page : Type := HeapPage {
  status : Z;
  size : Z;
  alloc_length : Z
}.

Record mst : Type := Mst {
  mm : mem;
  iflag : bool;
  memmap_arr : list region;
  last_alloced_frame : Z;
  heap_page_head : list heap_page
}.

Definition set_mm (m : mem) (s : mst) : mst :=
  Mst m (iflag s) (memmap_arr s) (last_alloced_frame s) (heap_page_head s).
Definition set_iflag (b : bool) (s : mst) : mst :=
  Mst (mm s) b (memmap_arr s) (last_alloced_frame s) (heap_page_head s).
Definition set_memmap (rs : list region) (s : mst) : mst :=
  Mst (mm s) (iflag s) rs (last_alloced_frame s) (heap_page_head s).
Definition set_last_frame (i : Z) (s : mst) : mst :=
  Mst (mm s) (iflag s) (memmap_arr s) i (heap_page_head s).
Definition set_heap (h : list heap_page) (s : mst) : mst :=
  Mst (mm s) (iflag s) (memmap_arr s) (last_alloced_frame s) h.

(** ** Interrupt flag (kutils.c) *)

(** [if (old_value) *old_value = read_flags() & (1 << 9); cli]; every caller of
    the modelled code passes a non-null pointer. *)
Definition irq_disable_save (s : mst) : bool * mst := (iflag s, set_iflag false s).

(** [if (!status || *status) sti] *)
Definition irq_restore (old : bool) (s : mst) : mst :=
  if old then set_iflag true s else s.

(** A critical section whose body restores the flag it saved leaves the flag
    as it was. *)
Lemma irq_bracket s : irq_restore (iflag s) (set_iflag false s) = s.
Proof. destruct s as [? [] ? ? ?]; done. Qed.

Lemma irq_restore_iflag old s : iflag s = false -> iflag (irq_restore old s) = old.
Proof. by destruct old. Qed.

Lemma irq_restore_mm old s : mm (irq_restore old s) = mm s.
Proof. by destruct old. Qed.

Lemma irq_restore_memmap old s : memmap_arr (irq_restore old s) = memmap_arr s.
Proof. by destruct old. Qed.

Lemma irq_restore_heap old s : heap_page_head (irq_restore old s) = heap_page_head s.
Proof. by destruct old. Qed.

#[export] Hint Rewrite irq_restore_mm irq_restore_memmap irq_restore_heap : willow_rw.
