(* ===== verification/Frames.v ===== *)
(** * Physical frames: alloc_frame and free_frame of paging.c, init_memmaps of main.c

    The frame map is a list of regions, each with a bitmap of one byte per
    4096-byte frame.  [alloc_frame] is a first-fit search that clears the frame it
    returns; [free_frame] walks the regions by address.  The specification is
    the set of free frames ([frame_free]). *)

From S2P Require Import Prelude Memory Machine.

Section Frames.

(** [hhdm_offset], set once at boot from the loader's response. *)
Context (hhdm_offset : Z).

(** The body of the [for] loop of [alloc_frame] over one region: the first [i]
    below [length / 4096] with a clear bitmap byte, in a region of type 0. *)
Fixpoint scan_bitmap (n : nat) (i : Z) (r : region) : outcome (option Z) :=
  match n with
  | O => Ok None
  | S n' =>
      if negb (i <? FRAME_BITMAP_SIZE) then Err OutOfBounds
      else if (frame_bitmap r i =? 0) && (type_ r =? 0) then Ok (Some i)
      else scan_bitmap n' (i + 1) r
  end.

Definition set_bitmap (r : region) (i v : Z) : region :=
  Region (base r) (length_ r) (type_ r) (upd (frame_bitmap r) i v).

(** The [while (current != NULL)] loop: the new list of regions, the index found
    and the physical address of the frame. *)
Fixpoint alloc_regions (rs : list region) : outcome (option (list region * Z * Z)) :=
  match rs with
  | [] => Ok None
  | r :: rs' =>
      found ← scan_bitmap (Z.to_nat (length_ r / 4096)) 0 r;
      match found with
      | Some i => Ok (Some (set_bitmap r i 1 :: rs', i, wrap64 (base r + i * 4096)))
      | None =>
          rest ← alloc_regions rs';
          Ok (match rest with
              | Some (rs'', i, a) => Some (r :: rs'', i, a)
              | None => None
              end)
      end
  end.

Definition alloc_frame (s : mst) : outcome (Z * mst) :=
  found ← alloc_regions (memmap_arr s);
  Ok (match found with
      | Some (rs, i, a) =>
          (a, set_mm (memset (mm s) (wrap64 (a + hhdm_offset)) 0 4096)
                (set_last_frame (wrap8 i) (set_memmap rs s)))
      | None => (0, s)
      end).

(** The [while] loop of [free_frame]; a region whose test neither matches nor
    advances [current] is looked at for ever. *)
Fixpoint free_regions (rs : list region) (phys_address : Z) : outcome (list region) :=
  match rs with
  | [] => Ok []
  | r :: rs' =>
      let i := wrap64 (phys_address - base r) / 4096 in
      match rs' with
      | next :: _ =>
          if (base r <=? phys_address) && (phys_address <? base next) then
            if negb (i <? FRAME_BITMAP_SIZE) then Err OutOfBounds
            else if frame_bitmap r i =? 0 then Err AssertFailed
            else Ok (set_bitmap r i 0 :: rs')
          else if wrap64 (base r + length_ r) <? phys_address then
            rs'' ← free_regions rs' phys_address; Ok (r :: rs'')
          else Err Hang
      | [] =>
          if negb (i <? FRAME_BITMAP_SIZE) then Err OutOfBounds
          else Ok [set_bitmap r i 0]
      end
  end.

Definition free_frame (phys_address : Z) (s : mst) : outcome mst :=
  let '(irq, s) := irq_disable_save s in
  if negb (Z.land phys_address 0xfff =? 0) then Err AssertFailed
  else
    rs ← free_regions (memmap_arr s) phys_address;
    Ok (irq_restore irq (set_memmap rs s)).

(** ** init_memmaps

    [memmap_arr] is a static array of 32 regions, so its bitmaps start at zero.
    A loader entry is its base, length and type. *)

Record limine_memmap_entry : Type := Entry {
  e_base : Z;
  e_length : Z;
  e_type : Z
}.

(** [for (j = 0; j < length / 4096; j++) frame_bitmap[j] = 0;
    frame_bitmap[length / 4096] = 2;] *)
Definition init_region (e : limine_memmap_entry) : outcome region :=
  let n := e_length e / 4096 in
  if n <? FRAME_BITMAP_SIZE
  then Ok (Region (e_base e) (e_length e) (wrap8 (e_type e)) (upd (fun _ => 0) n 2))
  else Err OutOfBounds.

Fixpoint init_regions (es : list limine_memmap_entry) : outcome (list region) :=
  match es with
  | [] => Ok []
  | e :: es' => r ← init_region e; rs ← init_regions es'; Ok (r :: rs)
  end.

(** The first entry of at least 8 MiB gives [memmap_bitmap]. *)
Fixpoint find_memmap_bitmap (es : list limine_memmap_entry) : option Z :=
  match es with
  | [] => None
  | e :: es' => if 0x800000 <=? e_length e then Some (e_base e) else find_memmap_bitmap es'
  end.

Definition init_memmaps (es : list limine_memmap_entry) : outcome (list region * option Z) :=
  if (Z.of_nat (length es) =? 0) || (32 <? Z.of_nat (length es)) then Err OutOfBounds
  else rs ← init_regions es; Ok (rs, find_memmap_bitmap es).

(** ** Specification *)

Definition frames_of (r : region) : Z := length_ r / 4096.

(** The frame at physical address [a] is allocatable. *)
Definition frame_free (rs : list region) (a : Z) : Prop :=
  exists r i, r ∈ rs /\ type_ r = 0 /\ 0 <= i < frames_of r /\
    a = base r + i * 4096 /\ frame_bitmap r i = 0.

(** Physical memory fits the direct map: [hhdm_offset] is in the upper half. *)
Definition PHYS_LIMIT : Z := 2 ^ 46.

(** What the loader's memory map promises of a region: page aligned, inside
    the physical address space, not the frame 0 when usable, and within the
    bitmap the kernel reserves. *)
Definition region_ok (r : region) : Prop :=
  0 <= base r /\ base r mod 4096 = 0 /\ 0 <= length_ r /\
  base r + length_ r <= PHYS_LIMIT /\ frames_of r < FRAME_BITMAP_SIZE /\
  (type_ r = 0 -> 0 < base r).

Definition below (r r' : region) : Prop := base r + length_ r <= base r'.

Fixpoint sorted (rs : list region) : Prop :=
  match rs with
  | [] => True
  | r :: rs' => Forall (below r) rs' /\ sorted rs'
  end.

Definition regions_ok (rs : list region) : Prop := Forall region_ok rs /\ sorted rs.

(** Two frame maps with the same regions and the same bitmap bytes. *)
Definition region_equiv (r r' : region) : Prop :=
  base r = base r' /\ length_ r = length_ r' /\ type_ r = type_ r' /\
  (forall i, frame_bitmap r i = frame_bitmap r' i).
Definition regions_equiv : list region -> list region -> Prop := Forall2 region_equiv.

(** The same regions, whatever their bitmaps. *)
Definition same_shape (r r' : region) : Prop :=
  base r = base r' /\ length_ r = length_ r' /\ type_ r = type_ r'.

Lemma same_shapes_refl rs : Forall2 same_shape rs rs.
Proof. induction rs; by constructor. Qed.

(** ** Bounds of a region *)

Lemma frames_of_bound r i :
  region_ok r -> 0 <= i < frames_of r ->
  base r <= base r + i * 4096 /\ base r + i * 4096 + 4096 <= base r + length_ r.
Proof.
  unfold frames_of. intros (H1 & H2 & H3 & _) Hi.
  pose proof (Z.mul_div_le (length_ r) 4096 ltac:(lia)). lia.
Qed.

Lemma frame_free_aligned rs a :
  regions_ok rs -> frame_free rs a -> 0 < a /\ a + 4096 <= PHYS_LIMIT /\ a mod 4096 = 0.
Proof.
  intros [Hok _] (r & i & Hr & Ht & Hi & -> & _).
  rewrite List.Forall_forall in Hok. apply list_elem_of_In in Hr. specialize (Hok r Hr).
  pose proof (frames_of_bound r i Hok Hi).
  destruct Hok as (H1 & H2 & H3 & H4 & H5 & H6). specialize (H6 Ht).
  rewrite Z.mod_add by lia. lia.
Qed.

Lemma region_ok_set r i v : region_ok r -> region_ok (set_bitmap r i v).
Proof. done. Qed.

(** ** The search of a region *)

Lemma scan_bitmap_spec n i r :
  0 <= i -> i + Z.of_nat n <= FRAME_BITMAP_SIZE ->
  exists o, scan_bitmap n i r = Ok o /\
    match o with
    | Some j => i <= j < i + Z.of_nat n /\ type_ r = 0 /\ frame_bitmap r j = 0
    | None => forall j, i <= j < i + Z.of_nat n -> type_ r = 0 -> frame_bitmap r j <> 0
    end.
Proof.
  revert i. induction n as [|n IH]; intros i Hi Hn; cbn [scan_bitmap].
  { eexists. split; [done|]. simpl. lia. }
  destruct (Z.ltb_spec i FRAME_BITMAP_SIZE); [|lia]. cbn [negb].
  destruct (Z.eqb_spec (frame_bitmap r i) 0), (Z.eqb_spec (type_ r) 0); cbn [andb].
  1: { eexists. split; [done|]. simpl. split_and!; (lia || done). }
  all: destruct (IH (i + 1)) as (o & Ho & Hs); [lia|lia|]; exists o; split; [done|];
    destruct o as [j|]; [destruct Hs as (? & ? & ?); split_and!; (lia || done)|].
  all: intros j Hj Ht; destruct (Z.eq_dec j i) as [->|]; [done|apply Hs; [lia|done]].
Qed.

Lemma frame_free_cons r rs a :
  frame_free (r :: rs) a <-> frame_free [r] a \/ frame_free rs a.
Proof.
  unfold frame_free. split.
  - intros (r' & i & Hr & H). apply elem_of_cons in Hr as [->|Hr].
    + left. exists r, i. split; [by apply elem_of_cons; left|done].
    + right. exists r', i. done.
  - intros [(r' & i & Hr & H)|(r' & i & Hr & H)]; exists r', i; (split; [|done]);
      apply elem_of_cons; [left; by apply list_elem_of_singleton|by right].
Qed.

Lemma frame_free_single r a :
  frame_free [r] a <-> exists i, type_ r = 0 /\ 0 <= i < frames_of r /\
    a = base r + i * 4096 /\ frame_bitmap r i = 0.
Proof.
  unfold frame_free. split.
  - intros (r' & i & Hr & H). apply list_elem_of_singleton in Hr as ->. eauto.
  - intros (i & H). exists r, i. split; [by apply list_elem_of_singleton|done].
Qed.

(** Frames of the later regions lie past the end of the first one. *)
Lemma frame_free_above r rs a :
  Forall region_ok rs -> Forall (below r) rs -> frame_free rs a -> base r + length_ r <= a.
Proof.
  intros Hok Hb (r' & i & Hr & _ & Hi & -> & _).
  rewrite List.Forall_forall in Hok, Hb. apply list_elem_of_In in Hr.
  specialize (Hok r' Hr). specialize (Hb r' Hr). unfold below in Hb. lia.
Qed.

Lemma frame_free_below r a : region_ok r -> frame_free [r] a -> a < base r + length_ r.
Proof.
  intros Hok H. apply frame_free_single in H as (i & _ & Hi & -> & _).
  pose proof (frames_of_bound r i Hok Hi). lia.
Qed.

(** Setting a byte of a free frame removes exactly that frame. *)
Lemma frame_free_mark r i v :
  region_ok r -> type_ r = 0 -> 0 <= i < frames_of r -> v <> 0 ->
  forall b, frame_free [set_bitmap r i v] b <-> frame_free [r] b /\ b <> base r + i * 4096.
Proof.
  intros Hok Ht Hi Hv b. rewrite !frame_free_single. unfold set_bitmap. simpl. split.
  - intros (j & ? & Hj & -> & Hbm). destruct (Z.eq_dec j i) as [->|Hne].
    { by rewrite upd_eq in Hbm. }
    rewrite upd_ne in Hbm by done. split; [exists j; eauto|]. intros Heq. apply Hne. lia.
  - intros ((j & ? & Hj & -> & Hbm) & Hne). exists j. refine (conj Ht (conj Hj (conj eq_refl _))).
    rewrite upd_ne; [done|]. intros ->. done.
Qed.

(** ** alloc_frame *)

(** Where the frame was found. *)
Definition alloc_site (rs rs' : list region) (i a : Z) : Prop :=
  exists pre r post, rs = pre ++ r :: post /\ rs' = pre ++ set_bitmap r i 1 :: post /\
    type_ r = 0 /\ 0 <= i < frames_of r /\ frame_bitmap r i = 0 /\ a = base r + i * 4096.

Lemma alloc_regions_spec rs :
  regions_ok rs ->
  exists o, alloc_regions rs = Ok o /\
    match o with
    | Some (rs', i, a) =>
        alloc_site rs rs' i a /\
        regions_ok rs' /\ Forall2 same_shape rs rs' /\
        frame_free rs a /\ (forall b, frame_free rs' b <-> frame_free rs b /\ b <> a)
    | None => forall b, ~ frame_free rs b
    end.
Proof.
  induction rs as [|r rs IH]; intros [Hok Hs]; cbn [alloc_regions].
  { eexists. split; [done|]. intros b (r & i & Hr & _). by apply elem_of_nil in Hr. }
  inv Hok. destruct Hs as [Hb Hs].
  destruct (scan_bitmap_spec (Z.to_nat (length_ r / 4096)) 0 r) as (o & -> & Ho); [lia| |].
  { match goal with H : region_ok r |- _ => destruct H as (_ & _ & ? & _ & ? & _) end.
    unfold frames_of in *. pose proof (Z.div_pos (length_ r) 4096). lia. }
  simpl. destruct o as [i|].
  - destruct Ho as (Hi & Ht & Hbm).
    assert (0 <= i < frames_of r) as Hi' by (unfold frames_of; lia).
    pose proof (frames_of_bound r i ltac:(done) Hi') as Hbd.
    rewrite wrap64_small.
    2: { match goal with H : region_ok r |- _ => destruct H as (? & _ & ? & ? & _) end.
         unfold PHYS_LIMIT in *. lia. }
    eexists. split; [done|]. split_and!.
    + exists [], r, rs. done.
    + split; [by constructor|]. by split.
    + constructor; [done|]. apply same_shapes_refl.
    + apply frame_free_cons. left. apply frame_free_single. eauto.
    + intros b. rewrite (frame_free_cons (set_bitmap r i 1) rs), (frame_free_cons r rs).
      rewrite frame_free_mark by (done || lia). split.
      * intros [[? ?]|Hf]; [by split; [left|]|]. split; [by right|].
        pose proof (frame_free_above r rs b ltac:(done) Hb Hf). lia.
      * intros [[?|?] ?]; [by left|by right].
  - destruct IH as (o & -> & Ho'); [done|]. simpl.
    destruct o as [[[rs' i] a]|]; (eexists; split; [done|]).
    + destruct Ho' as (Hsite & Hok' & Hsh & Hf & Hiff). destruct Hok' as [Hok' Hs'].
      assert (Forall (below r) rs') as Hb'.
      { clear -Hb Hsh. induction Hsh as [|x y l l' Hxy]; [constructor|]. inv Hb.
        constructor; [|auto]. unfold below in *. destruct Hxy as (<- & _). done. }
      split_and!.
      * destruct Hsite as (pre & r0 & post & -> & -> & ?). by exists (r :: pre), r0, post.
      * split; [by constructor|]. by split.
      * by constructor.
      * apply frame_free_cons. by right.
      * intros b. rewrite (frame_free_cons r rs'), (frame_free_cons r rs), Hiff. split.
        2: { intros [[?|?] ?]; [by left|right; by split]. }
        intros [Hr|[? ?]]; [|split; [by right|done]]. split; [by left|].
        pose proof (frame_free_below r b ltac:(done) Hr).
        pose proof (frame_free_above r rs a ltac:(done) Hb Hf). lia.
    + intros b Hf. apply frame_free_cons in Hf as [Hf|Hf]; [|by eapply Ho'].
      apply frame_free_single in Hf as (i & Ht & Hi & -> & Hbm).
      apply (Ho i); [unfold frames_of in Hi; lia|done|done].
Qed.

(** What a successful [alloc_frame] does to the machine. *)
Record allocated (s : mst) (a : Z) (s' : mst) : Prop := {
  al_free : frame_free (memmap_arr s) a;
  al_taken : forall b, frame_free (memmap_arr s') b <-> frame_free (memmap_arr s) b /\ b <> a;
  al_zero : forall x, a + hhdm_offset <= x < a + hhdm_offset + 4096 -> mm s' x = 0;
  al_frame : same_outside (mm s) (mm s') (a + hhdm_offset) 4096;
  al_mem_ok : mem_ok (mm s) -> mem_ok (mm s');
  al_regions : regions_ok (memmap_arr s');
  al_iflag : iflag s' = iflag s;
  al_heap : heap_page_head s' = heap_page_head s
}.

Definition hhdm_ok : Prop :=
  0 <= hhdm_offset /\ hhdm_offset mod 4096 = 0 /\ hhdm_offset + PHYS_LIMIT <= 2 ^ 64.

Lemma alloc_frame_cases s :
  hhdm_ok -> regions_ok (memmap_arr s) ->
  exists a s', alloc_frame s = Ok (a, s') /\
    (allocated s a s' /\ a <> 0 \/ a = 0 /\ s' = s /\ forall b, ~ frame_free (memmap_arr s) b).
Proof.
  intros Hh Hok. unfold alloc_frame.
  destruct (alloc_regions_spec (memmap_arr s) Hok) as (o & -> & Ho). simpl.
  destruct o as [[[rs i] a]|]; [|eexists _, _; by split; [done|right]].
  destruct Ho as (_ & Hok' & _ & Hf & Hiff).
  pose proof (frame_free_aligned _ _ Hok Hf) as (Ha & Ha' & _).
  eexists _, _. split; [done|]. left. split; [|lia].
  destruct Hh as (Hh1 & _ & Hh2). rewrite wrap64_small by lia.
  split; simpl; [exact Hf|exact Hiff| | | |exact Hok'|reflexivity..].
  - intros x Hx. by rewrite memset_in by lia.
  - intros x Hx. by rewrite memset_out by lia.
  - apply memset_ok.
Qed.

(** ** free_frame *)

(** Consecutive regions with a gap between them. *)
Fixpoint gapped (rs : list region) : Prop :=
  match rs with
  | [] => True
  | r :: rs' => Forall (fun r' => base r + length_ r < base r') rs' /\ gapped rs'
  end.

Lemma free_regions_spec pre r post i :
  Forall region_ok (pre ++ r :: post) -> gapped (pre ++ r :: post) ->
  0 <= i < frames_of r -> (frame_bitmap r i <> 0) ->
  free_regions (pre ++ r :: post) (base r + i * 4096) = Ok (pre ++ set_bitmap r i 0 :: post).
Proof.
  intros Hok Hg Hi Hbm. induction pre as [|p pre IH]; cbn [app] in *.
  - destruct Hg as [Hg _]. apply Forall_cons_1 in Hok as [Hr _].
    pose proof (frames_of_bound r i Hr Hi) as Hbd.
    assert (wrap64 (base r + i * 4096 - base r) / 4096 = i) as Hidx.
    { destruct Hr as (? & _ & ? & ? & _). unfold PHYS_LIMIT in *. rewrite wrap64_small by lia.
      replace (base r + i * 4096 - base r) with (i * 4096) by lia. by apply Z.div_mul. }
    assert ((i <? FRAME_BITMAP_SIZE) = true) as Hlt.
    { destruct Hr as (_ & _ & _ & _ & ? & _). apply Z.ltb_lt. lia. }
    cbn [free_regions]. rewrite Hidx, Hlt. cbn [negb].
    destruct post as [|next post]; [done|]. apply Forall_cons_1 in Hg as [Hg _].
    destruct (Z.leb_spec (base r) (base r + i * 4096)); [|lia].
    destruct (Z.ltb_spec (base r + i * 4096) (base next)); [|lia].
    cbn [andb]. by destruct (Z.eqb_spec (frame_bitmap r i) 0).
  - destruct Hg as [Hg Hg']. apply Forall_cons_1 in Hok as [Hp Hok].
    assert (region_ok r) as Hr.
    { apply Forall_app in Hok as [_ Hok]. by apply Forall_cons_1 in Hok as [? _]. }
    assert (base p + length_ p < base r) as Hpr.
    { apply Forall_app in Hg as [_ Hg]. by apply Forall_cons_1 in Hg as [? _]. }
    assert (exists next rest, pre ++ r :: post = next :: rest /\ base next <= base r)
      as (next & rest & Heq & Hnext).
    { destruct pre as [|q pre]; [exists r, post; split; [done|lia]|].
      exists q, (pre ++ r :: post). split; [done|]. destruct Hg' as [Hg' _].
      apply Forall_app in Hg' as [_ Hg']. apply Forall_cons_1 in Hg' as [Hq _].
      apply Forall_cons_1 in Hok as [(_ & _ & ? & _) _]. lia. }
    specialize (IH Hok Hg'). rewrite Heq in *. cbn [free_regions].
    destruct (Z.ltb_spec (base r + i * 4096) (base next)); [lia|]. rewrite andb_false_r.
    destruct Hp as (? & _ & ? & ? & _). unfold PHYS_LIMIT in *. rewrite wrap64_small by lia.
    destruct (Z.ltb_spec (base p + length_ p) (base r + i * 4096)); [|lia].
    cbn [free_regions] in IH. by rewrite IH.
Qed.

(** ** Frame maps up to bitmap extensionality *)

#[global] Instance region_equiv_equivalence : Equivalence region_equiv.
Proof.
  split.
  - done.
  - intros r r' (? & ? & ? & H). by split_and!.
  - intros r1 r2 r3 (? & ? & ? & H) (? & ? & ? & H'). split_and!; try congruence.
Qed.

#[global] Instance scan_bitmap_proper n i : Proper (region_equiv ==> eq) (scan_bitmap n i).
Proof.
  intros r r' (_ & _ & Ht & Hbm). revert i. induction n as [|n IH]; intros i; [done|].
  cbn [scan_bitmap]. by rewrite Hbm, Ht, IH.
Qed.

(** The address found depends on the regions only up to [region_equiv]. *)
Lemma alloc_regions_addr rs rs' :
  regions_equiv rs rs' ->
  match alloc_regions rs, alloc_regions rs' with
  | Ok (Some (q, i, a)), Ok (Some (q', i', a')) => i = i' /\ a = a' /\ regions_equiv q q'
  | Ok None, Ok None => True
  | Err e, Err e' => e = e'
  | _, _ => False
  end.
Proof.
  induction 1 as [|r r' rs rs' Hr Hrs IH]; [done|]. cbn [alloc_regions].
  rewrite (scan_bitmap_proper _ _ r r' Hr). destruct Hr as (Hb & Hl & Ht & Hbm). rewrite Hl.
  destruct (scan_bitmap _ 0 r') as [[i|]|e]; simpl; [|..|done].
  - split_and!; [done|by rewrite Hb|]. constructor; [|done]. split_and!; simpl; try done.
    intros j. unfold upd. by rewrite Hbm.
  - destruct (alloc_regions rs) as [[[[q i] a]|]|e], (alloc_regions rs') as [[[[q' i'] a']|]|e'];
      simpl; try done.
    destruct IH as (-> & -> & IH). split_and!; try done. constructor; [|done]. by split_and!.
Qed.

#[global] Instance regions_equiv_refl : Reflexive regions_equiv.
Proof. intros rs. unfold regions_equiv. induction rs; by constructor. Qed.

(** [alloc_frame] on equivalent maps returns the same address. *)
Lemma alloc_frame_equiv s a s1 s2 :
  a <> 0 -> alloc_frame s = Ok (a, s1) -> regions_equiv (memmap_arr s) (memmap_arr s2) ->
  exists s3, alloc_frame s2 = Ok (a, s3).
Proof.
  unfold alloc_frame. intros Ha Hal Heq. pose proof (alloc_regions_addr _ _ Heq) as H.
  destruct (alloc_regions (memmap_arr s)) as [[[[q i] b]|]|e]; simpl in Hal; [| |done].
  2: { by injection Hal as <- _. }
  injection Hal as -> _.
  destruct (alloc_regions (memmap_arr s2)) as [[[[q' i'] b']|]|e']; try done.
  destruct H as (-> & -> & _). by eexists.
Qed.

(** ** Facts about the region a frame comes from *)

Lemma alloc_frame_site s s1 a :
  regions_ok (memmap_arr s) -> a <> 0 -> alloc_frame s = Ok (a, s1) ->
  exists pre r post i, memmap_arr s = pre ++ r :: post /\
    memmap_arr s1 = pre ++ set_bitmap r i 1 :: post /\
    type_ r = 0 /\ 0 <= i < frames_of r /\ frame_bitmap r i = 0 /\ a = base r + i * 4096 /\
    iflag s1 = iflag s.
Proof.
  intros Hok Ha Hal. unfold alloc_frame in Hal.
  destruct (alloc_regions_spec (memmap_arr s) Hok) as (o & Ho & Hspec).
  rewrite Ho in Hal. simpl in Hal. destruct o as [[[rs i] b]|]; [|by injection Hal as <- _].
  destruct Hspec as ((pre & r & post & Hrs & Hrs' & ?) & _). injection Hal as -> <-.
  exists pre, r, post, i. split_and!; tauto || done.
Qed.

Lemma regions_ok_elem pre r post : regions_ok (pre ++ r :: post) -> region_ok r.
Proof. intros [Hok _]. apply Forall_app in Hok as [_ Hok]. by apply Forall_cons_1 in Hok as [? _]. Qed.

Lemma Forall_set_bitmap pre r post i v :
  Forall region_ok (pre ++ r :: post) -> Forall region_ok (pre ++ set_bitmap r i v :: post).
Proof.
  intros Hok. apply Forall_app in Hok as [H1 H2]. apply Forall_cons_1 in H2 as [H2 H3].
  apply Forall_app. split; [done|]. by constructor.
Qed.

Lemma gapped_set_bitmap pre r post i v :
  gapped (pre ++ r :: post) -> gapped (pre ++ set_bitmap r i v :: post).
Proof.
  induction pre as [|p pre IH]; intros H; [done|]. destruct H as [H1 H2]. split; [|auto].
  apply Forall_app in H1 as [H1 H3]. apply Forall_cons_1 in H3 as [H3 H4].
  apply Forall_app. split; [done|]. by constructor.
Qed.

Lemma land_fff a : Z.land a 0xfff = a mod 4096.
Proof. change 0xfff with (Z.ones 12). by rewrite Z.land_ones by lia. Qed.

Lemma aligned_land r i : region_ok r -> Z.land (base r + i * 4096) 0xfff = 0.
Proof. intros (_ & H & _). rewrite land_fff, Z.mod_add by lia. done. Qed.

(** C6: [alloc_frame] always returns. It hands out a frame that was free, takes
    exactly that frame out of the free set, clears its 4096 bytes through the
    direct map and touches no other byte of memory; 0 is returned only
    when no frame is free, and then nothing has changed. *)
Theorem alloc_frame_refines_free_set (s : mst) (Hh : hhdm_ok) (Hok : regions_ok (memmap_arr s)) :
  exists a s', alloc_frame s = Ok (a, s') /\
    (a = 0 <-> forall b, ~ frame_free (memmap_arr s) b) /\
    (a = 0 -> s' = s) /\
    (a <> 0 ->
      frame_free (memmap_arr s) a /\
      (forall b, frame_free (memmap_arr s') b <-> frame_free (memmap_arr s) b /\ b <> a) /\
      (forall x, a + hhdm_offset <= x < a + hhdm_offset + 4096 -> mm s' x = 0) /\
      same_outside (mm s) (mm s') (a + hhdm_offset) 4096 /\
      regions_ok (memmap_arr s')).
Proof.
  destruct (alloc_frame_cases s Hh Hok) as (a & s' & Heq & [[[] Ha]|(-> & -> & Hno)]);
    eexists _, _; (split; [done|]).
  - split_and!; try done. split; [done|]. intros Hno. by destruct (Hno a).
  - by split_and!.
Qed.

(** Freeing the frame [alloc_frame] returned gives the frame map back: the
    regions and every bitmap byte are as before, the interrupt flag is
    restored, and the next [alloc_frame] returns the same frame. The regions
    must have a gap between them, as [free_frame]'s search needs. *)
Theorem alloc_free_roundtrip (s s1 : mst) (a : Z)
    (Hh : hhdm_ok) (Hok : regions_ok (memmap_arr s)) (Hg : gapped (memmap_arr s))
    (Ha : a <> 0) (Halloc : alloc_frame s = Ok (a, s1)) :
  exists s2, free_frame a s1 = Ok s2 /\
    regions_equiv (memmap_arr s) (memmap_arr s2) /\ iflag s2 = iflag s /\
    exists s3, alloc_frame s2 = Ok (a, s3).
Proof.
  destruct (alloc_frame_site s s1 a Hok Ha Halloc) as (pre & r & post & i & Hrs & Hrs1 & Ht & Hi & Hbm & -> & Hif).
  assert (free_regions (memmap_arr s1) (base r + i * 4096) =
          Ok (pre ++ set_bitmap (set_bitmap r i 1) i 0 :: post)) as Hfree.
  { rewrite Hrs1. apply (free_regions_spec pre (set_bitmap r i 1) post i).
    - destruct Hok as [Hok _]. rewrite Hrs in Hok. by apply Forall_set_bitmap.
    - rewrite Hrs in Hg. by apply gapped_set_bitmap.
    - done.
    - simpl. by rewrite upd_eq. }
  unfold free_frame. cbn [irq_disable_save].
  rewrite (aligned_land r i) by (rewrite Hrs in Hok; by eapply regions_ok_elem).
  cbn [Z.eqb].
  cbn [negb]. change (memmap_arr (set_iflag false s1)) with (memmap_arr s1). rewrite Hfree. simpl.
  assert (regions_equiv (memmap_arr s) (pre ++ set_bitmap (set_bitmap r i 1) i 0 :: post)) as Heq.
  { rewrite Hrs. apply Forall2_app; [apply regions_equiv_refl|].
    constructor; [|apply regions_equiv_refl]. split_and!; try done. simpl.
    intros j. unfold upd. by destruct (Z.eqb_spec j i) as [->|]. }
  eexists. split; [done|]. autorewrite with willow_rw. split_and!.
  - exact Heq.
  - rewrite Hif. by rewrite irq_restore_iflag.
  - apply (alloc_frame_equiv s _ s1); [done|done|]. rewrite irq_restore_memmap. exact Heq.
Qed.


(** ** init_memmaps *)

Definition entry_ok (e : limine_memmap_entry) : Prop :=
  0 <= e_base e /\ e_base e mod 4096 = 0 /\ 0 <= e_length e /\
  e_base e + e_length e <= PHYS_LIMIT /\ e_length e / 4096 < FRAME_BITMAP_SIZE /\
  0 <= e_type e < 256 /\ (e_type e = 0 -> 0 < e_base e).

Fixpoint entries_sorted (es : list limine_memmap_entry) : Prop :=
  match es with
  | [] => True
  | e :: es' => Forall (fun e' => e_base e + e_length e <= e_base e') es' /\ entries_sorted es'
  end.

(** [a] is a frame of a usable entry of the loader's map. *)
Definition usable_frame (es : list limine_memmap_entry) (a : Z) : Prop :=
  exists e i, e ∈ es /\ e_type e = 0 /\ 0 <= i < e_length e / 4096 /\ a = e_base e + i * 4096.

Definition region_of (e : limine_memmap_entry) : region :=
  Region (e_base e) (e_length e) (wrap8 (e_type e)) (upd (fun _ => 0) (e_length e / 4096) 2).

Lemma init_regions_ok es :
  Forall entry_ok es -> init_regions es = Ok (map region_of es).
Proof.
  induction 1 as [|e es He Hes IH]; [done|]. cbn [init_regions]. unfold init_region.
  destruct He as (_ & _ & _ & _ & Hlt & _). apply Z.ltb_lt in Hlt. rewrite Hlt. simpl.
  by rewrite IH.
Qed.

Lemma region_of_ok e : entry_ok e -> region_ok (region_of e).
Proof.
  intros (? & ? & ? & ? & ? & Ht & Hb). split_and!; try done. cbn [region_of type_].
  by rewrite wrap8_small by lia.
Qed.

Lemma region_of_sorted es : entries_sorted es -> sorted (map region_of es).
Proof.
  induction es as [|e es IH]; [done|]. intros [H1 H2]. split; [|auto].
  apply Forall_fmap. eapply List.Forall_impl; [|exact H1]. intros e' He. exact He.
Qed.

Lemma init_memmaps_regions es :
  (1 <= length es <= 32)%nat -> Forall entry_ok es -> init_memmaps es = Ok (map region_of es, find_memmap_bitmap es).
Proof.
  intros Hn Hok. unfold init_memmaps. destruct (Z.eqb_spec (Z.of_nat (length es)) 0); [lia|].
  destruct (Z.ltb_spec 32 (Z.of_nat (length es))); [lia|]. cbn [orb]. by rewrite init_regions_ok.
Qed.

Lemma regions_of_ok es : Forall entry_ok es -> entries_sorted es -> regions_ok (map region_of es).
Proof.
  intros Hok Hs. split; [|by apply region_of_sorted]. apply Forall_fmap.
  eapply List.Forall_impl; [|exact Hok]. apply region_of_ok.
Qed.

Lemma regions_of_free es a : Forall entry_ok es -> frame_free (map region_of es) a <-> usable_frame es a.
Proof.
  rewrite List.Forall_forall. intros Hok. unfold frame_free, usable_frame. split.
  - intros (r & i & Hr & Ht & Hi & -> & _). apply list_elem_of_fmap in Hr as (e & -> & He).
    exists e, i. cbn [region_of type_] in Ht. apply list_elem_of_In in He as He'.
    destruct (Hok e He') as (_ & _ & _ & _ & _ & Htr & _). rewrite wrap8_small in Ht by lia. done.
  - intros (e & i & He & Ht & Hi & ->). exists (region_of e), i. split_and!; try done.
    + apply list_elem_of_fmap. by exists e.
    + cbn [region_of type_]. by rewrite Ht.
    + apply Hi.
    + apply Hi.
    + cbn [region_of frame_bitmap]. rewrite upd_ne; [done|lia].
Qed.

(** On a loader map of 1 to 32 sorted, page-aligned entries, [init_memmaps]
    builds a well-formed frame map in which exactly the frames of the usable
    entries are free. *)
Theorem init_memmaps_establishes_frames (es : list limine_memmap_entry)
    (Hn : (1 <= length es <= 32)%nat) (Hok : Forall entry_ok es) (Hs : entries_sorted es) :
  exists rs b, init_memmaps es = Ok (rs, b) /\ regions_ok rs /\
    forall a, frame_free rs a <-> usable_frame es a.
Proof.
  exists (map region_of es), (find_memmap_bitmap es). split; [by apply init_memmaps_regions|].
  split; [by apply regions_of_ok|]. intros a. by apply regions_of_free.
Qed.

End Frames.

(** ** Witnesses *)

(** A map of two usable regions with a gap, at the addresses a loader gives. *)
Definition sample_hhdm : Z := 0xffff800000000000.
Definition sample_entries : list limine_memmap_entry :=
  [Entry 0x1000 0x3000 0; Entry 0x100000 0x2000 0; Entry 0x102000 0x1000 0].
Definition sample_state : mst :=
  Mst (fun _ => 0) true (map region_of [Entry 0x1000 0x3000 0; Entry 0x100000 0x2000 0]) 0 [].

Lemma sample_hhdm_ok : hhdm_ok sample_hhdm.
Proof. repeat split; vm_compute; congruence. Qed.

Lemma sample_entry_ok b l : (b, l) ∈ [(0x1000, 0x3000); (0x100000, 0x2000); (0x102000, 0x1000)] ->
  entry_ok (Entry b l 0).
Proof.
  intros H. repeat (apply elem_of_cons in H as [H|H]; [injection H as -> ->|]).
  4: by apply elem_of_nil in H.
  all: repeat split; vm_compute; congruence.
Qed.

Lemma sample_regions_ok : regions_ok (memmap_arr sample_state).
Proof.
  split.
  - repeat constructor; apply region_of_ok, sample_entry_ok; set_solver.
  - apply region_of_sorted. repeat constructor; vm_compute; congruence.
Qed.

Lemma alloc_frame_refines_free_set_witness :
  exists a s', alloc_frame sample_hhdm sample_state = Ok (a, s') /\
    (a <> 0 -> same_outside (mm sample_state) (mm s') (a + sample_hhdm) 4096).
Proof.
  destruct (alloc_frame_refines_free_set sample_hhdm sample_state sample_hhdm_ok sample_regions_ok)
    as (a & s' & H & _ & _ & Hs).
  exists a, s'. split; [exact H|]. intros Ha. apply (Hs Ha).
Defined.

(** [sample_state] after one allocation. *)
Definition sample_state1 : mst :=
  match alloc_frame sample_hhdm sample_state with Ok (_, s) => s | Err _ => sample_state end.

Lemma alloc_free_roundtrip_witness :
  exists s1 s2, alloc_frame sample_hhdm sample_state = Ok (0x1000, s1) /\
    free_frame 0x1000 s1 = Ok s2 /\ regions_equiv (memmap_arr sample_state) (memmap_arr s2).
Proof.
  destruct (alloc_free_roundtrip sample_hhdm sample_state sample_state1 0x1000) as (s2 & H1 & H2 & _).
  - apply sample_hhdm_ok.
  - apply sample_regions_ok.
  - repeat constructor.
  - discriminate.
  - reflexivity.
  - exists sample_state1, s2. split; [reflexivity|]. split; [exact H1|exact H2].
Defined.

Definition adjacent_state : mst :=
  Mst (fun _ => 0) true (map region_of [Entry 0x100000 0x2000 0; Entry 0x102000 0x1000 0]) 0 [].


Lemma init_memmaps_establishes_frames_witness :
  exists rs b, init_memmaps sample_entries = Ok (rs, b) /\ regions_ok rs.
Proof.
  destruct (init_memmaps_establishes_frames sample_entries) as (rs & b & H1 & H2 & _).
  - vm_compute. lia.
  - repeat constructor; apply sample_entry_ok; set_solver.
  - repeat constructor; vm_compute; congruence.
  - exists rs, b. split; [exact H1|exact H2].
Defined.
