(* ===== verification/Heap.v ===== *)
(** * The kernel heap: vmm.c

    The heap is a linked list of nodes, one per 64 bytes from
    [HEAP_START_VIRT_DEFINED]; the list of the model is the chain of [next]
    pointers from [heap_page_head].  [kmalloc] is a first-fit search over the
    nodes, counted in chunks; [kmalloc_byte] rounds bytes up to chunks.  A null
    [next] pointer that is dereferenced is the fault [NullDeref]. *)

From S2P Require Import Prelude Memory Machine.

Definition HEAP_START_VIRT_DEFINED : Z := 0xffffc00000000000.
Definition HEAP_SIZE_DEFINED : Z := 0x4000000.
Definition HEAP_CHUNK_SIZE_DEFINED : Z := 64.

(** The nodes [init_heap] links: [HEAP_SIZE / HEAP_CHUNK_SIZE] of them, all free. *)
Definition fresh_node : heap_page := HeapPage 0 HEAP_CHUNK_SIZE_DEFINED 0.
Definition fresh_heap (n : nat) : list heap_page := replicate n fresh_node.

(** ** kmalloc *)

(** The inner [for] loop, from the node [probe] with [k] iterations to go. *)
Inductive probe_result : Type :=
| HeapFull
| DoesNotFit
| Landed (st : Z).

Fixpoint probe_run (k : nat) (probe : list heap_page) : probe_result :=
  match probe with
  | [] => HeapFull
  | n :: next =>
      match k with
      | O => Landed (status n)
      | S k' =>
          match next with
          | [] => HeapFull
          | _ => if status n =? 1 then DoesNotFit else probe_run k' next
          end
      end
  end.

(** The [while (current != NULL)] loop: the position of the block in the list
    and the value of [index] there.  When the probe does not fit, [continue]
    moves [current] on and leaves [index] as it is. *)
Fixpoint kmalloc_search (sz : Z) (current : list heap_page) (pos index : Z) : option (Z * Z) :=
  match current with
  | [] => None
  | n :: next =>
      if status n =? 0 then
        match probe_run (Z.to_nat (sz - 1)) current with
        | HeapFull => None
        | DoesNotFit => kmalloc_search sz next (pos + 1) index
        | Landed st =>
            if st =? 0 then Some (pos, index)
            else kmalloc_search sz next (pos + 1) (index + 1)
        end
      else kmalloc_search sz next (pos + 1) (index + 1)
  end.

Definition set_st (v : Z) (n : heap_page) : heap_page := HeapPage v (size n) (alloc_length n).
Definition set_len (l : Z) (n : heap_page) : heap_page := HeapPage (status n) (size n) l.

(** [k] times: [node->status = v; node = node->next]. *)
Fixpoint set_status (k : nat) (v : Z) (node : list heap_page) : outcome (list heap_page) :=
  match k, node with
  | O, _ => Ok node
  | S _, [] => Err NullDeref
  | S k', n :: next => rest ← set_status k' v next; Ok (set_st v n :: rest)
  end.

(** The same from the [p]-th node of the heap on. *)
Definition set_status_at (p k : nat) (v : Z) (h : list heap_page) : outcome (list heap_page) :=
  rest ← set_status k v (drop p h); Ok (take p h ++ rest).

Definition kmalloc (sz : Z) (s : mst) : outcome (Z * mst) :=
  let '(irq, s) := irq_disable_save s in
  if sz =? 0 then Ok (NULL, irq_restore irq s)
  else
    match kmalloc_search sz (heap_page_head s) 0 0 with
    | None => Ok (0, irq_restore irq s)
    | Some (pos, index) =>
        h ← set_status_at (Z.to_nat pos) (Z.to_nat sz) 1 (heap_page_head s);
        let h := alter (set_len sz) (Z.to_nat pos) h in
        Ok (wrap64 (HEAP_START_VIRT_DEFINED + index * HEAP_CHUNK_SIZE_DEFINED),
            irq_restore irq (set_heap h s))
    end.

(** ** kfree *)

Definition heap_index (virt_address : Z) : Z :=
  wrap64 (virt_address - HEAP_START_VIRT_DEFINED) / HEAP_CHUNK_SIZE_DEFINED.

(** [for (i = 1; i < index; i++) current = current->next;] from the head. *)
Definition kfree_pos (index : Z) : nat := Z.to_nat (Z.max 0 (index - 1)).

Definition kfree (virt_address : Z) (s : mst) : outcome mst :=
  let '(irq, s) := irq_disable_save s in
  let index := heap_index virt_address in
  let h := heap_page_head s in
  let p := kfree_pos index in
  current ← checked (h !! p) NullDeref;
  let alloc_length_node := alloc_length current in
  let h := alter (set_len 0) p h in
  h ← set_status_at p (Z.to_nat (alloc_length_node - 1)) 0 h;
  Ok (irq_restore irq (set_heap h s)).

Definition kfree_interruptable (virt_address : Z) (s : mst) : outcome mst := kfree virt_address s.

(** ** Sizes in bytes *)

Definition chunks (sz : Z) : Z :=
  if sz =? 0 then 0
  else if sz <=? 64 then 1
  else if sz mod 64 =? 0 then sz / 64
  else sz / 64 + 1.

Definition kmalloc_byte_interruptable (sz : Z) (s : mst) : outcome (Z * mst) :=
  if sz =? 0 then kmalloc 0 s
  else if sz <=? 64 then kmalloc 1 s
  else if sz mod 64 =? 0 then kmalloc (sz / 64) s
  else kmalloc (sz / 64 + 1) s.

Definition kmalloc_byte (sz : Z) (s : mst) : outcome (Z * mst) :=
  let '(irq, s) := irq_disable_save s in
  if sz =? 0 then kmalloc 0 (irq_restore irq s)
  else if sz <=? 64 then kmalloc 1 (irq_restore irq s)
  else if sz mod 64 =? 0 then kmalloc (sz / 64) (irq_restore irq s)
  else kmalloc (sz / 64 + 1) (irq_restore irq s).

Definition krealloc_byte (virt_address sz : Z) (s : mst) : outcome (Z * mst) :=
  let '(irq, s) := irq_disable_save s in
  '(ret, s) ← kmalloc_byte_interruptable sz s;
  if ret =? NULL then Ok (ret, irq_restore irq s)
  else if virt_address =? NULL then Ok (ret, irq_restore irq s)
  else
    current ← checked (heap_page_head s !! Z.to_nat (heap_index virt_address)) NullDeref;
    let alloc_length_node := alloc_length current in
    let n := if sz <=? wrap64 (alloc_length_node * 64) then sz else wrap64 (alloc_length_node * 64) in
    s ← kfree virt_address (set_mm (memcpy (mm s) ret virt_address n) s);
    Ok (ret, irq_restore irq s).

(** ** The specification of the node list *)

Definition used (h : list heap_page) (i : nat) : Prop := exists n, h !! i = Some n /\ status n = 1.
Definition free_at (h : list heap_page) (i : nat) : Prop := exists n, h !! i = Some n /\ status n = 0.

(** A block of [l] chunks starts at node [p]. *)
Definition block (h : list heap_page) (p : nat) (l : Z) : Prop :=
  exists n, h !! p = Some n /\ alloc_length n = l /\ 0 < l.

(** Every node is free or used; the nodes of a block are used, and no block
    starts inside another one. *)
Record heap_inv (h : list heap_page) : Prop := {
  hi_status : forall i n, h !! i = Some n -> (status n = 0 \/ status n = 1) /\ 0 <= alloc_length n;
  hi_used : forall p l i, block h p l -> (p <= i)%nat -> Z.of_nat i < Z.of_nat p + l -> used h i;
  hi_disjoint : forall p l p' l', block h p l -> block h p' l' ->
    (p < p')%nat -> Z.of_nat p + l <= Z.of_nat p'
}.

(** ** Lemmas on the node operations *)

Lemma set_status_spec k v h :
  (k <= length h)%nat ->
  exists h', set_status k v h = Ok h' /\ length h' = length h /\
    forall i, h' !! i = if bool_decide (i < k)%nat then set_st v <$> h !! i else h !! i.
Proof.
  revert h. induction k as [|k IH]; intros h Hk; cbn [set_status].
  { exists h. split_and!; [done..|]. intros i. by rewrite bool_decide_eq_false_2 by lia. }
  destruct h as [|n h]; simpl in Hk; [lia|].
  destruct (IH h) as (h' & -> & Hl & Hi); [lia|]. eexists. split; [done|].
  split; [by simpl; rewrite Hl|]. intros [|i]; [done|]. cbn [lookup list_lookup].
  change (list_lookup i h') with (h' !! i). rewrite Hi.
  destruct (decide (i < k)%nat); [rewrite !bool_decide_eq_true_2 by lia|
    rewrite !bool_decide_eq_false_2 by lia]; done.
Qed.

Lemma set_status_at_spec p k v h :
  (p + k <= length h)%nat ->
  exists h', set_status_at p k v h = Ok h' /\ length h' = length h /\
    forall i, h' !! i = if bool_decide (p <= i < p + k)%nat then set_st v <$> h !! i else h !! i.
Proof.
  intros Hk. unfold set_status_at.
  destruct (set_status_spec k v (drop p h)) as (h' & -> & Hl & Hi); [rewrite length_drop; lia|].
  rewrite length_drop in Hl. eexists. split; [done|].
  split; [rewrite length_app, length_take, Hl; lia|]. intros i.
  destruct (decide (i < p)%nat) as [Hip|Hip].
  - rewrite lookup_app_l, lookup_take_lt by (rewrite ?length_take; lia).
    by rewrite bool_decide_eq_false_2 by lia.
  - rewrite lookup_app_r; rewrite length_take, Nat.min_l by lia; [|lia].
    rewrite Hi, lookup_drop. replace (p + (i - p))%nat with i by lia.
    destruct (decide (i < p + k)%nat); [rewrite !bool_decide_eq_true_2 by lia|
      rewrite !bool_decide_eq_false_2 by lia]; done.
Qed.

(** A probe that lands has passed over [k] nodes that are not used. *)
Lemma probe_run_landed k h st :
  probe_run k h = Landed st ->
  (k < length h)%nat /\ (exists n, h !! k = Some n /\ status n = st) /\
  forall i n, (i < k)%nat -> h !! i = Some n -> status n <> 1.
Proof.
  revert h. induction k as [|k IH]; intros [|n h] H; cbn [probe_run] in H; try done.
  - injection H as <-. simpl. split_and!; [lia|by exists n|lia].
  - destruct h as [|n' h]; [done|]. destruct (Z.eqb_spec (status n) 1); [done|].
    destruct (IH _ H) as (Hl & Hn & Hi). simpl in *. split_and!; [lia|done|].
    intros [|i] m Him; [by intros [= <-]|]. apply Hi. lia.
Qed.

(** The number of nodes before [p] at which the probe met a used node early. *)
Fixpoint skips (sz : Z) (p : nat) (h : list heap_page) : Z :=
  match p, h with
  | S p', n :: next =>
      (if (status n =? 0) && match probe_run (Z.to_nat (sz - 1)) h with DoesNotFit => true | _ => false end
       then 1 else 0) + skips sz p' next
  | _, _ => 0
  end.

Lemma kmalloc_search_spec sz h pos index p i :
  0 < sz -> kmalloc_search sz h pos index = Some (p, i) ->
  exists k, p = pos + Z.of_nat k /\ i = index + Z.of_nat k - skips sz k h /\
    (k + Z.to_nat sz <= length h)%nat /\
    (forall j n, (k <= j < k + Z.to_nat sz)%nat -> h !! j = Some n -> status n <> 1).
Proof.
  intros Hsz. revert pos index. induction h as [|n h IH]; intros pos index H;
    cbn [kmalloc_search] in H; [done|].
  destruct (Z.eqb_spec (status n) 0) as [Hn|Hn].
  - destruct (probe_run (Z.to_nat (sz - 1)) (n :: h)) as [| |st] eqn:Hp; [done|..].
    + destruct (IH _ _ H) as (k & -> & -> & Hl & Hj). exists (S k).
      cbn [skips]. rewrite Hp, Hn. cbn [Z.eqb andb length]. split_and!; [lia..|].
      intros [|j] m Hjk; [lia|]. apply Hj. lia.
    + destruct (Z.eqb_spec st 0) as [->|Hst].
      * injection H as -> ->. destruct (probe_run_landed _ _ _ Hp) as (Hl & (m & Hm & Hm0) & Hi).
        exists O. cbn [skips]. split_and!; [lia..|]. intros j m' Hj Hjm.
        destruct (decide (j = Z.to_nat (sz - 1))) as [->|]; [congruence|]. eapply Hi; [|done]. lia.
      * destruct (IH _ _ H) as (k & -> & -> & Hl & Hj). exists (S k).
        cbn [skips]. rewrite Hp, andb_false_r. cbn [length]. split_and!; [lia..|].
        intros [|j] m Hjk; [lia|]. apply Hj. lia.
  - destruct (IH _ _ H) as (k & -> & -> & Hl & Hj). exists (S k).
    cbn [skips]. destruct (Z.eqb_spec (status n) 0); [done|]. cbn [andb length]. split_and!; [lia..|].
    intros [|j] m Hjk; [lia|]. apply Hj. lia.
Qed.

(** ** The effect of kmalloc and kfree on the list *)

(** [h'] is [h] with a block of [sz] chunks taken at node [p]. *)
Definition taken (h h' : list heap_page) (p : nat) (sz : Z) : Prop :=
  length h' = length h /\
  forall i, h' !! i =
    if bool_decide (i = p) then (fun n => HeapPage 1 (size n) sz) <$> h !! i
    else if bool_decide (p <= i < p + Z.to_nat sz)%nat then set_st 1 <$> h !! i
    else h !! i.

(** [h'] is [h] with [k] nodes from [p] freed and the length of [p] cleared. *)
Definition released (h h' : list heap_page) (p k : nat) : Prop :=
  length h' = length h /\
  forall i, h' !! i =
    let n' := if bool_decide (p <= i < p + k)%nat then set_st 0 <$> h !! i else h !! i in
    if bool_decide (i = p) then set_len 0 <$> n' else n'.

Lemma kmalloc_cases sz s :
  0 <= sz ->
  exists a s', kmalloc sz s = Ok (a, s') /\ mm s' = mm s /\ memmap_arr s' = memmap_arr s /\
    iflag s' = iflag s /\
    (a = 0 /\ s' = s \/
     0 < sz /\ exists p, a = wrap64 (HEAP_START_VIRT_DEFINED +
                 (Z.of_nat p - skips sz p (heap_page_head s)) * HEAP_CHUNK_SIZE_DEFINED) /\
       (p + Z.to_nat sz <= length (heap_page_head s))%nat /\
       (forall j n, (p <= j < p + Z.to_nat sz)%nat -> heap_page_head s !! j = Some n -> status n <> 1) /\
       taken (heap_page_head s) (heap_page_head s') p sz).
Proof.
  intros Hsz. unfold kmalloc. cbn [irq_disable_save].
  destruct (Z.eqb_spec sz 0) as [->|Hn].
  { exists NULL, s. rewrite irq_bracket. split_and!; auto. }
  change (heap_page_head (set_iflag false s)) with (heap_page_head s).
  destruct (kmalloc_search sz (heap_page_head s) 0 0) as [[p i]|] eqn:Hs.
  2: { exists 0, s. rewrite irq_bracket. split_and!; auto. }
  apply kmalloc_search_spec in Hs as (k & -> & -> & Hl & Hj); [|lia].
  rewrite !Z.add_0_l, Nat2Z.id.
  destruct (set_status_at_spec k (Z.to_nat sz) 1 (heap_page_head s) Hl) as (h' & -> & Hl' & Hi).
  simpl. eexists _, _. split; [done|]. autorewrite with willow_rw. simpl.
  rewrite irq_restore_iflag by done. split_and!; [done..|]. right. split; [lia|]. exists k.
  split_and!; [done..|]. split; [by rewrite length_alter|]. intros j.
  destruct (decide (j = k)) as [->|Hjk].
  - rewrite list_lookup_alter_eq, Hi. rewrite !bool_decide_eq_true_2 by lia.
    by destruct (heap_page_head s !! k).
  - rewrite list_lookup_alter_ne by done. rewrite (bool_decide_eq_false_2 (j = k)) by done. apply Hi.
Qed.

Lemma kfree_cases a s n :
  heap_inv (heap_page_head s) -> heap_page_head s !! kfree_pos (heap_index a) = Some n ->
  exists s', kfree a s = Ok s' /\ mm s' = mm s /\ memmap_arr s' = memmap_arr s /\
    iflag s' = iflag s /\
    released (heap_page_head s) (heap_page_head s') (kfree_pos (heap_index a))
      (Z.to_nat (alloc_length n - 1)).
Proof.
  intros Hinv Hn. unfold kfree. cbn [irq_disable_save].
  change (heap_page_head (set_iflag false s)) with (heap_page_head s).
  rewrite Hn. cbn [checked mbind outcome_bind]. set (p := kfree_pos (heap_index a)) in *.
  assert (p + Z.to_nat (alloc_length n - 1) <= length (heap_page_head s))%nat as Hle.
  { pose proof (lookup_lt_Some _ _ _ Hn).
    destruct (Z_le_dec (alloc_length n) 1); [lia|].
    destruct (hi_used _ Hinv p (alloc_length n) (p + Z.to_nat (alloc_length n - 1)))
      as (m & Hm & _); [|lia|lia|].
    - exists n. split_and!; (done || lia).
    - apply lookup_lt_Some in Hm. lia. }
  destruct (set_status_at_spec p (Z.to_nat (alloc_length n - 1)) 0
              (alter (set_len 0) p (heap_page_head s))) as (h' & -> & Hl' & Hi).
  { by rewrite length_alter. }
  rewrite length_alter in Hl'. cbn [mbind outcome_bind].
  eexists. split; [done|]. autorewrite with willow_rw. simpl.
  rewrite irq_restore_iflag by done. split_and!; [done..|]. split; [done|]. intros i. rewrite Hi.
  destruct (decide (i = p)) as [->|Hne].
  - rewrite list_lookup_alter_eq. rewrite (bool_decide_eq_true_2 (p = p)) by done.
    destruct (bool_decide _); by destruct (heap_page_head s !! p).
  - rewrite list_lookup_alter_ne by done. by rewrite (bool_decide_eq_false_2 (i = p)) by done.
Qed.

(** ** The invariant *)

Lemma block_lookup h p l : block h p l -> exists n, h !! p = Some n /\ alloc_length n = l.
Proof. intros (n & ? & ? & _). eauto. Qed.

(** The blocks after [taken]: the old ones and the new one. *)
Lemma taken_block h h' p sz q l :
  0 < sz -> taken h h' p sz -> block h' q l -> q = p /\ l = sz \/ q <> p /\ block h q l.
Proof.
  intros Hsz [_ Ht] (n & Hn & Hl & Hpos). rewrite Ht in Hn.
  destruct (decide (q = p)) as [->|Hne].
  - rewrite bool_decide_eq_true_2 in Hn by done. left. split; [done|].
    apply fmap_Some in Hn as (m & _ & ->). done.
  - rewrite bool_decide_eq_false_2 in Hn by done. right. split; [done|].
    destruct (bool_decide _) in Hn; [apply fmap_Some in Hn as (m & Hm & ->)|]; by eexists.
Qed.

Lemma taken_used h h' p sz i :
  0 < sz -> taken h h' p sz -> (i < length h)%nat ->
  used h i \/ (p <= i < p + Z.to_nat sz)%nat -> used h' i.
Proof.
  intros Hsz [_ Ht] Hlt Hu. destruct (lookup_lt_is_Some_2 h i Hlt) as [n Hn].
  unfold used. rewrite Ht, Hn. case_bool_decide; [by eexists|].
  case_bool_decide; [by eexists|]. destruct Hu as [(m & Hm & Hs)|]; [|done].
  exists n. split; [done|congruence].
Qed.

Lemma heap_inv_taken h h' p sz :
  heap_inv h -> 0 < sz -> (p + Z.to_nat sz <= length h)%nat ->
  (forall j n, (p <= j < p + Z.to_nat sz)%nat -> h !! j = Some n -> status n <> 1) ->
  taken h h' p sz -> heap_inv h'.
Proof.
  intros [H1 H2 H3] Hsz Hle Hfree Ht. pose proof (taken_block h h' p sz) as Hb. split.
  - intros i n Hn. destruct Ht as [_ Ht]. rewrite Ht in Hn.
    case_bool_decide; [apply fmap_Some in Hn as (m & Hm & ->); simpl; lia|].
    case_bool_decide; [|by eapply H1]. apply fmap_Some in Hn as (m & Hm & ->).
    destruct (H1 _ _ Hm). simpl. auto.
  - intros q l i Hq Hqi Hil. destruct (Hb q l Hsz Ht Hq) as [[-> ->]|[Hne Hbq]].
    + eapply taken_used; [done..|lia|]. right. lia.
    + destruct (H2 q l i Hbq Hqi Hil) as (m & Hm & Hs).
      eapply taken_used; [done..|by eapply lookup_lt_Some|]. left. by exists m.
  - intros q l q' l' Hq Hq' Hlt.
    destruct (Hb q l Hsz Ht Hq) as [[-> ->]|[Hne Hbq]], (Hb q' l' Hsz Ht Hq') as [[-> ->]|[Hne' Hbq']].
    + lia.
    + (* an old block that starts inside the new one would be used there *)
      destruct (decide (q' < p + Z.to_nat sz)%nat); [|lia]. exfalso.
      destruct (H2 q' l' q' Hbq') as (m & Hm & Hs); [lia|destruct Hbq' as (?&?&?&?); lia|].
      by apply (Hfree q' m); [lia|..].
    + destruct (Z_le_dec (Z.of_nat q + l) (Z.of_nat p)); [done|]. exfalso.
      destruct (H2 q l p Hbq) as (m & Hm & Hs); [lia|lia|]. by apply (Hfree p m); [lia|..].
    + by eapply H3.
Qed.

Lemma released_block h h' p k q l :
  released h h' p k -> block h' q l -> q <> p /\ block h q l.
Proof.
  intros [_ Hr] (n & Hn & Hl & Hpos). rewrite Hr in Hn. cbn zeta in Hn.
  case_bool_decide as Hqp.
  - apply fmap_Some in Hn as (m & _ & ->). simpl in Hl. lia.
  - split; [done|]. case_bool_decide; [apply fmap_Some in Hn as (m & Hm & ->)|]; by eexists.
Qed.

Lemma heap_inv_released h h' p n :
  heap_inv h -> h !! p = Some n -> released h h' p (Z.to_nat (alloc_length n - 1)) -> heap_inv h'.
Proof.
  intros [H1 H2 H3] Hn Hr. pose proof (released_block h h' p) as Hb. split.
  - intros i m Hm. destruct Hr as [_ Hr]. rewrite Hr in Hm. cbn zeta in Hm.
    destruct (h !! i) as [m0|] eqn:Hi; [|by repeat case_bool_decide].
    destruct (H1 _ _ Hi). repeat case_bool_decide; simplify_eq/=; auto with lia.
  - intros q l i Hq Hqi Hil. destruct (Hb _ q l Hr Hq) as [Hne Hbq].
    destruct (H2 q l i Hbq Hqi Hil) as (m & Hm & Hs).
    assert (~ (p <= i < p + Z.to_nat (alloc_length n - 1))%nat) as Hout.
    { intros Hin. assert (block h p (alloc_length n)) as Hbp by (exists n; split_and!; (done || lia)).
      destruct (decide (q < p)%nat).
      - pose proof (H3 q l p _ Hbq Hbp). lia.
      - pose proof (H3 p _ q l Hbp Hbq). lia. }
    destruct Hr as [_ Hr]. unfold used. rewrite Hr. cbn zeta.
    rewrite (bool_decide_eq_false_2 (_ <= _ < _)%nat) by done. rewrite Hm.
    case_bool_decide; by eexists.
  - intros q l q' l' Hq Hq'. destruct (Hb _ q l Hr Hq), (Hb _ q' l' Hr Hq'). by eapply H3.
Qed.

(** ** Completeness of the search *)

Lemma probe_run_full k h : probe_run k h = HeapFull -> (length h <= k)%nat.
Proof.
  revert h. induction k as [|k IH]; intros [|n [|n' h]] H; cbn [probe_run] in H; try done;
    try (simpl; lia).
  destruct (status n =? 1); [done|]. apply IH in H. simpl in *. lia.
Qed.

Lemma probe_run_busy k h :
  probe_run k h = DoesNotFit -> exists j n, (j < k)%nat /\ h !! j = Some n /\ status n = 1.
Proof.
  revert h. induction k as [|k IH]; intros [|n [|n' h]] H; cbn [probe_run] in H; try done.
  destruct (Z.eqb_spec (status n) 1); [exists O, n; split_and!; (lia || done)|].
  destruct (IH _ H) as (j & m & ? & ? & ?). exists (S j), m. split_and!; (lia || done).
Qed.

(** When the search fails, no run of [sz] free nodes exists. *)
Lemma kmalloc_search_none sz h pos index :
  0 < sz -> kmalloc_search sz h pos index = None ->
  forall p, (p + Z.to_nat sz <= length h)%nat ->
  exists j n, (p <= j < p + Z.to_nat sz)%nat /\ h !! j = Some n /\ status n <> 0.
Proof.
  intros Hsz. revert pos index. induction h as [|n h IH]; intros pos index H p Hp; [simpl in Hp; lia|].
  cbn [kmalloc_search] in H. cbn [length] in Hp.
  assert (forall pos index, kmalloc_search sz h pos index = None -> (0 < p)%nat ->
    exists j m, (p <= j < p + Z.to_nat sz)%nat /\ (n :: h) !! j = Some m /\ status m <> 0) as Hlater.
  { intros pos' index' H' H0. destruct (IH _ _ H' (p - 1)%nat) as (j & m & ? & ? & ?); [lia|].
    exists (S j), m. split_and!; (lia || done). }
  destruct (Z.eqb_spec (status n) 0) as [Hn|Hn].
  - destruct (probe_run (Z.to_nat (sz - 1)) (n :: h)) as [| |st] eqn:Hpr.
    + apply probe_run_full in Hpr. simpl in Hpr. lia.
    + destruct p; [|eauto with lia]. apply probe_run_busy in Hpr as (j & m & ? & ? & Hm).
      exists j, m. split_and!; try done; lia.
    + destruct (Z.eqb_spec st 0); [done|]. destruct p; [|eauto with lia].
      apply probe_run_landed in Hpr as (? & (m & ? & ?) & _).
      exists (Z.to_nat (sz - 1)), m. split_and!; (lia || congruence).
  - destruct p; [|eauto with lia]. exists O, n. split_and!; (lia || done).
Qed.

Lemma skips_range sz p h : 0 <= skips sz p h <= Z.of_nat p.
Proof.
  revert h. induction p as [|p IH]; intros [|n h]; cbn [skips]; try lia.
  specialize (IH h). destruct ((status n =? 0) && _); lia.
Qed.

(** A block that was there stays, and the new one is there. *)
Lemma taken_block_back h h' p sz q l :
  heap_inv h -> (p + Z.to_nat sz <= length h)%nat -> 0 < sz ->
  (forall j n, (p <= j < p + Z.to_nat sz)%nat -> h !! j = Some n -> status n <> 1) ->
  taken h h' p sz -> q = p /\ l = sz \/ block h q l -> block h' q l.
Proof.
  intros Hinv Hle Hsz Hfree [_ Ht] [[-> ->]|Hb].
  - destruct (lookup_lt_is_Some_2 h p ltac:(lia)) as [n Hn]. unfold block.
    rewrite Ht, Hn, bool_decide_eq_true_2 by done. by eexists.
  - assert (used h q) as (m & Hm & Hs).
    { eapply (hi_used h Hinv); [exact Hb|lia|destruct Hb as (?&?&?&?); lia]. }
    assert (~ (p <= q < p + Z.to_nat sz)%nat) by (intros Hq; by apply (Hfree q m)).
    unfold block. rewrite Ht, !bool_decide_eq_false_2 by lia. exact Hb.
Qed.

Lemma kmalloc_zero_search sz s :
  0 < sz -> kmalloc sz s = Ok (0, s) ->
  Z.of_nat (length (heap_page_head s)) <= 2 ^ 32 ->
  kmalloc_search sz (heap_page_head s) 0 0 = None.
Proof.
  intros Hsz Hk Hlen. unfold kmalloc in Hk. cbn [irq_disable_save] in Hk.
  destruct (Z.eqb_spec sz 0); [lia|].
  change (heap_page_head (set_iflag false s)) with (heap_page_head s) in Hk.
  destruct (kmalloc_search sz (heap_page_head s) 0 0) as [[p i]|] eqn:Hs; [|done].
  apply kmalloc_search_spec in Hs as (k & -> & -> & Hl & _); [|lia].
  bind_in Hk. injection Hk as Hk _. pose proof (skips_range sz k (heap_page_head s)).
  rewrite wrap64_small in Hk; unfold HEAP_START_VIRT_DEFINED, HEAP_CHUNK_SIZE_DEFINED in *; lia.
Qed.

(** C9: [kmalloc] always returns, with memory, frames and interrupt flag as they
    were. It returns 0 for size 0 or when no [sz] consecutive nodes are free,
    and then the heap is unchanged. Otherwise it takes a run of [sz] free nodes
    at some node [p]: the list keeps its blocks and gains the block at [p]. The
    address it returns is that of node [p] less one chunk for every node before [p]
    where the probe met a used node ([skips]). *)
Theorem kmalloc_functional (sz : Z) (s : mst)
    (Hsz : 0 <= sz) (Hinv : heap_inv (heap_page_head s)) (Hlen : Z.of_nat (length (heap_page_head s)) <= 2 ^ 32) :
  exists a s', kmalloc sz s = Ok (a, s') /\ mm s' = mm s /\ memmap_arr s' = memmap_arr s /\
    iflag s' = iflag s /\ heap_inv (heap_page_head s') /\
    (a = 0 /\ s' = s /\
       (sz = 0 \/ forall p, (p + Z.to_nat sz <= length (heap_page_head s))%nat ->
          exists j, (p <= j < p + Z.to_nat sz)%nat /\ used (heap_page_head s) j) \/
     exists p, (forall j, (p <= j < p + Z.to_nat sz)%nat ->
                  free_at (heap_page_head s) j /\ used (heap_page_head s') j) /\
       (forall q l, block (heap_page_head s') q l <->
                    q = p /\ l = sz \/ block (heap_page_head s) q l) /\
       a = HEAP_START_VIRT_DEFINED + (Z.of_nat p - skips sz p (heap_page_head s)) * 64).
Proof.
  destruct (kmalloc_cases sz s Hsz) as (a & s' & Hk & H1 & H2 & H3 & Hcase).
  exists a, s'. split_and!; [done..| |].
  { destruct Hcase as [(_ & ->)|(? & p & ? & ? & ? & ?)]; [done|]. by eapply heap_inv_taken. }
  destruct Hcase as [(-> & ->)|(Hpos & p & Ha & Hle & Hfree & Ht)].
  - left. split_and!; [done..|]. destruct (Z.eq_dec sz 0) as [|Hz]; [by left|right].
    intros p Hp. pose proof (kmalloc_zero_search sz s ltac:(lia) Hk Hlen) as Hnone.
    destruct (kmalloc_search_none sz _ _ _ ltac:(lia) Hnone p Hp) as (j & n & ? & Hn & Hst).
    exists j. split; [done|]. exists n. split; [done|].
    destruct (hi_status _ Hinv _ _ Hn) as [[?|?] _]; [done|done].
  - right. exists p. split_and!.
    + intros j Hj. destruct (lookup_lt_is_Some_2 (heap_page_head s) j ltac:(lia)) as [n Hn].
      split; [|eapply taken_used; [done..|lia|by right]].
      exists n. split; [done|]. destruct (hi_status _ Hinv _ _ Hn) as [[?|?] _]; [done|].
      by destruct (Hfree j n Hj Hn).
    + intros q l. split; [|by eapply taken_block_back].
      intros Hb. destruct (taken_block _ _ _ _ _ _ Hpos Ht Hb) as [?|[_ ?]]; auto.
    + rewrite Ha. unfold HEAP_CHUNK_SIZE_DEFINED. pose proof (skips_range sz p (heap_page_head s)).
      apply wrap64_small. unfold HEAP_START_VIRT_DEFINED. lia.
Qed.

(** Without blocks there is nothing to keep apart. *)
Lemma no_blocks_inv h : Forall (fun n => (status n = 0 \/ status n = 1) /\ alloc_length n = 0) h -> heap_inv h.
Proof.
  intros H.
  assert (forall i n, h !! i = Some n -> (status n = 0 \/ status n = 1) /\ alloc_length n = 0) as H0
    by (intros i n Hn; exact (Forall_lookup_1 _ _ _ _ H Hn)).
  split.
  - intros i m Hm. destruct (H0 _ _ Hm). lia.
  - intros p l i (m & Hm & Hl & Hpos). destruct (H0 _ _ Hm). lia.
  - intros p l p' l' (m & Hm & Hl & Hpos). destruct (H0 _ _ Hm). lia.
Qed.

Lemma fresh_heap_inv n : heap_inv (fresh_heap n).
Proof. apply no_blocks_inv, Forall_replicate. split; [by left|done]. Qed.

(** ** Histories of heap calls *)

Inductive heap_step : mst -> mst -> Prop :=
| step_kmalloc sz a s s' : 0 <= sz -> kmalloc sz s = Ok (a, s') -> heap_step s s'
| step_kfree a s s' : kfree a s = Ok s' -> heap_step s s'
| step_krealloc a sz b s s' : 0 <= sz -> krealloc_byte a sz s = Ok (b, s') -> heap_step s s'.

Lemma kmalloc_inv sz a s s' :
  0 <= sz -> kmalloc sz s = Ok (a, s') -> heap_inv (heap_page_head s) -> heap_inv (heap_page_head s').
Proof.
  intros Hsz Hk Hinv. destruct (kmalloc_cases sz s Hsz) as (a0 & s0 & Hk0 & _ & _ & _ & Hcase).
  rewrite Hk in Hk0. injection Hk0 as -> ->.
  destruct Hcase as [(_ & ->)|(? & p & ? & ? & ? & ?)]; [done|]. by eapply heap_inv_taken.
Qed.

Lemma kfree_inv a s s' :
  kfree a s = Ok s' -> heap_inv (heap_page_head s) -> heap_inv (heap_page_head s').
Proof.
  intros Hk Hinv. destruct (heap_page_head s !! kfree_pos (heap_index a)) as [n|] eqn:Hn.
  - destruct (kfree_cases a s n Hinv Hn) as (s0 & Hk0 & _ & _ & _ & Hr).
    rewrite Hk in Hk0. injection Hk0 as ->. by eapply heap_inv_released.
  - unfold kfree in Hk. cbn [irq_disable_save] in Hk.
    change (heap_page_head (set_iflag false s)) with (heap_page_head s) in Hk.
    by rewrite Hn in Hk.
Qed.

Lemma chunks_kmalloc sz s : kmalloc_byte_interruptable sz s = kmalloc (chunks sz) s.
Proof.
  unfold kmalloc_byte_interruptable, chunks.
  destruct (sz =? 0), (sz <=? 64), (sz mod 64 =? 0); done.
Qed.

Lemma chunks_nonneg sz : 0 <= sz -> 0 <= chunks sz.
Proof.
  intros H. unfold chunks. pose proof (Z.div_pos sz 64). repeat destr_cmp; lia.
Qed.

Lemma krealloc_inv a sz b s s' :
  0 <= sz -> krealloc_byte a sz s = Ok (b, s') -> heap_inv (heap_page_head s) -> heap_inv (heap_page_head s').
Proof.
  intros Hsz Hk Hinv. unfold krealloc_byte in Hk. cbn [irq_disable_save] in Hk.
  rewrite chunks_kmalloc in Hk.
  destruct (kmalloc (chunks sz) (set_iflag false s)) as [[ret s1]|e] eqn:Hm; [|done]. simpl in Hk.
  assert (heap_inv (heap_page_head s1)) as Hinv1.
  { eapply kmalloc_inv; [by apply chunks_nonneg|done|done]. }
  destruct (ret =? NULL); [injection Hk as _ <-; by rewrite irq_restore_heap|].
  destruct (a =? NULL); [injection Hk as _ <-; by rewrite irq_restore_heap|].
  bind_in Hk. bind_in Hk. injection Hk as _ <-. rewrite irq_restore_heap.
  eapply kfree_inv; [done|]. done.
Qed.

(** C7: in every state the heap calls can reach from the heap [init_heap] builds,
    every node is free or used, the nodes of every block are used, and no two
    blocks share a node, whatever addresses are passed to [kfree] and
    [krealloc_byte]. *)
Theorem heap_reachable_inv (n : nat) (s0 s : mst)
    (H0 : heap_page_head s0 = fresh_heap n) (Hsteps : rtc heap_step s0 s) :
  heap_inv (heap_page_head s).
Proof.
  assert (heap_inv (heap_page_head s0)) as Hinv.
  { rewrite H0. apply fresh_heap_inv. }
  clear H0. induction Hsteps as [|s1 s2 s3 Hstep _ IH]; [done|]. apply IH.
  destruct Hstep; [by eapply kmalloc_inv|by eapply kfree_inv|by eapply krealloc_inv].
Qed.

(** ** Allocation without freeing *)

(** The first [k] nodes are used and the others free. *)
Definition dense (h : list heap_page) (k : nat) : Prop :=
  forall i n, h !! i = Some n -> status n = if bool_decide (i < k)%nat then 1 else 0.

Lemma probe_run_free k h :
  (k < length h)%nat -> dense h 0 -> probe_run k h = Landed 0.
Proof.
  revert h. induction k as [|k IH]; intros [|n h] Hk Hd; cbn [probe_run]; simpl in Hk; try lia.
  - by rewrite (Hd O n).
  - destruct h as [|n' h]; simpl in Hk; [lia|]. rewrite (Hd O n) by done.
    apply IH; [simpl; lia|]. intros i m Hm. apply (Hd (S i) m Hm).
Qed.

Lemma kmalloc_search_dense sz h k pos index :
  0 < sz -> dense h k -> (k + Z.to_nat sz <= length h)%nat ->
  kmalloc_search sz h pos index = Some (pos + Z.of_nat k, index + Z.of_nat k).
Proof.
  intros Hsz. revert k pos index. induction h as [|n h IH]; intros k pos index Hd Hk; simpl in Hk; [lia|].
  cbn [kmalloc_search]. pose proof (Hd O n eq_refl) as Hn. destruct k as [|k].
  - rewrite Hn, probe_run_free; [|simpl; lia|done]. by rewrite !Z.add_0_r.
  - rewrite Hn. simpl Z.eqb. cbn iota. rewrite (IH k); [f_equal; f_equal; lia| |lia].
    intros i m Hm. rewrite (Hd (S i) m Hm). repeat case_bool_decide; (lia || done).
Qed.

Lemma kmalloc_dense sz s k :
  0 < sz -> dense (heap_page_head s) k -> (k + Z.to_nat sz <= length (heap_page_head s))%nat ->
  exists s', kmalloc sz s =
      Ok (wrap64 (HEAP_START_VIRT_DEFINED + Z.of_nat k * HEAP_CHUNK_SIZE_DEFINED), s') /\
    dense (heap_page_head s') (k + Z.to_nat sz) /\
    length (heap_page_head s') = length (heap_page_head s).
Proof.
  intros Hsz Hd Hk. unfold kmalloc. cbn [irq_disable_save].
  destruct (Z.eqb_spec sz 0); [lia|].
  change (heap_page_head (set_iflag false s)) with (heap_page_head s).
  rewrite (kmalloc_search_dense sz _ k) by done. rewrite !Z.add_0_l, Nat2Z.id.
  destruct (set_status_at_spec k (Z.to_nat sz) 1 (heap_page_head s) Hk) as (h' & -> & Hl & Hi).
  simpl. eexists. split; [done|]. rewrite irq_restore_heap. simpl.
  split; [|by rewrite length_alter]. intros i nd.
  assert (forall m, h' !! i = Some m -> status m = if bool_decide (i < k + Z.to_nat sz)%nat then 1 else 0) as Hst.
  { intros m. rewrite Hi. case_bool_decide as Hin.
    - intros (m0 & Hm0 & ->)%fmap_Some. by rewrite bool_decide_eq_true_2 by lia.
    - intros Hm. rewrite (Hd i m Hm). repeat case_bool_decide; (lia || done). }
  destruct (decide (i = k)) as [->|].
  - rewrite list_lookup_alter_eq. intros (m & Hm & ->)%fmap_Some. simpl. by apply Hst.
  - rewrite list_lookup_alter_ne by done. apply Hst.
Qed.

(** A run of allocations. *)
Fixpoint kmalloc_all (szs : list Z) (s : mst) : outcome (list Z * mst) :=
  match szs with
  | [] => Ok ([], s)
  | sz :: szs' =>
      '(a, s) ← kmalloc sz s;
      '(l, s) ← kmalloc_all szs' s;
      Ok (a :: l, s)
  end.

Definition sum_chunks (szs : list Z) : Z := foldr Z.add 0 szs.

(** The addresses of consecutive blocks from node [k]. *)
Fixpoint offsets (k : Z) (szs : list Z) : list Z :=
  match szs with
  | [] => []
  | sz :: szs' => (HEAP_START_VIRT_DEFINED + k * 64) :: offsets (k + sz) szs'
  end.

Lemma sum_chunks_nonneg szs : Forall (fun sz => 0 < sz) szs -> 0 <= sum_chunks szs.
Proof. induction 1; simpl; lia. Qed.

Lemma kmalloc_all_dense szs s k :
  Forall (fun sz => 0 < sz) szs -> dense (heap_page_head s) k ->
  Z.of_nat k + sum_chunks szs <= Z.of_nat (length (heap_page_head s)) <= 2 ^ 32 ->
  exists s', kmalloc_all szs s = Ok (offsets (Z.of_nat k) szs, s').
Proof.
  intros Hp. revert s k. induction Hp as [|sz szs Hsz Hszs IH]; intros s k Hd Hk; [by eexists|].
  simpl in Hk. pose proof (sum_chunks_nonneg _ Hszs).
  destruct (kmalloc_dense sz s k) as (s1 & Hk1 & Hd1 & Hl1); [done..|lia|].
  cbn [kmalloc_all]. rewrite Hk1. simpl.
  destruct (IH s1 (k + Z.to_nat sz)%nat Hd1) as (s2 & ->); [rewrite Hl1; lia|]. simpl.
  exists s2. replace (Z.of_nat (k + Z.to_nat sz)) with (Z.of_nat k + sz) by lia.
  rewrite wrap64_small; [done|]. unfold HEAP_START_VIRT_DEFINED, HEAP_CHUNK_SIZE_DEFINED. lia.
Qed.

Lemma offsets_bounds k szs j b :
  Forall (fun sz => 0 < sz) szs -> offsets k szs !! j = Some b -> HEAP_START_VIRT_DEFINED + k * 64 <= b.
Proof.
  intros Hp. revert k j. induction Hp as [|sz szs Hsz _ IH]; intros k j H; [done|].
  destruct j as [|j]; simpl in H; [injection H as <-; lia|]. apply IH in H. lia.
Qed.

Lemma offsets_disjoint k szs i j sz a b :
  Forall (fun sz => 0 < sz) szs -> (i < j)%nat ->
  szs !! i = Some sz -> offsets k szs !! i = Some a -> offsets k szs !! j = Some b -> a + sz * 64 <= b.
Proof.
  intros Hp. revert k i j. induction Hp as [|z szs Hz Hp IH]; intros k i j Hij Hs Ha Hb; [done|].
  destruct j as [|j]; [lia|]. destruct i as [|i]; simpl in *.
  - injection Hs as ->. injection Ha as <-. apply offsets_bounds in Hb; [lia|done].
  - eapply (IH (k + z) i j); (done || lia).
Qed.

(** A run of allocations on the heap of [init_heap], as long as it fits,
    returns pairwise disjoint blocks: each block ends before every later one
    begins, and all lie in the heap's address range. *)
Lemma kmalloc_run_disjoint (szs : list Z) (n : nat) (s : mst)
    (H0 : heap_page_head s = fresh_heap n) (Hpos : Forall (fun sz => 0 < sz) szs)
    (Hfit : sum_chunks szs <= Z.of_nat n <= 2 ^ 32) :
  exists addrs s', kmalloc_all szs s = Ok (addrs, s') /\ length addrs = length szs /\
    (forall i a, addrs !! i = Some a -> HEAP_START_VIRT_DEFINED <= a) /\
    forall i j sz a b, (i < j)%nat -> szs !! i = Some sz -> addrs !! i = Some a ->
      addrs !! j = Some b -> a + sz * HEAP_CHUNK_SIZE_DEFINED <= b.
Proof.
  destruct (kmalloc_all_dense szs s 0) as (s' & ->); [done|..].
  - intros i m Hm. rewrite H0 in Hm. apply lookup_replicate in Hm as [-> _]. done.
  - rewrite H0. unfold fresh_heap. rewrite length_replicate. lia.
  - eexists _, s'. split; [done|]. split_and!.
    + clear. generalize (Z.of_nat 0). induction szs; intros k; simpl; auto.
    + intros i a Ha. apply offsets_bounds in Ha; [lia|done].
    + intros. by eapply offsets_disjoint.
Qed.

Definition heap_state (n : nat) : mst := Mst (fun _ => 0) true [] 0 (fresh_heap n).

Lemma kmalloc_run_disjoint_witness :
  exists addrs s', kmalloc_all [3; 1; 7] (heap_state 16) = Ok (addrs, s') /\ length addrs = 3%nat.
Proof.
  destruct (kmalloc_run_disjoint [3; 1; 7] 16 (heap_state 16)) as (l & s' & H1 & H2 & _).
  - reflexivity.
  - repeat constructor.
  - vm_compute. split; discriminate.
  - exists l, s'. split; [exact H1|exact H2].
Defined.

(** after a block has been freed, two live blocks can share addresses: from
    a fresh heap, allocate 10 chunks, free them, allocate 16 and then 9; the
    16-chunk block is returned at chunk 1 and the 9-chunk block at chunk 0, and
    both are still allocated. *)
Lemma kmalloc_live_blocks_overlap :
  exists a b c s1 s2 s3 s4,
    kmalloc 10 (heap_state 64) = Ok (a, s1) /\ kfree a s1 = Ok s2 /\
    kmalloc 16 s2 = Ok (b, s3) /\ kmalloc 9 s3 = Ok (c, s4) /\
    c < b < c + 9 * HEAP_CHUNK_SIZE_DEFINED.
Proof.
  set (r1 := kmalloc 10 (heap_state 64)). vm_compute in r1.
  destruct r1 as [[a s1]|] eqn:E1; [|done]. subst r1. injection E1 as <- <-.
  do 7 eexists. split; [reflexivity|]. split; [reflexivity|]. split; [reflexivity|].
  split; [reflexivity|]. vm_compute. split; reflexivity.
Qed.

Lemma heap_index_of i :
  0 <= i < 2 ^ 32 -> heap_index (HEAP_START_VIRT_DEFINED + i * HEAP_CHUNK_SIZE_DEFINED) = i.
Proof.
  intros Hi. unfold heap_index, HEAP_START_VIRT_DEFINED, HEAP_CHUNK_SIZE_DEFINED.
  rewrite wrap64_small by lia. rewrite Z.add_comm, Z.add_simpl_r. by apply Z.div_mul.
Qed.

(** [kfree] looks at the node before the one it is given: freeing any
    block that does not start at the first node of the heap returns and leaves the
    status of every node as it was. *)
Theorem kfree_releases_nothing (i : nat) (l : Z) (s : mst)
    (Hinv : heap_inv (heap_page_head s)) (Hb : block (heap_page_head s) i l)
    (Hi : (1 <= i)%nat) (Hsmall : Z.of_nat i < 2 ^ 32) :
  exists s', kfree (HEAP_START_VIRT_DEFINED + Z.of_nat i * HEAP_CHUNK_SIZE_DEFINED) s = Ok s' /\
    forall j, status <$> heap_page_head s' !! j = status <$> heap_page_head s !! j.
Proof.
  set (a := HEAP_START_VIRT_DEFINED + Z.of_nat i * HEAP_CHUNK_SIZE_DEFINED).
  assert (heap_index a = Z.of_nat i) as Hidx.
  { apply heap_index_of. lia. }
  destruct (block_lookup _ _ _ Hb) as (nb & Hnb & _). apply lookup_lt_Some in Hnb.
  destruct (lookup_lt_is_Some_2 (heap_page_head s) (i - 1)%nat ltac:(lia)) as [n Hn].
  assert (kfree_pos (heap_index a) = (i - 1)%nat) as Hp by (rewrite Hidx; unfold kfree_pos; lia).
  destruct (kfree_cases a s n Hinv) as (s' & Hk & _ & _ & _ & [_ Hr]); [by rewrite Hp|].
  exists s'. split; [done|]. rewrite Hp in Hr.
  assert (alloc_length n <= 1) as Hal.
  { destruct (Z_le_dec (alloc_length n) 1); [done|].
    pose proof (hi_disjoint _ Hinv (i - 1)%nat (alloc_length n) i l) as Hd.
    specialize (Hd ltac:(exists n; split_and!; (done || lia)) Hb ltac:(lia)). lia. }
  intros j. rewrite Hr. cbn zeta. rewrite (bool_decide_eq_false_2 (_ <= _ < _)%nat) by lia.
  case_bool_decide; [|done]. by destruct (heap_page_head s !! j).
Qed.

Definition two_blocks : mst :=
  match kmalloc_all [2; 3] (heap_state 8) with Ok (_, s) => s | Err _ => heap_state 0 end.

Lemma two_blocks_reachable : rtc heap_step (heap_state 8) two_blocks.
Proof.
  eapply rtc_l; [eapply (step_kmalloc 2); [lia|reflexivity]|].
  eapply rtc_l; [eapply (step_kmalloc 3); [lia|reflexivity]|]. apply rtc_refl.
Qed.

Lemma heap_reachable_inv_witness : heap_inv (heap_page_head two_blocks).
Proof. apply (heap_reachable_inv 8 (heap_state 8)); [reflexivity|exact two_blocks_reachable]. Defined.

Lemma two_blocks_inv : heap_inv (heap_page_head two_blocks).
Proof.
  apply (kmalloc_inv 3 (HEAP_START_VIRT_DEFINED + 128)
           (match kmalloc 2 (heap_state 8) with Ok (_, s) => s | _ => heap_state 0 end));
    [lia|reflexivity|].
  apply (kmalloc_inv 2 HEAP_START_VIRT_DEFINED (heap_state 8)); [lia|reflexivity|].
  apply fresh_heap_inv.
Qed.

Lemma kfree_releases_nothing_witness :
  exists s', kfree 0xffffc00000000080 two_blocks = Ok s' /\
    forall j, status <$> heap_page_head s' !! j = status <$> heap_page_head two_blocks !! j.
Proof.
  apply (kfree_releases_nothing 2 3 two_blocks).
  - exact two_blocks_inv.
  - eexists. split; [reflexivity|]. split; [reflexivity|lia].
  - lia.
  - lia.
Defined.

Lemma kmalloc_functional_witness :
  exists a s', kmalloc 2 two_blocks = Ok (a, s') /\ heap_inv (heap_page_head s').
Proof.
  destruct (kmalloc_functional 2 two_blocks) as (a & s' & H1 & _ & _ & _ & H2 & _).
  - lia.
  - exact two_blocks_inv.
  - vm_compute. discriminate.
  - exists a, s'. split; [exact H1|exact H2].
Defined.

(** ** krealloc_byte *)

(** The block at node [i] survives a [kmalloc]. *)
Lemma kmalloc_keeps_block sz s a s' i l :
  0 <= sz -> heap_inv (heap_page_head s) -> block (heap_page_head s) i l ->
  kmalloc sz s = Ok (a, s') -> block (heap_page_head s') i l.
Proof.
  intros Hsz Hinv Hb Hk. destruct (kmalloc_cases sz s Hsz) as (a0 & s0 & Hk0 & _ & _ & _ & Hcase).
  rewrite Hk in Hk0. injection Hk0 as <- <-.
  destruct Hcase as [(_ & ->)|(Hpos & p & _ & Hle & Hfree & Ht)]; [done|].
  eapply taken_block_back; eauto.
Qed.

(** All of what [krealloc_byte] does to a live block. *)
Lemma krealloc_byte_spec i l sz s :
  heap_inv (heap_page_head s) -> mem_ok (mm s) -> block (heap_page_head s) i l ->
  Z.of_nat i < 2 ^ 32 -> l < 2 ^ 32 -> 0 <= sz ->
  let va := HEAP_START_VIRT_DEFINED + Z.of_nat i * HEAP_CHUNK_SIZE_DEFINED in
  let n := Z.min sz (l * 64) in
  exists ret s', krealloc_byte va sz s = Ok (ret, s') /\ iflag s' = iflag s /\
    memmap_arr s' = memmap_arr s /\ heap_inv (heap_page_head s') /\ mem_ok (mm s') /\
    (ret = NULL -> mm s' = mm s) /\
    (Z.of_nat (length (heap_page_head s)) <= 2 ^ 32 -> ret <> NULL -> HEAP_START_VIRT_DEFINED <= ret) /\
    (ret <> NULL -> same_outside (mm s) (mm s') ret n) /\
    (ret <> NULL -> (ret + n <= va \/ va + n <= ret) ->
       forall x, 0 <= x < n -> mm s' (ret + x) = mm s (va + x)).
Proof.
  intros Hinv Hm Hb Hi Hl Hsz va n. unfold krealloc_byte. cbn [irq_disable_save]. rewrite chunks_kmalloc.
  destruct (kmalloc_cases (chunks sz) (set_iflag false s))
    as (ret & s1 & Hk & Hm1 & Hmap1 & Hif1 & Hcase);
    [by apply chunks_nonneg|]. rewrite Hk. cbn [mbind outcome_bind].
  assert (heap_inv (heap_page_head s1)) as Hinv1.
  { eapply kmalloc_inv; [by apply chunks_nonneg|done|done]. }
  destruct (Z.eqb_spec ret NULL) as [->|Hret].
  { eexists _, _. split; [done|]. autorewrite with willow_rw. rewrite irq_restore_iflag by done.
    rewrite Hm1. split_and!; done. }
  destruct (Z.eqb_spec va NULL); [unfold va, NULL, HEAP_START_VIRT_DEFINED, HEAP_CHUNK_SIZE_DEFINED in *; lia|].
  pose proof (kmalloc_keeps_block _ (set_iflag false s) _ _ i l (chunks_nonneg sz Hsz) Hinv Hb Hk) as Hb1.
  assert (heap_index va = Z.of_nat i) as Hidx by (apply heap_index_of; lia).
  rewrite Hidx, Nat2Z.id.
  destruct Hb1 as (nd & Hnd & Hal & Hlpos). rewrite Hnd. cbn [checked mbind outcome_bind].
  rewrite Hal, wrap64_small by lia.
  replace (if sz <=? l * 64 then sz else l * 64) with n by (unfold n; destr_cmp; lia).
  set (s2 := set_mm (memcpy (mm s1) ret va n) s1).
  destruct (lookup_lt_is_Some_2 (heap_page_head s2) (kfree_pos (heap_index va))) as [m Hmd].
  { rewrite Hidx. apply lookup_lt_Some in Hnd. unfold kfree_pos. simpl. lia. }
  destruct (kfree_cases va s2 m Hinv1 Hmd) as (s3 & Hk3 & Hm3 & Hmap3 & Hif3 & _). rewrite Hk3.
  cbn [mbind outcome_bind]. eexists _, _. split; [done|]. autorewrite with willow_rw.
  rewrite irq_restore_iflag by (rewrite Hif3; exact Hif1). rewrite Hm3.
  assert (mm s2 = memcpy (mm s) ret va n) as -> by (cbn [mm s2 set_mm]; by rewrite Hm1).
  split_and!; try done.
  - rewrite Hmap3. exact Hmap1.
  - eapply kfree_inv; [exact Hk3|done].
  - by apply memcpy_loop_ok.
  - intros Hlen _. destruct Hcase as [(-> & _)|(_ & p & -> & Hle & _)]; [done|].
    pose proof (skips_range (chunks sz) p (heap_page_head (set_iflag false s))).
    cbn [heap_page_head set_iflag] in *.
    rewrite wrap64_small; unfold HEAP_START_VIRT_DEFINED, HEAP_CHUNK_SIZE_DEFINED; lia.
  - intros _. by apply memcpy_outside.
  - intros _ Hdis. by apply memcpy_spec; [unfold n; lia|done|lia].
Qed.


