(* ===== verification/Arena.v ===== *)
(** * What the heap promises its clients

    A heap whose used nodes are the first [k] ones hands out consecutive
    blocks: [kmalloc_byte] returns the address after the last used node, and
    [kfree] and [krealloc_byte] of any block but the first keep that shape.  The
    file systems are verified against this interface. *)

From S2P Require Import Prelude Memory Machine Heap.

(** The address of node [k]. *)
Definition node_addr (k : nat) : Z := HEAP_START_VIRT_DEFINED + Z.of_nat k * 64.

(** The first [k] nodes are used and the others free. *)
Record arena (s : mst) (k : nat) : Prop := {
  ar_inv : heap_inv (heap_page_head s);
  ar_dense : dense (heap_page_head s) k;
  ar_len : Z.of_nat (length (heap_page_head s)) <= 2 ^ 32;
  ar_k : (k <= length (heap_page_head s))%nat
}.

(** The number of nodes [sz] bytes need, as a [nat]. *)
Definition nodes (sz : Z) : nat := Z.to_nat (chunks sz).

Definition room (s : mst) (k : nat) (sz : Z) : Prop := (k + nodes sz <= length (heap_page_head s))%nat.

Lemma chunks_bytes sz : 0 <= sz -> sz <= 64 * chunks sz.
Proof.
  intros H. unfold chunks. pose proof (Z.div_mod sz 64 ltac:(lia)). pose proof (Z.mod_pos_bound sz 64 ltac:(lia)).
  repeat destr_cmp; lia.
Qed.

Lemma chunks_pos sz : 0 < sz -> 0 < chunks sz.
Proof. intros H. pose proof (chunks_bytes sz ltac:(lia)). lia. Qed.

Lemma kmalloc_byte_chunks sz s : kmalloc_byte sz s = kmalloc (chunks sz) s.
Proof.
  unfold kmalloc_byte, chunks. cbn [irq_disable_save]. rewrite irq_bracket.
  destruct (sz =? 0), (sz <=? 64), (sz mod 64 =? 0); done.
Qed.

Lemma node_addr_range s k : arena s k -> HEAP_START_VIRT_DEFINED <= node_addr k < 2 ^ 64.
Proof.
  intros [_ _ H1 H2]. unfold node_addr, HEAP_START_VIRT_DEFINED. lia.
Qed.

Lemma node_addr_nonnull s k : arena s k -> node_addr k <> NULL.
Proof. intros H. pose proof (node_addr_range s k H). unfold HEAP_START_VIRT_DEFINED, NULL in *. lia. Qed.

Lemma arena_same_heap s s' k : heap_page_head s' = heap_page_head s -> arena s k -> arena s' k.
Proof. intros E []. split; by rewrite E. Qed.

(** [set_mm] does not touch the heap. *)
Lemma arena_set_mm s k m : arena s k -> arena (set_mm m s) k.
Proof. by apply arena_same_heap. Qed.

Lemma arena_set_iflag s k b : arena s k -> arena (set_iflag b s) k.
Proof. intros []. by split. Qed.

#[export] Hint Resolve arena_set_mm arena_set_iflag : willow.

(** Allocation: the block goes after the used nodes; nothing else changes. *)
Lemma kmalloc_byte_arena sz s k :
  0 < sz -> arena s k -> room s k sz ->
  exists s', kmalloc_byte sz s = Ok (node_addr k, s') /\ mm s' = mm s /\ iflag s' = iflag s /\
    arena s' (k + nodes sz) /\ length (heap_page_head s') = length (heap_page_head s) /\
    block (heap_page_head s') k (chunks sz) /\
    (forall q l, block (heap_page_head s) q l -> block (heap_page_head s') q l).
Proof.
  intros Hsz Ha Hroom. pose proof (chunks_pos sz Hsz) as Hc. pose proof Ha as [Hinv Hd Hlen Hk].
  rewrite kmalloc_byte_chunks. unfold room, nodes in *.
  destruct (kmalloc_dense (chunks sz) s k Hc Hd) as (s' & Hkm & Hd' & Hl'); [lia|].
  destruct (kmalloc_cases (chunks sz) s ltac:(lia)) as (a & s0 & Hkm0 & Hmm & _ & Hif & Hcase).
  rewrite Hkm in Hkm0. injection Hkm0 as <- <-.
  assert (wrap64 (HEAP_START_VIRT_DEFINED + Z.of_nat k * HEAP_CHUNK_SIZE_DEFINED) = node_addr k) as Hw.
  { clear - Hlen Hk. unfold node_addr. apply wrap64_small. unfold HEAP_START_VIRT_DEFINED, HEAP_CHUNK_SIZE_DEFINED. lia. }
  rewrite Hw in *. exists s'. split; [done|].
  destruct Hcase as [(Hz & _)|(_ & p & Hp & Hple & Hfree & Ht)].
  { by destruct (node_addr_nonnull s k Ha). }
  assert (p = k) as ->.
  { (* the taken run is the one the dense heap shows *)
    destruct (decide (p = k)) as [|Hne]; [done|exfalso]. destruct Ht as [_ Ht].
    destruct (decide (p < k)%nat).
    - destruct (lookup_lt_is_Some_2 (heap_page_head s) p) as [nd Hn]; [lia|].
      apply (Hfree p nd); [lia|done|]. rewrite (Hd p nd Hn). by rewrite bool_decide_eq_true_2.
    - destruct (lookup_lt_is_Some_2 (heap_page_head s) k) as [nd Hn]; [lia|].
      assert (heap_page_head s' !! k = Some nd) as Hn'.
      { rewrite Ht. rewrite !bool_decide_eq_false_2 by lia. done. }
      pose proof (Hd k nd Hn) as H0. pose proof (Hd' k nd Hn') as H1.
      rewrite bool_decide_eq_false_2 in H0 by lia. rewrite bool_decide_eq_true_2 in H1 by lia. lia. }
  split_and!; [done|done| |done| |].
  - split; [|done|by rewrite Hl'|rewrite Hl'; lia]. by eapply heap_inv_taken.
  - eapply taken_block_back; eauto.
  - intros q l Hb. eapply taken_block_back; eauto.
Qed.

(** Blocks lie among the used nodes. *)
Lemma block_below s k i l : arena s k -> block (heap_page_head s) i l -> Z.of_nat i + l <= Z.of_nat k.
Proof.
  intros Har Hb. pose proof Hb as (nd & _ & _ & Hl).
  destruct (hi_used _ (ar_inv _ _ Har) i l (Z.to_nat (Z.of_nat i + l - 1)) Hb) as (u & Hu & Hsu); [lia|lia|].
  pose proof (ar_dense _ _ Har _ u Hu) as Hd. case_bool_decide; lia.
Qed.

(** The address is that of a node after the first, and the node before it, the one [kfree] looks
    at, does not start a block of more than one node. *)
Definition freeable_at (h : list heap_page) (a : Z) : Prop :=
  exists i, a = node_addr i /\ (1 <= i < length h)%nat /\ forall l, block h (i - 1) l -> l <= 1.

(** Freeing such an address keeps the shape; longer blocks stay and no block appears. *)
Lemma kfree_arena_at s k a :
  arena s k -> freeable_at (heap_page_head s) a ->
  exists s', kfree a s = Ok s' /\ mm s' = mm s /\ iflag s' = iflag s /\ arena s' k /\
    length (heap_page_head s') = length (heap_page_head s) /\
    (forall q l, block (heap_page_head s') q l -> block (heap_page_head s) q l) /\
    (forall q l, a <> node_addr (S q) -> block (heap_page_head s) q l -> block (heap_page_head s') q l).
Proof.
  intros [Hinv Hd Hlen Hk] (i & -> & Hi & Hone).
  assert (heap_index (node_addr i) = Z.of_nat i) as Hidx by (apply (heap_index_of (Z.of_nat i)); lia).
  assert (kfree_pos (heap_index (node_addr i)) = (i - 1)%nat) as Hpos by (rewrite Hidx; unfold kfree_pos; lia).
  destruct (lookup_lt_is_Some_2 (heap_page_head s) (i - 1)) as [n Hn]; [lia|].
  destruct (kfree_cases (node_addr i) s n Hinv) as (s' & Hf & Hmm & _ & Hif & Hr); [by rewrite Hpos|].
  rewrite Hpos in Hr. exists s'.
  assert (alloc_length n <= 1) as Hal.
  { destruct (Z_le_dec (alloc_length n) 1); [done|]. apply Hone. exists n. split_and!; (done || lia). }
  split_and!; [done..| |by destruct Hr|intros q l Hb; by destruct (released_block _ _ _ _ q l Hr Hb)|].
  2: { intros q l' Hq (m & Hm & Hlm). destruct Hr as [_ Hr]. exists m. split; [|done].
       assert (q <> i - 1)%nat by (intros ->; apply Hq; by replace (S (i - 1)) with i by lia).
       rewrite Hr. cbn zeta. rewrite !bool_decide_eq_false_2 by lia. done. }
  split; [by eapply heap_inv_released| | |].
  - intros j m Hj. destruct Hr as [_ Hr]. rewrite Hr in Hj. cbn zeta in Hj.
    rewrite (bool_decide_eq_false_2 (_ <= j < _)%nat) in Hj by lia.
    case_bool_decide; [apply fmap_Some in Hj as (m0 & Hm0 & ->); by apply (Hd j m0)|by apply (Hd j m)].
  - destruct Hr as [-> _]. done.
  - destruct Hr as [-> _]. done.
Qed.

(** A block that is not at the first node can be freed. *)
Lemma block_freeable h i l : heap_inv h -> block h i l -> (1 <= i)%nat -> freeable_at h (node_addr i).
Proof.
  intros Hinv Hb Hi. assert (i < length h)%nat by (destruct Hb as (n & Hn & _); by apply lookup_lt_Some in Hn).
  exists i. split_and!; [done|lia|lia|]. intros l' Hb'. pose proof (hi_disjoint _ Hinv (i - 1) l' i l Hb' Hb). lia.
Qed.

Lemma kfree_arena s k i l :
  arena s k -> block (heap_page_head s) i l -> (1 <= i)%nat ->
  exists s', kfree (node_addr i) s = Ok s' /\ mm s' = mm s /\ iflag s' = iflag s /\ arena s' k /\
    length (heap_page_head s') = length (heap_page_head s) /\
    (forall q l', q <> (i - 1)%nat -> block (heap_page_head s) q l' -> block (heap_page_head s') q l').
Proof.
  intros Har Hb Hi.
  destruct (kfree_arena_at s k (node_addr i) Har) as (s' & H1 & H2 & H3 & H4 & H5 & _ & H6);
    [apply (block_freeable _ i l); [apply Har|done|done]|].
  exists s'. split_and!; try done. intros q l' Hq. apply H6. intros E. apply Hq. unfold node_addr in E. lia.
Qed.

(** Reallocation of a block that is not the first: the bytes move to the end of
    the used part. *)
Lemma krealloc_byte_arena s k i l sz :
  arena s k -> block (heap_page_head s) i l -> (1 <= i)%nat -> 0 < sz -> room s k sz ->
  exists s', krealloc_byte (node_addr i) sz s = Ok (node_addr k, s') /\ iflag s' = iflag s /\
    mm s' = memcpy (mm s) (node_addr k) (node_addr i) (Z.min sz (64 * l)) /\
    arena s' (k + nodes sz) /\ length (heap_page_head s') = length (heap_page_head s) /\
    block (heap_page_head s') k (chunks sz).
Proof.
  intros Har Hb Hi Hsz Hroom. pose proof (node_addr_nonnull s k Har) as Hk0. unfold krealloc_byte.
  cbn [irq_disable_save]. rewrite chunks_kmalloc, <- kmalloc_byte_chunks.
  assert (arena (set_iflag false s) k) as Har0 by auto with willow.
  destruct (kmalloc_byte_arena sz (set_iflag false s) k Hsz Har0 Hroom)
    as (s1 & -> & Hmm & Hif & Har1 & Hlen & Hbk & Hbs).
  cbn [mbind outcome_bind]. destruct (Z.eqb_spec (node_addr k) NULL); [done|].
  assert (i < k)%nat as Hik.
  { pose proof (block_below s k i l Har Hb). destruct Hb as (?&?&?&?). lia. }
  destruct (Z.eqb_spec (node_addr i) NULL) as [Hi0|_].
  { unfold node_addr, HEAP_START_VIRT_DEFINED, NULL in Hi0. lia. }
  pose proof (Hbs i l Hb) as Hb1. pose proof Hb1 as (nd & Hn & Hln & Hl0).
  assert (i < length (heap_page_head s1))%nat as Hil by (by apply lookup_lt_Some in Hn).
  assert (Z.of_nat i + l <= Z.of_nat (length (heap_page_head s1))) as Hle.
  { destruct (hi_used _ (ar_inv _ _ Har1) i l (Z.to_nat (Z.of_nat i + l - 1)) Hb1) as (u & Hu & _); [lia|lia|].
    apply lookup_lt_Some in Hu. lia. }
  pose proof (ar_len _ _ Har1) as Hmax.
  assert (heap_index (node_addr i) = Z.of_nat i) as Hidx by (apply (heap_index_of (Z.of_nat i)); lia).
  rewrite Hidx, Nat2Z.id, Hn. cbn [checked mbind outcome_bind]. rewrite Hln.
  rewrite (wrap64_small (l * 64)) by lia.
  replace (if sz <=? l * 64 then sz else l * 64) with (Z.min sz (64 * l)) by (destr_cmp; lia).
  set (m := memcpy _ _ _ _).
  destruct (kfree_arena (set_mm m s1) (k + nodes sz) i l) as (s2 & -> & Hmm2 & Hif2 & Har2 & Hlen2 & Hbs2);
    [auto with willow|done|done|].
  cbn [mbind outcome_bind]. exists (irq_restore (iflag s) s2). split; [done|].
  autorewrite with willow_rw. split_and!.
  - apply irq_restore_iflag. by rewrite Hif2.
  - rewrite Hmm2. unfold m. cbn [mm set_mm]. by rewrite Hmm.
  - unfold irq_restore. destruct (iflag s); auto with willow.
  - by rewrite Hlen2.
  - apply Hbs2; [lia|done].
Qed.
