(* ===== verification/Paging.v ===== *)
(** * Page tables: paging.c

    Four-level page tables in memory: a table is 512 eight-byte entries at the
    direct-map address of its frame.  The walk functions read and write
    the entries as the source does; [table_at] follows present entries along a
    list of indices and is the view the theorems are stated on.  A running
    thread keeps an array of its mappings ([thread_mappings_t]), which
    [map_page] and [unmap_page] maintain. *)

From S2P Require Import Prelude Memory Machine Frames Heap.

(** ** State *)

(** [thread_mappings_t] of scheduler.h; the array is in memory, 24 bytes per
    entry: [virt_address] at 0, [flag] at 8 and the byte [used] at 16. *)
Record thread_mappings : Type := Mappings {
  mapped_virt_addresses_array : Z;
  num_mappings : Z;
  max_mappings : Z
}.

Definition MAPPING_SIZE : Z := 24.

(** The machine, and the mappings of the running thread once
    [scheduling_started] is set. *)
Record pst : Type := Pst {
  ms : mst;
  cur : option thread_mappings
}.

Definition entry_addr (arr i : Z) : Z := arr + i * MAPPING_SIZE.

Section Paging.
Context (hhdm_offset : Z).

(** ** Indices and entries *)

Definition pml4_index (v : Z) : Z := Z.land (Z.shiftr v 39) 0x1FF.
Definition pdpt_index (v : Z) : Z := Z.land (Z.shiftr v 30) 0x1FF.
Definition pd_index (v : Z) : Z := Z.land (Z.shiftr v 21) 0x1FF.
Definition pt_index (v : Z) : Z := Z.land (Z.shiftr v 12) 0x1FF.
Definition page_offset (v : Z) : Z := Z.land v 0xFFF.

(** [~0xfff] converted to [uint64_t]. *)
Definition PAGE_MASK : Z := 2 ^ 64 - 4096.

(** [entries[i]] of the table at [t]. *)
Definition entry (m : mem) (t i : Z) : Z := load64 m (t + 8 * i).

(** [(page_struct* )((e & ~0xfff) + hhdm_offset)] *)
Definition next_table (e : Z) : Z := wrap64 (Z.land e PAGE_MASK + hhdm_offset).

(** ** map_page *)

(** One level: the entry, a new zeroed table put there if it is not present. *)
Definition level_step (table index permissions : Z) (s : mst) : outcome (Z * mst) :=
  let e := entry (mm s) table index in
  if Z.land e 1 =? 0 then
    '(frame, s) ← alloc_frame hhdm_offset s;
    let new_entry := Z.lor frame permissions in
    Ok (new_entry, set_mm (store64 (mm s) (table + 8 * index) new_entry) s)
  else Ok (e, s).

(** The table part of [map_page]. *)
Definition map_tables (pml4 phys_address virt_address permissions : Z) (s : mst) : outcome mst :=
  '(pml4_entry, s) ← level_step pml4 (pml4_index virt_address) permissions s;
  '(pdpt_entry, s) ← level_step (next_table pml4_entry) (pdpt_index virt_address) permissions s;
  '(pd_entry, s) ← level_step (next_table pdpt_entry) (pd_index virt_address) permissions s;
  let pt := next_table pd_entry in
  Ok (set_mm (store64 (mm s) (pt + 8 * pt_index virt_address) (Z.lor phys_address permissions)) s).

(** [for (i = 0; i < max_mappings; i++) if (array[i].used == 0) ...]: the first
    unused slot. *)
Fixpoint find_unused (n : nat) (i : Z) (m : mem) (arr : Z) : option Z :=
  match n with
  | O => None
  | S n' => if m (entry_addr arr i + 16) =? 0 then Some i else find_unused n' (i + 1) m arr
  end.

(** [for (i = max; i < max + 8; i++) array[i] = {0, 0, 0};] *)
Fixpoint clear_slots (n : nat) (i : Z) (m : mem) (arr : Z) : mem :=
  match n with
  | O => m
  | S n' =>
      let a := entry_addr arr i in
      clear_slots n' (i + 1) (store64 (store8 (store64 m a 0) (a + 16) 0) (a + 8) 0) arr
  end.

(** The recording part of [map_page], for the running thread's mappings: the
    slot's index and the mappings, grown by eight slots when they are full. *)
Definition record_mapping (virt_address : Z) (t : thread_mappings) (s : mst)
    : outcome (Z * thread_mappings * mst) :=
  let arr := mapped_virt_addresses_array t in
  let found := find_unused (Z.to_nat (max_mappings t)) 0 (mm s) arr in
  let '(ret, num, m) :=
    match found with
    | Some i =>
        let a := entry_addr arr i in
        (i, wrap64 (num_mappings t + 1), store8 (store64 (mm s) a virt_address) (a + 16) 1)
    | None => (0, num_mappings t, mm s)
    end in
  let s := set_mm m s in
  if num =? max_mappings t then
    '(arr', s) ← krealloc_byte arr (wrap64 (wrap64 (max_mappings t + 8) * MAPPING_SIZE)) s;
    if arr' =? NULL then Err NullDeref
    else Ok (ret, Mappings arr' num (wrap64 (max_mappings t + 8)),
             set_mm (clear_slots 8 (max_mappings t) (mm s) arr') s)
  else Ok (ret, Mappings arr num (max_mappings t), s).

(** With a running thread the function returns before [irq_restore]. *)
Definition map_page (pml4 phys_address virt_address permissions : Z) (p : pst) : outcome (Z * pst) :=
  let '(irq, s) := irq_disable_save (ms p) in
  s ← map_tables pml4 phys_address virt_address permissions s;
  match cur p with
  | Some t => '(ret, t, s) ← record_mapping virt_address t s; Ok (ret, Pst s (Some t))
  | None => Ok (UINT64_MAX, Pst (irq_restore irq s) None)
  end.

(** ** map_range *)

Definition EINVAL : Z := 22.
Definition PAGE_SIZE_DEFINED : Z := 0x1000.

(** [array[ret].flag = flag] when a thread is running. *)
Definition set_flag (ret flag : Z) (p : pst) : pst :=
  match cur p with
  | Some t =>
      Pst (set_mm (store64 (mm (ms p)) (entry_addr (mapped_virt_addresses_array t) ret + 8) flag) (ms p))
        (Some t)
  | None => p
  end.

(** One page of the range: a fresh frame mapped at [virt_address]. *)
Definition map_fresh (pml4 virt_address permissions flag : Z) (p : pst) : outcome pst :=
  '(phys_page, s) ← alloc_frame hhdm_offset (ms p);
  '(ret, p) ← map_page pml4 phys_page virt_address permissions (Pst s (cur p));
  Ok (set_flag ret flag p).

(** The number of pages the loops of [map_range] and [change_page_map_range] run over. *)
Definition range_pages (virt_address size : Z) : Z :=
  let size := wrap64 (size + Z.land virt_address 0xfff) in
  if size <=? PAGE_SIZE_DEFINED then 1
  else if size mod PAGE_SIZE_DEFINED =? 0 then size / PAGE_SIZE_DEFINED
  else size / PAGE_SIZE_DEFINED + 1.

Definition map_range (pml4 virt_address permissions size flag : Z) (p : pst) : outcome (Z * pst) :=
  if size =? 0 then Ok (EINVAL, p)
  else
    p ← loop (range_pages virt_address size)
          (fun i p => map_fresh pml4 (wrap64 (virt_address + i * PAGE_SIZE_DEFINED)) permissions flag p) p;
    Ok (0, p).

(** ** unmap_page *)

(** The address of the page-table entry the walk of [unmap_page] and
    [virt_to_phys] reaches; it does not look at the present bits. *)
Definition walk (m : mem) (pml4 virt_address : Z) : Z :=
  let pdpt := next_table (entry m pml4 (pml4_index virt_address)) in
  let pd := next_table (entry m pdpt (pdpt_index virt_address)) in
  let pt := next_table (entry m pd (pd_index virt_address)) in
  pt + 8 * pt_index virt_address.

(** The first slot whose address is [virt_address], used or not. *)
Fixpoint find_mapping (n : nat) (i : Z) (m : mem) (arr virt_address : Z) : option Z :=
  match n with
  | O => None
  | S n' =>
      if load64 m (entry_addr arr i) =? virt_address then Some i
      else find_mapping n' (i + 1) m arr virt_address
  end.

Definition forget_mapping (virt_address : Z) (t : thread_mappings) (m : mem) : mem * thread_mappings :=
  let arr := mapped_virt_addresses_array t in
  match find_mapping (Z.to_nat (max_mappings t)) 0 m arr virt_address with
  | Some i =>
      let a := entry_addr arr i in
      (store64 (store64 (store8 m (a + 16) 0) (a + 8) 0) a 0,
       Mappings arr (wrap64 (num_mappings t - 1)) (max_mappings t))
  | None => (m, t)
  end.

Definition unmap_page (pml4 virt_address : Z) (p : pst) : pst :=
  let '(irq, s) := irq_disable_save (ms p) in
  let m := store64 (mm s) (walk (mm s) pml4 virt_address) 0 in
  match cur p with
  | Some t =>
      let '(m, t) := forget_mapping virt_address t m in
      Pst (irq_restore irq (set_mm m s)) (Some t)
  | None => Pst (irq_restore irq (set_mm m s)) None
  end.

(** ** change_page_map *)

(** One level: [entry |= permissions], written back. *)
Definition or_entry (m : mem) (table index permissions : Z) : Z * mem :=
  let e := Z.lor (entry m table index) permissions in
  (e, store64 m (table + 8 * index) e).

Definition change_page_map (pml4 virt_address permissions : Z) (s : mst) : mst :=
  let '(irq, s) := irq_disable_save s in
  let '(e, m) := or_entry (mm s) pml4 (pml4_index virt_address) permissions in
  let '(e, m) := or_entry m (next_table e) (pdpt_index virt_address) permissions in
  let '(e, m) := or_entry m (next_table e) (pd_index virt_address) permissions in
  let '(_, m) := or_entry m (next_table e) (pt_index virt_address) permissions in
  irq_restore irq (set_mm m s).

Definition change_page_map_range (pml4 virt_address size permissions : Z) (s : mst) : outcome (Z * mst) :=
  if size =? 0 then Ok (EINVAL, s)
  else
    s ← loop (range_pages virt_address size)
          (fun i s => Ok (change_page_map pml4 (wrap64 (virt_address + i * PAGE_SIZE_DEFINED)) permissions s)) s;
    Ok (0, s).

(** ** Translation *)

Definition virt_to_phys (m : mem) (virt_address cr3 : Z) : Z :=
  wrap64 (Z.land (load64 m (walk m cr3 virt_address)) PAGE_MASK + page_offset virt_address).

Definition virt_to_phys_page (m : mem) (virt_address cr3 : Z) : Z :=
  Z.land (virt_to_phys m virt_address cr3) PAGE_MASK.

(** ** init_paging and create_new_userspace_page_table *)

(** [for (i = lo; i < lo + n; i++) dst[i] = src[i];] *)
Fixpoint copy_entries (n : nat) (i : Z) (m : mem) (dst src : Z) : mem :=
  match n with
  | O => m
  | S n' => copy_entries n' (i + 1) (store64 m (dst + 8 * i) (entry m src i)) dst src
  end.

Fixpoint zero_entries (n : nat) (i : Z) (m : mem) (dst : Z) : mem :=
  match n with
  | O => m
  | S n' => zero_entries n' (i + 1) (store64 m (dst + 8 * i) 0) dst
  end.

(** A copy of the loader's top-level table; [cr3] is its physical address. The
    result is [pml4_address_virt_glob], whose frame [cr3] is set to. *)
Definition init_paging (cr3 : Z) (s : mst) : outcome (Z * mst) :=
  '(frame, s) ← alloc_frame hhdm_offset s;
  let page := wrap64 (frame + hhdm_offset) in
  Ok (page, set_mm (copy_entries 512 0 (mm s) page (wrap64 (cr3 + hhdm_offset))) s).

(** scheduler.c: an empty lower half and the kernel's upper half. *)
Definition create_new_userspace_page_table (pml4_address_virt_glob : Z) (s : mst) : outcome (Z * mst) :=
  '(frame, s) ← alloc_frame hhdm_offset s;
  let cr3 := wrap64 (frame + hhdm_offset) in
  let m := zero_entries 512 0 (mm s) cr3 in
  Ok (cr3, set_mm (copy_entries 256 256 m cr3 pml4_address_virt_glob) s).

(** ** Arithmetic of entries and indices *)

(** Masking the low [k] bits of a 64-bit number. *)
Lemma land_high x k : is_u64 x -> 0 <= k <= 64 -> Z.land x (2 ^ 64 - 2 ^ k) = x / 2 ^ k * 2 ^ k.
Proof.
  intros Hx Hk. unfold is_u64 in Hx.
  replace (2 ^ 64 - 2 ^ k) with (Z.shiftl (Z.ones (64 - k)) k).
  2:{ rewrite Z.shiftl_mul_pow2, Z.ones_equiv by lia. rewrite <- Z.sub_1_r, Z.mul_sub_distr_r, <- Z.pow_add_r by lia.
      do 2 f_equal; lia. }
  rewrite <- Z.shiftr_div_pow2, <- Z.shiftl_mul_pow2 by lia.
  apply Z.bits_inj'. intros n Hn. rewrite Z.land_spec.
  destruct (Z.lt_ge_cases n k).
  - rewrite !(Z.shiftl_spec_low _ k n) by lia. by rewrite andb_false_r.
  - rewrite !Z.shiftl_spec by lia. rewrite Z.shiftr_spec by lia.
    replace (n - k + k) with n by lia.
    destruct (Z.lt_ge_cases n 64).
    + rewrite Z.ones_spec_low by lia. by rewrite andb_true_r.
    + rewrite Z.ones_spec_high, andb_false_r by lia.
      symmetry. destruct (Z.eq_dec x 0) as [->|]; [by rewrite Z.bits_0|].
      apply Z.bits_above_log2; [lia|]. apply Z.lt_le_trans with 64; [|lia].
      apply Z.log2_lt_pow2; lia.
Qed.

Lemma land_page_mask x : is_u64 x -> Z.land x PAGE_MASK = x / 4096 * 4096.
Proof. intros Hx. exact (land_high x 12 Hx ltac:(lia)). Qed.

Lemma lor_low f perm :
  f mod 4096 = 0 -> 0 <= f -> 0 <= perm < 4096 -> Z.lor f perm = f + perm.
Proof.
  intros Hf Hf0 Hp. rewrite <- Z.lxor_lor, <- Z.add_nocarry_lxor; [done|..].
  all: replace f with (Z.shiftl (f / 4096) 12)
      by (rewrite Z.shiftl_mul_pow2 by lia; change (2 ^ 12) with 4096;
          pose proof (Z.div_mod f 4096); lia);
    apply Z.bits_inj'; intros n Hn; rewrite Z.land_spec, Z.bits_0.
  all: destruct (Z.lt_ge_cases n 12); [by rewrite Z.shiftl_spec_low by lia|].
  all: rewrite (Z.bits_above_log2 perm n), andb_false_r; [done|lia|].
  all: destruct (Z.eq_dec perm 0) as [->|]; [simpl; lia|].
  all: apply Z.lt_le_trans with 12; [apply Z.log2_lt_pow2; lia|lia].
Qed.

Lemma land_1_mod e : Z.land e 1 = e mod 2.
Proof. change 1 with (Z.ones 1). by rewrite Z.land_ones by lia. Qed.

Definition index_ok (i : Z) : Prop := 0 <= i < 512.

Lemma land_1ff x : index_ok (Z.land x 0x1FF).
Proof.
  unfold index_ok. change 0x1FF with (Z.ones 9). rewrite Z.land_ones by lia.
  apply Z.mod_pos_bound. lia.
Qed.

Lemma index_ok_all v :
  index_ok (pml4_index v) /\ index_ok (pdpt_index v) /\ index_ok (pd_index v) /\ index_ok (pt_index v).
Proof. split_and!; apply land_1ff. Qed.

(** A frame's direct-map address, and the entry that points to it. *)
Lemma next_table_frame f perm :
  0 <= f -> f + 4096 <= PHYS_LIMIT -> f mod 4096 = 0 -> hhdm_ok hhdm_offset -> 0 <= perm < 4096 ->
  next_table (Z.lor f perm) = f + hhdm_offset.
Proof.
  intros H0 Hl Hf (Hh & _ & Hh') Hp. unfold next_table. rewrite lor_low by done.
  unfold PHYS_LIMIT in *. rewrite land_page_mask by (unfold is_u64; lia).
  replace ((f + perm) / 4096 * 4096) with f.
  - apply wrap64_small. lia.
  - pose proof (Z.div_mod f 4096 ltac:(lia)) as Hd. rewrite Hf in Hd.
    replace (f + perm) with (perm + f / 4096 * 4096) by lia.
    rewrite Z.div_add by lia. rewrite (Z.div_small perm) by lia. lia.
Qed.

(** ** The tree of tables *)

(** Follows the present entries from the table [t]. *)
Fixpoint table_at (m : mem) (t : Z) (path : list Z) : option Z :=
  match path with
  | [] => Some t
  | i :: path' =>
      let e := entry m t i in
      if Z.land e 1 =? 0 then None else table_at m (next_table e) path'
  end.

(** The paths of interest: indices below 512, the top-level one in [dom]. *)
Definition path_ok (dom : Z -> Prop) (p : list Z) : Prop :=
  Forall index_ok p /\ match p with [] => True | i :: _ => dom i end.

Definition path_of (v : Z) : list Z := [pml4_index v; pdpt_index v; pd_index v].

(** [a] is the direct-map address of a frame that is not free. *)
Definition table_frame (rs : list region) (a : Z) : Prop :=
  exists f, a = f + hhdm_offset /\ 0 <= f /\ f + 4096 <= PHYS_LIMIT /\ f mod 4096 = 0 /\ ~ frame_free rs f.

(** The part of the tree below the top-level indices in [dom] is a tree: no
    table is reached by two paths, and every table is in an allocated frame. *)
Record pt_inv (dom : Z -> Prop) (pml4 : Z) (s : mst) : Prop := {
  pi_inj : forall p q a, path_ok dom p -> path_ok dom q -> (length p <= 3)%nat -> (length q <= 3)%nat ->
    table_at (mm s) pml4 p = Some a -> table_at (mm s) pml4 q = Some a -> p = q;
  pi_frame : forall p a, path_ok dom p -> (length p <= 3)%nat ->
    table_at (mm s) pml4 p = Some a -> table_frame (memmap_arr s) a;
  pi_regions : regions_ok (memmap_arr s);
  pi_mem : mem_ok (mm s)
}.

Lemma table_at_app m t p q :
  table_at m t (p ++ q) = table_at m t p ≫= (fun t' => table_at m t' q).
Proof.
  revert t. induction p as [|i p IH]; intros t; [done|]. cbn [table_at app].
  destruct (Z.land (entry m t i) 1 =? 0); [done|]. apply IH.
Qed.

Lemma path_ok_app dom p q : path_ok dom (p ++ q) -> path_ok dom p.
Proof. intros [H1 H2]. apply Forall_app in H1 as [H1 _]. split; [done|]. by destruct p. Qed.

Lemma path_ok_snoc dom p i : path_ok dom (p ++ [i]) -> index_ok i.
Proof. intros [H _]. apply Forall_app in H as [_ H]. by inv H. Qed.

(** Two tables that are different do not overlap, nor do two entries of one. *)
Lemma entry_apart a b i j rs rs' :
  table_frame rs a -> table_frame rs' b -> hhdm_ok hhdm_offset -> index_ok i -> index_ok j ->
  a <> b \/ i <> j -> (b + 8 * j) + 8 <= a + 8 * i \/ (a + 8 * i) + 8 <= b + 8 * j.
Proof.
  intros (f & -> & _ & _ & Hf & _) (g & -> & _ & _ & Hg & _) _ Hi Hj Hne.
  unfold index_ok in *. destruct (Z.eq_dec f g) as [->|Hfg]; [lia|].
  pose proof (Z.div_mod f 4096). pose proof (Z.div_mod g 4096). lia.
Qed.

(** Memory that agrees on the tables a path goes through gives the same walk. *)
Lemma table_at_agree m m' pml4 p :
  (forall q j b, q ++ [j] `prefix_of` p -> table_at m pml4 q = Some b ->
     entry m' b j = entry m b j) ->
  table_at m' pml4 p = table_at m pml4 p.
Proof.
  induction p as [|j p IH] using rev_ind; intros H; [done|].
  rewrite !table_at_app, IH.
  - destruct (table_at m pml4 p) as [b|] eqn:Hb; [|done]. cbn [mbind option_bind table_at].
    by rewrite (H p j b).
  - intros q k b Hq. apply H. by apply prefix_app_r.
Qed.

(** Writing one entry of the table at path [p] changes no walk but those
    through that entry. *)
Lemma table_at_store dom pml4 s p a i v q :
  pt_inv dom pml4 s -> hhdm_ok hhdm_offset ->
  path_ok dom (p ++ [i]) -> (length p <= 3)%nat -> table_at (mm s) pml4 p = Some a ->
  path_ok dom q -> (length q <= 3)%nat -> ~ (p ++ [i] `prefix_of` q) ->
  table_at (store64 (mm s) (a + 8 * i) v) pml4 q = table_at (mm s) pml4 q.
Proof.
  intros Hinv Hh Hp Hlp Ha Hq Hlq Hnp. apply table_at_agree. intros q' j b Hpre Hb.
  destruct Hpre as [r ->]. rewrite <- app_assoc in *.
  assert (path_ok dom q') as Hq' by (by eapply path_ok_app).
  assert (length q' <= 3)%nat as Hlq' by (rewrite !length_app in Hlq; lia).
  apply load64_store64_ne.
  eapply (entry_apart a b i j (memmap_arr s) (memmap_arr s)); try done.
  - eapply (pi_frame _ _ _ Hinv p); [by eapply path_ok_app|done|done].
  - by eapply (pi_frame _ _ _ Hinv q').
  - by eapply path_ok_snoc.
  - rewrite app_assoc in Hq. by eapply path_ok_snoc, path_ok_app.
  - destruct (Z.eq_dec a b) as [->|]; [|by left]. right. intros ->. apply Hnp.
    rewrite (pi_inj _ _ _ Hinv p q' b); try done; [|by eapply path_ok_app].
    exists r. by rewrite <- app_assoc.
Qed.

(** Clearing a frame that is free changes no table. *)
Lemma table_at_alloc dom pml4 s f s' q :
  pt_inv dom pml4 s -> hhdm_ok hhdm_offset -> allocated hhdm_offset s f s' ->
  path_ok dom q -> (length q <= 4)%nat ->
  (forall b j, table_at (mm s) pml4 q = Some b -> (length q <= 3)%nat -> index_ok j ->
     entry (mm s') b j = entry (mm s) b j) /\
  ((length q <= 3)%nat -> table_at (mm s') pml4 q = table_at (mm s) pml4 q).
Proof.
  intros Hinv Hh Hal Hq Hlq.
  assert (forall q b j, path_ok dom q -> (length q <= 3)%nat -> table_at (mm s) pml4 q = Some b ->
    index_ok j -> entry (mm s') b j = entry (mm s) b j) as Hent.
  { intros q0 b j Hq0 Hl Hb Hj. apply load_le_ext. intros x Hx. apply (al_frame _ _ _ _ Hal).
    destruct (pi_frame _ _ _ Hinv q0 b Hq0 Hl Hb) as (g & -> & _ & _ & Hg & Hng).
    assert (g <> f) by (intros ->; by apply Hng, (al_free _ _ _ _ Hal)).
    destruct (frame_free_aligned _ _ (pi_regions _ _ _ Hinv) (al_free _ _ _ _ Hal)) as (_ & _ & Hf).
    unfold index_ok in Hj. pose proof (Z.div_mod f 4096). pose proof (Z.div_mod g 4096). lia. }
  split; [intros b j Hb Hl Hj; by apply (Hent q)|].
  intros Hl. apply table_at_agree. intros q' j b Hpre Hb. destruct Hpre as [r ->].
  rewrite <- app_assoc in Hq. apply (Hent q'); [by eapply path_ok_app|rewrite !length_app in Hl; lia|done|].
  rewrite app_assoc in Hq. by eapply path_ok_snoc, path_ok_app.
Qed.

Lemma pt_inv_alloc dom pml4 s f s' :
  pt_inv dom pml4 s -> hhdm_ok hhdm_offset -> allocated hhdm_offset s f s' -> pt_inv dom pml4 s'.
Proof.
  intros Hinv Hh Hal.
  assert (forall q, path_ok dom q -> (length q <= 3)%nat ->
    table_at (mm s') pml4 q = table_at (mm s) pml4 q) as Ht.
  { intros q Hq Hl. eapply table_at_alloc; try done. lia. }
  split.
  - intros p q a Hp Hq Hlp Hlq. rewrite !Ht by done. by apply (pi_inj _ _ _ Hinv).
  - intros p a Hp Hlp. rewrite Ht by done. intros Ha.
    destruct (pi_frame _ _ _ Hinv p a Hp Hlp Ha) as (g & -> & ? & ? & ? & Hng).
    exists g. split_and!; try done. intros Hfree. apply Hng. by apply (al_taken _ _ _ _ Hal).
  - apply (al_regions _ _ _ _ Hal).
  - apply (al_mem_ok _ _ _ _ Hal), (pi_mem _ _ _ Hinv).
Qed.

(** At least [n] frames are free. *)
Definition enough (n : nat) (rs : list region) : Prop :=
  exists l, NoDup l /\ length l = n /\ Forall (frame_free rs) l.

Lemma enough_less n rs : enough (S n) rs -> enough n rs.
Proof.
  intros (l & Hnd & Hl & Hf). destruct l as [|x l]; [done|]. inv Hnd. inv Hf. exists l. auto.
Qed.

Lemma enough_alloc n s f s' :
  allocated hhdm_offset s f s' -> enough (S n) (memmap_arr s) -> enough n (memmap_arr s').
Proof.
  intros Hal (l & Hnd & Hl & Hf).
  assert (forall l, Forall (frame_free (memmap_arr s)) l -> f ∉ l ->
    Forall (frame_free (memmap_arr s')) l) as Hkeep.
  { induction 1 as [|x l' Hx _ IH]; intros Hn; [constructor|].
    apply not_elem_of_cons in Hn as [? ?]. constructor; [|auto]. by apply (al_taken _ _ _ _ Hal). }
  destruct (decide (f ∈ l)) as [Hin|Hout].
  - apply list_elem_of_split in Hin as (l1 & l2 & ->).
    exists (l1 ++ l2). rewrite !length_app in *. simpl in Hl. split_and!; [|lia|].
    + rewrite <- Permutation_middle in Hnd. by inv Hnd.
    + assert (f ∉ l1 ++ l2) by (rewrite <- Permutation_middle in Hnd; by inv Hnd).
      apply Hkeep; [|done]. apply Forall_app in Hf as [H1 H2]. inv H2. by apply Forall_app.
  - destruct l as [|x l]; [done|]. inv Hnd. inv Hf. apply not_elem_of_cons in Hout as [_ ?].
    exists l. simpl in Hl. split_and!; [done|lia|]. by apply Hkeep.
Qed.

(** Every table of [s] is in [s'], with the same leaf entries. *)
Definition extends (dom : Z -> Prop) (pml4 : Z) (s s' : mst) : Prop :=
  forall q b, path_ok dom q -> (length q <= 3)%nat -> table_at (mm s) pml4 q = Some b ->
    table_at (mm s') pml4 q = Some b /\
    (length q = 3%nat -> forall j, index_ok j -> entry (mm s') b j = entry (mm s) b j).

Lemma extends_trans dom pml4 s1 s2 s3 :
  extends dom pml4 s1 s2 -> extends dom pml4 s2 s3 -> extends dom pml4 s1 s3.
Proof.
  intros H1 H2 q b Hq Hl Hb. destruct (H1 q b Hq Hl Hb) as [Hb2 He2].
  destruct (H2 q b Hq Hl Hb2) as [Hb3 He3]. split; [done|]. intros H3 j Hj.
  rewrite He3, He2 by done. done.
Qed.

(** The walks through a new, zeroed table put at path [p ++ [i]]. *)
Lemma table_at_new dom pml4 s f s1 p a i perm :
  pt_inv dom pml4 s -> hhdm_ok hhdm_offset -> allocated hhdm_offset s f s1 ->
  path_ok dom (p ++ [i]) -> (length p <= 2)%nat -> table_at (mm s) pml4 p = Some a ->
  0 <= perm < 4096 -> perm mod 2 = 1 ->
  let m := store64 (mm s1) (a + 8 * i) (Z.lor f perm) in
  table_at m pml4 (p ++ [i]) = Some (f + hhdm_offset) /\
  forall j r, index_ok j -> table_at m pml4 (p ++ [i] ++ j :: r) = None.
Proof.
  intros Hinv Hh Hal Hpi Hlp Ha Hperm Hodd m.
  pose proof (pt_inv_alloc _ _ _ _ _ Hinv Hh Hal) as Hinv1.
  assert (path_ok dom p) as Hp by (by eapply path_ok_app).
  assert (table_at (mm s1) pml4 p = Some a) as Ha1.
  { destruct (table_at_alloc dom pml4 s f s1 p) as [_ H]; try done; [lia|]. by rewrite H by lia. }
  pose proof (frame_free_aligned _ _ (pi_regions _ _ _ Hinv) (al_free _ _ _ _ Hal)) as (Hf0 & Hf1 & Hf2).
  assert (table_at m pml4 p = Some a) as Ham.
  { unfold m. rewrite <- Ha1. eapply table_at_store; try done; try lia.
    intros Hpre%prefix_length. rewrite length_app in Hpre. simpl in Hpre. lia. }
  assert (entry m a i = f + perm) as He.
  { unfold m, entry. rewrite lor_low by lia. apply load64_store64_eq.
    unfold is_u64, PHYS_LIMIT in *. lia. }
  assert (table_at m pml4 (p ++ [i]) = Some (f + hhdm_offset)) as Hnew.
  { rewrite table_at_app, Ham. cbn [mbind option_bind table_at]. rewrite He, land_1_mod.
    replace ((f + perm) mod 2) with 1.
    - cbn [Z.eqb]. rewrite <- lor_low by lia. by rewrite next_table_frame by (done || lia).
    - pose proof (Z.div_mod f 4096). replace (f + perm) with (perm + (2048 * (f / 4096)) * 2) by lia.
      by rewrite Z.mod_add by lia. }
  split; [done|]. intros j r Hj.
  rewrite app_assoc, table_at_app, Hnew. cbn [mbind option_bind table_at].
  replace (entry m (f + hhdm_offset) j) with 0; [done|]. symmetry. unfold entry, m.
  unfold index_ok in Hj. rewrite load64_store64_ne.
  - apply load_le_zero. intros x Hx. apply (al_zero _ _ _ _ Hal). lia.
  - destruct (pi_frame _ _ _ Hinv p a Hp ltac:(lia) Ha) as (g & -> & _ & _ & Hg & Hng).
    assert (g <> f) by (intros ->; by apply Hng, (al_free _ _ _ _ Hal)).
    pose proof (path_ok_snoc _ _ _ Hpi) as Hi. unfold index_ok in Hi.
    pose proof (Z.div_mod f 4096). pose proof (Z.div_mod g 4096). lia.
Qed.

(** The tree after a new table has been put at path [p ++ [i]]. *)
Lemma walk_new dom pml4 s f s1 p a i perm q :
  pt_inv dom pml4 s -> hhdm_ok hhdm_offset -> allocated hhdm_offset s f s1 ->
  path_ok dom (p ++ [i]) -> (length p <= 2)%nat -> table_at (mm s) pml4 p = Some a ->
  table_at (mm s) pml4 (p ++ [i]) = None -> 0 <= perm < 4096 -> perm mod 2 = 1 ->
  path_ok dom q -> (length q <= 3)%nat ->
  table_at (store64 (mm s1) (a + 8 * i) (Z.lor f perm)) pml4 q =
    if decide (q = p ++ [i]) then Some (f + hhdm_offset) else table_at (mm s) pml4 q.
Proof.
  intros Hinv Hh Hal Hpi Hlp Ha Hnone Hperm Hodd Hq Hlq.
  pose proof (table_at_new dom pml4 s f s1 p a i perm Hinv Hh Hal Hpi Hlp Ha Hperm Hodd) as [Hnew Hbelow].
  pose proof (pt_inv_alloc _ _ _ _ _ Hinv Hh Hal) as Hinv1.
  assert (forall q, path_ok dom q -> (length q <= 3)%nat ->
    table_at (mm s1) pml4 q = table_at (mm s) pml4 q) as Hsame.
  { intros q' Hq' Hl'. eapply table_at_alloc; try done. lia. }
  case_decide as Heq; [by subst|].
  destruct (decide (p ++ [i] `prefix_of` q)) as [[r ->]|Hnp].
  - destruct r as [|j r]; [by rewrite app_nil_r in Heq|].
    rewrite <- app_assoc. rewrite Hbelow.
    + rewrite app_assoc, table_at_app, Hnone. done.
    + destruct Hq as [Hq _]. apply Forall_app in Hq as [_ Hq]. by inv Hq.
  - rewrite <- (Hsame q) by done. eapply table_at_store; try done; [lia|].
    rewrite Hsame; [done|by eapply path_ok_app|lia].
Qed.

(** Nothing above the direct map changes. *)
Definition same_above (s s' : mst) : Prop :=
  forall x, hhdm_offset + PHYS_LIMIT <= x -> mm s' x = mm s x.

(** A byte that is neither in a free frame nor in a table of the tree. *)
Definition data_byte (dom : Z -> Prop) (pml4 : Z) (s : mst) (x : Z) : Prop :=
  (forall f, frame_free (memmap_arr s) f -> ~ (f + hhdm_offset <= x < f + hhdm_offset + 4096)) /\
  (forall q b, path_ok dom q -> (length q <= 3)%nat -> table_at (mm s) pml4 q = Some b -> ~ (b <= x < b + 4096)).

(** Data stays data and keeps its value. *)
Definition keeps_data (dom : Z -> Prop) (pml4 : Z) (s s' : mst) : Prop :=
  forall x, data_byte dom pml4 s x -> data_byte dom pml4 s' x /\ mm s' x = mm s x.

Lemma keeps_data_trans dom pml4 s1 s2 s3 :
  keeps_data dom pml4 s1 s2 -> keeps_data dom pml4 s2 s3 -> keeps_data dom pml4 s1 s3.
Proof. intros H1 H2 x Hx. destruct (H1 x Hx) as [Hx2 E2]. destruct (H2 x Hx2) as [Hx3 E3]. split; congruence. Qed.

Lemma keeps_data_alloc dom pml4 s f s' :
  pt_inv dom pml4 s -> hhdm_ok hhdm_offset -> allocated hhdm_offset s f s' -> keeps_data dom pml4 s s'.
Proof.
  intros Hinv Hh Hal x [Hf Ht]. split; [split|].
  - intros g [Hg _]%(al_taken _ _ _ _ Hal). by apply Hf.
  - intros q b Hq Hl. rewrite (proj2 (table_at_alloc dom pml4 s f s' q Hinv Hh Hal Hq ltac:(lia)) Hl). by apply Ht.
  - apply (al_frame _ _ _ _ Hal). apply Hf, (al_free _ _ _ _ Hal).
Qed.

(** The effect of one level of [map_page]. *)
Record step_ok (dom : Z -> Prop) (pml4 : Z) (s s' : mst) : Prop := {
  so_inv : pt_inv dom pml4 s';
  so_ext : extends dom pml4 s s';
  so_above : same_above s s';
  so_data : keeps_data dom pml4 s s';
  so_iflag : iflag s' = iflag s;
  so_heap : heap_page_head s' = heap_page_head s
}.

Lemma step_ok_trans dom pml4 s1 s2 s3 :
  step_ok dom pml4 s1 s2 -> step_ok dom pml4 s2 s3 -> step_ok dom pml4 s1 s3.
Proof.
  intros [? He1 Ha1 Hd1 Hi1 Hh1] [? He2 Ha2 Hd2 Hi2 Hh2]. split; try congruence.
  - by eapply extends_trans.
  - intros x Hx. by rewrite Ha2, Ha1.
  - by eapply keeps_data_trans.
Qed.

Lemma new_table_ok dom pml4 s f s1 p a i perm :
  pt_inv dom pml4 s -> hhdm_ok hhdm_offset -> allocated hhdm_offset s f s1 ->
  path_ok dom (p ++ [i]) -> (length p <= 2)%nat -> table_at (mm s) pml4 p = Some a ->
  table_at (mm s) pml4 (p ++ [i]) = None -> 0 <= perm < 4096 -> perm mod 2 = 1 ->
  step_ok dom pml4 s (set_mm (store64 (mm s1) (a + 8 * i) (Z.lor f perm)) s1).
Proof.
  intros Hinv Hh Hal Hpi Hlp Ha Hnone Hperm Hodd.
  pose proof (fun q => walk_new dom pml4 s f s1 p a i perm q Hinv Hh Hal Hpi Hlp Ha Hnone Hperm Hodd) as Hwalk.
  pose proof (frame_free_aligned _ _ (pi_regions _ _ _ Hinv) (al_free _ _ _ _ Hal)) as (Hf0 & Hf1 & Hf2).
  assert (forall q b, path_ok dom q -> (length q <= 3)%nat -> table_at (mm s) pml4 q = Some b ->
    b <> f + hhdm_offset) as Hfresh.
  { intros q b Hq Hl Hb ->. destruct (pi_frame _ _ _ Hinv q _ Hq Hl Hb) as (g & Hg & _ & _ & _ & Hng).
    replace g with f in Hng by lia. by apply Hng, (al_free _ _ _ _ Hal). }
  assert (path_ok dom p) as Hp by (by eapply path_ok_app).
  pose proof (pi_frame _ _ _ Hinv p a Hp ltac:(lia) Ha) as Hfa.
  split; cbn [mm set_mm memmap_arr iflag heap_page_head].
  - split; cbn [mm set_mm memmap_arr].
    + intros q q' b Hq Hq' Hl Hl'. rewrite !Hwalk by done.
      do 2 case_decide; subst; try done.
      * intros [= <-] Hb. by destruct (Hfresh q' _ Hq' Hl' Hb).
      * intros Hb [= <-]. by destruct (Hfresh q _ Hq Hl Hb).
      * by apply (pi_inj _ _ _ Hinv).
    + intros q b Hq Hl. rewrite Hwalk by done. case_decide.
      * intros [= <-]. exists f. split_and!; try done; try lia.
        intros Hfree. by apply (al_taken _ _ _ _ Hal) in Hfree as [_ ?].
      * intros Hb. destruct (pi_frame _ _ _ Hinv q b Hq Hl Hb) as (g & -> & ? & ? & ? & Hng).
        exists g. split_and!; try done. intros Hfree. by apply (al_taken _ _ _ _ Hal) in Hfree as [? _].
    + apply (al_regions _ _ _ _ Hal).
    + apply store_le_ok, (al_mem_ok _ _ _ _ Hal), (pi_mem _ _ _ Hinv).
  - intros q b Hq Hl Hb. cbn [mm set_mm]. rewrite Hwalk by done. split.
    + case_decide; [subst; congruence|done].
    + intros H3 j Hj. unfold entry. rewrite load64_store64_ne.
      * eapply (proj1 (table_at_alloc dom pml4 s f s1 q Hinv Hh Hal Hq ltac:(lia))); done.
      * eapply (entry_apart a b i j (memmap_arr s) (memmap_arr s)); try done.
        -- by eapply (pi_frame _ _ _ Hinv q).
        -- by eapply path_ok_snoc.
        -- left. intros ->. assert (p = q) by (by apply (pi_inj _ _ _ Hinv p q b); try lia). subst. lia.
  - intros x Hx. cbn [mm set_mm]. destruct Hfa as (g & -> & ? & ? & ? & _).
    pose proof (path_ok_snoc _ _ _ Hpi) as Hi. unfold index_ok in Hi.
    unfold store64. rewrite store_le_outside by lia. apply (al_frame _ _ _ _ Hal). lia.
  - intros x Hx. destruct (keeps_data_alloc _ _ _ _ _ Hinv Hh Hal x Hx) as [[Hxf _] Hxm]. split; [split|].
    + exact Hxf.
    + intros q b Hq Hl. cbn [mm set_mm]. rewrite Hwalk by done. case_decide; [|by apply (proj2 Hx)].
      intros [= <-]. apply (proj1 Hx), (al_free _ _ _ _ Hal).
    + cbn [mm set_mm]. rewrite <- Hxm. apply store64_out. pose proof (path_ok_snoc _ _ _ Hpi) as Hi. unfold index_ok in Hi.
      pose proof (proj2 Hx p a Hp ltac:(lia) Ha). lia.
  - apply (al_iflag _ _ _ _ Hal).
  - apply (al_heap _ _ _ _ Hal).
Qed.

Lemma step_ok_refl dom pml4 s : pt_inv dom pml4 s -> step_ok dom pml4 s s.
Proof. intros H. by split. Qed.

Lemma level_step_spec dom pml4 s p a i perm n :
  pt_inv dom pml4 s -> hhdm_ok hhdm_offset -> enough (S n) (memmap_arr s) ->
  path_ok dom (p ++ [i]) -> (length p <= 2)%nat -> table_at (mm s) pml4 p = Some a ->
  0 <= perm < 4096 -> perm mod 2 = 1 ->
  exists e s', level_step a i perm s = Ok (e, s') /\ step_ok dom pml4 s s' /\
    enough n (memmap_arr s') /\ table_at (mm s') pml4 (p ++ [i]) = Some (next_table e).
Proof.
  intros Hinv Hh Hen Hpi Hlp Ha Hperm Hodd. unfold level_step.
  destruct (Z.land (entry (mm s) a i) 1 =? 0) eqn:He.
  - destruct (alloc_frame_cases hhdm_offset s Hh (pi_regions _ _ _ Hinv))
      as (f & s1 & -> & [[Hal _]|(-> & -> & Hno)]).
    2: { destruct Hen as ([|x l] & _ & Hl & Hf); [done|]. inv Hf. by destruct (Hno x). }
    cbn [mbind outcome_bind].
    assert (table_at (mm s) pml4 (p ++ [i]) = None) as Hnone.
    { rewrite table_at_app, Ha. cbn [mbind option_bind table_at]. by rewrite He. }
    pose proof (frame_free_aligned _ _ (pi_regions _ _ _ Hinv) (al_free _ _ _ _ Hal)) as (Hf0 & Hf1 & Hf2).
    eexists _, _. split; [done|]. split; [by eapply new_table_ok|]. split.
    + exact (enough_alloc n s f s1 Hal Hen).
    + cbn [mm set_mm]. rewrite next_table_frame by (done || lia).
      by destruct (table_at_new dom pml4 s f s1 p a i perm).
  - eexists _, _. split; [done|]. split; [by apply step_ok_refl|]. split; [by apply enough_less|].
    rewrite table_at_app, Ha. cbn [mbind option_bind table_at]. by rewrite He.
Qed.

(** ** map_page *)

Lemma path_of_ok dom v : dom (pml4_index v) -> path_ok dom (path_of v).
Proof.
  intros Hd. destruct (index_ok_all v) as (? & ? & ? & _). split; [|done].
  unfold path_of. by repeat (constructor; [done|]).
Qed.

(** The unchecked walk and the tree agree where all levels are present. *)
Lemma walk_table m pml4 v t :
  table_at m pml4 (path_of v) = Some t -> walk m pml4 v = t + 8 * pt_index v.
Proof.
  unfold walk, path_of. cbn [table_at].
  destruct (_ =? 0); [done|]. destruct (_ =? 0); [done|]. destruct (_ =? 0); [done|].
  by intros [= <-].
Qed.

(** Writing a leaf entry keeps the tree and every other leaf entry. *)
Lemma leaf_store_ok dom pml4 s v t x :
  pt_inv dom pml4 s -> hhdm_ok hhdm_offset -> dom (pml4_index v) ->
  table_at (mm s) pml4 (path_of v) = Some t ->
  let s' := set_mm (store64 (mm s) (t + 8 * pt_index v) x) s in
  pt_inv dom pml4 s' /\ same_above s s' /\ keeps_data dom pml4 s s' /\
  forall q b, path_ok dom q -> (length q <= 3)%nat -> table_at (mm s) pml4 q = Some b ->
    table_at (mm s') pml4 q = Some b /\
    (length q = 3%nat -> forall j, index_ok j -> (q, j) <> (path_of v, pt_index v) ->
       entry (mm s') b j = entry (mm s) b j).
Proof.
  intros Hinv Hh Hd Ht s'. pose proof (path_of_ok dom v Hd) as Hp.
  destruct (index_ok_all v) as (_ & _ & _ & Hi).
  assert (path_ok dom (path_of v ++ [pt_index v])) as Hp4.
  { destruct Hp as [Hp1 Hp2]. split; [|done]. apply Forall_app. split; [done|]. by constructor; [|constructor]. }
  assert (forall q, path_ok dom q -> (length q <= 3)%nat ->
    table_at (mm s') pml4 q = table_at (mm s) pml4 q) as Hsame.
  { intros q Hq Hl. unfold s'. cbn [mm set_mm]. eapply table_at_store; try done.
    intros Hpre%prefix_length. rewrite length_app in Hpre. simpl in Hpre. lia. }
  pose proof (pi_frame _ _ _ Hinv _ _ Hp ltac:(done) Ht) as Hft.
  split_and!.
  - split; cbn [memmap_arr s' set_mm].
    + intros q q' b Hq Hq' Hl Hl'. rewrite !Hsame by done. by apply (pi_inj _ _ _ Hinv).
    + intros q b Hq Hl. rewrite Hsame by done. by apply (pi_frame _ _ _ Hinv).
    + apply (pi_regions _ _ _ Hinv).
    + apply store_le_ok, (pi_mem _ _ _ Hinv).
  - intros y Hy. cbn [mm s' set_mm]. destruct Hft as (g & -> & ? & ? & _).
    unfold store64, index_ok in *. apply store_le_outside. lia.
  - intros y [Hyf Hyt]. split; [split|].
    + exact Hyf.
    + intros q b Hq Hl. rewrite Hsame by done. by apply Hyt.
    + cbn [mm s' set_mm]. apply store64_out. pose proof (Hyt _ _ Hp ltac:(done) Ht). unfold index_ok in *. lia.
  - intros q b Hq Hl Hb. rewrite Hsame by done. split; [done|]. intros H3 j Hj Hne.
    unfold s'. cbn [mm set_mm]. apply load64_store64_ne.
    eapply (entry_apart t b _ j (memmap_arr s) (memmap_arr s)); try done.
    + by eapply (pi_frame _ _ _ Hinv q).
    + destruct (Z.eq_dec t b) as [->|]; [|by left]. right. intros <-. apply Hne. f_equal.
      by apply (pi_inj _ _ _ Hinv q (path_of v) b).
Qed.

(** What [map_tables] does: the page of [v] gets the entry [pa | perm], every
    other mapped page keeps its entry. *)
Lemma map_tables_spec dom pml4 s v pa perm n :
  pt_inv dom pml4 s -> hhdm_ok hhdm_offset -> enough (3 + n) (memmap_arr s) -> dom (pml4_index v) ->
  table_at (mm s) pml4 [] = Some pml4 ->
  0 <= perm < 4096 -> perm mod 2 = 1 -> 0 <= pa -> pa + 4096 <= PHYS_LIMIT -> pa mod 4096 = 0 ->
  exists s' t, map_tables pml4 pa v perm s = Ok s' /\ pt_inv dom pml4 s' /\ same_above s s' /\
    iflag s' = iflag s /\ heap_page_head s' = heap_page_head s /\
    enough n (memmap_arr s') /\ keeps_data dom pml4 s s' /\
    table_at (mm s') pml4 (path_of v) = Some t /\ entry (mm s') t (pt_index v) = pa + perm /\
    forall q b, path_ok dom q -> (length q <= 3)%nat -> table_at (mm s) pml4 q = Some b ->
      table_at (mm s') pml4 q = Some b /\
      (length q = 3%nat -> forall j, index_ok j -> (q, j) <> (path_of v, pt_index v) ->
         entry (mm s') b j = entry (mm s) b j).
Proof.
  intros Hinv Hh Hen Hd Hroot Hperm Hodd Hpa0 Hpa1 Hpa2.
  pose proof (path_of_ok dom v Hd) as Hp3. unfold path_of in Hp3.
  assert (path_ok dom [pml4_index v; pdpt_index v]) as Hp2 by (by apply (path_ok_app _ _ [pd_index v])).
  assert (path_ok dom [pml4_index v]) as Hp1 by (by apply (path_ok_app _ _ [pdpt_index v])).
  unfold map_tables.
  destruct (level_step_spec dom pml4 s [] pml4 (pml4_index v) perm (2 + n))
    as (e1 & s1 & -> & Hok1 & Hen1 & Ht1); try done; [simpl; lia|]. cbn [mbind outcome_bind].
  destruct (level_step_spec dom pml4 s1 [pml4_index v] (next_table e1) (pdpt_index v) perm (1 + n))
    as (e2 & s2 & -> & Hok2 & Hen2 & Ht2); try done; [apply (so_inv _ _ _ _ Hok1)|simpl; lia|].
  cbn [mbind outcome_bind].
  destruct (level_step_spec dom pml4 s2 [pml4_index v; pdpt_index v] (next_table e2) (pd_index v) perm n)
    as (e3 & s3 & -> & Hok3 & Hen3 & Ht3); try done; [apply (so_inv _ _ _ _ Hok2)|].
  cbn [mbind outcome_bind].
  pose proof (step_ok_trans _ _ _ _ _ (step_ok_trans _ _ _ _ _ Hok1 Hok2) Hok3) as [Hinv3 Hext Hab Hdat Hif Hhp].
  change ([pml4_index v; pdpt_index v] ++ [pd_index v]) with (path_of v) in Ht3.
  destruct (leaf_store_ok dom pml4 s3 v (next_table e3) (Z.lor pa perm) Hinv3 Hh Hd Ht3)
    as (Hinv4 & Hab4 & Hdat4 & Hleaf).
  destruct (Hleaf (path_of v) _ (path_of_ok dom v Hd) ltac:(done) Ht3) as [Ht4 _].
  eexists _, (next_table e3). split; [done|]. split_and!; try done.
  - intros x Hx. by rewrite Hab4, Hab.
  - by eapply keeps_data_trans.
  - cbn [mm set_mm]. unfold entry. rewrite lor_low by done. apply load64_store64_eq.
    unfold is_u64, PHYS_LIMIT in *. lia.
  - intros q b Hq Hl Hb. destruct (Hext q b Hq Hl Hb) as [Hb3 He3].
    destruct (Hleaf q b Hq Hl Hb3) as [Hb4 He4]. split; [done|]. intros H3 j Hj Hne.
    by rewrite He4, He3.
Qed.

(** The number of the page of [v] in the 48-bit address space. *)
Definition vpage (v : Z) : Z := (v / 4096) mod 2 ^ 36.

Lemma index_div v k : 0 <= k -> Z.land (Z.shiftr v k) 0x1FF = (v / 2 ^ k) mod 512.
Proof.
  intros Hk. change 0x1FF with (Z.ones 9). by rewrite Z.land_ones, Z.shiftr_div_pow2 by lia.
Qed.

Lemma vpage_indices v :
  vpage v = pml4_index v * 2 ^ 27 + pdpt_index v * 2 ^ 18 + pd_index v * 2 ^ 9 + pt_index v.
Proof.
  unfold vpage, pml4_index, pdpt_index, pd_index, pt_index. rewrite !index_div by lia.
  Z.to_euclidean_division_equations. lia.
Qed.

Lemma same_page v v' :
  (path_of v', pt_index v') = (path_of v, pt_index v) -> vpage v' = vpage v.
Proof. unfold path_of. intros [= H1 H2 H3 H4]. rewrite !vpage_indices. congruence. Qed.

(** [v] is mapped: its four levels are there and the last entry is present. *)
Definition mapped (m : mem) (pml4 v : Z) : Prop :=
  exists t, table_at m pml4 (path_of v) = Some t /\ Z.land (entry m t (pt_index v)) 1 <> 0.

Lemma page_offset_range v : 0 <= page_offset v < 4096.
Proof. unfold page_offset. rewrite land_fff. apply Z.mod_pos_bound. lia. Qed.

Lemma virt_to_phys_leaf m pml4 v t pa perm :
  table_at m pml4 (path_of v) = Some t -> entry m t (pt_index v) = pa + perm ->
  0 <= pa -> pa + 4096 <= PHYS_LIMIT -> pa mod 4096 = 0 -> 0 <= perm < 4096 ->
  virt_to_phys m v pml4 = pa + page_offset v.
Proof.
  intros Ht He H0 H1 H2 Hp. unfold virt_to_phys. rewrite (walk_table _ _ _ t Ht).
  change (load64 m (t + 8 * pt_index v)) with (entry m t (pt_index v)).
  pose proof (page_offset_range v). unfold PHYS_LIMIT in *.
  rewrite He, land_page_mask by (unfold is_u64; lia).
  replace ((pa + perm) / 4096 * 4096) with pa; [apply wrap64_small; lia|].
  Z.to_euclidean_division_equations. lia.
Qed.

(** A memory that keeps the tables and the entry of [v'] keeps its translation. *)
Lemma virt_to_phys_keep m m' pml4 v t :
  table_at m pml4 (path_of v) = Some t -> table_at m' pml4 (path_of v) = Some t ->
  entry m' t (pt_index v) = entry m t (pt_index v) ->
  virt_to_phys m' v pml4 = virt_to_phys m v pml4.
Proof.
  intros H1 H2 He. unfold virt_to_phys. rewrite (walk_table _ _ _ t H1), (walk_table _ _ _ t H2).
  unfold entry in He. by rewrite He.
Qed.

(** What mapping a page means for translation: [v] now translates to [pa], and
    every other mapped page translates as before. *)
Definition maps_to (dom : Z -> Prop) (pml4 v pa : Z) (m m' : mem) : Prop :=
  mapped m' pml4 v /\ virt_to_phys m' v pml4 = pa + page_offset v /\
  forall v', dom (pml4_index v') -> mapped m pml4 v' -> vpage v' <> vpage v ->
    mapped m' pml4 v' /\ virt_to_phys m' v' pml4 = virt_to_phys m v' pml4.

Lemma map_tables_maps dom pml4 s v pa perm :
  pt_inv dom pml4 s -> hhdm_ok hhdm_offset -> enough 3 (memmap_arr s) -> dom (pml4_index v) ->
  0 <= perm < 4096 -> perm mod 2 = 1 -> 0 <= pa -> pa + 4096 <= PHYS_LIMIT -> pa mod 4096 = 0 ->
  exists s', map_tables pml4 pa v perm s = Ok s' /\ pt_inv dom pml4 s' /\ same_above s s' /\
    iflag s' = iflag s /\ heap_page_head s' = heap_page_head s /\ maps_to dom pml4 v pa (mm s) (mm s').
Proof.
  intros Hinv Hh Hen Hd Hp1 Hp2 Ha0 Ha1 Ha2.
  destruct (map_tables_spec dom pml4 s v pa perm 0) as
    (s' & t & Heq & Hinv' & Hab & Hif & Hhp & _ & _ & Ht & He & Hkeep); try done.
  exists s'. do 5 (split; [done|]). unfold maps_to. split_and!.
  - exists t. split; [done|]. rewrite He, land_1_mod.
    pose proof (Z.div_mod pa 4096). replace (pa + perm) with (perm + (2048 * (pa / 4096)) * 2) by lia.
    rewrite Z.mod_add by lia. lia.
  - by eapply virt_to_phys_leaf.
  - intros v' Hd' (t' & Ht' & He') Hne.
    destruct (Hkeep (path_of v') t' (path_of_ok dom v' Hd') ltac:(done) Ht') as [Ht2 Hent].
    destruct (index_ok_all v') as (_ & _ & _ & Hi).
    specialize (Hent eq_refl (pt_index v') Hi ltac:(intros Hc; by apply Hne, same_page)).
    split; [exists t'; by rewrite Hent|]. by eapply virt_to_phys_keep.
Qed.

Lemma pt_inv_irq dom pml4 old s : pt_inv dom pml4 s -> pt_inv dom pml4 (irq_restore old s).
Proof. intros []. split; by rewrite ?irq_restore_mm, ?irq_restore_memmap. Qed.

(** C1: mapping a page before the scheduler runs. When three frames are free,
    [map_page] returns, restores the interrupt flag, keeps the page tables a
    well-formed tree, and [virt_to_phys] then gives the physical page (plus
    the offset) for the mapped page and its old answer for every other mapped
    page. *)
Theorem map_page_translates (dom : Z -> Prop) (pml4 v pa perm : Z) (s : mst)
    (Hinv : pt_inv dom pml4 s) (Hh : hhdm_ok hhdm_offset) (Hen : enough 3 (memmap_arr s))
    (Hd : dom (pml4_index v)) (Hperm : 0 <= perm < 4096) (Hodd : perm mod 2 = 1)
    (Hpa0 : 0 <= pa) (Hpa1 : pa + 4096 <= PHYS_LIMIT) (Hpa2 : pa mod 4096 = 0) :
  exists s', map_page pml4 pa v perm (Pst s None) = Ok (UINT64_MAX, Pst s' None) /\
    iflag s' = iflag s /\ heap_page_head s' = heap_page_head s /\
    pt_inv dom pml4 s' /\ maps_to dom pml4 v pa (mm s) (mm s').
Proof.
  unfold map_page. cbn [irq_disable_save ms cur].
  destruct (map_tables_maps dom pml4 (set_iflag false s) v pa perm)
    as (s' & -> & Hinv' & _ & Hif & Hhp & Hmaps); try done; [by destruct Hinv|].
  simpl. exists (irq_restore (iflag s) s'). split_and!; [done|..].
  - by apply irq_restore_iflag.
  - by rewrite irq_restore_heap.
  - by apply pt_inv_irq.
  - by rewrite irq_restore_mm.
Qed.

(** ** Writes above the direct map *)

(** [s'] has the frames of [s], and its memory below the end of the direct map. *)
Definition same_below (s s' : mst) : Prop :=
  memmap_arr s' = memmap_arr s /\ mem_ok (mm s') /\
  forall x, x < hhdm_offset + PHYS_LIMIT -> mm s' x = mm s x.

Lemma same_below_tables dom pml4 s s' q :
  pt_inv dom pml4 s -> same_below s s' -> path_ok dom q -> (length q <= 3)%nat ->
  table_at (mm s') pml4 q = table_at (mm s) pml4 q /\
  forall b j, table_at (mm s) pml4 q = Some b -> index_ok j -> entry (mm s') b j = entry (mm s) b j.
Proof.
  intros Hinv (_ & _ & Hbelow) Hq Hl.
  assert (forall q b j, path_ok dom q -> (length q <= 3)%nat -> table_at (mm s) pml4 q = Some b ->
    index_ok j -> entry (mm s') b j = entry (mm s) b j) as Hent.
  { intros q' b j Hq' Hl' Hb Hj. apply load_le_ext. intros x Hx. apply Hbelow.
    destruct (pi_frame _ _ _ Hinv q' b Hq' Hl' Hb) as (g & -> & _ & ? & _).
    unfold index_ok in Hj. lia. }
  split; [|intros b j Hb Hj; by apply (Hent q)].
  apply table_at_agree. intros q' j b Hpre Hb. destruct Hpre as [r ->].
  rewrite <- app_assoc in Hq. apply (Hent q'); [by eapply path_ok_app|rewrite !length_app in Hl; lia|done|].
  rewrite app_assoc in Hq. by eapply path_ok_snoc, path_ok_app.
Qed.

Lemma same_below_inv dom pml4 s s' : pt_inv dom pml4 s -> same_below s s' -> pt_inv dom pml4 s'.
Proof.
  intros Hinv Hs. pose proof (fun q => same_below_tables dom pml4 s s' q Hinv Hs) as Ht.
  destruct Hs as (Hmap & Hok & _). split; rewrite ?Hmap.
  - intros p q a Hp Hq Hlp Hlq. rewrite (proj1 (Ht p Hp Hlp)), (proj1 (Ht q Hq Hlq)). by apply (pi_inj _ _ _ Hinv).
  - intros p a Hp Hlp. rewrite (proj1 (Ht p Hp Hlp)). by apply (pi_frame _ _ _ Hinv).
  - apply (pi_regions _ _ _ Hinv).
  - done.
Qed.

Lemma same_below_phys dom pml4 s s' v :
  pt_inv dom pml4 s -> same_below s s' -> dom (pml4_index v) -> mapped (mm s) pml4 v ->
  mapped (mm s') pml4 v /\ virt_to_phys (mm s') v pml4 = virt_to_phys (mm s) v pml4.
Proof.
  intros Hinv Hs Hd (t & Ht & He).
  destruct (same_below_tables dom pml4 s s' (path_of v) Hinv Hs (path_of_ok dom v Hd) ltac:(done)) as [H1 H2].
  destruct (index_ok_all v) as (_ & _ & _ & Hi). specialize (H2 t _ Ht Hi). rewrite Ht in H1.
  split; [exists t; by rewrite H2|]. by eapply virt_to_phys_keep.
Qed.

Lemma maps_to_below dom pml4 v pa m s s' :
  pt_inv dom pml4 s -> same_below s s' -> dom (pml4_index v) ->
  maps_to dom pml4 v pa m (mm s) -> maps_to dom pml4 v pa m (mm s').
Proof.
  intros Hinv Hs Hd (H1 & H2 & H3).
  destruct (same_below_phys dom pml4 s s' v Hinv Hs Hd H1) as [H1' H2'].
  split_and!; [done|congruence|]. intros v' Hd' Hm Hne. destruct (H3 v' Hd' Hm Hne) as [H4 H5].
  destruct (same_below_phys dom pml4 s s' v' Hinv Hs Hd' H4) as [H6 H7]. split; [done|congruence].
Qed.

(** ** unmap_page *)

Definition above_direct_map (p : pst) : Prop :=
  forall t, cur p = Some t -> hhdm_offset + PHYS_LIMIT <= mapped_virt_addresses_array t.

Lemma find_mapping_range n i m arr v j :
  find_mapping n i m arr v = Some j -> i <= j < i + Z.of_nat n /\ load64 m (entry_addr arr j) = v.
Proof.
  revert i. induction n as [|n IH]; intros i H; [done|]. cbn [find_mapping] in H.
  destruct (Z.eqb_spec (load64 m (entry_addr arr i)) v); [injection H as <-; split; [lia|done]|].
  apply IH in H. split; [lia|tauto].
Qed.

Lemma forget_mapping_below v t m m' t' :
  forget_mapping v t m = (m', t') -> mem_ok m ->
  mem_ok m' /\ forall x, x < mapped_virt_addresses_array t -> m' x = m x.
Proof.
  unfold forget_mapping. intros H Hm.
  destruct (find_mapping _ _ _ _ _) as [j|] eqn:Hf; injection H as <- <-; [|done].
  apply find_mapping_range in Hf as [Hj _]. split; [by apply store_le_ok, store_le_ok, store8_ok|].
  intros x Hx. unfold entry_addr, MAPPING_SIZE, store64.
  rewrite !store_le_outside by lia. apply store8_ne. lia.
Qed.

(** C11: [unmap_page] of a mapped page returns with the interrupt flag restored
    and the page tables well formed; the page is no longer mapped and every
    other mapped page translates as before, with or without a running thread. *)
Theorem unmap_page_removes (dom : Z -> Prop) (pml4 v : Z) (p : pst)
    (Hinv : pt_inv dom pml4 (ms p)) (Hh : hhdm_ok hhdm_offset) (Habove : above_direct_map p)
    (Hd : dom (pml4_index v)) (Hmap : mapped (mm (ms p)) pml4 v) :
  let p' := unmap_page pml4 v p in
  iflag (ms p') = iflag (ms p) /\ pt_inv dom pml4 (ms p') /\ ~ mapped (mm (ms p')) pml4 v /\
  forall v', dom (pml4_index v') -> mapped (mm (ms p)) pml4 v' -> vpage v' <> vpage v ->
    mapped (mm (ms p')) pml4 v' /\
    virt_to_phys (mm (ms p')) v' pml4 = virt_to_phys (mm (ms p)) v' pml4.
Proof.
  intros p'. destruct Hmap as (t & Ht & _).
  set (s1 := set_mm (store64 (mm (ms p)) (walk (mm (ms p)) pml4 v) 0) (ms p)).
  destruct (leaf_store_ok dom pml4 (ms p) v t 0 Hinv Hh Hd Ht) as (Hinv1 & _ & _ & Hleaf).
  rewrite <- (walk_table _ _ _ t Ht) in Hinv1, Hleaf. fold s1 in Hinv1, Hleaf.
  assert (same_below s1 (ms p') /\ iflag (ms p') = iflag (ms p)) as [Hsb Hif].
  { unfold p', unmap_page. cbn [irq_disable_save]. unfold same_below.
    destruct (cur p) as [th|] eqn:Hcur.
    - destruct (forget_mapping v th _) as [m' th'] eqn:Hfm. apply forget_mapping_below in Hfm as [Hok Hx];
        [|apply store_le_ok, (pi_mem _ _ _ Hinv)].
      cbn [ms]. autorewrite with willow_rw. rewrite irq_restore_iflag by done.
      split_and!; try done. intros x Hlt. apply Hx. pose proof (Habove th Hcur). lia.
    - cbn [ms]. autorewrite with willow_rw. rewrite irq_restore_iflag by done.
      split_and!; try done. apply store_le_ok, (pi_mem _ _ _ Hinv). }
  destruct (Hleaf (path_of v) t (path_of_ok dom v Hd) ltac:(done) Ht) as [Ht1 _].
  split_and!; [done|by eapply same_below_inv|..].
  - intros (t2 & Ht2 & He2).
    destruct (same_below_tables dom pml4 s1 (ms p') (path_of v) Hinv1 Hsb (path_of_ok dom v Hd) ltac:(done))
      as [Heq Hent]. destruct (index_ok_all v) as (_ & _ & _ & Hi).
    assert (t2 = t) as -> by congruence. rewrite (Hent t _ Ht1 Hi) in He2.
    unfold s1, entry in He2. cbn [mm set_mm] in He2. rewrite (walk_table _ _ _ t Ht) in He2.
    by rewrite load64_store64_eq in He2.
  - intros v' Hd' (t' & Ht' & He') Hne.
    destruct (Hleaf (path_of v') t' (path_of_ok dom v' Hd') ltac:(done) Ht') as [Ht2 Hent].
    destruct (index_ok_all v') as (_ & _ & _ & Hi).
    specialize (Hent eq_refl (pt_index v') Hi ltac:(intros Hc; by apply Hne, same_page)).
    destruct (same_below_phys dom pml4 s1 (ms p') v' Hinv1 Hsb Hd') as [H1 H2]; [exists t'; by rewrite Hent|].
    split; [done|]. rewrite H2. by eapply virt_to_phys_keep.
Qed.

(** ** The thread's record of its mappings *)

Definition slot_used (m : mem) (arr i : Z) : bool := negb (m (entry_addr arr i + 16) =? 0).
Definition slot_virt (m : mem) (arr i : Z) : Z := load64 m (entry_addr arr i).

Fixpoint count_used (n : nat) (i : Z) (m : mem) (arr : Z) : Z :=
  match n with
  | O => 0
  | S n' => Z_of_bool (slot_used m arr i) + count_used n' (i + 1) m arr
  end.

(** The counter is the number of used slots, and one slot is always unused. *)
Record mappings_inv (m : mem) (t : thread_mappings) : Prop := {
  mi_count : num_mappings t = count_used (Z.to_nat (max_mappings t)) 0 m (mapped_virt_addresses_array t);
  mi_room : num_mappings t < max_mappings t;
  mi_max : 0 <= max_mappings t < 2 ^ 32
}.

Lemma count_used_bound n i m arr : 0 <= count_used n i m arr <= Z.of_nat n.
Proof.
  revert i. induction n as [|n IH]; intros i; cbn [count_used]; [lia|]. specialize (IH (i + 1)).
  unfold Z_of_bool. destruct (slot_used m arr i); lia.
Qed.

Lemma find_unused_spec n i m arr :
  count_used n i m arr < Z.of_nat n ->
  exists j, find_unused n i m arr = Some j /\ i <= j < i + Z.of_nat n /\ slot_used m arr j = false.
Proof.
  revert i. induction n as [|n IH]; intros i H; cbn [count_used find_unused] in *; [lia|].
  unfold slot_used in H at 1. destruct (Z.eqb_spec (m (entry_addr arr i + 16)) 0) as [He|He].
  - exists i. split; [done|]. split; [lia|]. unfold slot_used. by rewrite He.
  - destruct (IH (i + 1)) as (j & ? & ? & ?); [simpl in H; lia|]. exists j. split_and!; (done || lia).
Qed.

Lemma count_used_ext n i m m' arr :
  (forall j, i <= j < i + Z.of_nat n -> slot_used m' arr j = slot_used m arr j) ->
  count_used n i m' arr = count_used n i m arr.
Proof.
  revert i. induction n as [|n IH]; intros i H; cbn [count_used]; [done|].
  rewrite H by lia. rewrite IH; [done|]. intros j Hj. apply H. lia.
Qed.

Lemma count_used_set n i m m' arr j :
  i <= j < i + Z.of_nat n -> slot_used m arr j = false -> slot_used m' arr j = true ->
  (forall k, k <> j -> slot_used m' arr k = slot_used m arr k) ->
  count_used n i m' arr = count_used n i m arr + 1.
Proof.
  revert i. induction n as [|n IH]; intros i Hj Hm Hm' Hk; cbn [count_used]; [lia|].
  destruct (Z.eq_dec i j) as [->|Hne].
  - rewrite Hm, Hm'. rewrite (count_used_ext n (j + 1) m m'); [simpl; lia|].
    intros k Hk'. apply Hk. lia.
  - rewrite Hk by lia. rewrite IH by (done || lia). lia.
Qed.

(** Recording [v] in slot [j]. *)
Definition recorded (m : mem) (arr j v : Z) : mem :=
  store8 (store64 m (entry_addr arr j) v) (entry_addr arr j + 16) 1.

Lemma recorded_used m arr j v k :
  slot_used (recorded m arr j v) arr k = if k =? j then true else slot_used m arr k.
Proof.
  unfold slot_used, recorded, entry_addr, MAPPING_SIZE. destruct (Z.eqb_spec k j) as [->|Hne].
  - by rewrite store8_eq.
  - rewrite store8_ne by lia. unfold store64. by rewrite store_le_outside by lia.
Qed.

Lemma load64_store8_ne m a b v : (b < a \/ a + 8 <= b) -> load64 (store8 m b v) a = load64 m a.
Proof. intros H. apply load_le_ext. intros x Hx. apply store8_ne. lia. Qed.

Lemma recorded_virt m arr j v k :
  is_u64 v -> slot_virt (recorded m arr j v) arr k = if k =? j then v else slot_virt m arr k.
Proof.
  intros Hv. unfold slot_virt, recorded, entry_addr, MAPPING_SIZE.
  rewrite load64_store8_ne by lia. destruct (Z.eqb_spec k j) as [->|Hne].
  - by apply load64_store64_eq.
  - apply load64_store64_ne. lia.
Qed.

Lemma record_mapping_spec v t s :
  mappings_inv (mm s) t -> num_mappings t + 1 < max_mappings t -> is_u64 v ->
  exists j, 0 <= j < max_mappings t /\ slot_used (mm s) (mapped_virt_addresses_array t) j = false /\
    let m' := recorded (mm s) (mapped_virt_addresses_array t) j v in
    let t' := Mappings (mapped_virt_addresses_array t) (num_mappings t + 1) (max_mappings t) in
    record_mapping v t s = Ok (j, t', set_mm m' s) /\ mappings_inv m' t'.
Proof.
  intros [Hc Hroom Hmax] Hlt Hv. unfold record_mapping.
  destruct (find_unused_spec (Z.to_nat (max_mappings t)) 0 (mm s) (mapped_virt_addresses_array t))
    as (j & Hj & Hrange & Hun); [lia|].
  exists j. split; [lia|]. split; [done|]. cbn zeta. rewrite Hj.
  pose proof (count_used_bound (Z.to_nat (max_mappings t)) 0 (mm s) (mapped_virt_addresses_array t)).
  rewrite wrap64_small by lia.
  destruct (Z.eqb_spec (num_mappings t + 1) (max_mappings t)); [lia|]. split; [done|].
  split; cbn [num_mappings max_mappings mapped_virt_addresses_array]; [|lia|lia].
  rewrite Hc. symmetry. eapply count_used_set; [done|done|..].
  - by rewrite recorded_used, Z.eqb_refl.
  - intros k Hk. rewrite recorded_used. by destruct (Z.eqb_spec k j).
Qed.


End Paging.

(** ** Witnesses *)

(** An empty top-level table in the frame 0x1000, the others of
    [sample_state] free. *)
Definition empty_tables : mst := set_memmap (memmap_arr sample_state1) sample_state.
Definition sample_pml4 : Z := 0x1000 + sample_hhdm.

Lemma zero_entry t i : entry (fun _ => 0) t i = 0.
Proof. apply load_le_zero. done. Qed.

Lemma zero_table_at t p a :
  table_at sample_hhdm (fun _ => 0) t p = Some a -> p = [] /\ a = t.
Proof.
  destruct p as [|i p]; cbn [table_at]; [by intros [= <-]|]. by rewrite zero_entry.
Qed.

Lemma sample_frames_free f :
  f ∈ [0x2000; 0x3000; 0x100000] -> frame_free (memmap_arr empty_tables) f.
Proof.
  intros Hf. repeat (apply elem_of_cons in Hf as [->|Hf]); [..|by apply elem_of_nil in Hf].
  - exists (set_bitmap (region_of (Entry 0x1000 0x3000 0)) 0 1), 1. repeat split; try done. left.
  - exists (set_bitmap (region_of (Entry 0x1000 0x3000 0)) 0 1), 2. repeat split; try done. left.
  - exists (region_of (Entry 0x100000 0x2000 0)), 0. repeat split; try done. right. left.
Qed.

Lemma sample_frame_taken : ~ frame_free (memmap_arr empty_tables) 0x1000.
Proof.
  intros (r & i & Hr & _ & Hi & Ha & Hb).
  repeat (apply elem_of_cons in Hr as [->|Hr]); [..|by apply elem_of_nil in Hr]; cbn in Ha.
  - replace i with 0 in Hb by lia. discriminate Hb.
  - lia.
Qed.

Lemma empty_tables_inv m :
  (forall x, x < sample_hhdm + PHYS_LIMIT -> m x = 0) -> mem_ok m ->
  pt_inv sample_hhdm (fun _ => True) sample_pml4 (set_mm m empty_tables).
Proof.
  intros Hlow Hm. apply (same_below_inv _ _ _ empty_tables).
  - split.
    + intros p q a _ _ _ _ Hp Hq. apply zero_table_at in Hp as [-> _], Hq as [-> _]. done.
    + intros p a _ _ Hp. apply zero_table_at in Hp as [_ ->]. exists 0x1000.
      split_and!; [done|lia|vm_compute; discriminate|done|apply sample_frame_taken].
    + split.
      * apply (Forall_set_bitmap [] (region_of (Entry 0x1000 0x3000 0))
                 [region_of (Entry 0x100000 0x2000 0)] 0 1). apply sample_regions_ok.
      * repeat constructor; vm_compute; congruence.
    + intros x. simpl. lia.
  - split_and!; [done|done|]. intros x Hx. by rewrite Hlow.
Qed.

Lemma empty_tables_enough : enough 3 (memmap_arr empty_tables).
Proof.
  exists [0x2000; 0x3000; 0x100000]. split_and!; [|done|].
  - repeat constructor; rewrite ?elem_of_cons, ?elem_of_nil; lia.
  - repeat constructor; apply sample_frames_free; set_solver.
Qed.

Lemma map_page_translates_witness :
  exists s', map_page sample_hhdm sample_pml4 0x200000 0x400123 3 (Pst empty_tables None) =
      Ok (UINT64_MAX, Pst s' None) /\
    virt_to_phys sample_hhdm (mm s') 0x400123 sample_pml4 = 0x200123.
Proof.
  destruct (map_page_translates sample_hhdm (fun _ => True) sample_pml4 0x400123 0x200000 3 empty_tables)
    as (s' & H1 & _ & _ & _ & H2).
  - apply (empty_tables_inv (fun _ => 0)); [done|]. intros x. lia.
  - exact sample_hhdm_ok.
  - exact empty_tables_enough.
  - exact I.
  - lia.
  - reflexivity.
  - lia.
  - vm_compute. discriminate.
  - reflexivity.
  - exists s'. split; [exact H1|]. destruct H2 as (_ & -> & _). reflexivity.
Defined.

(** A table of eight unused slots in the heap. *)
Definition sample_mappings : thread_mappings := Mappings HEAP_START_VIRT_DEFINED 0 8.


(** The page mapped by [map_tables] in [empty_tables] and unmapped again. *)
Lemma unmap_page_removes_witness :
  exists s, map_tables sample_hhdm sample_pml4 0x200000 0x400000 3 empty_tables = Ok s /\
    ~ mapped sample_hhdm (mm (ms (unmap_page sample_hhdm sample_pml4 0x400000 (Pst s None))))
        sample_pml4 0x400000.
Proof.
  destruct (map_tables_maps sample_hhdm (fun _ => True) sample_pml4 empty_tables 0x400000 0x200000 3)
    as (s & H1 & Hinv & _ & _ & _ & Hm & _).
  - apply (empty_tables_inv (fun _ => 0)); [done|]. intros x. lia.
  - exact sample_hhdm_ok.
  - exact empty_tables_enough.
  - exact I.
  - lia.
  - reflexivity.
  - lia.
  - vm_compute. discriminate.
  - reflexivity.
  - exists s. split; [exact H1|].
    apply (unmap_page_removes sample_hhdm (fun _ => True) sample_pml4 0x400000 (Pst s None)).
    + exact Hinv.
    + exact sample_hhdm_ok.
    + intros t Ht. discriminate Ht.
    + exact I.
    + exact Hm.
Defined.
