(* ===== verification/OaHash.v ===== *)
(** * The open-addressing hash table: oa_hash/oa_hash.h

    A table is its counters and its array of buckets; an entry holds a pointer
    to its key, so that the key of an entry is read from the memory at the time
    of the call.  The probe order is the cyclic order from the DJB2 hash of the
    key.  The abstract specification is a finite map from keys (lists of bytes)
    to values, given by [binds]. *)

From S2P Require Import Prelude Memory Machine Heap.

(** ** Data *)

Inductive oa_hash_entry_state : Type :=
| OA_HASH_ENTRY_EMPTY
| OA_HASH_ENTRY_OCCUPIED
| OA_HASH_ENTRY_DELETED.

#[export] Instance entry_state_eq_dec : EqDecision oa_hash_entry_state.
Proof. solve_decision. Defined.

Record oa_hash_entry : Type := OaEntry {
  state : oa_hash_entry_state;
  key_buf : Z;
  key_length : Z;
  value : Z
}.

(** [struct oa_hash]; [buckets] is the address of the array and [slots] its
    contents. *)
Record oa_hash : Type := OaHash {
  ht_length : Z;
  capacity : Z;
  buckets : Z;
  slots : list oa_hash_entry
}.

Definition ENTRY_SIZE : Z := 32.
Definition empty_entry : oa_hash_entry := OaEntry OA_HASH_ENTRY_EMPTY 0 0 0.

(** ** Operations *)

Definition oa_hash_init (bkts cap : Z) : oa_hash :=
  OaHash 0 cap bkts (replicate (Z.to_nat cap) empty_entry).

Definition oa_hash_cleanup (ht : oa_hash) : oa_hash := OaHash 0 0 NULL [].

(** [while (len--) hash = ((hash & 0x7fffffff) << 5) + hash + *str++;] *)
Fixpoint djb2 (len : nat) (m : mem) (str hash : Z) : Z :=
  match len with
  | O => hash
  | S len' =>
      djb2 len' m (str + 1) (wrap64 (Z.shiftl (Z.land hash 0x7fffffff) 5 + hash + m str))
  end.

Definition _oa_hash_genhash (m : mem) (key len cap : Z) : Z :=
  if (key =? NULL) || (cap =? 0) then 0
  else djb2 (Z.to_nat len) m key 5381 mod cap.

(** [state == OCCUPIED && len == key.length && 0 == memcmp(key.buf, key, len)] *)
Definition matches (m : mem) (key len : Z) (e : oa_hash_entry) : bool :=
  bool_decide (state e = OA_HASH_ENTRY_OCCUPIED) && (len =? key_length e) &&
  (memcmp m (key_buf e) key len =? 0).

(** The [do ... while (slot != start_slot)] loop of [oa_hash_get_entry] and
    [oa_hash_remove]: the slot of the matching entry. *)
Fixpoint find_slot (n : nat) (slot : Z) (m : mem) (key len : Z) (ht : oa_hash) : outcome (option Z) :=
  match n with
  | O => Ok None
  | S n' =>
      e ← checked (slots ht !! Z.to_nat slot) OutOfBounds;
      if bool_decide (state e = OA_HASH_ENTRY_EMPTY) then Ok None
      else if matches m key len e then Ok (Some slot)
      else find_slot n' ((slot + 1) mod capacity ht) m key len ht
  end.

(** The entry's slot, [None] for a null pointer. *)
Definition oa_hash_get_entry (m : mem) (ht : oa_hash) (key len : Z) : outcome (option Z) :=
  let start_slot := _oa_hash_genhash m key len (capacity ht) in
  if (len =? 0) || (capacity ht =? 0) then Ok None
  else find_slot (Z.to_nat (capacity ht)) start_slot m key len ht.

Definition oa_hash_get (m : mem) (ht : oa_hash) (key len : Z) : outcome Z :=
  r ← oa_hash_get_entry m ht key len;
  match r with
  | Some slot => e ← checked (slots ht !! Z.to_nat slot) OutOfBounds; Ok (value e)
  | None => Ok NULL
  end.

(** The loop of [oa_hash_set_entry]: [inl] is the slot to fill with a new entry,
    [inr] the slot whose value is replaced. *)
Fixpoint set_slot (n : nat) (slot : Z) (first_deleted : option Z) (m : mem) (key len : Z) (ht : oa_hash)
    : outcome (option (Z + Z)) :=
  match n with
  | O => Ok None
  | S n' =>
      e ← checked (slots ht !! Z.to_nat slot) OutOfBounds;
      let first_deleted :=
        match first_deleted with
        | None => if bool_decide (state e = OA_HASH_ENTRY_DELETED) then Some slot else None
        | Some d => Some d
        end in
      if bool_decide (state e = OA_HASH_ENTRY_EMPTY) then Ok (Some (inl (default slot first_deleted)))
      else if matches m key len e then Ok (Some (inr slot))
      else set_slot n' ((slot + 1) mod capacity ht) first_deleted m key len ht
  end.

Definition set_value (v : Z) (e : oa_hash_entry) : oa_hash_entry :=
  OaEntry (state e) (key_buf e) (key_length e) v.
Definition set_state (st : oa_hash_entry_state) (e : oa_hash_entry) : oa_hash_entry :=
  OaEntry st (key_buf e) (key_length e) (value e).

Definition oa_hash_set_entry (m : mem) (ht : oa_hash) (key len v : Z) : outcome (option Z * oa_hash) :=
  let start_slot := _oa_hash_genhash m key len (capacity ht) in
  if (len =? 0) || (capacity ht =? 0) then Ok (None, ht)
  else
    r ← set_slot (Z.to_nat (capacity ht)) start_slot None m key len ht;
    Ok (match r with
        | Some (inl slot) =>
            (Some slot,
             OaHash (wrap64 (ht_length ht + 1)) (capacity ht) (buckets ht)
               (<[Z.to_nat slot := OaEntry OA_HASH_ENTRY_OCCUPIED key len v]> (slots ht)))
        | Some (inr slot) =>
            (Some slot,
             OaHash (ht_length ht) (capacity ht) (buckets ht)
               (alter (set_value v) (Z.to_nat slot) (slots ht)))
        | None => (None, ht)
        end).

Definition oa_hash_set (m : mem) (ht : oa_hash) (key len v : Z) : outcome (Z * oa_hash) :=
  '(r, ht') ← oa_hash_set_entry m ht key len v;
  Ok (match r with Some _ => v | None => NULL end, ht').

(** The table part of [oa_hash_remove]: the key buffer of the removed entry. *)
Definition remove_entry (m : mem) (ht : oa_hash) (key len : Z) : outcome (option Z * oa_hash) :=
  let start_slot := _oa_hash_genhash m key len (capacity ht) in
  if (len =? 0) || (capacity ht =? 0) then Ok (None, ht)
  else
    r ← find_slot (Z.to_nat (capacity ht)) start_slot m key len ht;
    match r with
    | Some slot =>
        e ← checked (slots ht !! Z.to_nat slot) OutOfBounds;
        Ok (Some (key_buf e),
            OaHash (wrap64 (ht_length ht - 1)) (capacity ht) (buckets ht)
              (alter (set_state OA_HASH_ENTRY_DELETED) (Z.to_nat slot) (slots ht)))
    | None => Ok (None, ht)
    end.

(** The whole function frees the key of the entry it removes. *)
Definition oa_hash_remove (ht : oa_hash) (key len : Z) (s : mst) : outcome (Z * oa_hash * mst) :=
  '(r, ht) ← remove_entry (mm s) ht key len;
  match r with
  | Some buf => s ← kfree buf s; Ok (1, ht, s)
  | None => Ok (0, ht, s)
  end.

(** The loop of [oa_hash_rehash] over the old buckets. *)
Fixpoint rehash_loop (m : mem) (old : list oa_hash_entry) (ht : oa_hash) : outcome (option oa_hash) :=
  match old with
  | [] => Ok (Some ht)
  | e :: old' =>
      if bool_decide (state e = OA_HASH_ENTRY_OCCUPIED) then
        '(r, ht) ← oa_hash_set_entry m ht (key_buf e) (key_length e) (value e);
        match r with
        | Some _ => rehash_loop m old' ht
        | None => Ok None
        end
      else rehash_loop m old' ht
  end.

(** The old buckets' address, or a null pointer with the table as it was. *)
Definition oa_hash_rehash (m : mem) (ht : oa_hash) (new_buckets new_capacity : Z)
    : outcome (Z * oa_hash) :=
  if (new_buckets =? NULL) || (new_capacity <=? capacity ht) then Ok (NULL, ht)
  else
    r ← rehash_loop m (slots ht) (oa_hash_init new_buckets new_capacity);
    Ok (match r with
        | Some ht' => (buckets ht, ht')
        | None => (NULL, ht)
        end).

(** ** Keys *)

Definition key_of (m : mem) (e : oa_hash_entry) : list Z := bytes_at m (key_buf e) (Z.to_nat (key_length e)).

Definition occ (e : oa_hash_entry) : Prop := state e = OA_HASH_ENTRY_OCCUPIED.

(** The hash as a function of the key's bytes. *)
Definition hash_of (k : list Z) (cap : Z) : Z :=
  foldl (fun hash c => wrap64 (Z.shiftl (Z.land hash 0x7fffffff) 5 + hash + c)) 5381 k mod cap.

Lemma djb2_foldl n m str h :
  djb2 n m str h =
  foldl (fun hash c => wrap64 (Z.shiftl (Z.land hash 0x7fffffff) 5 + hash + c)) h (bytes_at m str n).
Proof.
  revert str h. induction n as [|n IH]; intros str h; [done|]. cbn [djb2 bytes_at foldl]. apply IH.
Qed.

Lemma genhash_hash_of m key len cap :
  key <> NULL -> 0 < cap -> _oa_hash_genhash m key len cap = hash_of (bytes_at m key (Z.to_nat len)) cap.
Proof.
  intros Hk Hc. unfold _oa_hash_genhash.
  destruct (Z.eqb_spec key NULL); [done|]. destruct (Z.eqb_spec cap 0); [lia|]. cbn [orb].
  unfold hash_of. by rewrite djb2_foldl.
Qed.

Lemma hash_of_range k cap : 0 < cap -> 0 <= hash_of k cap < cap.
Proof. intros. apply Z.mod_pos_bound. done. Qed.

Lemma matches_spec m key len e :
  0 < len -> (occ e -> 0 < key_length e) ->
  matches m key len e = true <-> occ e /\ key_of m e = bytes_at m key (Z.to_nat len).
Proof.
  intros Hlen Hpos. unfold matches, occ in *. rewrite !andb_true_iff, bool_decide_eq_true, !Z.eqb_eq.
  rewrite <- (Z2Nat.id len) at 2 by lia. rewrite memcmp_bytes. unfold key_of. split.
  - intros [[H1 H2] H3]. split; [done|]. by rewrite <- H2.
  - intros [H1 H2]. specialize (Hpos H1).
    assert (len = key_length e) as ->.
    { apply (f_equal length) in H2. rewrite !length_bytes_at in H2. lia. }
    done.
Qed.

(** ** The invariant *)

Fixpoint count_occ (l : list oa_hash_entry) : Z :=
  match l with
  | [] => 0
  | e :: l' => Z_of_bool (bool_decide (state e = OA_HASH_ENTRY_OCCUPIED)) + count_occ l'
  end.

(** The entry at slot [i] of the array. *)
Definition slot_at (ht : oa_hash) (i : Z) (e : oa_hash_entry) : Prop :=
  0 <= i < capacity ht /\ slots ht !! Z.to_nat i = Some e.

(** Every key is stored once; the slots from a key's hash to its entry are not
    empty; the counter counts the entries. *)
Record oa_inv (m : mem) (ht : oa_hash) : Prop := {
  oi_cap : 0 < capacity ht < 2 ^ 64;
  oi_slots : Z.of_nat (length (slots ht)) = capacity ht;
  oi_key : forall i e, slot_at ht i e -> occ e -> 0 < key_length e /\ key_buf e <> NULL;
  oi_inj : forall i j e e', slot_at ht i e -> slot_at ht j e' -> occ e -> occ e' ->
    key_of m e = key_of m e' -> i = j;
  oi_path : forall i e d, slot_at ht i e -> occ e ->
    0 <= d < (i - hash_of (key_of m e) (capacity ht)) mod capacity ht ->
    exists e', slot_at ht ((hash_of (key_of m e) (capacity ht) + d) mod capacity ht) e' /\
      state e' <> OA_HASH_ENTRY_EMPTY;
  oi_len : ht_length ht = count_occ (slots ht)
}.

(** The abstract map. *)
Definition binds (m : mem) (ht : oa_hash) (k : list Z) (v : Z) : Prop :=
  exists i e, slot_at ht i e /\ occ e /\ key_of m e = k /\ value e = v.

Lemma slot_exists m ht i : oa_inv m ht -> 0 <= i < capacity ht -> exists e, slot_at ht i e.
Proof.
  intros Hinv Hi. destruct (lookup_lt_is_Some_2 (slots ht) (Z.to_nat i)) as [e He].
  - pose proof (oi_slots _ _ Hinv). lia.
  - exists e. done.
Qed.

Lemma slot_at_inj ht i e e' : slot_at ht i e -> slot_at ht i e' -> e = e'.
Proof. intros [_ H1] [_ H2]. congruence. Qed.

Lemma binds_inj m ht k v v' : oa_inv m ht -> binds m ht k v -> binds m ht k v' -> v = v'.
Proof.
  intros Hinv (i & e & Hi & Ho & Hk & <-) (j & e' & Hj & Ho' & Hk' & <-).
  assert (i = j) as -> by (apply (oi_inj _ _ Hinv _ _ e e'); (done || congruence)).
  by rewrite (slot_at_inj _ _ _ _ Hi Hj).
Qed.

(** The next slot of the probe order. *)
Lemma probe_next h j cap : 0 < cap -> ((h + j) mod cap + 1) mod cap = (h + (j + 1)) mod cap.
Proof. intros. rewrite Zplus_mod_idemp_l. f_equal. lia. Qed.

Lemma probe_dist h j cap : 0 <= j < cap -> ((h + j) mod cap - h) mod cap = j.
Proof.
  intros. rewrite Zminus_mod_idemp_l. replace (h + j - h) with j by lia. by apply Z.mod_small.
Qed.

Lemma probe_of_dist h i cap : 0 <= i < cap -> (h + (i - h) mod cap) mod cap = i.
Proof.
  intros. rewrite Zplus_mod_idemp_r. replace (h + (i - h)) with i by lia. by apply Z.mod_small.
Qed.

(** Whether a key is stored can be decided by looking at every slot. *)
Lemma stored_dec m ht k : oa_inv m ht ->
  (exists i e, slot_at ht i e /\ occ e /\ key_of m e = k) \/
  (forall i e, ~ (slot_at ht i e /\ occ e /\ key_of m e = k)).
Proof.
  intros Hinv.
  destruct (decide (Exists (fun e => occ e /\ key_of m e = k) (slots ht))) as [Hex|Hno].
  - left. apply Exists_exists in Hex as (e & He & Ho & Hk).
    apply list_elem_of_In, list_elem_of_lookup in He as [i Hi]. exists (Z.of_nat i), e. split; [|done].
    split; [|by rewrite Nat2Z.id]. pose proof (oi_slots _ _ Hinv). apply lookup_lt_Some in Hi. lia.
  - right. intros i e ([_ Hl] & Ho & Hk). apply Hno, Exists_exists. exists e.
    split; [by eapply list_elem_of_In, list_elem_of_lookup_2|done].
Qed.

(** ** Searching *)

Section Search.
Context (m : mem) (ht : oa_hash) (key len : Z).
Context (Hinv : oa_inv m ht) (Hlen : 0 < len) (Hkey : key <> NULL).

Let k := bytes_at m key (Z.to_nat len).
Let h := hash_of k (capacity ht).

(** The entry for [k] is at slot [i]. *)
Definition stored_at (i : Z) : Prop := exists e, slot_at ht i e /\ occ e /\ key_of m e = k.

Lemma matches_slot i e : slot_at ht i e -> matches m key len e = true <-> occ e /\ key_of m e = k.
Proof. intros Hi. apply matches_spec; [done|]. intros Ho. by apply (oi_key _ _ Hinv i e). Qed.

Lemma find_slot_hit i n j :
  stored_at i -> 0 <= j -> Z.of_nat n + j = capacity ht -> j <= (i - h) mod capacity ht ->
  find_slot n ((h + j) mod capacity ht) m key len ht = Ok (Some i).
Proof.
  intros (e & Hi & Ho & Hk). pose proof (oi_cap _ _ Hinv) as Hcap.
  revert j. induction n as [|n IH]; intros j Hj Hn Hd.
  { pose proof (Z.mod_pos_bound (i - h) (capacity ht)). lia. }
  cbn [find_slot]. pose proof (Z.mod_pos_bound (h + j) (capacity ht) ltac:(lia)) as Hr.
  destruct (slot_exists m ht _ Hinv Hr) as [e' He']. rewrite (proj2 He').
  cbn [checked mbind outcome_bind].
  destruct (Z.eq_dec j ((i - h) mod capacity ht)) as [Heq|Hne].
  - assert ((h + j) mod capacity ht = i) as Hij by (rewrite Heq; by apply probe_of_dist, Hi).
    assert (e' = e) as -> by (eapply (slot_at_inj ht i); [rewrite <- Hij|]; done).
    rewrite bool_decide_eq_false_2 by (unfold occ in Ho; congruence).
    rewrite (proj2 (matches_slot i e Hi)) by done. by rewrite Hij.
  - destruct (oi_path _ _ Hinv i e j Hi Ho) as (e2 & He2 & Hst); [rewrite Hk; fold h; lia|].
    rewrite Hk in He2. fold h in He2. rewrite (slot_at_inj _ _ _ _ He2 He') in Hst.
    rewrite bool_decide_eq_false_2 by done.
    destruct (matches m key len e') eqn:Hm.
    + apply (matches_slot _ _ He') in Hm as [Ho' Hk'].
      assert ((h + j) mod capacity ht = i) as Hij by (apply (oi_inj _ _ Hinv _ _ e' e); (done || congruence)).
      rewrite <- Hij, probe_dist in Hne by lia. done.
    + rewrite probe_next by lia. apply IH; lia.
Qed.

Lemma find_slot_miss n slot :
  (forall i, ~ stored_at i) -> 0 <= slot < capacity ht -> find_slot n slot m key len ht = Ok None.
Proof.
  intros Hno. pose proof (oi_cap _ _ Hinv). revert slot. induction n as [|n IH]; intros slot Hs; [done|].
  cbn [find_slot]. destruct (slot_exists m ht _ Hinv Hs) as [e He]. rewrite (proj2 He).
  cbn [checked mbind outcome_bind]. case_bool_decide; [done|].
  destruct (matches m key len e) eqn:Hm.
  - apply (matches_slot _ _ He) in Hm as [Ho' Hk']. destruct (Hno slot). by exists e.
  - apply IH. apply Z.mod_pos_bound. lia.
Qed.

Lemma get_entry_spec :
  (exists i, stored_at i /\ oa_hash_get_entry m ht key len = Ok (Some i)) \/
  (forall i, ~ stored_at i) /\ oa_hash_get_entry m ht key len = Ok None.
Proof.
  pose proof (oi_cap _ _ Hinv) as Hcap. pose proof (hash_of_range k (capacity ht) ltac:(lia)) as Hr.
  unfold oa_hash_get_entry. rewrite genhash_hash_of by (done || lia). fold k h.
  destruct (Z.eqb_spec len 0); [lia|]. destruct (Z.eqb_spec (capacity ht) 0); [lia|]. cbn [orb].
  destruct (stored_dec m ht k Hinv) as [(i & e & He)|Hno].
  - left. exists i. split; [by exists e|].
    rewrite <- (Z.mod_small h (capacity ht)) by done. replace h with (h + 0) by lia.
    apply find_slot_hit; [by exists e|lia|lia|]. apply Z.mod_pos_bound. lia.
  - right. split; [intros i (e & ?); by apply (Hno i e)|]. apply find_slot_miss; [|done].
    intros i (e & ?). by apply (Hno i e).
Qed.

Lemma set_slot_hit i n j fd :
  stored_at i -> 0 <= j -> Z.of_nat n + j = capacity ht -> j <= (i - h) mod capacity ht ->
  set_slot n ((h + j) mod capacity ht) fd m key len ht = Ok (Some (inr i)).
Proof.
  intros (e & Hi & Ho & Hk). pose proof (oi_cap _ _ Hinv) as Hcap.
  revert j fd. induction n as [|n IH]; intros j fd Hj Hn Hd.
  { pose proof (Z.mod_pos_bound (i - h) (capacity ht)). lia. }
  cbn [set_slot]. pose proof (Z.mod_pos_bound (h + j) (capacity ht) ltac:(lia)) as Hr.
  destruct (slot_exists m ht _ Hinv Hr) as [e' He']. rewrite (proj2 He').
  cbn [checked mbind outcome_bind].
  destruct (Z.eq_dec j ((i - h) mod capacity ht)) as [Heq|Hne].
  - assert ((h + j) mod capacity ht = i) as Hij by (rewrite Heq; by apply probe_of_dist, Hi).
    assert (e' = e) as -> by (eapply (slot_at_inj ht i); [rewrite <- Hij|]; done).
    rewrite (bool_decide_eq_false_2 (_ = OA_HASH_ENTRY_EMPTY)) by (unfold occ in Ho; congruence).
    rewrite (proj2 (matches_slot i e Hi)) by done. by rewrite Hij.
  - destruct (oi_path _ _ Hinv i e j Hi Ho) as (e2 & He2 & Hst); [rewrite Hk; fold h; lia|].
    rewrite Hk in He2. fold h in He2. rewrite (slot_at_inj _ _ _ _ He2 He') in Hst.
    rewrite (bool_decide_eq_false_2 (_ = OA_HASH_ENTRY_EMPTY)) by done.
    destruct (matches m key len e') eqn:Hm.
    + apply (matches_slot _ _ He') in Hm as [Ho' Hk'].
      assert ((h + j) mod capacity ht = i) as Hij by (apply (oi_inj _ _ Hinv _ _ e' e); (done || congruence)).
      rewrite <- Hij, probe_dist in Hne by lia. done.
    + rewrite probe_next by lia. apply IH; lia.
Qed.

(** The slots before step [j] of the probe are not empty. *)
Definition passed (j : Z) : Prop :=
  forall d, 0 <= d < j -> exists e, slot_at ht ((h + d) mod capacity ht) e /\ state e <> OA_HASH_ENTRY_EMPTY.

(** A slot a new entry for [k] may go to: not occupied, reached over slots
    that are not empty. *)
Definition insertable (slot : Z) : Prop :=
  exists d e, 0 <= d < capacity ht /\ slot = (h + d) mod capacity ht /\ slot_at ht slot e /\
    state e <> OA_HASH_ENTRY_OCCUPIED /\ passed d.

Lemma passed_step j e :
  0 <= j -> passed j -> slot_at ht ((h + j) mod capacity ht) e -> state e <> OA_HASH_ENTRY_EMPTY ->
  passed (j + 1).
Proof.
  intros Hj Hp He Hst d Hd. destruct (Z.eq_dec d j) as [->|]; [by exists e|]. apply Hp. lia.
Qed.

Lemma set_slot_miss n j fd :
  (forall i, ~ stored_at i) -> 0 <= j -> Z.of_nat n + j = capacity ht -> passed j ->
  (forall d, fd = Some d -> insertable d) ->
  exists r, set_slot n ((h + j) mod capacity ht) fd m key len ht = Ok r /\
    match r with
    | None => passed (capacity ht)
    | Some (inl slot) => insertable slot
    | Some (inr _) => False
    end.
Proof.
  intros Hno. pose proof (oi_cap _ _ Hinv) as Hcap.
  revert j fd. induction n as [|n IH]; intros j fd Hj Hn Hp Hfd; cbn [set_slot].
  { eexists. split; [done|]. by replace (capacity ht) with j by lia. }
  pose proof (Z.mod_pos_bound (h + j) (capacity ht) ltac:(lia)) as Hr.
  destruct (slot_exists m ht _ Hinv Hr) as [e He]. rewrite (proj2 He). cbn [checked mbind outcome_bind].
  set (fd' := match fd with Some d => Some d | None => _ end).
  assert (forall d, fd' = Some d -> insertable d) as Hfd'.
  { intros d. unfold fd'. destruct fd as [d0|]; [apply Hfd|]. case_bool_decide as Hdel; [|done].
    intros [= <-]. exists j, e. split_and!; (done || lia || congruence). }
  case_bool_decide as Hem.
  { eexists. split; [done|]. simpl. destruct fd' as [d|]; [by apply Hfd'|]. simpl.
    exists j, e. split_and!; (done || lia || congruence). }
  destruct (matches m key len e) eqn:Hm.
  { apply (matches_slot _ _ He) in Hm. destruct (Hno ((h + j) mod capacity ht)). by exists e. }
  rewrite probe_next by lia. apply IH; [lia|lia| |done]. by eapply passed_step.
Qed.

(** The three outcomes of [oa_hash_set_entry]. *)
Lemma set_entry_spec v :
  exists r ht', oa_hash_set_entry m ht key len v = Ok (r, ht') /\
    ((exists i, stored_at i /\ r = Some i /\
        ht' = OaHash (ht_length ht) (capacity ht) (buckets ht) (alter (set_value v) (Z.to_nat i) (slots ht))) \/
     (forall i, ~ stored_at i) /\
     ((exists i, insertable i /\ r = Some i /\
         ht' = OaHash (wrap64 (ht_length ht + 1)) (capacity ht) (buckets ht)
                 (<[Z.to_nat i := OaEntry OA_HASH_ENTRY_OCCUPIED key len v]> (slots ht))) \/
      r = None /\ ht' = ht /\ passed (capacity ht))).
Proof.
  pose proof (oi_cap _ _ Hinv) as Hcap. pose proof (hash_of_range k (capacity ht) ltac:(lia)) as Hr.
  unfold oa_hash_set_entry. rewrite genhash_hash_of by (done || lia). fold k h.
  destruct (Z.eqb_spec len 0); [lia|]. destruct (Z.eqb_spec (capacity ht) 0); [lia|]. cbn [orb].
  assert (h = (h + 0) mod capacity ht) as Hh0 by (rewrite Z.add_0_r, Z.mod_small; done).
  destruct (stored_dec m ht k Hinv) as [(i & e & He)|Hno].
  - pose proof (set_slot_hit i (Z.to_nat (capacity ht)) 0 None) as Hs. rewrite <- Hh0 in Hs.
    rewrite Hs; [|by exists e|lia|lia|apply Z.mod_pos_bound; lia].
    simpl. eexists _, _. split; [done|]. left. exists i. split; [by exists e|done].
  - assert (forall i, ~ stored_at i) as Hno' by (intros i (e & ?); by apply (Hno i e)).
    destruct (set_slot_miss (Z.to_nat (capacity ht)) 0 None) as (r & Hset & Hres);
      [done|lia|lia|intros d Hd; lia|done|].
    rewrite <- Hh0 in Hset. rewrite Hset. simpl. destruct r as [[i|i]|]; [|done|].
    + eexists _, _. split; [done|]. right. split; [done|]. left. exists i. done.
    + eexists _, _. split; [done|]. right. split; [done|]. right. done.
Qed.

End Search.

(** ** Replacing one entry *)

Lemma count_occ_insert l n e0 e1 :
  l !! n = Some e0 ->
  count_occ (<[n := e1]> l) = count_occ l - Z_of_bool (bool_decide (state e0 = OA_HASH_ENTRY_OCCUPIED))
                              + Z_of_bool (bool_decide (state e1 = OA_HASH_ENTRY_OCCUPIED)).
Proof.
  revert n. induction l as [|e l IH]; intros [|n] H; [done..| |]; simpl in H.
  - injection H as ->. simpl. lia.
  - cbn [insert list_insert count_occ]. change (list_insert n e1 l) with (<[n := e1]> l).
    rewrite IH by done. lia.
Qed.

Lemma alter_as_insert (f : oa_hash_entry -> oa_hash_entry) (l : list oa_hash_entry) (n : nat) e :
  l !! n = Some e -> alter f n l = <[n := f e]> l.
Proof.
  intros H. apply list_eq. intros i. destruct (decide (i = n)) as [->|Hne].
  - rewrite list_lookup_alter_eq, H, list_lookup_insert_eq; [done|by eapply lookup_lt_Some].
  - by rewrite list_lookup_alter_ne, list_lookup_insert_ne.
Qed.

Definition replace (ht : oa_hash) (n i : Z) (e : oa_hash_entry) : oa_hash :=
  OaHash n (capacity ht) (buckets ht) (<[Z.to_nat i := e]> (slots ht)).

Lemma slot_at_replace m ht n i0 e0 e1 i e :
  oa_inv m ht -> slot_at ht i0 e0 ->
  slot_at (replace ht n i0 e1) i e <-> i = i0 /\ e = e1 \/ i <> i0 /\ slot_at ht i e.
Proof.
  intros Hinv [Hi0 Hl]. unfold slot_at, replace. simpl. split.
  - intros [Hi H]. destruct (Z.eq_dec i i0) as [->|Hne].
    + rewrite list_lookup_insert_eq in H by (by eapply lookup_lt_Some). injection H as <-. auto.
    + rewrite list_lookup_insert_ne in H by lia. auto.
  - intros [[-> ->]|[Hne [Hi H]]].
    + split; [done|]. apply list_lookup_insert_eq. by eapply lookup_lt_Some.
    + split; [done|]. by rewrite list_lookup_insert_ne by lia.
Qed.

(** An entry replaced by one that is not empty keeps the invariant, when its
    key, if it has one, is found nowhere else and its slot is on the key's
    probe path. *)
Lemma oa_inv_replace m ht i0 e0 e1 :
  oa_inv m ht -> slot_at ht i0 e0 -> state e1 <> OA_HASH_ENTRY_EMPTY ->
  (occ e1 -> 0 < key_length e1 /\ key_buf e1 <> NULL /\
    (forall j e, slot_at ht j e -> j <> i0 -> occ e -> key_of m e <> key_of m e1) /\
    forall d, 0 <= d < (i0 - hash_of (key_of m e1) (capacity ht)) mod capacity ht ->
      exists e', slot_at ht ((hash_of (key_of m e1) (capacity ht) + d) mod capacity ht) e' /\
        state e' <> OA_HASH_ENTRY_EMPTY) ->
  oa_inv m (replace ht (ht_length ht - Z_of_bool (bool_decide (state e0 = OA_HASH_ENTRY_OCCUPIED))
                        + Z_of_bool (bool_decide (state e1 = OA_HASH_ENTRY_OCCUPIED))) i0 e1).
Proof.
  intros Hinv Hs0 Hne H1. set (n := _ + Z_of_bool _).
  pose proof (fun i e => slot_at_replace m ht n i0 e0 e1 i e Hinv Hs0) as Hsl.
  assert (forall d e, slot_at ht d e -> state e <> OA_HASH_ENTRY_EMPTY ->
    exists e', slot_at (replace ht n i0 e1) d e' /\ state e' <> OA_HASH_ENTRY_EMPTY) as Hkeep.
  { intros d e Hd He. destruct (Z.eq_dec d i0) as [->|].
    - exists e1. split; [apply Hsl; by left|done].
    - exists e. split; [apply Hsl; by right|done]. }
  split; try apply (oi_cap _ _ Hinv).
  - simpl. rewrite length_insert. apply (oi_slots _ _ Hinv).
  - intros i e [[-> ->]|[_ Hi]]%Hsl Ho; [destruct (H1 Ho) as (? & ? & _); done|by eapply (oi_key _ _ Hinv)].
  - intros i j e e' [[-> ->]|[Hi0 Hi]]%Hsl [[-> ->]|[Hj0 Hj]]%Hsl Ho Ho' Hk; [done|..].
    + destruct (H1 Ho) as (_ & _ & Hd & _). by destruct (Hd j e').
    + destruct (H1 Ho') as (_ & _ & Hd & _). by destruct (Hd i e).
    + by apply (oi_inj _ _ Hinv _ _ e e').
  - intros i e d Hi Ho Hd. apply Hsl in Hi as [[-> ->]|[Hi0 Hi]].
    + destruct (H1 Ho) as (_ & _ & _ & Hp). destruct (Hp d Hd) as (e' & He' & Hst). by eapply Hkeep.
    + destruct (oi_path _ _ Hinv i e d Hi Ho Hd) as (e' & He' & Hst). by eapply Hkeep.
  - simpl. rewrite (count_occ_insert _ _ e0) by apply Hs0. unfold n. by rewrite (oi_len _ _ Hinv).
Qed.

Lemma binds_replace m ht n i0 e0 e1 k v :
  oa_inv m ht -> slot_at ht i0 e0 ->
  binds m (replace ht n i0 e1) k v <->
    (occ e1 /\ key_of m e1 = k /\ value e1 = v) \/
    exists i e, i <> i0 /\ slot_at ht i e /\ occ e /\ key_of m e = k /\ value e = v.
Proof.
  intros Hinv Hs0. unfold binds. split.
  - intros (i & e & Hi & Ho & Hk & Hv). apply (slot_at_replace m ht n i0 e0 e1 i e Hinv Hs0) in Hi
      as [[-> ->]|[Hne Hi]]; [by left|]. right. by exists i, e.
  - intros [(Ho & Hk & Hv)|(i & e & Hne & Hi & Ho & Hk & Hv)].
    + exists i0, e1. split; [|done]. apply (slot_at_replace m ht n i0 e0); auto.
    + exists i, e. split; [|done]. apply (slot_at_replace m ht n i0 e0); auto.
Qed.

Lemma count_occ_bound l : 0 <= count_occ l <= Z.of_nat (length l).
Proof. induction l as [|e l IH]; simpl; [lia|]. unfold Z_of_bool. case_bool_decide; lia. Qed.

Lemma count_occ_less l n e : l !! n = Some e -> state e <> OA_HASH_ENTRY_OCCUPIED ->
  count_occ l < Z.of_nat (length l).
Proof.
  intros H Hst. pose proof (count_occ_insert l n e (set_state OA_HASH_ENTRY_OCCUPIED e) H) as Hc.
  rewrite bool_decide_eq_false_2, bool_decide_eq_true_2 in Hc by done. simpl in Hc.
  pose proof (count_occ_bound (<[n := set_state OA_HASH_ENTRY_OCCUPIED e]> l)).
  rewrite length_insert in *. lia.
Qed.

(** ** The map *)

Lemma oa_get_bound m ht key len v :
  oa_inv m ht -> 0 < len -> key <> NULL ->
  binds m ht (bytes_at m key (Z.to_nat len)) v -> oa_hash_get m ht key len = Ok v.
Proof.
  intros Hinv Hl Hk (i & e & Hi & Ho & Hke & <-). unfold oa_hash_get.
  destruct (get_entry_spec m ht key len Hinv Hl Hk) as [(j & (e' & Hj & Ho' & Hk') & ->)|[Hno _]].
  - simpl. rewrite (proj2 Hj). simpl.
    assert (i = j) as <- by (apply (oi_inj _ _ Hinv _ _ e e'); (done || congruence)).
    by rewrite (slot_at_inj _ _ _ _ Hi Hj).
  - destruct (Hno i). by exists e.
Qed.

Lemma oa_get_unbound m ht key len :
  oa_inv m ht -> 0 < len -> key <> NULL ->
  (forall v, ~ binds m ht (bytes_at m key (Z.to_nat len)) v) -> oa_hash_get m ht key len = Ok NULL.
Proof.
  intros Hinv Hl Hk Hno. unfold oa_hash_get.
  destruct (get_entry_spec m ht key len Hinv Hl Hk) as [(j & (e' & Hj & Ho' & Hk') & ->)|[_ ->]]; [|done].
  destruct (Hno (value e')). by exists j, e'.
Qed.

Lemma oa_set_cases m ht key len v :
  oa_inv m ht -> 0 < len -> key <> NULL ->
  let k := bytes_at m key (Z.to_nat len) in
  exists r ht', oa_hash_set_entry m ht key len v = Ok (r, ht') /\
    (r = None /\ ht' = ht /\ (forall w, ~ binds m ht k w) /\
       (forall i e, slot_at ht i e -> state e <> OA_HASH_ENTRY_EMPTY) \/
     (exists i, r = Some i) /\ oa_inv m ht' /\ capacity ht' = capacity ht /\ buckets ht' = buckets ht /\
       (forall k' v', binds m ht' k' v' <-> k' = k /\ v' = v \/ k' <> k /\ binds m ht k' v') /\
       (ht_length ht' = ht_length ht + 1 \/ (exists w, binds m ht k w)) /\
       ((forall i e, slot_at ht i e -> state e <> OA_HASH_ENTRY_DELETED) ->
        forall i e, slot_at ht' i e -> state e <> OA_HASH_ENTRY_DELETED)).
Proof.
  intros Hinv Hl Hk k. pose proof (oi_cap _ _ Hinv) as Hcap.
  destruct (set_entry_spec m ht key len Hinv Hl Hk v) as (r & ht' & Heq & Hcases). fold k in Hcases.
  exists r, ht'. split; [done|].
  destruct Hcases as [(i & (e & Hi & Ho & Hke) & -> & ->)|(Hno & [(i & Hins & -> & ->)|(-> & -> & Hp)])].
  - right. fold k in Hke. split; [by exists i|]. rewrite (alter_as_insert _ _ _ e) by apply Hi.
    pose proof (oa_inv_replace m ht i e (set_value v e) Hinv Hi) as Hr.
    rewrite (bool_decide_eq_true_2 (state e = _)) in Hr by done.
    rewrite (bool_decide_eq_true_2 (state (set_value v e) = _)) in Hr by done. simpl in Hr.
    replace (ht_length ht - 1 + 1) with (ht_length ht) in Hr by lia.
    unfold occ in Ho. split_and!.
    + apply Hr; [by rewrite Ho|]. intros _. destruct (oi_key _ _ Hinv i e Hi Ho). split_and!; [done..| |].
      * intros j e' Hj Hne Ho' Hke'. apply Hne. by apply (oi_inj _ _ Hinv _ _ e' e).
      * intros d Hd. by apply (oi_path _ _ Hinv i e d Hi Ho).
    + done.
    + done.
    + intros k' v'. fold (replace ht (ht_length ht) i (set_value v e)).
      rewrite (binds_replace m ht _ i e (set_value v e)) by done.
      change (key_of m (set_value v e)) with (key_of m e). rewrite Hke. split.
      * intros [(_ & <- & <-)|(j & e' & Hne & Hj & Ho' & Hk' & Hv')]; [by left|].
        right. split; [|by exists j, e']. intros ->. apply Hne. apply (oi_inj _ _ Hinv _ _ e' e); (done || congruence).
      * intros [[-> ->]|[Hne (j & e' & Hj & Ho' & Hk' & Hv')]]; [by left|]. right. exists j, e'.
        split; [|done]. intros ->. rewrite (slot_at_inj _ _ _ _ Hj Hi) in Hk'. congruence.
    + right. exists (value e). by exists i, e.
    + intros Hnd j e'. fold (replace ht (ht_length ht) i (set_value v e)).
      intros [[-> ->]|[_ Hj]]%(slot_at_replace m ht _ i e _ j e' Hinv Hi); [simpl; by rewrite Ho|by eapply Hnd].
  - right. split; [by exists i|]. destruct Hins as (d & e & Hd & -> & Hi & Hst & Hp).
    set (i := (_ + d) mod _) in *. set (e1 := OaEntry _ _ _ _).
    pose proof (oa_inv_replace m ht i e e1 Hinv Hi) as Hr.
    rewrite (bool_decide_eq_false_2 (state e = _)) in Hr by done.
    rewrite (bool_decide_eq_true_2 (state e1 = _)) in Hr by done. simpl in Hr.
    replace (ht_length ht - 0 + 1) with (ht_length ht + 1) in Hr by lia.
    rewrite wrap64_small.
    2: { rewrite (oi_len _ _ Hinv). pose proof (count_occ_less _ _ _ (proj2 Hi) Hst).
         pose proof (count_occ_bound (slots ht)). rewrite (oi_slots _ _ Hinv) in *. lia. }
    fold (replace ht (ht_length ht + 1) i e1).
    assert (key_of m e1 = k) as Hke by done. split_and!; try done.
    + apply Hr; [done|]. intros _. split_and!; [done..| |].
      * intros j e' Hj _ Ho' Hk'. destruct (Hno j). by exists e'.
      * intros d' Hd'. apply Hp. rewrite Hke in Hd'. unfold i in Hd'. rewrite probe_dist in Hd' by done. done.
    + intros k' v'. rewrite (binds_replace m ht _ i e e1), Hke by done. split.
      * intros [(_ & <- & <-)|(j & e' & Hne & Hj & Ho' & Hk' & Hv')]; [by left|].
        right. split; [|by exists j, e']. intros ->. destruct (Hno j). by exists e'.
      * intros [[-> ->]|[Hne (j & e' & Hj & Ho' & Hk' & Hv')]]; [by left|]. right. exists j, e'.
        split; [|done]. intros ->. rewrite (slot_at_inj _ _ _ _ Hj Hi) in Ho'. done.
    + by left.
    + intros Hnd j e'. intros [[-> ->]|[_ Hj]]%(slot_at_replace m ht _ i e e1 j e' Hinv Hi); [done|by eapply Hnd].
  - left. split_and!; [done..| |].
    + intros w (j & e & Hj & Ho & Hke & _). destruct (Hno j). by exists e.
    + intros i e Hi. destruct (Hp ((i - hash_of k (capacity ht)) mod capacity ht)) as (e' & He' & Hst).
      { apply Z.mod_pos_bound. lia. }
      fold k in He'. rewrite probe_of_dist in He' by apply Hi. by rewrite (slot_at_inj _ _ _ _ Hi He').
Qed.

(** C20: [oa_hash_set] against the map: it always returns. Either it returns a
    null pointer, the table is unchanged, the key was not bound and no slot is
    empty; or it returns the value, and the new table satisfies the invariant
    and is the old map with the key bound to the value. A following
    [oa_hash_get] of that key gives the value, and of every other key what it
    gave before. *)
Theorem oa_hash_set_refines_insert (m : mem) (ht : oa_hash) (key len v : Z)
    (Hinv : oa_inv m ht) (Hlen : 0 < len) (Hkey : key <> NULL) (Hv : v <> NULL) :
  let k := bytes_at m key (Z.to_nat len) in
  exists r ht', oa_hash_set m ht key len v = Ok (r, ht') /\
    (r = NULL /\ ht' = ht /\ (forall w, ~ binds m ht k w) /\
       (forall i e, slot_at ht i e -> state e <> OA_HASH_ENTRY_EMPTY) \/
     r = v /\ oa_inv m ht' /\
       (forall k' v', binds m ht' k' v' <-> k' = k /\ v' = v \/ k' <> k /\ binds m ht k' v') /\
       oa_hash_get m ht' key len = Ok v /\
       forall key' len' w, 0 < len' -> key' <> NULL -> bytes_at m key' (Z.to_nat len') <> k ->
         binds m ht (bytes_at m key' (Z.to_nat len')) w -> oa_hash_get m ht' key' len' = Ok w).
Proof.
  intros k. unfold oa_hash_set.
  destruct (oa_set_cases m ht key len v Hinv Hlen Hkey) as (r & ht' & -> & Hc). fold k in Hc. simpl.
  destruct Hc as [(-> & -> & Hno & Hem)|((i & ->) & Hinv' & Hc & _ & Hb & _)]; eexists _, _; (split; [done|]).
  - left. done.
  - right. split; [done|]. split; [done|]. split; [done|]. split.
    + apply oa_get_bound; [done..|]. fold k. apply Hb. by left.
    + intros key' len' w Hl' Hk' Hne Hbw. apply oa_get_bound; [done..|]. apply Hb. by right.
Qed.

(** ** Where the keys are *)

(** The invariant and the map read the memory at the keys only. *)
Definition keys_same (m m' : mem) (ht : oa_hash) : Prop :=
  forall i e, slot_at ht i e -> occ e -> key_of m' e = key_of m e.

Lemma oa_inv_keys m m' ht : keys_same m m' ht -> oa_inv m ht -> oa_inv m' ht.
Proof.
  intros Hk [H1 H2 H3 H4 H5 H6]. split; try done.
  - intros i j e e' Hi Hj Ho Ho'. rewrite (Hk i e), (Hk j e') by done. by apply H4.
  - intros i e d Hi Ho. rewrite (Hk i e) by done. by apply H5.
Qed.

Lemma binds_keys m m' ht k v : keys_same m m' ht -> binds m ht k v <-> binds m' ht k v.
Proof.
  intros Hk. split; intros (i & e & Hi & Ho & <- & Hv); exists i, e; split_and!; try done; by rewrite (Hk i e).
Qed.

(** Setting a key keeps the buffers of the entries and may add its own. *)
Lemma oa_set_buffers m ht key len v r ht' i e :
  oa_hash_set_entry m ht key len v = Ok (r, ht') -> slot_at ht' i e -> occ e ->
  (exists e0, slot_at ht i e0 /\ occ e0 /\ key_buf e = key_buf e0 /\ key_length e = key_length e0) \/
  key_buf e = key /\ key_length e = len.
Proof.
  intros Hset Hi Ho. unfold oa_hash_set_entry in Hset. destruct (_ || _); [injection Hset as <- <-; left; eauto|].
  bind_in Hset. destruct a as [[slot|slot]|]; injection Hset as _ <-; [..|left; by exists e].
  - destruct Hi as [Hr Hl]. simpl in Hl. destruct (decide (Z.to_nat slot = Z.to_nat i)) as [Heq|Hne].
    + right. rewrite Heq in Hl. destruct (decide (Z.to_nat i < length (slots ht))%nat).
      * rewrite list_lookup_insert_eq in Hl by done. by injection Hl as <-.
      * apply lookup_lt_Some in Hl. rewrite length_insert in Hl. lia.
    + left. rewrite list_lookup_insert_ne in Hl by done. exists e. done.
  - left. destruct Hi as [Hr Hl]. simpl in Hl. destruct (decide (Z.to_nat slot = Z.to_nat i)) as [Heq|Hne].
    + rewrite Heq, list_lookup_alter_eq in Hl. destruct (slots ht !! Z.to_nat i) as [e0|] eqn:He0; [|done].
      injection Hl as <-. exists e0. done.
    + rewrite list_lookup_alter_ne in Hl by done. exists e. done.
Qed.

(** ** Removal *)

Lemma remove_entry_spec m ht key len :
  oa_inv m ht -> 0 < len -> key <> NULL ->
  let k := bytes_at m key (Z.to_nat len) in
  (forall v, ~ binds m ht k v) /\ remove_entry m ht key len = Ok (None, ht) \/
  exists i e ht', slot_at ht i e /\ occ e /\ key_of m e = k /\
    remove_entry m ht key len = Ok (Some (key_buf e), ht') /\ oa_inv m ht' /\
    ht_length ht' = ht_length ht - 1 /\
    forall k' v', binds m ht' k' v' <-> k' <> k /\ binds m ht k' v'.
Proof.
  intros Hinv Hl Hk k. pose proof (oi_cap _ _ Hinv) as Hcap.
  assert (remove_entry m ht key len = (r ← oa_hash_get_entry m ht key len;
    match r with
    | Some slot =>
        e ← checked (slots ht !! Z.to_nat slot) OutOfBounds;
        Ok (Some (key_buf e),
            OaHash (wrap64 (ht_length ht - 1)) (capacity ht) (buckets ht)
              (alter (set_state OA_HASH_ENTRY_DELETED) (Z.to_nat slot) (slots ht)))
    | None => Ok (None, ht)
    end)) as ->.
  { unfold remove_entry, oa_hash_get_entry. by destruct ((len =? 0) || _). }
  destruct (get_entry_spec m ht key len Hinv Hl Hk) as [(i & (e & Hi & Ho & Hke) & ->)|[Hno ->]].
  - right. simpl. rewrite (proj2 Hi). simpl. eexists i, e, _. do 4 (split; [done|]).
    fold k in Hke. rewrite (alter_as_insert _ _ _ e) by apply Hi. set (e1 := set_state _ e).
    pose proof (oa_inv_replace m ht i e e1 Hinv Hi) as Hr.
    rewrite (bool_decide_eq_true_2 (state e = _)) in Hr by done.
    rewrite (bool_decide_eq_false_2 (state e1 = _)) in Hr by done. simpl in Hr.
    replace (ht_length ht - 1 + 0) with (ht_length ht - 1) in Hr by lia.
    assert (0 < ht_length ht) as Hpos.
    { rewrite (oi_len _ _ Hinv). pose proof (count_occ_insert _ _ e e1 (proj2 Hi)) as Hci.
      rewrite bool_decide_eq_true_2, bool_decide_eq_false_2 in Hci by done. simpl in Hci.
      pose proof (count_occ_bound (<[Z.to_nat i := e1]> (slots ht))). lia. }
    rewrite wrap64_small.
    2: { rewrite (oi_len _ _ Hinv) in *. pose proof (count_occ_bound (slots ht)).
         rewrite (oi_slots _ _ Hinv) in *. lia. }
    split; [apply Hr; [done|]; intros Ho1; discriminate Ho1|]. split; [done|].
    intros k' v'. fold (replace ht (ht_length ht - 1) i e1).
    rewrite (binds_replace m ht _ i e e1) by done. split.
    + intros [(Ho1 & _)|(j & e' & Hne & Hj & Ho' & Hk' & Hv')]; [discriminate Ho1|]. split; [|by exists j, e'].
      intros ->. apply Hne. apply (oi_inj _ _ Hinv _ _ e' e); (done || congruence).
    + intros [Hne (j & e' & Hj & Ho' & Hk' & Hv')]. right. exists j, e'. split; [|done].
      intros ->. rewrite (slot_at_inj _ _ _ _ Hj Hi) in Hk'. congruence.
  - left. split; [|done]. intros v (i & e & Hi & Ho & Hke & _). destruct (Hno i). by exists e.
Qed.


(** ** Rehashing *)

(** The bindings of a list of entries. *)
Definition list_binds (m : mem) (l : list oa_hash_entry) (k : list Z) (v : Z) : Prop :=
  exists e, e ∈ l /\ occ e /\ key_of m e = k /\ value e = v.

Definition no_deleted (ht : oa_hash) : Prop :=
  forall i e, slot_at ht i e -> state e <> OA_HASH_ENTRY_DELETED.

(** No two entries of the list have the same key, and all keys are readable. *)
Fixpoint distinct_keys (m : mem) (l : list oa_hash_entry) : Prop :=
  match l with
  | [] => True
  | e :: l' =>
      (occ e -> 0 < key_length e /\ key_buf e <> NULL /\ forall v, ~ list_binds m l' (key_of m e) v) /\
      distinct_keys m l'
  end.

Lemma list_binds_cons m e l k v :
  list_binds m (e :: l) k v <-> (occ e /\ key_of m e = k /\ value e = v) \/ list_binds m l k v.
Proof.
  unfold list_binds. split.
  - intros (e' & He & H). apply elem_of_cons in He as [->|He]; [by left|]. right. by exists e'.
  - intros [H|(e' & He & H)]; [exists e|exists e']; (split; [apply elem_of_cons; auto|done]).
Qed.

(** A table without deleted entries that is not full has an empty slot. *)
Lemma not_full m ht :
  oa_inv m ht -> no_deleted ht -> ht_length ht < capacity ht ->
  ~ (forall i e, slot_at ht i e -> state e <> OA_HASH_ENTRY_EMPTY).
Proof.
  intros Hinv Hnd Hlt Hall.
  assert (forall l : list oa_hash_entry, (forall n e, l !! n = Some e -> occ e) ->
    count_occ l = Z.of_nat (length l)) as Hcount.
  { induction l as [|e l IH]; intros Hl; [done|]. cbn [count_occ length]. rewrite IH.
    - rewrite bool_decide_eq_true_2 by (apply (Hl O); done). simpl. lia.
    - intros n e' He. by apply (Hl (S n)). }
  rewrite (oi_len _ _ Hinv), Hcount, (oi_slots _ _ Hinv) in Hlt; [lia|].
  intros n e He. pose proof (oi_slots _ _ Hinv). pose proof (lookup_lt_Some _ _ _ He).
  assert (slot_at ht (Z.of_nat n) e) as Hs by (split; [lia|by rewrite Nat2Z.id]).
  pose proof (Hall _ _ Hs). pose proof (Hnd _ _ Hs). unfold occ. by destruct (state e).
Qed.

Lemma rehash_loop_spec m l ht :
  oa_inv m ht -> no_deleted ht -> distinct_keys m l ->
  (forall e, e ∈ l -> occ e -> forall v, ~ binds m ht (key_of m e) v) ->
  ht_length ht + count_occ l < capacity ht ->
  exists ht', rehash_loop m l ht = Ok (Some ht') /\ oa_inv m ht' /\ buckets ht' = buckets ht /\
    capacity ht' = capacity ht /\ no_deleted ht' /\
    forall k v, binds m ht' k v <-> binds m ht k v \/ list_binds m l k v.
Proof.
  revert ht. induction l as [|e l IH]; intros ht Hinv Hnd Hdist Hnew Hlt; cbn [rehash_loop].
  { exists ht. split_and!; try done. intros k v. split; [auto|].
    intros [?|(e & He & _)]; [done|]. by apply elem_of_nil in He. }
  destruct Hdist as [He Hdist]. cbn [count_occ] in Hlt. pose proof (count_occ_bound l).
  case_bool_decide as Ho.
  - destruct (He Ho) as (Hpos & Hbuf & Hfresh). simpl in Hlt.
    destruct (oa_set_cases m ht (key_buf e) (key_length e) (value e) Hinv Hpos Hbuf)
      as (r & ht1 & -> & Hc). simpl. fold (key_of m e) in Hc.
    destruct Hc as [(_ & _ & _ & Hfull)|((i & ->) & Hinv1 & Hcap1 & Hbk & Hb & Hlen1 & Hnd1)].
    { destruct (not_full m ht Hinv Hnd ltac:(lia) Hfull). }
    destruct (IH ht1) as (ht' & -> & Hinv' & Hbk' & Hcap' & Hnd' & Hb').
    + done.
    + exact (Hnd1 Hnd).
    + done.
    + intros e' He' Ho' v Hbv. apply Hb in Hbv as [[Hk ->]|[Hk Hbv]].
      * apply (Hfresh (value e')). exists e'. done.
      * apply (Hnew e' ltac:(apply elem_of_cons; by right) Ho' v Hbv).
    + rewrite Hcap1. destruct Hlen1 as [->|(w & Hw)]; [lia|].
      by destruct (Hnew e ltac:(apply elem_of_cons; by left) Ho w).
    + exists ht'. split_and!; try done; try congruence. intros k v. rewrite Hb', Hb, list_binds_cons. split.
      * intros [[[-> ->]|[_ ?]]|?]; auto.
      * intros [Hbk0|[(_ & <- & <-)|?]]; auto. left. right. split; [|done].
        intros ->. by apply (Hnew e ltac:(apply elem_of_cons; by left) Ho v).
  - simpl in Hlt. destruct (IH ht) as (ht' & -> & Hinv' & Hbk' & Hcap' & Hnd' & Hb'); try done.
    + intros e' He'. apply Hnew. apply elem_of_cons. by right.
    + exists ht'. split_and!; try done. intros k v. rewrite Hb', list_binds_cons. split; [tauto|].
      intros [?|[[? _]|?]]; auto. done.
Qed.

Lemma oa_init_inv m b cap : 0 < cap < 2 ^ 64 ->
  oa_inv m (oa_hash_init b cap) /\ no_deleted (oa_hash_init b cap) /\
  forall k v, ~ binds m (oa_hash_init b cap) k v.
Proof.
  intros Hc. assert (forall i e, slot_at (oa_hash_init b cap) i e -> e = empty_entry) as He.
  { intros i e [_ H]. simpl in H. by apply lookup_replicate in H as [-> _]. }
  split_and!.
  - split; try done.
    + simpl. rewrite length_replicate. lia.
    + intros i e Hi Ho. rewrite (He i e Hi) in Ho. done.
    + intros i j e e' Hi _ Ho. rewrite (He i e Hi) in Ho. done.
    + intros i e d Hi Ho. rewrite (He i e Hi) in Ho. done.
    + simpl. induction (Z.to_nat cap); [done|]. simpl. lia.
  - intros i e Hi. by rewrite (He i e Hi).
  - intros k v (i & e & Hi & Ho & _). rewrite (He i e Hi) in Ho. done.
Qed.

Lemma distinct_keys_slots m ht : oa_inv m ht -> distinct_keys m (slots ht).
Proof.
  intros Hinv.
  assert (forall pre l, slots ht = pre ++ l -> distinct_keys m l) as Hgen; [|by apply (Hgen [])].
  intros pre l. revert pre. induction l as [|e l IH]; intros pre Heq; [done|]. split.
  - intros Ho. assert (slot_at ht (Z.of_nat (length pre)) e) as Hs.
    { split; [|rewrite Nat2Z.id, Heq; by rewrite lookup_app_r, Nat.sub_diag by lia].
      pose proof (oi_slots _ _ Hinv) as Hl. rewrite Heq, length_app in Hl. simpl in Hl. lia. }
    destruct (oi_key _ _ Hinv _ _ Hs Ho). split_and!; [done..|].
    intros v (e' & He' & Ho' & Hk & _). apply list_elem_of_lookup in He' as [n Hn].
    assert (slot_at ht (Z.of_nat (length pre + S n)) e') as Hs'.
    { split; [|rewrite Nat2Z.id, Heq, lookup_app_r by lia;
               by replace (length pre + S n - length pre)%nat with (S n) by lia].
      pose proof (oi_slots _ _ Hinv) as Hl. rewrite Heq, length_app in Hl. simpl in Hl.
      apply lookup_lt_Some in Hn. lia. }
    pose proof (oi_inj _ _ Hinv _ _ _ _ Hs' Hs Ho' Ho Hk). lia.
  - apply (IH (pre ++ [e])). by rewrite Heq, <- app_assoc.
Qed.

Lemma list_binds_slots m ht k v : oa_inv m ht -> list_binds m (slots ht) k v <-> binds m ht k v.
Proof.
  intros Hinv. unfold list_binds, binds. split.
  - intros (e & He & H). apply list_elem_of_lookup in He as [n Hn]. exists (Z.of_nat n), e.
    split; [|done]. split; [|by rewrite Nat2Z.id]. pose proof (oi_slots _ _ Hinv).
    apply lookup_lt_Some in Hn. lia.
  - intros (i & e & [_ Hl] & H). exists e. split; [by eapply list_elem_of_lookup_2|done].
Qed.

(** [oa_hash_rehash] into a larger array always succeeds: it returns the
    old array, the new table has the new capacity and no deleted entries, and
    it is the same map. *)
Theorem oa_hash_rehash_preserves (m : mem) (ht : oa_hash) (new_buckets new_capacity : Z)
    (Hinv : oa_inv m ht) (Hb : new_buckets <> NULL) (Hc : capacity ht < new_capacity < 2 ^ 64) :
  exists ht', oa_hash_rehash m ht new_buckets new_capacity = Ok (buckets ht, ht') /\
    oa_inv m ht' /\ capacity ht' = new_capacity /\ buckets ht' = new_buckets /\ no_deleted ht' /\
    forall k v, binds m ht' k v <-> binds m ht k v.
Proof.
  pose proof (oi_cap _ _ Hinv) as Hcap. unfold oa_hash_rehash.
  destruct (Z.eqb_spec new_buckets NULL); [done|].
  destruct (Z.leb_spec new_capacity (capacity ht)); [lia|]. cbn [orb].
  destruct (oa_init_inv m new_buckets new_capacity) as (Hi & Hnd & Hno); [lia|].
  destruct (rehash_loop_spec m (slots ht) (oa_hash_init new_buckets new_capacity))
    as (ht' & -> & Hinv' & Hbk & Hcp & Hnd' & Hbinds); try done.
  - by apply distinct_keys_slots.
  - simpl. pose proof (count_occ_bound (slots ht)). rewrite (oi_slots _ _ Hinv) in *. lia.
  - simpl. exists ht'. split_and!; try done. intros k v. rewrite Hbinds, list_binds_slots by done.
    split; [|auto]. intros [Hc'|?]; [|done]. by destruct (Hno k v).
Qed.

(** ** Witnesses *)

(** The key "7" at the first heap address, in a table of four buckets. *)
Definition sample_mem : mem := fun a => if a =? HEAP_START_VIRT_DEFINED then 55 else 0.
Definition sample_table : oa_hash := oa_hash_init 0x1000 4.
Definition sample_heap : mst := Mst sample_mem true [] 0 (fresh_heap 4).

Lemma sample_table_inv : oa_inv sample_mem sample_table.
Proof. apply (oa_init_inv sample_mem 0x1000 4). lia. Qed.

Lemma oa_hash_set_refines_insert_witness :
  exists r ht', oa_hash_set sample_mem sample_table HEAP_START_VIRT_DEFINED 1 42 = Ok (r, ht') /\
    (r = NULL /\ ht' = sample_table \/
     oa_hash_get sample_mem ht' HEAP_START_VIRT_DEFINED 1 = Ok 42).
Proof.
  destruct (oa_hash_set_refines_insert sample_mem sample_table HEAP_START_VIRT_DEFINED 1 42)
    as (r & ht' & H1 & H2).
  - exact sample_table_inv.
  - lia.
  - discriminate.
  - discriminate.
  - exists r, ht'. split; [exact H1|]. destruct H2 as [(? & ? & _)|(_ & _ & _ & H & _)]; [left|right]; auto.
Defined.


Lemma oa_hash_rehash_preserves_witness :
  exists ht', oa_hash_rehash sample_mem sample_table 0x2000 8 = Ok (0x1000, ht') /\ capacity ht' = 8.
Proof.
  destruct (oa_hash_rehash_preserves sample_mem sample_table 0x2000 8) as (ht' & H1 & _ & H2 & _).
  - exact sample_table_inv.
  - discriminate.
  - simpl. lia.
  - exists ht'. split; [exact H1|exact H2].
Defined.
