(* ===== verification/Mutex.v ===== *)
(** * Mutexes and futexes: mutex.c

    [acquire_mutex] is a compare-and-exchange loop.  The builtin writes the
    current value into the expected one when it fails, which the model keeps.
    The interleaving of several threads is the step relation [lock_step].  The
    futex queues are structures in memory. *)

From S2P Require Import Prelude Memory Machine Heap.

(** ** Mutex *)

Record mutex_t : Type := Mutex {
  locked : bool;
  object : Z
}.

(** [__atomic_compare_exchange(&cell, &old, &new, ...)]: the result, the cell
    and the expected value afterwards. *)
Definition compare_exchange (cell old new : bool) : bool * bool * bool :=
  if Bool.eqb cell old then (true, new, old) else (false, cell, cell).

(** [while (!__atomic_compare_exchange(&mutex->locked, &old, &new, ...)) pause;] *)
Fixpoint acquire_loop (fuel : nat) (old : bool) (m : mutex_t) : outcome mutex_t :=
  match fuel with
  | O => Err OutOfFuel
  | S f =>
      let '(ok, cell, old) := compare_exchange (locked m) old true in
      let m := Mutex cell (object m) in
      if ok then Ok m else acquire_loop f old m
  end.

Definition acquire_mutex (fuel : nat) (m : mutex_t) : outcome mutex_t := acquire_loop fuel false m.

Definition release_mutex (m : mutex_t) : mutex_t :=
  let '(_, cell, _) := compare_exchange (locked m) true false in Mutex cell (object m).

(** The same on a [mutex_t] in memory ([locked] at 0, [object] at 8).  Two
    attempts are enough for [acquire_mutex] whatever the cell holds. *)
Definition load_mutex (m : mem) (p : Z) : mutex_t := Mutex (negb (m p =? 0)) (load64 m (p + 8)).

Definition acquire_mutex_at (p : Z) (s : mst) : outcome mst :=
  if p =? NULL then Err NullDeref
  else
    mt ← acquire_mutex 2 (load_mutex (mm s) p);
    Ok (set_mm (store8 (mm s) p (Z_of_bool (locked mt))) s).

Definition release_mutex_at (p : Z) (s : mst) : outcome mst :=
  if p =? NULL then Err NullDeref
  else Ok (set_mm (store8 (mm s) p (Z_of_bool (locked (release_mutex (load_mutex (mm s) p))))) s).

Lemma acquire_mutex_at_ok p s : p <> NULL -> acquire_mutex_at p s = Ok (set_mm (store8 (mm s) p 1) s).
Proof.
  intros Hp. unfold acquire_mutex_at. destruct (Z.eqb_spec p NULL); [done|].
  unfold load_mutex. by destruct (mm s p =? 0).
Qed.

Lemma release_mutex_at_ok p s : p <> NULL -> release_mutex_at p s = Ok (set_mm (store8 (mm s) p 0) s).
Proof.
  intros Hp. unfold release_mutex_at. destruct (Z.eqb_spec p NULL); [done|].
  unfold load_mutex. by destruct (mm s p =? 0).
Qed.

(** ** Interleavings

    Where a thread is with respect to one mutex. *)
Inductive lock_pc : Type :=
| Outside
| Trying (old : bool)
| Inside.

Record lock_state : Type := LockState {
  mtx : mutex_t;
  pcs : gmap nat lock_pc
}.

(** One thread takes one step: it calls [acquire_mutex], performs one
    compare-and-exchange, or calls [release_mutex]. *)
Inductive lock_step : lock_state -> lock_state -> Prop :=
| step_call i s : pcs s !! i = Some Outside ->
    lock_step s (LockState (mtx s) (<[i := Trying false]> (pcs s)))
| step_cas i s old ok cell old' : pcs s !! i = Some (Trying old) ->
    compare_exchange (locked (mtx s)) old true = (ok, cell, old') ->
    lock_step s (LockState (Mutex cell (object (mtx s)))
                   (<[i := if ok then Inside else Trying old']> (pcs s)))
| step_release i s : pcs s !! i = Some Inside ->
    lock_step s (LockState (release_mutex (mtx s)) (<[i := Outside]> (pcs s))).

(** Two threads outside and the mutex free. *)
Definition two_threads : lock_state :=
  LockState (Mutex false 0) (<[0%nat := Outside]> (<[1%nat := Outside]> ∅)).

(** [acquire_mutex] does not spin: whoever holds the mutex, it returns after
    at most two attempts with the mutex locked; [release_mutex] always unlocks
    it. *)
Lemma acquire_mutex_two_attempts (m : mutex_t) (fuel : nat) :
  acquire_mutex (S (S fuel)) m = Ok (Mutex true (object m)) /\
  release_mutex (Mutex true (object m)) = Mutex false (object m).
Proof. destruct m as [[] o]; done. Qed.

(** C31: two threads can both be inside: from a free mutex there is a schedule in
    which the second thread enters while the first has not released. *)
Theorem acquire_mutex_not_exclusive :
  exists s, rtc lock_step two_threads s /\
    pcs s !! 0%nat = Some Inside /\ pcs s !! 1%nat = Some Inside.
Proof.
  eexists. split; [|split].
  - eapply rtc_l; [apply (step_call 0); done|].
    eapply rtc_l; [eapply (step_cas 0 _ false); done|].
    eapply rtc_l; [apply (step_call 1); done|].
    eapply rtc_l; [eapply (step_cas 1 _ false); done|].
    eapply rtc_l; [eapply (step_cas 1 _ true); done|]. apply rtc_refl.
  - done.
  - done.
Qed.

(** ** Futex queues

    [futex_queue_t] in memory: [pointer] at 0, [threads] at 8, [size] at 16,
    [max_size] at 24. *)

Record futex_state : Type := Futex {
  fm : mst;
  global_futex_array : Z;
  global_futex_array_size : Z
}.

Definition FUTEX_QUEUE_SIZE : Z := 32.

(** A load or store of a field through a pointer. *)
Definition deref64 (m : mem) (p off : Z) : outcome Z :=
  if p =? NULL then Err NullDeref else Ok (load64 m (p + off)).
Definition assign64 (m : mem) (p off v : Z) : outcome mem :=
  if p =? NULL then Err NullDeref else Ok (store64 m (p + off) v).

Definition init_futex (s : mst) : outcome futex_state :=
  '(a, s) ← kmalloc_byte (128 * 8) s;
  if a =? NULL then Err NullDeref
  else Ok (Futex (set_mm (memset (mm s) a 0 (128 * 8)) s) a 128).

(** The [for] loop runs once: [sizeof] is taken of the pointer. *)
Definition futex_find (pointer : Z) (f : futex_state) : outcome (Z * futex_state) :=
  let s := fm f in
  let arr := global_futex_array f in
  q0 ← deref64 (mm s) arr 0;
  p ← deref64 (mm s) q0 0;
  if p =? pointer then
    let i := sint32 (global_futex_array_size f - 1) in
    '(arr, s) ←
      (if i =? 0 then Ok (arr, s)
       else krealloc_byte arr (wrap64 (global_futex_array_size f + 128)) s);
    queue ← deref64 (mm s) arr (8 * i);
    Ok (queue, Futex s arr (global_futex_array_size f))
  else Ok (NULL, f).

(** A new queue for [pointer], put at index 0 of the array. *)
Definition futex_new (pointer : Z) (f : futex_state) : outcome (Z * futex_state) :=
  '(queue, s) ← kmalloc_byte_interruptable FUTEX_QUEUE_SIZE (fm f);
  m ← assign64 (mm s) queue 0 pointer;
  m ← assign64 m queue 16 0;
  m ← assign64 m queue 24 64;
  '(threads, s) ← kmalloc_byte_interruptable (64 * 8) (set_mm m s);
  m ← assign64 (mm s) queue 8 threads;
  m ← assign64 m (global_futex_array f) 0 queue;
  Ok (queue, Futex (set_mm m s) (global_futex_array f) (global_futex_array_size f)).

Definition futex_enqueue (pointer thread : Z) (f : futex_state) : outcome futex_state :=
  let '(irq, s) := irq_disable_save (fm f) in
  let f := Futex s (global_futex_array f) (global_futex_array_size f) in
  '(queue, f) ← futex_find pointer f;
  '(queue, f) ← (if queue =? NULL then futex_new pointer f else Ok (queue, f));
  let s := fm f in
  size ← deref64 (mm s) queue 16;
  max_size ← deref64 (mm s) queue 24;
  s ← (if size =? max_size then
         m ← assign64 (mm s) queue 24 (wrap64 (max_size + 64));
         threads ← deref64 m queue 8;
         '(threads, s) ← krealloc_byte threads (wrap64 (wrap64 (max_size + 64) * 8)) (set_mm m s);
         m ← assign64 (mm s) queue 8 threads;
         Ok (set_mm m s)
       else Ok s);
  threads ← deref64 (mm s) queue 8;
  m ← assign64 (mm s) threads (8 * size) thread;
  m ← assign64 m queue 16 (wrap64 (size + 1));
  Ok (Futex (irq_restore irq (set_mm m s)) (global_futex_array f) (global_futex_array_size f)).

(** the first [futex_enqueue] after [init_futex] dereferences a null
    pointer: the array is cleared, and the search reads [pointer] of its first
    entry before any queue exists. *)
Lemma futex_enqueue_after_init_faults (s : mst) (f : futex_state) (pointer thread : Z)
    (Hinit : init_futex s = Ok f) : futex_enqueue pointer thread f = Err NullDeref.
Proof.
  unfold init_futex in Hinit. bind_in Hinit. destruct a as [a s1].
  destruct (Z.eqb_spec a NULL) as [|Ha]; [discriminate Hinit|]. injection Hinit as <-.
  assert (deref64 (memset (mm s1) a 0 (128 * 8)) a 0 = Ok 0) as Hd.
  { unfold deref64. destruct (Z.eqb_spec a NULL); [done|]. f_equal.
    apply load_le_zero. intros x Hx. by rewrite memset_in by lia. }
  unfold futex_enqueue, futex_find. cbn [irq_disable_save fm global_futex_array].
  cbn [mm set_iflag set_mm]. by rewrite Hd.
Qed.

Definition futex_heap : mst := Mst (fun _ => 0) true [] 0 (fresh_heap 32).

Lemma futex_enqueue_after_init_faults_witness :
  exists f, init_futex futex_heap = Ok f /\ futex_enqueue 0x400000 0x1234 f = Err NullDeref.
Proof.
  exists (match init_futex futex_heap with Ok f => f | Err _ => Futex futex_heap 0 0 end).
  split; [reflexivity|]. apply (futex_enqueue_after_init_faults futex_heap). reflexivity.
Defined.
