(* ===== verification/Scheduler.v ===== *)
(** * Threads and scheduling: scheduler.c

    A thread context is a record; the contexts are kept in a map from their
    heap address, and [next_thread] and [prev_thread] are addresses.  The ready
    threads form a doubly linked ring through [running_thread].  The registers
    the scheduler switches ([cr3], [rsp] and the SSE state) are part of the
    state; what it writes to the interrupt controller and to the TSS is a
    trace of events.  The ring is specified by the list of its threads from the
    running one on ([ring]), and each operation by what it does to that list. *)

From S2P Require Import Prelude Memory Machine Frames Heap Paging OaHash.

(** ** Data *)

(** [thread_context] of scheduler.h, the fields the modelled code uses; [ssefxsave]
    stands for the 512-byte image. *)
Record thread_context : Type := Thread {
  last_run_time : Z;
  sleep_for_ms : Z;
  quantum_ns : Z;
  pid : Z;
  thread_entry : Z;
  stack_base : Z;
  ssefxsave : Z;
  current_rsp : Z;
  status : Z -> Z;
  elf_entry : Z;
  elf_file : Z;
  mappings : thread_mappings;
  fd_table : Z;
  cr3 : Z;
  current_dir : Z;
  next_thread : Z;
  prev_thread : Z;
  user_rsp : Z
}.

Definition set_last_run_time (x : Z) (t : thread_context) : thread_context :=
  Thread x (sleep_for_ms t) (quantum_ns t) (pid t) (thread_entry t) (stack_base t) (ssefxsave t)
    (current_rsp t) (status t) (elf_entry t) (elf_file t) (mappings t) (fd_table t) (cr3 t)
    (current_dir t) (next_thread t) (prev_thread t) (user_rsp t).
Definition set_sleep_for_ms (x : Z) (t : thread_context) : thread_context :=
  Thread (last_run_time t) x (quantum_ns t) (pid t) (thread_entry t) (stack_base t) (ssefxsave t)
    (current_rsp t) (status t) (elf_entry t) (elf_file t) (mappings t) (fd_table t) (cr3 t)
    (current_dir t) (next_thread t) (prev_thread t) (user_rsp t).
Definition set_ssefxsave (x : Z) (t : thread_context) : thread_context :=
  Thread (last_run_time t) (sleep_for_ms t) (quantum_ns t) (pid t) (thread_entry t) (stack_base t)
    x (current_rsp t) (status t) (elf_entry t) (elf_file t) (mappings t) (fd_table t) (cr3 t)
    (current_dir t) (next_thread t) (prev_thread t) (user_rsp t).
Definition set_current_rsp (x : Z) (t : thread_context) : thread_context :=
  Thread (last_run_time t) (sleep_for_ms t) (quantum_ns t) (pid t) (thread_entry t) (stack_base t)
    (ssefxsave t) x (status t) (elf_entry t) (elf_file t) (mappings t) (fd_table t) (cr3 t)
    (current_dir t) (next_thread t) (prev_thread t) (user_rsp t).
Definition set_t_status (x : Z -> Z) (t : thread_context) : thread_context :=
  Thread (last_run_time t) (sleep_for_ms t) (quantum_ns t) (pid t) (thread_entry t) (stack_base t)
    (ssefxsave t) (current_rsp t) x (elf_entry t) (elf_file t) (mappings t) (fd_table t) (cr3 t)
    (current_dir t) (next_thread t) (prev_thread t) (user_rsp t).
Definition set_elf_entry (x : Z) (t : thread_context) : thread_context :=
  Thread (last_run_time t) (sleep_for_ms t) (quantum_ns t) (pid t) (thread_entry t) (stack_base t)
    (ssefxsave t) (current_rsp t) (status t) x (elf_file t) (mappings t) (fd_table t) (cr3 t)
    (current_dir t) (next_thread t) (prev_thread t) (user_rsp t).
Definition set_elf_file (x : Z) (t : thread_context) : thread_context :=
  Thread (last_run_time t) (sleep_for_ms t) (quantum_ns t) (pid t) (thread_entry t) (stack_base t)
    (ssefxsave t) (current_rsp t) (status t) (elf_entry t) x (mappings t) (fd_table t) (cr3 t)
    (current_dir t) (next_thread t) (prev_thread t) (user_rsp t).
Definition set_mappings (x : thread_mappings) (t : thread_context) : thread_context :=
  Thread (last_run_time t) (sleep_for_ms t) (quantum_ns t) (pid t) (thread_entry t) (stack_base t)
    (ssefxsave t) (current_rsp t) (status t) (elf_entry t) (elf_file t) x (fd_table t) (cr3 t)
    (current_dir t) (next_thread t) (prev_thread t) (user_rsp t).
Definition set_cr3 (x : Z) (t : thread_context) : thread_context :=
  Thread (last_run_time t) (sleep_for_ms t) (quantum_ns t) (pid t) (thread_entry t) (stack_base t)
    (ssefxsave t) (current_rsp t) (status t) (elf_entry t) (elf_file t) (mappings t) (fd_table t)
    x (current_dir t) (next_thread t) (prev_thread t) (user_rsp t).
Definition set_next_thread (x : Z) (t : thread_context) : thread_context :=
  Thread (last_run_time t) (sleep_for_ms t) (quantum_ns t) (pid t) (thread_entry t) (stack_base t)
    (ssefxsave t) (current_rsp t) (status t) (elf_entry t) (elf_file t) (mappings t) (fd_table t)
    (cr3 t) (current_dir t) x (prev_thread t) (user_rsp t).
Definition set_prev_thread (x : Z) (t : thread_context) : thread_context :=
  Thread (last_run_time t) (sleep_for_ms t) (quantum_ns t) (pid t) (thread_entry t) (stack_base t)
    (ssefxsave t) (current_rsp t) (status t) (elf_entry t) (elf_file t) (mappings t) (fd_table t)
    (cr3 t) (current_dir t) (next_thread t) x (user_rsp t).
Definition set_user_rsp (x : Z) (t : thread_context) : thread_context :=
  Thread (last_run_time t) (sleep_for_ms t) (quantum_ns t) (pid t) (thread_entry t) (stack_base t)
    (ssefxsave t) (current_rsp t) (status t) (elf_entry t) (elf_file t) (mappings t) (fd_table t)
    (cr3 t) (current_dir t) (next_thread t) (prev_thread t) x.

(** [status[i] = v] *)
Definition set_status_i (i v : Z) (t : thread_context) : thread_context :=
  set_t_status (upd (status t) i v) t.

(** What the scheduler tells the hardware, and the entry into user mode. *)
Inductive event : Type :=
| Eoi
| Oneshot (ms vector divider : Z)
| SetRsp0 (rsp : Z)
| EnterUser (rip rsp : Z).

(** The scheduler's globals, with the machine below it. *)
Record sst : Type := Sst {
  sm : mst;
  threads : gmap Z thread_context;
  fd_tables : gmap Z oa_hash;
  running_thread : Z;
  ready_queue_head : Z;
  num_threads : Z;
  scheduling_started : bool;
  first_thread : bool;
  first : Z;
  cpu_cr3 : Z;
  cpu_rsp : Z;
  cpu_sse : Z;
  trace : list event
}.

Definition set_sm (x : mst) (s : sst) : sst :=
  Sst x (threads s) (fd_tables s) (running_thread s) (ready_queue_head s) (num_threads s)
    (scheduling_started s) (first_thread s) (first s) (cpu_cr3 s) (cpu_rsp s) (cpu_sse s) (trace
    s).
Definition set_threads (x : gmap Z thread_context) (s : sst) : sst :=
  Sst (sm s) x (fd_tables s) (running_thread s) (ready_queue_head s) (num_threads s)
    (scheduling_started s) (first_thread s) (first s) (cpu_cr3 s) (cpu_rsp s) (cpu_sse s) (trace
    s).
Definition set_fd_tables (x : gmap Z oa_hash) (s : sst) : sst :=
  Sst (sm s) (threads s) x (running_thread s) (ready_queue_head s) (num_threads s)
    (scheduling_started s) (first_thread s) (first s) (cpu_cr3 s) (cpu_rsp s) (cpu_sse s) (trace
    s).
Definition set_running_thread (x : Z) (s : sst) : sst :=
  Sst (sm s) (threads s) (fd_tables s) x (ready_queue_head s) (num_threads s) (scheduling_started
    s) (first_thread s) (first s) (cpu_cr3 s) (cpu_rsp s) (cpu_sse s) (trace s).
Definition set_num_threads (x : Z) (s : sst) : sst :=
  Sst (sm s) (threads s) (fd_tables s) (running_thread s) (ready_queue_head s) x
    (scheduling_started s) (first_thread s) (first s) (cpu_cr3 s) (cpu_rsp s) (cpu_sse s) (trace
    s).
Definition set_scheduling_started (x : bool) (s : sst) : sst :=
  Sst (sm s) (threads s) (fd_tables s) (running_thread s) (ready_queue_head s) (num_threads s) x
    (first_thread s) (first s) (cpu_cr3 s) (cpu_rsp s) (cpu_sse s) (trace s).
Definition set_first_thread (x : bool) (s : sst) : sst :=
  Sst (sm s) (threads s) (fd_tables s) (running_thread s) (ready_queue_head s) (num_threads s)
    (scheduling_started s) x (first s) (cpu_cr3 s) (cpu_rsp s) (cpu_sse s) (trace s).
Definition set_first (x : Z) (s : sst) : sst :=
  Sst (sm s) (threads s) (fd_tables s) (running_thread s) (ready_queue_head s) (num_threads s)
    (scheduling_started s) (first_thread s) x (cpu_cr3 s) (cpu_rsp s) (cpu_sse s) (trace s).
Definition set_cpu_cr3 (x : Z) (s : sst) : sst :=
  Sst (sm s) (threads s) (fd_tables s) (running_thread s) (ready_queue_head s) (num_threads s)
    (scheduling_started s) (first_thread s) (first s) x (cpu_rsp s) (cpu_sse s) (trace s).
Definition set_cpu_rsp (x : Z) (s : sst) : sst :=
  Sst (sm s) (threads s) (fd_tables s) (running_thread s) (ready_queue_head s) (num_threads s)
    (scheduling_started s) (first_thread s) (first s) (cpu_cr3 s) x (cpu_sse s) (trace s).
Definition set_cpu_sse (x : Z) (s : sst) : sst :=
  Sst (sm s) (threads s) (fd_tables s) (running_thread s) (ready_queue_head s) (num_threads s)
    (scheduling_started s) (first_thread s) (first s) (cpu_cr3 s) (cpu_rsp s) x (trace s).
Definition set_trace (x : list event) (s : sst) : sst :=
  Sst (sm s) (threads s) (fd_tables s) (running_thread s) (ready_queue_head s) (num_threads s)
    (scheduling_started s) (first_thread s) (first s) (cpu_cr3 s) (cpu_rsp s) (cpu_sse s) x.

(** ** Access through pointers *)

Definition get_thread (s : sst) (a : Z) : outcome thread_context := checked (threads s !! a) NullDeref.

Definition modify_thread (a : Z) (f : thread_context -> thread_context) (s : sst) : outcome sst :=
  t ← get_thread s a; Ok (set_threads (<[a := f t]> (threads s)) s).

Definition emit (e : event) (s : sst) : sst := set_trace (trace s ++ [e]) s.

Definition THREAD_STACK_SIZE : Z := 16000.
Definition THREAD_QUANTUM : Z := 5.
Definition IDLE_PID : Z := 0xDEADBEEFCAFEBABE.
Definition THREAD_CONTEXT_SIZE : Z := 800.

Section Scheduler.

(** Fixed at boot or by the linker: the direct-map offset, the kernel's top-level
    table and the addresses of functions that are stored as data; [now] is
    the reading of the time-stamp counter, in nanoseconds. *)
Context (hhdm_offset pml4_address_virt_glob now : Z).
Context (addr_scheduler_return addr_disable_preemption addr_enable_preemption : Z).
Context (addr_userspace_run_elf addr_root_dir : Z).

(** ** The ring *)

Definition insert_thread (left_thread new_thread right_thread : Z) (s : sst) : outcome sst :=
  _ ← c_assert (negb (left_thread =? NULL));
  _ ← c_assert (negb (new_thread =? NULL));
  _ ← c_assert (negb (right_thread =? NULL));
  s ← modify_thread left_thread (set_next_thread new_thread) s;
  s ← modify_thread right_thread (set_prev_thread new_thread) s;
  s ← modify_thread new_thread (set_next_thread right_thread) s;
  modify_thread new_thread (set_prev_thread left_thread) s.

Definition discard_thread (thread : Z) (s : sst) : outcome sst :=
  t ← get_thread s thread;
  s ← modify_thread (prev_thread t) (set_next_thread (next_thread t)) s;
  t ← get_thread s thread;
  modify_thread (next_thread t) (set_prev_thread (prev_thread t)) s.

Definition push_thread (thread : Z) (s : sst) : outcome sst :=
  if first_thread s || (num_threads s =? 0) then
    let s := set_running_thread thread s in
    s ← modify_thread thread (set_next_thread thread) s;
    s ← modify_thread thread (set_prev_thread thread) s;
    Ok (set_first_thread false s)
  else
    r ← get_thread s (running_thread s);
    insert_thread (running_thread s) thread (next_thread r) s.

Definition get_current_thread (s : sst) : Z := running_thread s.

(** ** switch_thread (scheduler.asm)

    The call pushes the return address and the body fifteen registers; the
    SSE state is saved to and restored from the context of
    [get_current_thread].  [old] is the thread whose [current_rsp] receives the
    stack pointer, or none for a local variable. *)
Definition switch_thread (old : option Z) (new_rsp : Z) (s : sst) : outcome sst :=
  let s := set_sm (set_iflag false (sm s)) s in
  s ← modify_thread (get_current_thread s) (set_ssefxsave (cpu_sse s)) s;
  s ← match old with
      | Some a => modify_thread a (set_current_rsp (wrap64 (cpu_rsp s - 8 - 15 * 8))) s
      | None => Ok s
      end;
  t ← get_thread s (get_current_thread s);
  let s := set_cpu_rsp (wrap64 (new_rsp + 15 * 8 + 8)) (set_cpu_sse (ssefxsave t) s) in
  Ok (set_sm (set_iflag true (sm s)) s).

(** ** reschedule *)

Definition load_cr3 (table : Z) (s : sst) : sst := set_cpu_cr3 (wrap64 (table - hhdm_offset)) s.
Definition arm_timer (s : sst) : sst := emit (Oneshot THREAD_QUANTUM 72 3) s.

(** The first call: enters the running thread.  [swap_to_user_gs] begins with
    [ret] in syscalls.asm and does nothing. *)
Definition reschedule_first (s : sst) : outcome sst :=
  let s := set_first 1 s in
  if running_thread s =? NULL then Err Hang
  else
    s ← modify_thread (running_thread s) (set_last_run_time now) s;
    t ← get_thread s (running_thread s);
    let s := load_cr3 (cr3 t) (arm_timer (emit (SetRsp0 (stack_base t)) s)) in
    switch_thread None (current_rsp t) s.

(** Later calls.  The loop over blocked threads tests [next_thread], which it
    does not change: it returns for the idle thread and otherwise spins. *)
Definition reschedule_next (s : sst) : outcome sst :=
  let current := running_thread s in
  t ← get_thread s current;
  let next := next_thread t in
  let s := set_running_thread next s in
  _ ← c_assert (negb (next =? NULL));
  n ← get_thread s next;
  p ← get_thread s (prev_thread n);
  if pid n =? pid p then Ok (load_cr3 (cr3 n) (arm_timer s))
  else if status n 3 =? 1 then
    let s := set_running_thread (next_thread n) s in
    if pid n =? IDLE_PID then Ok (arm_timer s) else Err Hang
  else if status n 3 =? 0 then
    s ← modify_thread current (set_last_run_time now) s;
    let s := load_cr3 (cr3 n) (arm_timer (emit (SetRsp0 (stack_base n)) s)) in
    r ← get_thread s (running_thread s);
    switch_thread (Some (prev_thread r)) (current_rsp r) s
  else Ok s.

Definition reschedule (s : sst) : outcome sst :=
  let s := set_sm (set_iflag false (sm s)) s in
  let s := load_cr3 pml4_address_virt_glob s in
  let s := emit Eoi (set_scheduling_started true s) in
  if first s =? 0 then reschedule_first s else reschedule_next s.

Definition on_sm (f : mst -> mst) (s : sst) : sst := set_sm (f (sm s)) s.

Definition hot_reschedule (s : sst) : outcome sst :=
  let '(irq, m) := irq_disable_save (sm s) in
  s ← reschedule (set_sm m s);
  Ok (on_sm (irq_restore irq) s).

Definition yield_thread (s : sst) : outcome sst :=
  let '(_, m) := irq_disable_save (sm s) in
  _ ← get_thread s (get_current_thread s);
  reschedule (set_sm m s).

(** ** Searching the ring *)

(** [for (i = 0; i < num_threads+1; i++) { if (t->pid == pid) ...; t = t->next_thread; }] *)
Fixpoint find_pid (n : nat) (a p : Z) (s : sst) : outcome (option Z) :=
  match n with
  | O => Ok None
  | S n' =>
      t ← get_thread s a;
      if pid t =? p then Ok (Some a) else find_pid n' (next_thread t) p s
  end.

(** The found path returns without [irq_restore]. *)
Definition get_thread_by_pid (p : Z) (s : sst) : outcome (Z * sst) :=
  let '(irq, m) := irq_disable_save (sm s) in
  let s := set_sm m s in
  r ← find_pid (Z.to_nat (num_threads s + 1)) (running_thread s) p s;
  Ok (match r with
      | Some a => (a, s)
      | None => (NULL, on_sm (irq_restore irq) s)
      end).

(** The handler of vector 72 (idt.c), which the timer and [int $72] enter. *)
Definition thread_interrupter_handler (s : sst) : outcome sst :=
  let s := on_sm (set_iflag false) s in
  _ ← get_thread s (get_current_thread s);
  reschedule s.

(** [irq_disable_save] runs again in every iteration, with interrupts already
    disabled, so the flag restored at the end is always clear. *)
Definition block_thread (p : Z) (s : sst) : outcome (Z * sst) :=
  let s := on_sm (set_iflag false) s in
  r ← find_pid (Z.to_nat (num_threads s + 1)) (running_thread s) p s;
  match r with
  | None => Ok (NULL, s)
  | Some a =>
      t ← get_thread s a;
      if status t 3 =? 1 then Ok (NULL, s)
      else
        s ← modify_thread a (set_status_i 3 1) s;
        c ← get_thread s (get_current_thread s);
        s ← (if p =? pid c then thread_interrupter_handler s else Ok s);
        Ok (a, s)
  end.

Definition unblock_thread (thread : Z) (s : sst) : outcome sst :=
  let '(irq, m) := irq_disable_save (sm s) in
  let s := set_sm m s in
  t ← get_thread s thread;
  s ← (if status t 3 =? 1 then modify_thread thread (set_status_i 3 0) s else Ok s);
  Ok (on_sm (irq_restore irq) s).

(** [sleep_thread] walks from [ready_queue_head]. *)
Fixpoint sleep_walk (fuel : nat) (a p ms : Z) (s : sst) : outcome (Z * sst) :=
  match fuel with
  | O => Err OutOfFuel
  | S f =>
      if a =? NULL then Ok (NULL, on_sm (set_iflag true) s)
      else
        t ← get_thread s a;
        if pid t =? p then
          if (status t 3 =? 1) || (status t 4 =? 1) then Ok (NULL, on_sm (set_iflag true) s)
          else
            s ← modify_thread a
                  (fun t => set_status_i 4 1 (set_sleep_for_ms ms
                              (set_last_run_time now (set_status_i 3 1 t)))) s;
            c ← get_thread s (get_current_thread s);
            s ← (if p =? pid c then thread_interrupter_handler s else Ok s);
            Ok (a, on_sm (set_iflag true) s)
        else sleep_walk f (next_thread t) p ms s
  end.

Definition sleep_thread (fuel : nat) (p ms : Z) (s : sst) : outcome (Z * sst) :=
  sleep_walk fuel (ready_queue_head s) p ms (on_sm (set_iflag false) s).

(** ** Creation *)

(** Four return addresses below the top of the stack, and room for the fifteen
    registers [switch_thread] pops. *)
Definition start_thread (sp entry : Z) (m : mem) : Z * mem :=
  let m := store64 m (sp - 8) addr_scheduler_return in
  let m := store64 m (sp - 16) addr_disable_preemption in
  let m := store64 m (sp - 24) entry in
  let m := store64 m (sp - 32) addr_enable_preemption in
  (sp - 32 - 15 * 8, m).

(** A pointer the code writes through. *)
Definition nonnull (p : Z) : outcome unit := if p =? NULL then Err NullDeref else Ok tt.

(** The three stores that clear slot [i] of the mapping array in [create_thread]. *)
Fixpoint init_slots (n : nat) (i : Z) (m : mem) (arr : Z) : mem :=
  match n with
  | O => m
  | S n' =>
      let a := entry_addr arr i in
      init_slots n' (i + 1) (store8 (store64 (store64 m a 0) (a + 8) 0) (a + 16) 0) arr
  end.

Definition create_thread (p entry : Z) (s : sst) : outcome (Z * sst) :=
  let '(irq, m) := irq_disable_save (sm s) in
  '(stack, m) ← kmalloc_byte_interruptable THREAD_STACK_SIZE m;
  '(new_thread, m) ← kmalloc_byte_interruptable THREAD_CONTEXT_SIZE m;
  _ ← nonnull new_thread;
  _ ← nonnull stack;
  let m := set_mm (memset (memset (mm m) new_thread 0 THREAD_CONTEXT_SIZE) stack 0 THREAD_STACK_SIZE) m in
  '(arr, m) ← kmalloc_byte (MAPPING_SIZE * 8) m;
  _ ← nonnull arr;
  let m := set_mm (init_slots 8 0 (mm m) arr) m in
  '(ht, m) ← kmalloc_byte 24 m;
  _ ← nonnull ht;
  let m := set_mm (memset (mm m) ht 0 24) m in
  '(bkts, m) ← kmalloc_byte (32 * ENTRY_SIZE) m;
  _ ← nonnull bkts;
  let m := set_mm (memset (mm m) bkts 0 (ENTRY_SIZE * 32)) m in
  let top := wrap64 (stack + THREAD_STACK_SIZE) in
  let '(rsp, mem') := start_thread top entry (mm m) in
  let t := Thread 0 0 10000000 p entry top 0 rsp (fun _ => 0) NULL NULL (Mappings arr 0 8) ht 0
             addr_root_dir NULL NULL NULL in
  let s := set_fd_tables (<[ht := oa_hash_init bkts 32]> (fd_tables s)) s in
  let s := set_threads (<[new_thread := t]> (threads s)) s in
  Ok (new_thread, set_sm (irq_restore irq (set_mm mem' m)) s).

Definition hot_create_and_push_thread (p entry : Z) (s : sst) : outcome sst :=
  let '(irq, m) := irq_disable_save (sm s) in
  '(t, s) ← create_thread p entry (set_sm m s);
  '(new_cr3, m) ← create_new_userspace_page_table hhdm_offset pml4_address_virt_glob (sm s);
  s ← modify_thread t (fun th => set_elf_file NULL (set_elf_entry NULL (set_cr3 new_cr3 th))) (set_sm m s);
  s ← push_thread t s;
  Ok (on_sm (irq_restore irq) (set_num_threads (wrap64 (num_threads s + 1)) s)).

Definition hot_create_and_push_user_thread (p entry : Z) (s : sst) : outcome sst :=
  let '(irq, m) := irq_disable_save (sm s) in
  '(t, s) ← create_thread p addr_userspace_run_elf (set_sm m s);
  '(new_cr3, m) ← create_new_userspace_page_table hhdm_offset pml4_address_virt_glob (sm s);
  s ← modify_thread t (fun th => set_elf_file NULL (set_cr3 new_cr3 (set_elf_entry entry th))) (set_sm m s);
  s ← push_thread t s;
  Ok (on_sm (irq_restore irq) (set_num_threads (wrap64 (num_threads s + 1)) s)).

(** ** The ring as a list *)

Definition nx (ths : gmap Z thread_context) (a : Z) : option Z := next_thread <$> ths !! a.
Definition pv (ths : gmap Z thread_context) (a : Z) : option Z := prev_thread <$> ths !! a.

Definition edge (ths : gmap Z thread_context) (a b : Z) : Prop := nx ths a = Some b /\ pv ths b = Some a.

(** Consecutive elements are linked, and the last one to [z]. *)
Fixpoint linked (ths : gmap Z thread_context) (l : list Z) (z : Z) : Prop :=
  match l with
  | [] => True
  | a :: l' => edge ths a (hd z l') /\ linked ths l' z
  end.

(** The list of the ring's threads from the running one on. *)
Definition ring (s : sst) (l : list Z) : Prop :=
  NoDup l /\ (NULL ∉ l) /\ hd_error l = Some (running_thread s) /\ linked (threads s) l (running_thread s).

Lemma linked_ext ths ths' l z :
  (forall a, a ∈ l -> nx ths' a = nx ths a) ->
  (forall b, b ∈ tail l ++ [z] -> pv ths' b = pv ths b) ->
  linked ths l z -> linked ths' l z.
Proof.
  induction l as [|a l IH]; intros Hn Hp Hl; [done|]. destruct Hl as [[H1 H2] Hl]. simpl in Hp. split.
  - split.
    + rewrite Hn; [done|by left].
    + rewrite Hp; [done|]. destruct l as [|b l]; simpl; [by left|left].
  - apply IH; [intros x Hx; apply Hn; by right| |done].
    intros b Hb. apply Hp. destruct l as [|c l]; [done|]. simpl in *. by right.
Qed.

Lemma linked_snoc ths l x z : linked ths (l ++ [x]) z <-> linked ths l x /\ edge ths x z.
Proof.
  induction l as [|a l IH]; simpl; [tauto|]. rewrite IH.
  replace (hd z (l ++ [x])) with (hd x l) by (by destruct l). tauto.
Qed.

Lemma nx_insert ths a t b : nx (<[a := t]> ths) b = if decide (b = a) then Some (next_thread t) else nx ths b.
Proof. unfold nx. case_decide; subst; [by rewrite lookup_insert_eq|by rewrite lookup_insert_ne]. Qed.

Lemma pv_insert ths a t b : pv (<[a := t]> ths) b = if decide (b = a) then Some (prev_thread t) else pv ths b.
Proof. unfold pv. case_decide; subst; [by rewrite lookup_insert_eq|by rewrite lookup_insert_ne]. Qed.

Lemma nx_known ths a b : nx ths a = Some b -> exists t, ths !! a = Some t /\ next_thread t = b.
Proof. unfold nx. intros H. apply fmap_Some in H as (t & Ht & ->). eauto. Qed.

Lemma get_thread_ok s a t : threads s !! a = Some t -> get_thread s a = Ok t.
Proof. intros H. unfold get_thread. by rewrite H. Qed.

Lemma modify_thread_ok a f s t :
  threads s !! a = Some t -> modify_thread a f s = Ok (set_threads (<[a := f t]> (threads s)) s).
Proof. intros H. unfold modify_thread, get_thread. by rewrite H. Qed.

(** The links after [insert_thread]: exactly those of the four writes. *)
Lemma insert_thread_links l n r s tl tn tr :
  l <> NULL -> n <> NULL -> r <> NULL -> n <> l -> n <> r ->
  threads s !! l = Some tl -> threads s !! n = Some tn -> threads s !! r = Some tr ->
  exists s', insert_thread l n r s = Ok s' /\ running_thread s' = running_thread s /\
    num_threads s' = num_threads s /\ sm s' = sm s /\
    (forall a, is_Some (threads s' !! a) <-> is_Some (threads s !! a)) /\
    (forall a, nx (threads s') a =
      if decide (a = l) then Some n else if decide (a = n) then Some r else nx (threads s) a) /\
    (forall a, pv (threads s') a =
      if decide (a = r) then Some n else if decide (a = n) then Some l else pv (threads s) a).
Proof.
  intros Hl0 Hn0 Hr0 Hnl Hnr Hl Hn Hr. unfold insert_thread, c_assert.
  destruct (Z.eqb_spec l NULL), (Z.eqb_spec n NULL), (Z.eqb_spec r NULL); try done. cbn [negb mbind outcome_bind].
  rewrite (modify_thread_ok _ _ _ tl) by done. cbn [mbind outcome_bind].
  set (s1 := set_threads _ s).
  destruct (threads s1 !! r) as [tr1|] eqn:Hr1.
  2: { unfold s1 in Hr1. simpl in Hr1. apply lookup_insert_None in Hr1 as [? _]. congruence. }
  rewrite (modify_thread_ok _ _ _ tr1) by done. cbn [mbind outcome_bind]. set (s2 := set_threads _ s1).
  assert (threads s2 !! n = Some tn) as Hn2.
  { unfold s2, s1. simpl. by rewrite !lookup_insert_ne by congruence. }
  rewrite (modify_thread_ok _ _ _ tn) by done. cbn [mbind outcome_bind]. set (s3 := set_threads _ s2).
  assert (threads s3 !! n = Some (set_next_thread r tn)) as Hn3 by (unfold s3; simpl; by rewrite lookup_insert_eq).
  rewrite (modify_thread_ok _ _ _ _ Hn3). eexists. split; [done|]. split_and!; [done..| | |].
  - intros a. unfold s3, s2, s1. simpl. rewrite !lookup_insert_is_Some'.
    split; [|tauto]. intros [<-|[<-|[<-|[<-|?]]]]; eauto.
  - intros a. unfold s3, s2, s1. cbn [threads set_threads]. rewrite !nx_insert. simpl.
    repeat case_decide; subst; try done.
    + unfold s1 in Hr1. simpl in Hr1. rewrite lookup_insert_eq in Hr1. by injection Hr1 as <-.
    + unfold s1 in Hr1. simpl in Hr1. rewrite lookup_insert_ne in Hr1 by done. unfold nx. by rewrite Hr1.
  - intros a. unfold s3, s2, s1. cbn [threads set_threads]. rewrite !pv_insert. simpl.
    repeat case_decide; subst; try done. unfold pv. by rewrite Hl.
Qed.

Lemma linked_nx ths l z a : linked ths l z -> a ∈ l -> is_Some (ths !! a).
Proof.
  induction l as [|b l IH]; intros Hl Ha; [by apply elem_of_nil in Ha|].
  destruct Hl as [[Hn _] Hl]. apply elem_of_cons in Ha as [->|Ha]; [|auto].
  apply nx_known in Hn as (t & Ht & _). eauto.
Qed.

(** Two states with the same links and the same running thread have the same
    rings. *)
Definition same_links (s s' : sst) : Prop :=
  (forall a, nx (threads s') a = nx (threads s) a) /\ (forall a, pv (threads s') a = pv (threads s) a).

Lemma ring_same_links s s' l :
  same_links s s' -> running_thread s' = running_thread s -> ring s l -> ring s' l.
Proof.
  intros [Hn Hp] Hr (H1 & H2 & H3 & H4). split_and!; try done; rewrite Hr; [done|].
  eapply linked_ext; [intros; apply Hn|intros; apply Hp|done].
Qed.

Lemma push_thread_insert s r rest t tt :
  ring s (r :: rest) -> threads s !! t = Some tt -> t ∉ r :: rest -> t <> NULL ->
  first_thread s = false -> num_threads s <> 0 ->
  exists s', push_thread t s = Ok s' /\ ring s' (r :: t :: rest) /\ num_threads s' = num_threads s /\
    sm s' = sm s.
Proof.
  intros (Hnd & Hnull & Hhd & Hl) Ht Hnew Ht0 Hf Hn. injection Hhd as Hrun. unfold push_thread.
  rewrite Hf. destruct (Z.eqb_spec (num_threads s) 0); [done|]. cbn [orb]. rewrite <- Hrun.
  destruct Hl as [[Hnx Hpv] Hl]. rewrite <- Hrun in *.
  destruct (nx_known _ _ _ Hnx) as (tr & Htr & Hnext). unfold get_thread. rewrite Htr. simpl. rewrite Hnext.
  apply not_elem_of_cons in Hnew as [Htr0 Hnew]. apply not_elem_of_cons in Hnull as [Hr0 Hnull].
  set (q := hd r rest) in *.
  assert (q = r \/ q ∈ rest) as Hq by (unfold q; destruct rest; simpl; [by left|right; by left]).
  assert (exists tq, threads s !! q = Some tq) as [tq Htq].
  { destruct Hq as [->|Hq]; [by eexists|]. by apply (linked_nx _ _ _ _ Hl). }
  destruct (insert_thread_links r t q s tr tt tq) as (s' & Heq & Hrun' & Hnum & Hsm & _ & Hn' & Hp').
  { congruence. } { done. } { destruct Hq as [->|Hq]; [congruence|]. by intros ->. }
  { congruence. } { destruct Hq as [->|Hq]; [congruence|]. by intros <-. } { done. } { done. } { done. }
  exists s'. split; [done|]. split; [|done]. split_and!.
  - apply list.NoDup_cons in Hnd as [? ?]. rewrite !list.NoDup_cons, !not_elem_of_cons. split_and!; congruence || done.
  - rewrite !not_elem_of_cons. done.
  - simpl. congruence.
  - rewrite Hrun', <- Hrun. cbn [linked hd]. fold q. apply list.NoDup_cons in Hnd as [Hrr Hnd].
    split_and!.
    + split; [by rewrite Hn', decide_True|]. rewrite Hp'. rewrite decide_False, decide_True; [done|done|].
      destruct Hq as [->|Hq]; [congruence|]. by intros <-.
    + split; [by rewrite Hn', decide_False, decide_True|by rewrite Hp', decide_True].
    + destruct rest as [|c rest]; [done|]. eapply linked_ext; [..|exact Hl].
      * intros a Ha. rewrite Hn', !decide_False; [done|by intros ->|by intros ->].
      * intros b Hb. simpl in Hb. apply list.NoDup_cons in Hnd as [Hc _].
        assert (b ∈ rest \/ b = r) as Hb'.
        { apply elem_of_app in Hb as [Hb|Hb]; [by left|right]. by apply list_elem_of_singleton in Hb. }
        rewrite Hp', !decide_False; [done|..].
        -- intros ->. destruct Hb' as [Hb'| ->]; [|done]. apply Hnew. by right.
        -- unfold q. simpl. intros ->. destruct Hb' as [Hb'| ->]; [done|]. apply Hrr. by left.
Qed.

Lemma linked_app ths l l' z : linked ths (l ++ l') z <-> linked ths l (hd z l') /\ linked ths l' z.
Proof.
  induction l as [|a l IH]; simpl; [tauto|]. rewrite IH.
  replace (hd z (l ++ l')) with (hd (hd z l') l) by (by destruct l). tauto.
Qed.

(** The links after [discard_thread]. *)
Lemma discard_thread_links t s tt :
  threads s !! t = Some tt -> is_Some (threads s !! prev_thread tt) -> is_Some (threads s !! next_thread tt) ->
  prev_thread tt <> t ->
  exists s', discard_thread t s = Ok s' /\ running_thread s' = running_thread s /\
    num_threads s' = num_threads s /\ sm s' = sm s /\
    (forall a, nx (threads s') a =
      if decide (a = prev_thread tt) then Some (next_thread tt) else nx (threads s) a) /\
    (forall a, pv (threads s') a =
      if decide (a = next_thread tt) then Some (prev_thread tt) else pv (threads s) a).
Proof.
  intros Ht [tp Hp] [tn Hn] Hpt. unfold discard_thread. rewrite (get_thread_ok _ _ _ Ht). cbn [mbind outcome_bind].
  rewrite (modify_thread_ok _ _ _ tp) by done. cbn [mbind outcome_bind]. set (s1 := set_threads _ s).
  assert (threads s1 !! t = Some tt) as Ht1 by (unfold s1; simpl; by rewrite lookup_insert_ne).
  rewrite (get_thread_ok _ _ _ Ht1). cbn [mbind outcome_bind].
  destruct (threads s1 !! next_thread tt) as [tn1|] eqn:Hn1.
  2: { unfold s1 in Hn1. simpl in Hn1. apply lookup_insert_None in Hn1 as [? _]. congruence. }
  rewrite (modify_thread_ok _ _ _ tn1) by done. eexists. split; [done|]. split_and!; [done..| |].
  - intros a. unfold s1. cbn [threads set_threads]. rewrite !nx_insert. simpl.
    unfold s1 in Hn1. simpl in Hn1. destruct (decide (a = next_thread tt)) as [->|]; [|done].
    destruct (decide (next_thread tt = prev_thread tt)) as [E|].
    + rewrite E, lookup_insert_eq in Hn1. injection Hn1 as <-. simpl. congruence.
    + rewrite lookup_insert_ne in Hn1 by done. unfold nx. by rewrite Hn1.
  - intros a. unfold s1. cbn [threads set_threads]. rewrite !pv_insert. simpl.
    repeat case_decide; subst; try done. unfold pv. by rewrite Hp.
Qed.

Lemma discard_thread_remove s x l1 t l2 :
  ring s (x :: l1 ++ t :: l2) ->
  exists s', discard_thread t s = Ok s' /\ ring s' (x :: l1 ++ l2) /\ num_threads s' = num_threads s /\
    sm s' = sm s.
Proof.
  intros (Hnd & Hnull & Hhd & Hl). injection Hhd as Hrun. rewrite <- Hrun in Hl.
  change (x :: l1 ++ t :: l2) with ((x :: l1) ++ t :: l2) in *.
  destruct (exists_last (l := x :: l1) ltac:(done)) as (pre & p & Hpre). rewrite Hpre in *.
  assert (Hx : hd_error (pre ++ [p]) = Some x) by (by rewrite <- Hpre).
  rewrite <- app_assoc in *. cbn [app] in *.
  apply linked_app in Hl as [Hl1 Hl]. cbn [hd] in Hl1. destruct Hl as [Hpt [Htq Hl2]]. cbn [hd] in Hpt.
  set (q := hd x l2) in *. destruct Hpt as [Hpt1 Hpt2]. destruct Htq as [Htq1 Htq2].
  destruct (nx_known _ _ _ Htq1) as (tt & Ht & Hnext).
  assert (prev_thread tt = p) as Hprev by (unfold pv in Hpt2; rewrite Ht in Hpt2; by injection Hpt2).
  apply list.NoDup_app in Hnd as (Hnd1 & Hdis & Hnd2). apply list.NoDup_cons in Hnd2 as [Hp2 Hnd2].
  apply list.NoDup_cons in Hnd2 as [Ht2 Hnd2].
  assert (p <> t) as Hpt by (intros ->; apply Hp2; by left).
  destruct (discard_thread_links t s tt) as (s' & Heq & Hrun' & Hnum & Hsm & Hn' & Hp').
  { done. } { rewrite Hprev. destruct (nx_known _ _ _ Hpt1) as (? & ? & _). eauto. }
  { rewrite Hnext. unfold pv in Htq2. apply fmap_Some in Htq2 as (? & ? & _). eauto. } { by rewrite Hprev. }
  rewrite Hnext, Hprev in *. exists s'. split; [done|]. split; [|done].
  change (x :: l1 ++ l2) with ((x :: l1) ++ l2). rewrite Hpre, <- app_assoc. cbn [app]. split_and!.
  - apply list.NoDup_app. split_and!; [done| |].
    + intros a Ha Hin. apply (Hdis a Ha). apply elem_of_cons in Hin as [->|Hin]; [by left|].
      do 2 (apply elem_of_cons; right). done.
    + apply list.NoDup_cons. split; [|done]. intros Hin. apply Hp2. by right.
  - intros Hin. apply Hnull. apply elem_of_app in Hin as [Hin|Hin]; apply elem_of_app; [by left|right].
    apply elem_of_cons in Hin as [->|Hin]; [by left|]. do 2 (apply elem_of_cons; right). done.
  - rewrite Hrun', <- Hrun. by destruct pre; injection Hx as ->.
  - rewrite Hrun', <- Hrun. apply linked_app. cbn [linked hd]. fold q.
    assert (q ∈ l2 \/ l2 = [] /\ q = x) as Hq by (unfold q; destruct l2; [by right|left; by left]).
    split_and!.
    + destruct pre as [|y pre]; [done|]. injection Hx as ->. apply list.NoDup_cons in Hnd1 as [Hx1 Hnd1].
      eapply linked_ext; [..|exact Hl1].
      * intros a Ha. rewrite Hn', decide_False; [done|]. intros ->. apply (Hdis p Ha). by left.
      * intros b Hb. rewrite Hp', decide_False; [done|]. intros ->. simpl in Hb.
        apply elem_of_app in Hb as [Hb|Hb].
        -- destruct Hq as [Hq|[_ ->]]; [|done]. apply (Hdis q); [by right|]. do 2 (apply elem_of_cons; right). done.
        -- apply list_elem_of_singleton in Hb as Hqp. rewrite Hqp in *.
           destruct Hq as [Hq|[_ ->]]; [apply Hp2; by right|]. apply (Hdis x); by left.
    + split; [by rewrite Hn', decide_True|by rewrite Hp', decide_True].
    + destruct l2 as [|c l2]; [done|]. apply list.NoDup_cons in Hnd2 as [Hc Hnd2].
      eapply linked_ext; [..|exact Hl2].
      * intros a Ha. rewrite Hn', decide_False; [done|]. intros ->. apply Hp2. by right.
      * intros b Hb. rewrite Hp', decide_False; [done|]. unfold q. simpl in *. intros ->.
        apply elem_of_app in Hb as [Hb|Hb]; [done|]. apply list_elem_of_singleton in Hb as ->.
        destruct pre as [|y pre]; injection Hx as ->; [apply Hp2; right; by left|].
        apply (Hdis x); [by left|]. right. right. by left.
Qed.

(** ** The switch *)

(** A thread update that keeps its place in the ring, its identity and status. *)
Definition keeps (f : thread_context -> thread_context) : Prop :=
  forall t, next_thread (f t) = next_thread t /\ prev_thread (f t) = prev_thread t /\
    pid (f t) = pid t /\ status (f t) = status t /\ cr3 (f t) = cr3 t.

(** The same threads, with the same links, pids, status and tables. *)
Definition same_threads (s s' : sst) : Prop :=
  forall a, match threads s !! a, threads s' !! a with
            | Some t, Some t' => next_thread t' = next_thread t /\ prev_thread t' = prev_thread t /\
                pid t' = pid t /\ status t' = status t /\ cr3 t' = cr3 t
            | None, None => True
            | _, _ => False
            end.

Lemma same_threads_refl s : same_threads s s.
Proof. intros a. by destruct (threads s !! a). Qed.

Lemma same_threads_trans s1 s2 s3 : same_threads s1 s2 -> same_threads s2 s3 -> same_threads s1 s3.
Proof.
  intros H1 H2 a. specialize (H1 a). specialize (H2 a).
  destruct (threads s1 !! a), (threads s2 !! a), (threads s3 !! a); try done.
  destruct H1 as (? & ? & ? & ? & ?), H2 as (? & ? & ? & ? & ?). split_and!; congruence.
Qed.

Lemma same_threads_insert s a t f :
  threads s !! a = Some t -> keeps f -> same_threads s (set_threads (<[a := f t]> (threads s)) s).
Proof.
  intros Ht Hf b. simpl. destruct (decide (a = b)) as [<-|].
  - rewrite lookup_insert_eq, Ht. apply Hf.
  - rewrite lookup_insert_ne by done. by destruct (threads s !! b).
Qed.

Lemma same_threads_links s s' : same_threads s s' -> same_links s s'.
Proof.
  intros H. split; intros a; specialize (H a); unfold nx, pv;
    destruct (threads s !! a), (threads s' !! a); try done; simpl; f_equal; tauto.
Qed.

Lemma same_threads_lookup s s' a t :
  same_threads s s' -> threads s !! a = Some t ->
  exists t', threads s' !! a = Some t' /\ next_thread t' = next_thread t /\ prev_thread t' = prev_thread t /\
    pid t' = pid t /\ status t' = status t /\ cr3 t' = cr3 t.
Proof. intros H Ht. specialize (H a). rewrite Ht in H. destruct (threads s' !! a); [eauto|done]. Qed.

Lemma switch_thread_spec s a new_rsp t ta :
  threads s !! running_thread s = Some t -> threads s !! a = Some ta -> a <> running_thread s ->
  exists s', switch_thread (Some a) new_rsp s = Ok s' /\ same_threads s s' /\
    running_thread s' = running_thread s /\ cpu_rsp s' = wrap64 (new_rsp + 128) /\
    cpu_sse s' = cpu_sse s /\ cpu_cr3 s' = cpu_cr3 s /\ trace s' = trace s /\ first s' = first s /\
    iflag (sm s') = true /\
    (exists t', threads s' !! running_thread s = Some t' /\ ssefxsave t' = cpu_sse s) /\
    (exists ta', threads s' !! a = Some ta' /\ current_rsp ta' = wrap64 (cpu_rsp s - 128) /\
       last_run_time ta' = last_run_time ta).
Proof.
  intros Ht Ha Hne. unfold switch_thread, get_current_thread.
  set (s0 := set_sm _ s). rewrite (modify_thread_ok _ _ s0 t Ht). cbn [mbind outcome_bind].
  set (s1 := set_threads _ s0).
  assert (threads s1 !! a = Some ta) as Ha1 by (unfold s1; simpl; by rewrite lookup_insert_ne).
  rewrite (modify_thread_ok _ _ s1 ta Ha1). cbn [mbind outcome_bind]. set (s2 := set_threads _ s1).
  assert (threads s2 !! running_thread s2 = Some (set_ssefxsave (cpu_sse s) t)) as Ht2.
  { unfold s2, s1. simpl. rewrite lookup_insert_ne by done. by rewrite lookup_insert_eq. }
  rewrite (get_thread_ok _ _ _ Ht2). cbn [mbind outcome_bind]. eexists. split; [done|].
  assert (same_threads s s2) as Hs.
  { apply (same_threads_trans s s1 s2).
    - exact (same_threads_insert s0 _ t (set_ssefxsave (cpu_sse s)) Ht ltac:(by intros ?)).
    - exact (same_threads_insert s1 a ta (set_current_rsp _) Ha1 ltac:(by intros ?)). }
  split_and!; try done.
  - simpl. f_equal. lia.
  - exists (set_ssefxsave (cpu_sse s) t). split; [exact Ht2|done].
  - exists (set_current_rsp (wrap64 (cpu_rsp s - 8 - 15 * 8)) ta). split; [unfold s2; simpl; by rewrite lookup_insert_eq|].
    split; [simpl; f_equal; lia|done].
Qed.

(** ** Rotation *)

Lemma ring_rotate s r n rest :
  ring s (r :: n :: rest) -> ring (set_running_thread n s) (n :: rest ++ [r]).
Proof.
  intros (Hnd & Hnull & Hhd & Hl). injection Hhd as Hrun. rewrite <- Hrun in Hl. split_and!.
  - apply list.NoDup_cons in Hnd as [Hr Hnd]. change (n :: rest ++ [r]) with ((n :: rest) ++ [r]).
    apply list.NoDup_app. split_and!; [done| |by apply NoDup_singleton].
    intros a Ha Hin. apply list_elem_of_singleton in Hin. by subst.
  - intros Hin. apply Hnull. change (n :: rest ++ [r]) with ((n :: rest) ++ [r]) in Hin.
    apply elem_of_app in Hin as [Hin|Hin]; [by right|]. apply list_elem_of_singleton in Hin. rewrite Hin. left.
  - done.
  - destruct Hl as [He Hl]. change (n :: rest ++ [r]) with ((n :: rest) ++ [r]). by apply linked_snoc.
Qed.

Lemma ring_lookup s l a : ring s l -> a ∈ l -> exists t, threads s !! a = Some t.
Proof. intros (_ & _ & _ & Hl) Ha. by apply (linked_nx _ _ _ _ Hl). Qed.

(** The context switch of [reschedule]. *)
Lemma reschedule_switch s r n rest tr tn :
  ring s (r :: n :: rest) -> first s <> 0 -> threads s !! r = Some tr -> threads s !! n = Some tn ->
  pid tn <> pid tr -> status tn 3 = 0 ->
  exists s', reschedule s = Ok s' /\ ring s' (n :: rest ++ [r]) /\ same_threads s s' /\ first s' = first s /\
    cpu_cr3 s' = wrap64 (cr3 tn - hhdm_offset) /\ cpu_rsp s' = wrap64 (current_rsp tn + 128) /\
    cpu_sse s' = cpu_sse s /\ iflag (sm s') = true /\
    trace s' = trace s ++ [Eoi; SetRsp0 (stack_base tn); Oneshot THREAD_QUANTUM 72 3] /\
    (exists t', threads s' !! n = Some t' /\ ssefxsave t' = cpu_sse s) /\
    (exists tr', threads s' !! r = Some tr' /\ current_rsp tr' = wrap64 (cpu_rsp s - 128) /\
       last_run_time tr' = now).
Proof.
  intros Hring Hf Htr Htn Hpid Hst. pose proof Hring as (Hnd & Hnull & Hhd & [[Hnx Hpv] Hl]).
  injection Hhd as Hrun. simpl in Hnx, Hpv.
  assert (next_thread tr = n) as Hnext by (unfold nx in Hnx; rewrite Htr in Hnx; by injection Hnx).
  assert (prev_thread tn = r) as Hprev by (unfold pv in Hpv; rewrite Htn in Hpv; by injection Hpv).
  assert (n <> NULL) as Hn0 by (intros ->; apply Hnull; right; by left).
  assert (r <> n) as Hrn.
  { apply list.NoDup_cons in Hnd as [Hr _]. intros ->. apply Hr. by left. }
  unfold reschedule. cbn [first load_cr3 emit set_trace set_scheduling_started set_cpu_cr3 set_sm].
  destruct (Z.eqb_spec (first s) 0); [done|]. unfold reschedule_next.
  set (s0 := emit Eoi _). assert (threads s0 = threads s) as Hth0 by done.
  assert (running_thread s0 = r) as Hr0 by (by rewrite Hrun). rewrite Hr0.
  rewrite (get_thread_ok s0 r tr Htr). cbn [mbind outcome_bind]. rewrite Hnext. set (s1 := set_running_thread n s0).
  unfold c_assert. destruct (Z.eqb_spec n NULL); [done|]. cbn [negb mbind outcome_bind].
  rewrite (get_thread_ok s1 n tn Htn). cbn [mbind outcome_bind]. rewrite Hprev.
  rewrite (get_thread_ok s1 r tr Htr). cbn [mbind outcome_bind].
  destruct (Z.eqb_spec (pid tn) (pid tr)); [done|]. rewrite Hst. cbn [Z.eqb].
  rewrite (modify_thread_ok r _ s1 tr Htr). cbn [mbind outcome_bind].
  set (s2 := load_cr3 _ _).
  assert (threads s2 !! n = Some tn) as Htn2 by (unfold s2; simpl; by rewrite lookup_insert_ne).
  assert (threads s2 !! r = Some (set_last_run_time now tr)) as Htr2.
  { unfold s2. simpl. by rewrite lookup_insert_eq. }
  assert (running_thread s2 = n) as Hr2 by done. rewrite Hr2.
  rewrite (get_thread_ok s2 n tn Htn2). cbn [mbind outcome_bind]. rewrite Hprev.
  destruct (switch_thread_spec s2 r (current_rsp tn) tn (set_last_run_time now tr))
    as (s' & -> & Hsame & Hrun' & Hrsp & Hsse & Hcr3 & Htr' & Hfst & Hif & Hsv & Hold);
    [by rewrite Hr2|done|by rewrite Hr2|].
  assert (same_threads s s') as Hss.
  { apply (same_threads_trans s s2 s'); [|exact Hsame].
    exact (same_threads_insert s r tr (set_last_run_time now) Htr ltac:(by intros ?)). }
  exists s'. split; [done|]. split_and!; try done.
  - apply (ring_same_links (set_running_thread n s)).
    + apply same_threads_links. exact Hss.
    + done.
    + by apply ring_rotate.
  - rewrite Htr'. unfold s2, load_cr3, arm_timer, emit, s1, s0. simpl. by rewrite <- !app_assoc.
Qed.

(** C29: the ring operations on the list of threads: [push_thread] puts a new
    thread right after the running one, or makes it the whole ring when there
    is none; [discard_thread] of a thread that is not running removes exactly
    it. *)
Theorem ring_operations_refine (s : sst) (x : Z) (l1 : list Z) (t : Z) (l2 : list Z) (tt : thread_context)
    (Ht : threads s !! t = Some tt) (Ht0 : t <> NULL) :
  (ring s (x :: l1) -> t ∉ x :: l1 -> first_thread s = false -> num_threads s <> 0 ->
     exists s', push_thread t s = Ok s' /\ ring s' (x :: t :: l1)) /\
  (first_thread s = true \/ num_threads s = 0 ->
     exists s', push_thread t s = Ok s' /\ ring s' [t] /\ first_thread s' = false) /\
  (ring s (x :: l1 ++ t :: l2) -> exists s', discard_thread t s = Ok s' /\ ring s' (x :: l1 ++ l2)).
Proof.
  split_and!.
  - intros Hr Hnew Hf Hn. destruct (push_thread_insert s x l1 t tt) as (s' & ? & ? & _); eauto.
  - intros Hfirst. unfold push_thread.
    assert (first_thread s || (num_threads s =? 0) = true) as ->.
    { destruct Hfirst as [->| ->]; [done|]. by rewrite orb_true_r. }
    set (s0 := set_running_thread t s). rewrite (modify_thread_ok t _ s0 tt Ht). cbn [mbind outcome_bind].
    set (s1 := set_threads _ s0).
    assert (threads s1 !! t = Some (set_next_thread t tt)) as H1 by (unfold s1; simpl; by rewrite lookup_insert_eq).
    rewrite (modify_thread_ok t _ s1 _ H1). cbn [mbind outcome_bind]. eexists. split; [done|]. split; [|done].
    split_and!.
    + apply NoDup_singleton.
    + intros Hin. apply list_elem_of_singleton in Hin. congruence.
    + done.
    + simpl. unfold edge, nx, pv. simpl. by rewrite lookup_insert_eq.
  - intros Hr. destruct (discard_thread_remove s x l1 t l2 Hr) as (s' & ? & ? & _). eauto.
Qed.

(** C28: the context switch: when the next thread of the ring is not blocked (and
    has another pid), [reschedule] makes it the running thread and rotates the
    ring by one, saves the old thread's stack pointer in its context, loads the
    new thread's stack pointer and page tables, sets the TSS stack, arms the
    timer and returns with interrupts enabled. The SSE state is not switched:
    the new thread goes on with the old thread's, which also overwrites its own
    saved image. *)
Theorem reschedule_switches (s : sst) (r n : Z) (rest : list Z) (tr tn : thread_context)
    (Hring : ring s (r :: n :: rest)) (Hf : first s <> 0)
    (Htr : threads s !! r = Some tr) (Htn : threads s !! n = Some tn)
    (Hpid : pid tn <> pid tr) (Hst : status tn 3 = 0) :
  exists s' tr' tn', reschedule s = Ok s' /\ ring s' (n :: rest ++ [r]) /\
    threads s' !! r = Some tr' /\ current_rsp tr' = wrap64 (cpu_rsp s - 128) /\ last_run_time tr' = now /\
    cpu_rsp s' = wrap64 (current_rsp tn + 128) /\ cpu_cr3 s' = wrap64 (cr3 tn - hhdm_offset) /\
    trace s' = trace s ++ [Eoi; SetRsp0 (stack_base tn); Oneshot THREAD_QUANTUM 72 3] /\
    iflag (sm s') = true /\
    cpu_sse s' = cpu_sse s /\ threads s' !! n = Some tn' /\ ssefxsave tn' = cpu_sse s.
Proof.
  destruct (reschedule_switch s r n rest tr tn Hring Hf Htr Htn Hpid Hst)
    as (s' & ? & ? & _ & _ & ? & ? & ? & ? & ? & (tn' & ? & ?) & (tr' & ? & ? & ?)).
  by exists s', tr', tn'.
Qed.

(** Calls of [reschedule] one after the other. *)
Fixpoint reschedule_n (k : nat) (s : sst) : outcome sst :=
  match k with
  | O => Ok s
  | S k' => s ← reschedule s; reschedule_n k' s
  end.

(** Every thread of the list is ready, and neighbours differ in pid. *)
Definition all_ready (s : sst) (l : list Z) : Prop :=
  (forall a t, a ∈ l -> threads s !! a = Some t -> status t 3 = 0) /\
  (forall a b t t', a ∈ l -> b ∈ l -> a <> b -> threads s !! a = Some t -> threads s !! b = Some t' ->
     pid t <> pid t').

Lemma all_ready_same s s' l l' :
  same_threads s s' -> (forall a, a ∈ l' -> a ∈ l) -> all_ready s l -> all_ready s' l'.
Proof.
  intros Hs Hl [H1 H2].
  assert (forall a t', threads s' !! a = Some t' -> exists t, threads s !! a = Some t /\
    pid t' = pid t /\ status t' = status t) as Hback.
  { intros a t' Ht'. specialize (Hs a). rewrite Ht' in Hs. destruct (threads s !! a) as [t|]; [|done].
    exists t. split; [done|]. tauto. }
  split.
  - intros a t' Ha (t & Ht & _ & ->)%Hback. by apply (H1 a t); [apply Hl|].
  - intros a b t t' Ha Hb Hne (ta & Hta & -> & _)%Hback (tb & Htb & -> & _)%Hback.
    apply (H2 a b); auto.
Qed.

(** C27: round robin: when every thread of the ring is ready, [k] calls of
    [reschedule] return and rotate the ring by [k]; so each of its threads runs
    once in every round, in ring order, and after one round the first thread
    runs again. *)
Theorem reschedule_round_robin (k : nat) (s : sst) (l : list Z)
    (Hring : ring s l) (Hready : all_ready s l) (Hf : first s <> 0)
    (Hlen : (2 <= length l)%nat) (Hk : (k <= length l)%nat) :
  exists s', reschedule_n k s = Ok s' /\ ring s' (drop k l ++ take k l) /\
    ((k < length l)%nat -> l !! k = Some (running_thread s')).
Proof.
  assert (forall k s l, ring s l -> all_ready s l -> first s <> 0 -> (2 <= length l)%nat ->
    (k <= length l)%nat -> exists s', reschedule_n k s = Ok s' /\ ring s' (drop k l ++ take k l)) as Hgen.
  { clear. induction k as [|k IH]; intros s l Hring Hready Hf Hlen Hk; cbn [reschedule_n].
    { exists s. split; [done|]. by rewrite app_nil_r. }
    destruct l as [|r [|n rest]]; simpl in Hlen; try lia.
    destruct (ring_lookup s _ r Hring ltac:(by left)) as [tr Htr].
    destruct (ring_lookup s _ n Hring ltac:(right; by left)) as [tn Htn].
    assert (r <> n) as Hrn.
    { destruct Hring as (Hnd & _). apply list.NoDup_cons in Hnd as [Hr _]. intros ->. apply Hr. by left. }
    destruct Hready as [Hr1 Hr2].
    destruct (reschedule_switch s r n rest tr tn) as (s1 & -> & Hring1 & Hsame & Hf1 & _); try done.
    { apply (Hr2 n r); try done; [right; by left|by left]. }
    { apply (Hr1 n); [right; by left|done]. }
    cbn [mbind outcome_bind].
    destruct (IH s1 (n :: rest ++ [r])) as (s2 & -> & Hring2).
    - done.
    - apply (all_ready_same s s1 (r :: n :: rest)); [done| |by split].
      intros a Ha. change (n :: rest ++ [r]) with ((n :: rest) ++ [r]) in Ha.
      apply elem_of_app in Ha as [Ha|Ha]; [by right|]. apply list_elem_of_singleton in Ha as ->. by left.
    - by rewrite Hf1.
    - simpl. rewrite length_app. simpl. lia.
    - simpl in *. rewrite length_app. simpl. lia.
    - exists s2. split; [done|]. simpl in Hk. cbn [drop take].
      change (n :: rest ++ [r]) with ((n :: rest) ++ [r]) in Hring2.
      rewrite drop_app_le, take_app_le in Hring2 by (simpl; lia).
      by rewrite <- app_assoc in Hring2. }
  destruct (Hgen k s l Hring Hready Hf Hlen Hk) as (s' & ? & Hr'). exists s'. split; [done|]. split; [done|].
  intros Hlt. destruct Hr' as (_ & _ & Hhd & _). rewrite <- Hhd.
  rewrite <- (Nat.add_0_r k) at 1. rewrite <- lookup_drop.
  destruct (drop k l) as [|a l'] eqn:Hd; [|done].
  apply (f_equal length) in Hd. rewrite length_drop in Hd. simpl in Hd. lia.
Qed.


(** ** Searching by pid *)

Lemma linked_next ths l z a t :
  linked ths l z -> a ∈ l -> ths !! a = Some t -> next_thread t ∈ l \/ next_thread t = z.
Proof.
  induction l as [|b l IH]; intros Hl Ha Ht; [by apply elem_of_nil in Ha|].
  destruct Hl as [[Hn _] Hl]. apply elem_of_cons in Ha as [->|Ha].
  - unfold nx in Hn. rewrite Ht in Hn. injection Hn as ->. destruct l as [|c l]; simpl; [by right|].
    left. right. by left.
  - destruct (IH Hl Ha Ht) as [?|?]; [left; by right|by right].
Qed.

Lemma ring_next s l a t : ring s l -> a ∈ l -> threads s !! a = Some t -> next_thread t ∈ l.
Proof.
  intros (_ & _ & Hhd & Hl) Ha Ht. destruct (linked_next _ _ _ _ _ Hl Ha Ht) as [?| ->]; [done|].
  destruct l; [done|]. injection Hhd as ->. by left.
Qed.

Lemma find_pid_none n s l a p :
  ring s l -> (forall b t, b ∈ l -> threads s !! b = Some t -> pid t <> p) -> a ∈ l ->
  find_pid n a p s = Ok None.
Proof.
  intros Hr Hno. revert a. induction n as [|n IH]; intros a Ha; [done|]. cbn [find_pid].
  destruct (ring_lookup s l a Hr Ha) as [t Ht]. rewrite (get_thread_ok _ _ _ Ht). cbn [mbind outcome_bind].
  destruct (Z.eqb_spec (pid t) p) as [He|]; [by destruct (Hno a t Ha Ht)|]. apply IH. by eapply ring_next.
Qed.

Lemma find_pid_some n s l1 a l2 z p ta :
  linked (threads s) (l1 ++ a :: l2) z -> threads s !! a = Some ta -> pid ta = p ->
  (forall b t, b ∈ l1 -> threads s !! b = Some t -> pid t <> p) -> (length l1 < n)%nat ->
  find_pid n (hd a l1) p s = Ok (Some a).
Proof.
  revert n. induction l1 as [|b l1 IH]; intros n Hl Ha Hp Hno Hn; (destruct n as [|n]; [simpl in Hn; lia|]);
    cbn [find_pid hd].
  - rewrite (get_thread_ok _ _ _ Ha). cbn [mbind outcome_bind]. by rewrite Hp, Z.eqb_refl.
  - destruct Hl as [[Hnx _] Hl]. destruct (nx_known _ _ _ Hnx) as (t & Ht & Hnext).
    rewrite (get_thread_ok _ _ _ Ht). cbn [mbind outcome_bind].
    destruct (Z.eqb_spec (pid t) p) as [He|]; [by destruct (Hno b t ltac:(by left) Ht)|].
    rewrite Hnext. replace (hd z (l1 ++ a :: l2)) with (hd a l1) by (by destruct l1).
    apply IH; try done; [|simpl in Hn; lia]. intros c tc Hc. apply Hno. by right.
Qed.

(** [get_thread_by_pid] returns the first thread of the ring with the pid,
    and leaves interrupts disabled when it finds one; it returns a null pointer
    and restores the interrupt flag when no thread of the ring has the pid. *)
Lemma get_thread_by_pid_finds (s : sst) (l : list Z) (p : Z)
    (Hring : ring s l) (Hnum : Z.of_nat (length l) <= num_threads s) :
  (forall l1 a l2 ta, l = l1 ++ a :: l2 -> threads s !! a = Some ta -> pid ta = p ->
     (forall b t, b ∈ l1 -> threads s !! b = Some t -> pid t <> p) ->
     exists s', get_thread_by_pid p s = Ok (a, s') /\ ring s' l /\ iflag (sm s') = false) /\
  ((forall b t, b ∈ l -> threads s !! b = Some t -> pid t <> p) ->
     exists s', get_thread_by_pid p s = Ok (NULL, s') /\ ring s' l /\ iflag (sm s') = iflag (sm s)).
Proof.
  pose proof Hring as (Hnd & Hnull & Hhd & Hl). unfold get_thread_by_pid. cbn [irq_disable_save].
  set (s0 := set_sm _ s). assert (ring s0 l) as Hring0 by done.
  assert (running_thread s ∈ l) as Hin by (destruct l; [done|]; injection Hhd as ->; by left).
  change (num_threads s0) with (num_threads s). change (running_thread s0) with (running_thread s). split.
  - intros l1 a l2 ta -> Ha Hp Hno.
    assert (running_thread s = hd a l1) as -> by (destruct l1; injection Hhd as <-; done).
    rewrite (find_pid_some _ s0 l1 a l2 (running_thread s) p ta) by
      (try done; rewrite length_app in Hnum; simpl in Hnum; lia).
    simpl. exists s0. done.
  - intros Hno. rewrite (find_pid_none _ s0 l) by done. simpl. eexists. split; [done|].
    split; [done|]. simpl. by rewrite irq_restore_iflag.
Qed.

(** The stack [start_thread] prepares: the first [switch_thread] to the new
    thread pops fifteen registers and returns to [enable_preemption], which
    returns to the thread's entry, which returns to [disable_preemption] and
    then [scheduler_return]; the stack is then exactly empty, and nothing but
    its four top words was written. *)
Lemma start_thread_stack (top entry : Z) (m : mem)
    (He : is_u64 entry) (Hs : is_u64 addr_scheduler_return)
    (Hd : is_u64 addr_disable_preemption) (Hen : is_u64 addr_enable_preemption) :
  let '(rsp, m') := start_thread top entry m in
  load64 m' (rsp + 120) = addr_enable_preemption /\ load64 m' (rsp + 128) = entry /\
  load64 m' (rsp + 136) = addr_disable_preemption /\ load64 m' (rsp + 144) = addr_scheduler_return /\
  rsp + 152 = top /\ same_outside m m' (top - 32) 32.
Proof.
  unfold start_thread.
  replace (top - 32 - 15 * 8 + 120) with (top - 32) by lia. replace (top - 32 - 15 * 8 + 128) with (top - 24) by lia.
  replace (top - 32 - 15 * 8 + 136) with (top - 16) by lia. replace (top - 32 - 15 * 8 + 144) with (top - 8) by lia.
  split_and!; try lia.
  1-4: repeat (rewrite load64_store64_ne by lia); by apply load64_store64_eq.
  intros x Hx. unfold store64. by rewrite !store_le_outside by lia.
Qed.

End Scheduler.

(** ** Witnesses *)

Definition plain_thread (p rsp nxt prv : Z) (blocked : Z) : thread_context :=
  Thread 0 0 10000000 p 0 (rsp + 152) 0 rsp (fun i => if i =? 3 then blocked else 0) NULL NULL (Mappings 0 0 8)
    0 sample_hhdm 0 nxt prv 0.

(** Three threads at addresses 100, 200 and 300; [b] is the blocked flag of the second. *)
Definition three_threads (b : Z) : sst :=
  Sst (heap_state 0)
    (<[100 := plain_thread 1 1000 200 300 0]> (<[200 := plain_thread 2 2000 300 100 b]>
      (<[300 := plain_thread 3 3000 100 200 0]> (<[400 := plain_thread 4 4000 0 0 0]> ∅))))
    ∅ 100 0 3 true false 1 0 5000 7 [].

Lemma three_threads_ring b : ring (three_threads b) [100; 200; 300].
Proof.
  split_and!; [apply (bool_decide_unpack _); by vm_compute..|done|by vm_compute].
Qed.

Lemma ring_operations_refine_witness :
  (exists s', push_thread 400 (three_threads 0) = Ok s' /\ ring s' [100; 400; 200; 300]) /\
  (exists s', discard_thread 200 (three_threads 0) = Ok s' /\ ring s' [100; 300]).
Proof.
  split.
  - apply (ring_operations_refine (three_threads 0) 100 [200; 300] 400 [] (plain_thread 4 4000 0 0 0)).
    + reflexivity.
    + discriminate.
    + exact (three_threads_ring 0).
    + apply (bool_decide_unpack _); by vm_compute.
    + reflexivity.
    + discriminate.
  - apply (ring_operations_refine (three_threads 0) 100 [] 200 [300] (plain_thread 2 2000 300 100 0)).
    + reflexivity.
    + discriminate.
    + exact (three_threads_ring 0).
Defined.

Lemma reschedule_switches_witness :
  exists s' tr' tn', reschedule sample_hhdm 0 77 (three_threads 0) = Ok s' /\ ring s' [200; 300; 100] /\
    threads s' !! 100 = Some tr' /\ threads s' !! 200 = Some tn' /\ current_rsp tr' = 4872.
Proof.
  destruct (reschedule_switches sample_hhdm 0 77 (three_threads 0) 100 200 [300]
              (plain_thread 1 1000 200 300 0) (plain_thread 2 2000 300 100 0))
    as (s' & tr' & tn' & H1 & H2 & H3 & H4 & _ & _ & _ & _ & _ & _ & H5 & _).
  - exact (three_threads_ring 0).
  - discriminate.
  - reflexivity.
  - reflexivity.
  - discriminate.
  - reflexivity.
  - exists s', tr', tn'. split; [exact H1|]. split; [exact H2|]. split; [exact H3|]. split; [exact H5|exact H4].
Defined.

Lemma three_threads_ready : all_ready (three_threads 0) [100; 200; 300].
Proof.
  split.
  - intros a t Ha Ht. repeat (apply elem_of_cons in Ha as [->|Ha]); [..|by apply elem_of_nil in Ha];
      vm_compute in Ht; injection Ht as <-; reflexivity.
  - intros a b t t' Ha Hb Hne Ht Ht'.
    repeat (apply elem_of_cons in Ha as [->|Ha]); [..|by apply elem_of_nil in Ha];
      (repeat (apply elem_of_cons in Hb as [->|Hb]); [..|by apply elem_of_nil in Hb]);
      try done; vm_compute in Ht, Ht'; injection Ht as <-; injection Ht' as <-; discriminate.
Qed.

Lemma reschedule_round_robin_witness :
  exists s', reschedule_n sample_hhdm 0 77 3 (three_threads 0) = Ok s' /\ ring s' [100; 200; 300].
Proof.
  destruct (reschedule_round_robin sample_hhdm 0 77 3 (three_threads 0) [100; 200; 300]) as (s' & H1 & H2 & _).
  - exact (three_threads_ring 0).
  - exact three_threads_ready.
  - discriminate.
  - simpl. lia.
  - simpl. lia.
  - exists s'. split; [exact H1|exact H2].
Defined.


Lemma get_thread_by_pid_finds_witness :
  exists s', get_thread_by_pid 3 (three_threads 0) = Ok (300, s') /\ iflag (sm s') = false.
Proof.
  destruct (get_thread_by_pid_finds (three_threads 0) [100; 200; 300] 3) as [H _].
  - exact (three_threads_ring 0).
  - simpl. lia.
  - destruct (H [100; 200] 300 [] (plain_thread 3 3000 100 200 0)) as (s' & H1 & _ & H2).
    + reflexivity.
    + reflexivity.
    + reflexivity.
    + intros b t Hb Ht. repeat (apply elem_of_cons in Hb as [->|Hb]); [..|by apply elem_of_nil in Hb];
        vm_compute in Ht; injection Ht as <-; discriminate.
    + exists s'. split; [exact H1|exact H2].
Defined.

Lemma start_thread_stack_witness :
  let '(rsp, m) := start_thread 0x10 0x20 0x30 20000 0x40 (fun _ => 0) in load64 m (rsp + 120) = 0x30.
Proof.
  pose proof (start_thread_stack 0x10 0x20 0x30 20000 0x40 (fun _ => 0)) as H.
  apply H; vm_compute; split; congruence.
Defined.
