(* ===== verification/Strings.v ===== *)
(** * C strings: string.c

    The string functions of string.c on the byte memory of [Memory], with
    the word-at-a-time loops the file has on this target ([long] is 64 bits).
    A loop whose end depends on the memory takes fuel, one unit per iteration;
    each theorem gives the fuel that is enough. *)

From S2P Require Import Prelude Memory.

(** ** The zero-byte test of a 64-bit word

    [DETECTNULL] (and [HASZERO], the same expression):
    [((X) - 0x0101010101010101) & ~(X) & 0x8080808080808080]. *)

Definition ONES : Z := 0x0101010101010101.
Definition HIGHS : Z := 0x8080808080808080.

Definition DETECTNULL (X : Z) : Z :=
  Z.land (Z.land (wrap64 (X - ONES)) (wrap64 (Z.lnot X))) HIGHS.

(** ** strlen, kstrlen *)

(** [while ( *str) str++;] *)
Fixpoint scan_nul (fuel : nat) (m : mem) (str : Z) : outcome Z :=
  match fuel with
  | O => Err OutOfFuel
  | S f => if m str =? 0 then Ok str else scan_nul f m (str + 1)
  end.

(** [while (UNALIGNED (str)) { if (! *str) return str - start; str++; }]:
    [inl] is the early return. *)
Fixpoint strlen_align (fuel : nat) (m : mem) (str : Z) : outcome (Z + Z) :=
  match fuel with
  | O => Err OutOfFuel
  | S f =>
      if Z.land str 7 =? 0 then Ok (inr str)
      else if m str =? 0 then Ok (inl str)
      else strlen_align f m (str + 1)
  end.

(** [while (!DETECTNULL ( *aligned_addr)) aligned_addr++;] *)
Fixpoint skip_words (fuel : nat) (m : mem) (addr : Z) : outcome Z :=
  match fuel with
  | O => Err OutOfFuel
  | S f =>
      if DETECTNULL (load64 m addr) =? 0 then skip_words f m (addr + 8) else Ok addr
  end.

Definition strlen (fuel : nat) (m : mem) (str : Z) : outcome Z :=
  r ← strlen_align fuel m str;
  match r with
  | inl p => Ok (p - str)
  | inr p =>
      aligned_addr ← skip_words fuel m p;
      e ← scan_nul fuel m aligned_addr;
      Ok (e - str)
  end.

(** [kstrlen] of main.c: byte by byte, 0 for a null pointer. *)
Definition kstrlen (fuel : nat) (m : mem) (msg : Z) : outcome Z :=
  if msg =? NULL then Ok 0
  else e ← scan_nul fuel m msg; Ok (e - msg).

Fixpoint strnlen_loop (n : nat) (m : mem) (str : Z) : Z :=
  match n with
  | O => str
  | S n' => if m str =? 0 then str else strnlen_loop n' m (str + 1)
  end.

Definition strnlen (m : mem) (str n : Z) : Z := strnlen_loop (Z.to_nat n) m str - str.

(** ** Copying *)

Definition strcpy (fuel : nat) (m : mem) (dest src : Z) : outcome mem :=
  l ← strlen fuel m src; Ok (memcpy m dest src (l + 1)).

Definition strcat (fuel : nat) (m : mem) (dest src : Z) : outcome mem :=
  l ← strlen fuel m dest; strcpy fuel m (dest + l) src.

(** The word loop of [strncpy]: copies while at least 8 characters are left and
    the source word has no zero byte; gives the memory, the two pointers and
    the count left. *)
Fixpoint strncpy_words (fuel : nat) (m : mem) (dst src count : Z)
    : outcome (mem * Z * Z * Z) :=
  match fuel with
  | O => Err OutOfFuel
  | S f =>
      if (8 <=? count) && (DETECTNULL (load64 m src) =? 0)
      then strncpy_words f (store64 m dst (load64 m src)) (dst + 8) (src + 8) (count - 8)
      else Ok (m, dst, src, count)
  end.

(** [while (count > 0) { --count; if (( *dst++ = *src++) == 0) break; }] *)
Fixpoint strncpy_bytes (count : nat) (m : mem) (dst src : Z) : mem * Z * nat :=
  match count with
  | O => (m, dst, O)
  | S c =>
      let m' := store8 m dst (m src) in
      if m' dst =? 0 then (m', dst + 1, c) else strncpy_bytes c m' (dst + 1) (src + 1)
  end.

Definition strncpy (fuel : nat) (m : mem) (dst0 src0 count : Z) : outcome mem :=
  '(m1, dst, src, count) ←
    (if (Z.lor (Z.land src0 7) (Z.land dst0 7) =? 0) && negb (count <? 8)
     then strncpy_words fuel m dst0 src0 count
     else Ok (m, dst0, src0, count));
  let '(m2, dst, c) := strncpy_bytes (Z.to_nat count) m1 dst src in
  Ok (memset m2 dst 0 (Z.of_nat c)).

(** ** Comparing *)

Fixpoint strcmp (fuel : nat) (m : mem) (l r : Z) : outcome Z :=
  match fuel with
  | O => Err OutOfFuel
  | S f =>
      if (m l =? m r) && negb (m l =? 0) then strcmp f m (l + 1) (r + 1)
      else Ok (m l - m r)
  end.

(** The word loop of [strncmp]: [inl] is its early [return 0]. *)
Fixpoint strncmp_words (fuel : nat) (m : mem) (a1 a2 n : Z) : outcome (Z + Z * Z * Z) :=
  match fuel with
  | O => Err OutOfFuel
  | S f =>
      if (8 <=? n) && (load64 m a1 =? load64 m a2) then
        let n := n - 8 in
        if (n =? 0) || negb (DETECTNULL (load64 m a1) =? 0) then Ok (inl 0)
        else strncmp_words f m (a1 + 8) (a2 + 8) n
      else Ok (inr (a1, a2, n))
  end.

(** [while (n-- > 0 && *s1 == *s2) { if (n == 0 || *s1 == 0) return 0; s1++; s2++; }] *)
Fixpoint strncmp_bytes (n : nat) (m : mem) (s1 s2 : Z) : Z :=
  match n with
  | O => m s1 - m s2
  | S n' =>
      if m s1 =? m s2 then
        if Nat.eqb n' 0 || (m s1 =? 0) then 0 else strncmp_bytes n' m (s1 + 1) (s2 + 1)
      else m s1 - m s2
  end.

Definition strncmp (fuel : nat) (m : mem) (s1 s2 n : Z) : outcome Z :=
  if n =? 0 then Ok 0
  else
    r ← (if Z.lor (Z.land s1 7) (Z.land s2 7) =? 0
         then strncmp_words fuel m s1 s2 n
         else Ok (inr (s1, s2, n)));
    match r with
    | inl v => Ok v
    | inr (s1, s2, n) => Ok (strncmp_bytes (Z.to_nat n) m s1 s2)
    end.

(** ** Searching *)

(** [for (; n && *s != c; s++, n--);] *)
Fixpoint memchr_bytes (n : nat) (m : mem) (s c : Z) : Z * nat :=
  match n with
  | O => (s, O)
  | S n' => if m s =? c then (s, n) else memchr_bytes n' m (s + 1) c
  end.

(** [for (; ((uintptr_t)s & ALIGN) && n && *s != c; s++, n--);] *)
Fixpoint memchr_align (n : nat) (m : mem) (s c : Z) : Z * nat :=
  match n with
  | O => (s, O)
  | S n' =>
      if Z.land s 7 =? 0 then (s, n)
      else if m s =? c then (s, n)
      else memchr_align n' m (s + 1) c
  end.

(** [for (w = s; n >= SS && !HASZERO( *w^k); w++, n -= SS);] *)
Fixpoint memchr_words (fuel : nat) (m : mem) (w : Z) (n : nat) (k : Z) : Z * nat :=
  match fuel with
  | O => (w, n)
  | S f =>
      if (8 <=? n)%nat && (DETECTNULL (Z.lxor (load64 m w) k) =? 0)
      then memchr_words f m (w + 8) (n - 8)%nat k
      else (w, n)
  end.

Definition memchr (m : mem) (src c n : Z) : Z :=
  let c := wrap8 c in
  let '(s, n) := memchr_align (Z.to_nat n) m src c in
  let '(s, n) :=
    if negb (Nat.eqb n 0) && negb (m s =? c)
    then memchr_words n m s n (wrap64 (ONES * c)) else (s, n) in
  let '(s, n) := memchr_bytes n m s c in
  if Nat.eqb n 0 then NULL else s.

(** [for (; *s && *s != c; s++);] *)
Fixpoint scan_char (fuel : nat) (m : mem) (s c : Z) : outcome Z :=
  match fuel with
  | O => Err OutOfFuel
  | S f => if (m s =? 0) || (m s =? c) then Ok s else scan_char f m (s + 1) c
  end.

(** [for (; (uintptr_t)s % ALIGN; s++) if (! *s || *s == c) return s;] where
    [ALIGN] is 7 in this file. *)
Fixpoint strchrnul_align (fuel : nat) (m : mem) (s c : Z) : outcome (Z + Z) :=
  match fuel with
  | O => Err OutOfFuel
  | S f =>
      if s mod 7 =? 0 then Ok (inr s)
      else if (m s =? 0) || (m s =? c) then Ok (inl s)
      else strchrnul_align f m (s + 1) c
  end.

Fixpoint strchrnul_words (fuel : nat) (m : mem) (w k : Z) : outcome Z :=
  match fuel with
  | O => Err OutOfFuel
  | S f =>
      if (DETECTNULL (load64 m w) =? 0) && (DETECTNULL (Z.lxor (load64 m w) k) =? 0)
      then strchrnul_words f m (w + 8) k
      else Ok w
  end.

Definition __strchrnul (fuel : nat) (m : mem) (s c : Z) : outcome Z :=
  let c := wrap8 c in
  if c =? 0 then l ← strlen fuel m s; Ok (s + l)
  else
    r ← strchrnul_align fuel m s c;
    match r with
    | inl p => Ok p
    | inr p =>
        w ← strchrnul_words fuel m p (wrap64 (ONES * c));
        scan_char fuel m w c
    end.

Definition strchr (fuel : nat) (m : mem) (s c : Z) : outcome Z :=
  r ← __strchrnul fuel m s c;
  Ok (if m r =? wrap8 c then r else NULL).

(** ** strtok_r

    [for (spanp = delim; (sc = *spanp++) != 0;) if (c == sc) ...]: is [c] one of
    the delimiters of the string at [delim]? *)
Fixpoint in_delims (fuel : nat) (m : mem) (delim c : Z) : outcome bool :=
  match fuel with
  | O => Err OutOfFuel
  | S f =>
      let sc := m delim in
      if sc =? 0 then Ok false
      else if c =? sc then Ok true
      else in_delims f m (delim + 1) c
  end.

(** The [cont:] loop: the first character at or after [s] that is not a
    delimiter, with the pointer just past it. *)
Fixpoint tok_skip (fuel : nat) (m : mem) (delim s : Z) : outcome (Z * Z) :=
  match fuel with
  | O => Err OutOfFuel
  | S f =>
      let c := m s in
      d ← in_delims fuel m delim c;
      if (d : bool) then tok_skip f m delim (s + 1) else Ok (c, s + 1)
  end.

(** The scanning loop: stops at a delimiter, which it overwrites with 0, or at
    the end of the string; gives the memory and the pointer saved in [last]. *)
Fixpoint tok_scan (fuel : nat) (m : mem) (delim s : Z) : outcome (mem * Z) :=
  match fuel with
  | O => Err OutOfFuel
  | S f =>
      let c := m s in
      d ← in_delims fuel m delim c;
      if (d : bool) then Ok (store8 m s 0, s + 1)
      else if c =? 0 then Ok (m, NULL)
      else tok_scan f m delim (s + 1)
  end.

(** [strtok_r s delim last]: the token (or NULL), the memory and the new
    [*last]. *)
Definition strtok_r (fuel : nat) (m : mem) (s delim last : Z) : outcome (Z * mem * Z) :=
  let s := if s =? NULL then last else s in
  if s =? NULL then Ok (NULL, m, last)
  else
    '(c, s) ← tok_skip fuel m delim s;
    if c =? 0 then Ok (NULL, m, NULL)
    else
      let tok := s - 1 in
      '(m', last') ← tok_scan fuel m delim s;
      Ok (tok, m', last').

(** ** Vocabulary: the string [l] is at [a] *)

Fixpoint cstr (m : mem) (a : Z) (l : list Z) : Prop :=
  match l with
  | [] => m a = 0
  | c :: l' => m a = c /\ c <> 0 /\ cstr m (a + 1) l'
  end.

(** ** The zero-byte test, byte by byte *)

Fixpoint ones (n : nat) : Z := match n with O => 0 | S n' => 1 + 256 * ones n' end.
Fixpoint highs (n : nat) : Z := match n with O => 0 | S n' => 128 + 256 * highs n' end.

Lemma land_mod256 a b : Z.land a b mod 256 = Z.land (a mod 256) (b mod 256).
Proof.
  change 256 with (2 ^ 8). rewrite <- !Z.land_ones by lia.
  rewrite <- !Z.land_assoc. f_equal.
  rewrite (Z.land_comm (Z.ones 8)), <- Z.land_assoc. f_equal.
Qed.

Lemma land_div256 a b : Z.land a b / 256 = Z.land (a / 256) (b / 256).
Proof.
  change 256 with (2 ^ 8). rewrite <- !Z.shiftr_div_pow2 by lia. apply Z.shiftr_land.
Qed.

Lemma highs_nonneg n : 0 <= highs n.
Proof. induction n; simpl; lia. Qed.

(** The low byte of the test is non-zero exactly for a zero byte. *)
Lemma low_byte_test b : 0 <= b < 256 ->
  Z.land (Z.land ((b - 1) mod 256) (255 - b)) 128 = if b =? 0 then 128 else 0.
Proof.
  intros H.
  assert (Forall (fun b => Z.land (Z.land ((b - 1) mod 256) (255 - b)) 128
                           = if b =? 0 then 128 else 0) (seqZ 0 256)) as HF.
  { apply (bool_decide_unpack _). vm_compute. exact I. }
  rewrite List.Forall_forall in HF. apply HF. apply list_elem_of_In, elem_of_seqZ. lia.
Qed.

Definition haszero (n : nat) (X : Z) : Z :=
  Z.land (Z.land (X - ones n) (Z.lnot X)) (highs n).

Lemma haszero_step n b Y : 0 <= b < 256 ->
  haszero (S n) (b + 256 * Y) = 0 <-> b <> 0 /\ haszero n Y = 0.
Proof.
  intros Hb. unfold haszero.
  set (T := Z.land _ _).
  assert (T mod 256 = if b =? 0 then 128 else 0) as Hlow.
  { unfold T. rewrite !land_mod256. rewrite <- low_byte_test by done. cbn [ones highs].
    f_equal; [f_equal|].
    - replace (b + 256 * Y - (1 + 256 * ones n)) with (b - 1 + (Y - ones n) * 256) by lia.
      by rewrite Z.mod_add.
    - unfold Z.lnot. replace (Z.pred (- (b + 256 * Y))) with (255 - b + (- Y - 1) * 256) by lia.
      rewrite Z.mod_add by lia. apply Z.mod_small. lia.
    - replace (128 + 256 * highs n) with (128 + highs n * 256) by lia. by rewrite Z.mod_add. }
  assert (0 <= T) as Hpos.
  { unfold T. apply Z.land_nonneg. right. apply highs_nonneg. }
  destruct (Z.eqb_spec b 0) as [->|Hb0].
  { split; [|intros [? ?]; lia]. intros HT. rewrite HT in Hlow. discriminate. }
  assert (T / 256 = haszero n Y) as Hhigh.
  { unfold T, haszero. rewrite !land_div256. cbn [ones highs]. f_equal; [f_equal|].
    - replace (b + 256 * Y - (1 + 256 * ones n)) with (b - 1 + (Y - ones n) * 256) by lia.
      rewrite Z.div_add, Z.div_small by lia. lia.
    - unfold Z.lnot. replace (Z.pred (- (b + 256 * Y))) with (255 - b + (- Y - 1) * 256) by lia.
      rewrite Z.div_add, Z.div_small by lia. lia.
    - replace (128 + 256 * highs n) with (128 + highs n * 256) by lia.
      rewrite Z.div_add, Z.div_small by lia. lia. }
  fold (haszero n Y). rewrite <- Hhigh. split.
  - intros ->. done.
  - intros [_ HT]. rewrite (Z.div_mod T 256), HT, Hlow by lia. done.
Qed.

Lemma haszero_load n m a : mem_ok m ->
  haszero n (load_le n m a) = 0 <-> (forall i, 0 <= i < Z.of_nat n -> m (a + i) <> 0).
Proof.
  intros Hm. revert a. induction n as [|n IH]; intros a.
  { cbn. split; [intros; lia|done]. }
  cbn [load_le]. rewrite haszero_step by apply Hm. rewrite IH. split.
  - intros [H0 H] i Hi. destruct (Z.eq_dec i 0) as [->|]; [by rewrite Z.add_0_r|].
    specialize (H (i - 1) ltac:(lia)). by replace (a + 1 + (i - 1)) with (a + i) in H by lia.
  - intros H. split.
    + specialize (H 0 ltac:(lia)). by rewrite Z.add_0_r in H.
    + intros i Hi. replace (a + 1 + i) with (a + (i + 1)) by lia. apply H. lia.
Qed.

Lemma land_wrap64_l x y : Z.land (wrap64 x) (Z.land y HIGHS) = Z.land x (Z.land y HIGHS).
Proof.
  unfold wrap64. rewrite <- Z.land_ones by lia. rewrite <- Z.land_assoc. f_equal.
  rewrite Z.land_comm, <- Z.land_assoc. reflexivity.
Qed.

Lemma DETECTNULL_haszero X : DETECTNULL X = haszero 8 X.
Proof.
  unfold DETECTNULL, haszero. change (ones 8) with ONES. change (highs 8) with HIGHS.
  rewrite <- !Z.land_assoc, land_wrap64_l. f_equal.
  unfold wrap64. rewrite <- Z.land_ones by lia. rewrite <- Z.land_assoc. reflexivity.
Qed.

Lemma DETECTNULL_load m a : mem_ok m ->
  DETECTNULL (load64 m a) = 0 <-> (forall i, 0 <= i < 8 -> m (a + i) <> 0).
Proof. intros. rewrite DETECTNULL_haszero. by apply haszero_load. Qed.

(** ** Strings in memory *)

Lemma cstr_nonzero m a l i : cstr m a l -> 0 <= i < Z.of_nat (length l) -> m (a + i) <> 0.
Proof.
  revert a i. induction l as [|c l IH]; intros a i Hs Hi; simpl in *; [lia|].
  destruct Hs as (<- & Hc & Hs). destruct (Z.eq_dec i 0) as [->|]; [by rewrite Z.add_0_r|].
  replace (a + i) with (a + 1 + (i - 1)) by lia. apply IH; [done|lia].
Qed.

Lemma cstr_end m a l : cstr m a l -> m (a + Z.of_nat (length l)) = 0.
Proof.
  revert a. induction l as [|c l IH]; intros a; simpl.
  - by rewrite Z.add_0_r.
  - intros (_ & _ & Hs). apply IH in Hs. by replace (a + Z.of_nat (S (length l)))
      with (a + 1 + Z.of_nat (length l)) by lia.
Qed.

Lemma cstr_drop m a l k : cstr m a l -> (k <= length l)%nat -> cstr m (a + Z.of_nat k) (drop k l).
Proof.
  revert a l. induction k as [|k IH]; intros a l Hs Hk; [by rewrite Z.add_0_r|].
  destruct l as [|c l]; simpl in *; [lia|]. destruct Hs as (_ & _ & Hs).
  replace (a + Z.of_nat (S k)) with (a + 1 + Z.of_nat k) by lia. apply IH; [done|lia].
Qed.

Lemma cstr_ext m m' a l :
  (forall x, a <= x <= a + Z.of_nat (length l) -> m' x = m x) -> cstr m a l -> cstr m' a l.
Proof.
  revert a. induction l as [|c l IH]; intros a H; simpl.
  - rewrite H by (simpl; lia). done.
  - intros (? & ? & Hs). rewrite H by (simpl; lia). split_and!; auto.
    apply IH; [|done]. intros x Hx. apply H. simpl. lia.
Qed.

(** A copy of the bytes of a string is the string. *)
Lemma cstr_move m m' a b l :
  (forall i, 0 <= i <= Z.of_nat (length l) -> m' (b + i) = m (a + i)) -> cstr m a l -> cstr m' b l.
Proof.
  revert a b. induction l as [|c l IH]; intros a b H; simpl.
  - intros Ha. rewrite <- (Z.add_0_r b), H by (simpl; lia). by rewrite Z.add_0_r.
  - intros (Hc & Hn & Hs). split_and!; [|done|].
    + rewrite <- (Z.add_0_r b), H by (simpl; lia). by rewrite Z.add_0_r.
    + apply (IH (a + 1)); [|done]. intros i Hi. rewrite <- !Z.add_assoc. apply H. simpl. lia.
Qed.

Lemma cstr_bytes_at m a l : cstr m a l -> bytes_at m a (length l) = l.
Proof.
  revert a. induction l as [|c l IH]; intros a; simpl; [done|].
  intros (-> & _ & Hs). f_equal. auto.
Qed.

Lemma cstr_unique m a l l' : cstr m a l -> cstr m a l' -> l = l'.
Proof.
  revert a l'. induction l as [|c l IH]; intros a [|c' l'] H1 H2; simpl in *.
  - done.
  - destruct H2 as (? & ? & _). congruence.
  - destruct H1 as (? & ? & _). congruence.
  - destruct H1 as (H1 & _ & Hs1), H2 as (H2 & _ & Hs2). f_equal; [congruence|]. eauto.
Qed.

(** Reading a string of another memory that agrees on it. *)
Lemma cstr_of_bytes m a l :
  bytes_at m a (length l) = l -> m (a + Z.of_nat (length l)) = 0 -> Forall (fun c => c <> 0) l ->
  cstr m a l.
Proof.
  revert a. induction l as [|c l IH]; intros a Hb He Hn; simpl in *.
  - by rewrite Z.add_0_r in He.
  - injection Hb as Hc Hb. inv Hn. split_and!; auto. apply IH; [done| |done].
    by replace (a + 1 + Z.of_nat (length l)) with (a + Z.of_nat (S (length l))) by lia.
Qed.

(** ** Length *)

Lemma scan_nul_spec fuel m a l :
  cstr m a l -> (length l < fuel)%nat -> scan_nul fuel m a = Ok (a + Z.of_nat (length l)).
Proof.
  revert a l. induction fuel as [|f IH]; intros a l Hs Hf; [lia|]. simpl.
  destruct l as [|c l]; simpl in *.
  - rewrite Hs. simpl. f_equal. lia.
  - destruct Hs as (-> & Hc & Hs). destruct (Z.eqb_spec c 0); [done|].
    rewrite (IH (a + 1) l) by (done || lia). f_equal. lia.
Qed.

Lemma strlen_align_spec fuel m a l :
  cstr m a l -> (length l < fuel)%nat ->
  exists r, strlen_align fuel m a = Ok r /\
    match r with
    | inl p => p = a + Z.of_nat (length l)
    | inr p => exists k, (k <= length l)%nat /\ p = a + Z.of_nat k
    end.
Proof.
  revert a l. induction fuel as [|f IH]; intros a l Hs Hf; [lia|]. simpl.
  destruct (Z.land a 7 =? 0).
  { exists (inr a). split; [done|]. exists O. split; lia. }
  destruct l as [|c l]; simpl in *.
  { rewrite Hs. exists (inl a). split; [done|lia]. }
  destruct Hs as (-> & Hc & Hs). destruct (Z.eqb_spec c 0); [done|].
  destruct (IH (a + 1) l) as (r & Hr & Hp); [done|lia|].
  exists r. split; [done|]. destruct r as [p|p]; [lia|].
  destruct Hp as (k & ? & ?). exists (S k). split; lia.
Qed.

Lemma skip_words_spec fuel m a l :
  mem_ok m -> cstr m a l -> (length l < fuel)%nat ->
  exists k, skip_words fuel m a = Ok (a + Z.of_nat k) /\ (k <= length l)%nat.
Proof.
  intros Hm. revert a l. induction fuel as [|f IH]; intros a l Hs Hf; [lia|]. cbn [skip_words].
  destruct (Z.eqb_spec (DETECTNULL (load64 m a)) 0) as [Hd|Hd].
  2: { exists O. split; [|lia]. by rewrite Z.add_0_r. }
  rewrite (DETECTNULL_load m a Hm) in Hd.
  assert (8 <= length l)%nat as H8.
  { destruct (le_lt_dec 8 (length l)) as [|Hlt]; [done|].
    exfalso. apply (Hd (Z.of_nat (length l)) ltac:(lia)). by apply cstr_end. }
  destruct (IH (a + 8) (drop 8 l)) as (k & Hk & Hkl).
  { replace (a + 8) with (a + Z.of_nat 8) by lia. by apply cstr_drop. }
  { rewrite length_drop. lia. }
  rewrite Hk. rewrite length_drop in Hkl. exists (k + 8)%nat. split; [f_equal|]; lia.
Qed.

Lemma strlen_spec fuel m a l :
  mem_ok m -> cstr m a l -> (length l < fuel)%nat -> strlen fuel m a = Ok (Z.of_nat (length l)).
Proof.
  intros Hm Hs Hf. unfold strlen.
  destruct (strlen_align_spec fuel m a l Hs Hf) as (r & Hr & Hp). rewrite Hr. simpl.
  destruct r as [p|p]; [f_equal; lia|]. destruct Hp as (k & Hk & ->).
  destruct (skip_words_spec fuel m (a + Z.of_nat k) (drop k l)) as (j & Hj & Hjl);
    [done|by apply cstr_drop|rewrite length_drop; lia|].
  rewrite Hj. simpl. rewrite length_drop in Hjl.
  rewrite <- Z.add_assoc, <- Nat2Z.inj_add.
  rewrite (scan_nul_spec fuel m _ (drop (k + j) l));
    [|by apply cstr_drop; [done|lia]|rewrite length_drop; lia].
  simpl. f_equal. rewrite length_drop. lia.
Qed.

(** The word-at-a-time [strlen] agrees with the byte loop [kstrlen]: on every
    terminated string both return the number of characters before the zero
    byte, whatever the alignment of the pointer. *)
Lemma strlen_equiv_kstrlen (fuel : nat) (m : mem) (a : Z) (l : list Z)
    (Hm : mem_ok m) (Hs : cstr m a l) (Ha : a <> NULL) (Hf : (length l < fuel)%nat) :
  strlen fuel m a = kstrlen fuel m a /\ strlen fuel m a = Ok (Z.of_nat (length l)).
Proof.
  rewrite (strlen_spec fuel m a l) by done. split; [|done].
  unfold kstrlen. destruct (Z.eqb_spec a NULL); [done|].
  rewrite (scan_nul_spec fuel m a l) by done. simpl. f_equal. lia.
Qed.

Lemma strlen_equiv_kstrlen_witness :
  let m := fun a => if between 1003 a 1024 then 65 else 0 in
  strlen 30 m 1003 = kstrlen 30 m 1003 /\ strlen 30 m 1003 = Ok 21.
Proof.
  apply (strlen_equiv_kstrlen 30 (fun a => if between 1003 a 1024 then 65 else 0) 1003
           (replicate 21 65)).
  - intros a. destr_cmp; lia.
  - repeat split; discriminate.
  - discriminate.
  - vm_compute. lia.
Defined.

(** ** Comparison *)

Lemma strcmp_spec fuel m a b l l' :
  cstr m a l -> cstr m b l' -> (length l < fuel)%nat ->
  exists v, strcmp fuel m a b = Ok v /\ (v = 0 <-> l = l').
Proof.
  revert a b l l'. induction fuel as [|f IH]; intros a b l l' H1 H2 Hf; [lia|]. cbn [strcmp].
  destruct l as [|c l], l' as [|c' l']; simpl in H1, H2, Hf;
    try destruct H1 as (-> & Hc & H1); try destruct H2 as (-> & Hc' & H2);
    try rewrite H1; try rewrite H2; repeat (destr_cmp; try done); cbn [andb negb].
  - eexists. split; [done|]. done.
  - eexists. split; [done|]. split; [lia|done].
  - eexists. split; [done|]. split; [lia|done].
  - subst c'. destruct (IH (a + 1) (b + 1) l l') as (v & Hv & Heq); [done|done|lia|].
    exists v. split; [done|]. rewrite Heq. split; [by intros ->|congruence].
  - eexists. split; [done|]. split; [lia|congruence].
Qed.

(** [strncmp]'s byte loop decides equality of the first [n] characters. *)
Definition nprefix (n : nat) (l : list Z) : list Z := take n l.

Lemma strncmp_bytes_spec n m a b l l' :
  cstr m a l -> cstr m b l' -> (0 < n)%nat ->
  strncmp_bytes n m a b = 0 <-> nprefix n l = nprefix n l'.
Proof.
  unfold nprefix. revert a b l l'. induction n as [|n IH]; intros a b l l' H1 H2 Hn; [lia|].
  cbn [strncmp_bytes].
  destruct l as [|c l], l' as [|c' l']; simpl in H1, H2;
    try destruct H1 as (-> & Hc & H1); try destruct H2 as (-> & Hc' & H2);
    try rewrite H1; try rewrite H2.
  - rewrite orb_true_r. done.
  - destruct (Z.eqb_spec 0 c'); [done|]. simpl. split; [lia|done].
  - destruct (Z.eqb_spec c 0); [done|]. simpl. split; [lia|done].
  - destruct (Z.eqb_spec c c') as [->|Hne].
    + destruct (Z.eqb_spec c' 0); [done|]. rewrite orb_false_r.
      destruct (Nat.eqb_spec n 0) as [->|Hn0]; [done|].
      rewrite (IH _ _ l l') by (done || lia). simpl. split; [by intros ->|congruence].
    + simpl. split; [lia|congruence].
Qed.

Lemma load_le_inj n m a b : mem_ok m ->
  load_le n m a = load_le n m b <-> (forall i, 0 <= i < Z.of_nat n -> m (a + i) = m (b + i)).
Proof.
  intros Hm. split.
  - intros H i Hi. rewrite <- (load_le_byte n m a i), <- (load_le_byte n m b i) by done.
    by rewrite H.
  - revert a b. induction n as [|n IH]; intros a b H; [done|]. cbn [load_le].
    rewrite (IH (a + 1) (b + 1)).
    2: { intros i Hi. specialize (H (i + 1) ltac:(lia)).
         by replace (a + 1 + i) with (a + (i + 1)) by lia; replace (b + 1 + i) with (b + (i + 1)) by lia. }
    specialize (H 0 ltac:(lia)). rewrite !Z.add_0_r in H. by rewrite H.
Qed.

(** Two strings that agree on [k] non-zero characters have the same prefix. *)
Lemma cstr_same_prefix m a b l l' k :
  cstr m a l -> cstr m b l' -> (k <= length l)%nat ->
  (forall i, 0 <= i < Z.of_nat k -> m (a + i) = m (b + i)) ->
  (k <= length l')%nat /\ take k l = take k l'.
Proof.
  revert a b l l'. induction k as [|k IH]; intros a b l l' H1 H2 Hk H; [split; [lia|done]|].
  destruct l as [|c l]; simpl in Hk; [lia|]. destruct H1 as (Hc & Hc0 & H1).
  pose proof (H 0 ltac:(lia)) as H0. rewrite !Z.add_0_r in H0.
  destruct l' as [|c' l']; simpl in H2; [congruence|]. destruct H2 as (Hc' & _ & H2).
  destruct (IH (a + 1) (b + 1) l l') as [Hl Ht]; [done|done|lia| |].
  { intros i Hi. specialize (H (i + 1) ltac:(lia)).
    by replace (a + 1 + i) with (a + (i + 1)) by lia; replace (b + 1 + i) with (b + (i + 1)) by lia. }
  simpl. split; [lia|]. f_equal; congruence.
Qed.

(** The equality the word loop of [strncmp] has established after [k] words,
    phrased on the rest of the strings. *)
Lemma nprefix_drop k n l l' :
  take k l = take k l' -> (k <= length l)%nat -> (k <= length l')%nat ->
  nprefix n (drop k l) = nprefix n (drop k l') <-> nprefix (k + n) l = nprefix (k + n) l'.
Proof.
  unfold nprefix. intros Hk H1 H2.
  rewrite !(take_drop_commute).
  split.
  - intros H. rewrite <- (take_drop k (take (k + n) l)), <- (take_drop k (take (k + n) l')).
    rewrite H, !take_take, Nat.min_l, Hk by lia. done.
  - by intros ->.
Qed.

Lemma strncmp_words_spec fuel m a b l l' n :
  mem_ok m -> cstr m a l -> cstr m b l' -> 0 < n -> (length l < fuel)%nat ->
  exists r, strncmp_words fuel m a b n = Ok r /\
    match r with
    | inl v => v = 0 /\ nprefix (Z.to_nat n) l = nprefix (Z.to_nat n) l'
    | inr (a', b', n') => exists k,
        a' = a + Z.of_nat k /\ b' = b + Z.of_nat k /\ n' = n - Z.of_nat k /\ 0 < n' /\
        (k <= length l)%nat /\ (k <= length l')%nat /\ take k l = take k l'
    end.
Proof.
  intros Hm. revert a b l l' n. induction fuel as [|f IH]; intros a b l l' n H1 H2 Hn Hf; [lia|].
  cbn [strncmp_words].
  destruct (Z.leb_spec 8 n) as [H8|H8], (Z.eqb_spec (load64 m a) (load64 m b)) as [He|He]; cbn [andb].
  2-4: eexists; split; [done|]; exists O; split_and!; lia || done.
  pose proof (proj1 (load_le_inj 8 m a b Hm) He) as Hbytes.
  destruct (Z.eqb_spec (DETECTNULL (load64 m a)) 0) as [Hd|Hd].
  - rewrite (DETECTNULL_load m a Hm) in Hd.
    assert (8 <= length l)%nat as Hlen.
    { destruct (le_lt_dec 8 (length l)) as [|Hlt]; [done|].
      exfalso. apply (Hd (Z.of_nat (length l)) ltac:(lia)). by apply cstr_end. }
    destruct (cstr_same_prefix m a b l l' 8 H1 H2 Hlen Hbytes) as [Hlen' Ht].
    cbn [negb]. rewrite orb_false_r. destruct (Z.eqb_spec (n - 8) 0) as [Hz|Hz].
    { exists (inl 0). split; [done|]. replace (Z.to_nat n) with 8%nat by lia. done. }
    destruct (IH (a + Z.of_nat 8) (b + Z.of_nat 8) (drop 8 l) (drop 8 l') (n - 8)) as (r & Hr & Hp);
      [by apply cstr_drop|by apply cstr_drop|lia|rewrite length_drop; lia|].
    exists r. split; [done|]. destruct r as [v|[[a' b'] n']].
    + destruct Hp as [-> Hp]. split; [done|].
      rewrite nprefix_drop in Hp by done. by replace (Z.to_nat n) with (8 + Z.to_nat (n - 8))%nat by lia.
    + destruct Hp as (k & -> & -> & -> & ? & Hk & Hk' & Htk). rewrite !length_drop in *.
      exists (8 + k)%nat. split_and!; try lia.
      pose proof (nprefix_drop 8 k l l' Ht Hlen Hlen') as HX. unfold nprefix in HX. by apply HX.
  - rewrite orb_true_r. exists (inl 0). split; [done|]. split; [done|].
    (* the word holds the end of both strings, which agree up to it *)
    assert (length l < 8)%nat as Hlt.
    { destruct (le_lt_dec 8 (length l)) as [Hle|]; [|done]. exfalso. apply Hd.
      apply (DETECTNULL_load m a Hm). intros i Hi. apply (cstr_nonzero m a l); [done|lia]. }
    destruct (cstr_same_prefix m a b l l' (length l) H1 H2 ltac:(lia)) as [Hle Ht].
    { intros i Hi. apply Hbytes. lia. }
    rewrite firstn_all in Ht.
    assert (length l' = length l) as Hll.
    { destruct (le_lt_dec (length l') (length l)); [lia|].
      exfalso. apply (cstr_nonzero m b l' (Z.of_nat (length l)) H2 ltac:(lia)).
      rewrite <- Hbytes by lia. by apply cstr_end. }
    rewrite <- Hll, firstn_all in Ht. by subst.
Qed.

(** [strncmp] returns 0 exactly when the first [n] characters of the two
    strings agree (a shorter string ends the comparison), on the word path as
    on the byte path, for every alignment and every count. *)
Theorem strncmp_correct (fuel : nat) (m : mem) (a b n : Z) (l l' : list Z)
    (Hm : mem_ok m) (H1 : cstr m a l) (H2 : cstr m b l') (Hn : 0 <= n)
    (Hf : (length l < fuel)%nat) :
  exists v, strncmp fuel m a b n = Ok v /\
    (v = 0 <-> nprefix (Z.to_nat n) l = nprefix (Z.to_nat n) l').
Proof.
  unfold strncmp. destruct (Z.eqb_spec n 0) as [->|Hn0]; [by exists 0|].
  destruct (Z.lor (Z.land a 7) (Z.land b 7) =? 0).
  - destruct (strncmp_words_spec fuel m a b l l' n) as (r & Hr & Hp); [done..|lia|done|].
    rewrite Hr. simpl. destruct r as [v|[[a' b'] n']].
    + destruct Hp as [-> Hp]. exists 0. done.
    + destruct Hp as (k & -> & -> & -> & ? & Hk & Hk' & Htk). eexists. split; [done|].
      rewrite (strncmp_bytes_spec _ m _ _ (drop k l) (drop k l'));
        [|by apply cstr_drop|by apply cstr_drop|lia].
      rewrite nprefix_drop by done. by replace (k + Z.to_nat (n - Z.of_nat k))%nat with (Z.to_nat n) by lia.
  - simpl. eexists. split; [done|]. apply strncmp_bytes_spec; [done|done|lia].
Qed.

Lemma strncmp_correct_witness :
  let m := fun a => if between 1000 a 1012 then 65 else if between 2000 a 2010 then 65 else 0 in
  exists v, strncmp 30 m 1000 2000 10 = Ok v /\
    (v = 0 <-> nprefix 10 (replicate 12 65) = nprefix 10 (replicate 10 65)).
Proof.
  apply (strncmp_correct 30 _ 1000 2000 10 (replicate 12 65) (replicate 10 65)).
  - intros a. repeat destr_cmp; lia.
  - repeat split; discriminate.
  - repeat split; discriminate.
  - lia.
  - vm_compute. lia.
Defined.

(** ** Bounded copy *)

(** [n] bytes of [m] at [src] copied to [dst]. *)
Definition copied (m : mem) (dst src n : Z) (x : Z) : Z :=
  if between dst x (dst + n) then m (src + (x - dst)) else m x.

(** The two ranges do not meet. *)
Definition apart (a n b k : Z) : Prop := a + n <= b \/ b + k <= a.

Lemma strncpy_bytes_spec n m dst src l :
  mem_ok m -> cstr m src l -> apart dst (Z.of_nat n) src (Z.of_nat (length l) + 1) ->
  let k := Z.min (Z.of_nat n) (Z.of_nat (length l) + 1) in
  exists m' c, strncpy_bytes n m dst src = (m', dst + k, c) /\ Z.of_nat c = Z.of_nat n - k /\
    mem_ok m' /\ forall x, m' x = copied m dst src k x.
Proof.
  unfold apart, copied. revert m dst src l. induction n as [|n IH]; intros m dst src l Hm Hs Hd; cbn [strncpy_bytes].
  { exists m, O. split_and!; [f_equal; f_equal; lia|lia|done|]. intros x. destr_cmp; [lia|done]. }
  rewrite store8_eq, wrap8_small by apply Hm.
  destruct l as [|c l]; simpl in Hs.
  { rewrite Hs, Z.eqb_refl. cbn [length] in *. exists (store8 m dst 0), n.
    split_and!; [f_equal; f_equal; lia|lia|auto with willow|]. intros x.
    replace (Z.min _ _) with 1 by lia. destr_cmp.
    - replace x with dst by lia. rewrite store8_eq, Z.sub_diag, Z.add_0_r, Hs. done.
    - by rewrite store8_ne by lia. }
  destruct Hs as (Hc & Hc0 & Hs). rewrite Hc. destruct (Z.eqb_spec c 0); [done|]. cbn [length] in *.
  set (m1 := store8 m dst c).
  destruct (IH m1 (dst + 1) (src + 1) l) as (m' & c' & -> & Hc' & Hok & Hx).
  - unfold m1. auto with willow.
  - apply (cstr_ext m); [|done]. intros x Hx. unfold m1. apply store8_ne. lia.
  - lia.
  - exists m', c'. split_and!; [f_equal; f_equal; lia|lia|done|]. intros x. rewrite Hx. unfold m1.
    pose proof (Hm src). repeat destr_cmp; try lia.
    + rewrite store8_ne by lia. f_equal. lia.
    + replace x with dst by lia. rewrite store8_eq, Z.sub_diag, Z.add_0_r, Hc. apply wrap8_small. lia.
    + apply store8_ne. lia.
Qed.

Lemma strncpy_words_spec fuel m dst src l n :
  mem_ok m -> cstr m src l -> apart dst n src (Z.of_nat (length l) + 1) -> (length l < fuel)%nat -> 0 <= n ->
  exists m' k, strncpy_words fuel m dst src n = Ok (m', dst + Z.of_nat k, src + Z.of_nat k, n - Z.of_nat k) /\
    (k <= length l)%nat /\ Z.of_nat k <= n /\ mem_ok m' /\ forall x, m' x = copied m dst src (Z.of_nat k) x.
Proof.
  unfold apart, copied. revert m dst src l n. induction fuel as [|f IH]; intros m dst src l n Hm Hs Hd Hf Hn; [lia|].
  cbn [strncpy_words]. destruct ((8 <=? n) && (DETECTNULL (load64 m src) =? 0)) eqn:E.
  2: { exists m, O. split_and!; [f_equal; f_equal; [f_equal; [f_equal|]|]; lia|lia|lia|done|].
       intros x. destr_cmp; [lia|done]. }
  apply andb_true_iff in E as [E1 E2]. apply Z.leb_le in E1. apply Z.eqb_eq in E2.
  rewrite DETECTNULL_load in E2 by done.
  assert (8 <= length l)%nat as H8.
  { destruct (decide (8 <= length l)%nat); [done|]. destruct (E2 (Z.of_nat (length l))); [lia|]. by apply cstr_end. }
  set (m1 := store64 m dst (load64 m src)).
  destruct (IH m1 (dst + 8) (src + 8) (drop 8 l) (n - 8)) as (m' & k & -> & Hk & Hkn & Hok & Hx).
  - unfold m1. auto with willow.
  - apply (cstr_ext m); [|by apply (cstr_drop m src l 8)]. intros x Hx. rewrite length_drop in Hx.
    unfold m1. apply (store_le_outside 8). lia.
  - rewrite length_drop. lia.
  - rewrite length_drop. lia.
  - lia.
  - rewrite length_drop in Hk. exists m', (8 + k)%nat. split_and!; [|lia|lia|done|].
    { f_equal. f_equal; [f_equal; [f_equal|]|]; lia. }
    intros x. rewrite Hx. unfold m1. rewrite !store64_load64 by done. repeat destr_cmp; try lia; f_equal; lia.
Qed.

(** The word loop and the byte loop of [strncpy] copy the string. *)
Lemma strncpy_spec fuel m dst src l n :
  mem_ok m -> cstr m src l -> 0 <= n -> apart dst n src (Z.of_nat (length l) + 1) -> (length l < fuel)%nat ->
  exists m', strncpy fuel m dst src n = Ok m' /\ mem_ok m' /\
    forall x, m' x = if between dst x (dst + n)
                     then if x - dst <? Z.of_nat (length l) then m (src + (x - dst)) else 0
                     else m x.
Proof.
  intros Hm Hs Hn Hd Hf. unfold strncpy.
  assert (exists m1 k, (if (Z.lor (Z.land src 7) (Z.land dst 7) =? 0) && negb (n <? 8)
            then strncpy_words fuel m dst src n else Ok (m, dst, src, n))
          = Ok (m1, dst + Z.of_nat k, src + Z.of_nat k, n - Z.of_nat k) /\ (k <= length l)%nat /\
          Z.of_nat k <= n /\ mem_ok m1 /\ forall x, m1 x = copied m dst src (Z.of_nat k) x)
    as (m1 & k & -> & Hk & Hkn & Hok1 & Hx1).
  { destruct (_ && _); [by eapply strncpy_words_spec|]. exists m, O. unfold copied.
    split_and!; [f_equal; f_equal; [f_equal; [f_equal|]|]; lia|lia|lia|done|]. intros x. destr_cmp; [lia|done]. }
  cbn [mbind outcome_bind]. unfold apart, copied in *.
  destruct (strncpy_bytes_spec (Z.to_nat (n - Z.of_nat k)) m1 (dst + Z.of_nat k) (src + Z.of_nat k) (drop k l))
    as (m2 & c & -> & Hc & Hok2 & Hx2); [done| |unfold apart; rewrite length_drop; lia|].
  { apply (cstr_ext m); [|by apply cstr_drop]. intros x Hx. rewrite length_drop in Hx. rewrite Hx1.
    destr_cmp; [lia|done]. }
  rewrite length_drop in *. set (k2 := Z.min _ _) in *.
  eexists. split; [done|]. split; [by apply memset_ok|]. intros x.
  assert (m (src + Z.of_nat (length l)) = 0) as Hend by by apply cstr_end.
  destruct (decide (dst + Z.of_nat k + k2 <= x < dst + Z.of_nat k + k2 + Z.of_nat c)).
  - rewrite memset_in by done. repeat destr_cmp; (lia || done).
  - rewrite memset_out by done. rewrite Hx2. unfold copied. repeat destr_cmp; try lia.
    + rewrite Hx1. destr_cmp; [lia|]. f_equal. lia.
    + rewrite Hx1. destr_cmp; [lia|]. rewrite <- Hend. f_equal. lia.
    + rewrite Hx1. destr_cmp; [done|lia].
    + rewrite Hx1. destr_cmp; [lia|]. done.
Qed.

(** The whole string: [strncpy(dst, src, strlen(src) + 1)]. *)
Lemma strncpy_whole fuel m dst src l :
  mem_ok m -> cstr m src l -> apart dst (Z.of_nat (length l) + 1) src (Z.of_nat (length l) + 1) ->
  (length l < fuel)%nat ->
  exists m', strncpy fuel m dst src (Z.of_nat (length l) + 1) = Ok m' /\ mem_ok m' /\ cstr m' dst l /\
    same_outside m m' dst (Z.of_nat (length l) + 1).
Proof.
  intros Hm Hs Hd Hf. destruct (strncpy_spec fuel m dst src l (Z.of_nat (length l) + 1)) as (m' & -> & Hok & Hx);
    [done|done|lia|done|done|].
  exists m'. split_and!; [done..| |].
  - apply cstr_of_bytes.
    + transitivity (bytes_at m src (length l)); [|by apply cstr_bytes_at].
      apply (nth_ext _ _ 0 0); rewrite !length_bytes_at; [done|]. intros i Hi.
      rewrite !nth_lookup, !bytes_at_lookup by done. simpl. rewrite Hx. repeat destr_cmp; try lia. f_equal. lia.
    + rewrite Hx. repeat destr_cmp; (lia || done).
    + apply Forall_forall. intros c Hc. apply list_elem_of_In, list_elem_of_lookup in Hc as [i Hi].
      pose proof (lookup_lt_Some _ _ _ Hi). rewrite <- (cstr_bytes_at m src l Hs) in Hi.
      rewrite bytes_at_lookup in Hi by done. injection Hi as <-. apply (cstr_nonzero m src l); [done|lia].
  - intros x Hout. rewrite Hx. destr_cmp; [lia|done].
Qed.
