(* ===== verification/Words.v ===== *)
(** * Periods and maximal suffixes of words

    The combinatorics behind the two-way search of str-two-way.h. A word is the
    first [n] values of a function [x]. A suffix is given by its start. The
    file proves the invariant of the maximal-suffix loop of
    [critical_factorization], and the critical factorization theorem for the
    position the function returns. *)

From S2P Require Import Prelude.

Section Words.
Context (x : Z -> Z) (n : Z).

(** The suffix at [s] is smaller than the suffix at [c], by the first place where they differ. *)
Definition below (s c : Z) : Prop :=
  exists t, 0 <= t /\ s + t < n /\ c + t < n /\ x (s + t) < x (c + t) /\
    forall u, 0 <= u < t -> x (s + u) = x (c + u).

(** The suffix at [s] is a prefix of the suffix at [c]. *)
Definition border (s c : Z) : Prop := forall t, 0 <= t -> s + t < n -> x (s + t) = x (c + t).

(** The suffix at [c] is the largest. *)
Record maximal (c : Z) : Prop := {
  mx_range : 0 <= c < n;
  mx_left : forall s, 0 <= s < c -> below s c;
  mx_right : forall s, c < s < n -> below s c \/ border s c
}.

(** [p] is a period of the suffix at [c]. *)
Definition period_from (c p : Z) : Prop := forall k, c <= k -> k + p < n -> x k = x (k + p).

(** No smaller number is one. *)
Definition least_period (c p : Z) : Prop :=
  1 <= p /\ period_from c p /\ forall q, 1 <= q < p -> ~ period_from c q.

Lemma below_trans s c d : s < c -> below s c -> below c d -> below s d.
Proof.
  intros Hlt (t & H0 & H1 & H2 & H3 & H4) (u & H5 & H6 & H7 & H8 & H9).
  destruct (Z.lt_trichotomy t u) as [H| [-> |H]].
  - exists t. split_and!; [lia|lia|lia| |intros v Hv; rewrite H4, H9 by lia; done]. rewrite <- H9 by lia. done.
  - exists u. split_and!; [lia|lia|lia|lia|intros v Hv; rewrite H4, H9 by lia; done].
  - exists u. split_and!; [lia|lia|lia| |intros v Hv; rewrite H4, H9 by lia; done]. rewrite H4 by lia. done.
Qed.

(** ** The loop of the maximal suffix

    [c] is the candidate, [p] the period of what has been read from it on,
    [mult] and [i] how much that is: [c + mult * p + i] values of the word have been read. *)
Record scan (c p mult i : Z) : Prop := {
  sc_range : 0 <= c /\ 1 <= p /\ 1 <= mult /\ 0 <= i < p /\ c + mult * p + i <= n;
  sc_period : forall t, 0 <= t < mult * p + i -> x (c + t) = x (c + t mod p);
  sc_factor : forall s, 0 < s < p -> exists t, 0 <= t /\ s + t < p /\ x (c + s + t) < x (c + t) /\
    forall u, 0 <= u < t -> x (c + s + u) = x (c + u);
  sc_left : forall s, 0 <= s < c -> below s c
}.

Lemma scan_init : 1 <= n -> scan 0 1 1 0.
Proof.
  intros Hn. split; [lia| |intros; lia|intros; lia]. intros t Ht. by replace t with 0 by lia.
Qed.

Lemma mult_mod p q r : 0 <= r < p -> (q * p + r) mod p = r.
Proof. intros H. rewrite Z.add_comm, Z.mod_add by lia. by apply Z.mod_small. Qed.

(** The value at a place given by its period and its offset. *)
Lemma scan_at c p mult i q r : scan c p mult i -> 0 <= q -> 0 <= r < p -> q * p + r < mult * p + i -> x (c + (q * p + r)) = x (c + r).
Proof. intros H Hq Hr Hlt. rewrite (sc_period _ _ _ _ H) by nia. by rewrite mult_mod. Qed.

(** [a == b], inside a period and at its end. *)
Lemma scan_equal c p mult i :
  scan c p mult i -> c + mult * p + i < n -> x (c + mult * p + i) = x (c + i) ->
  if decide (i + 1 = p) then scan c p (mult + 1) 0 else scan c p mult (i + 1).
Proof.
  intros [(H1 & H2 & H3 & H4 & H5) Hp Hf Hl] Hn E.
  assert (forall t, 0 <= t < mult * p + (i + 1) -> x (c + t) = x (c + t mod p)) as Hp'.
  { intros t Ht. destruct (decide (t = mult * p + i)) as [-> |]; [|apply Hp; lia].
    rewrite mult_mod, Z.add_assoc by done. done. }
  case_decide as Hi; (split; [nia| |done|done]); intros t Ht; apply Hp'; nia.
Qed.

(** [a < b]: all that has been read is one period. *)
Lemma scan_smaller c p mult i :
  scan c p mult i -> c + mult * p + i < n -> x (c + mult * p + i) < x (c + i) -> scan c (mult * p + i + 1) 1 0.
Proof.
  intros Hs Hn Hlt. pose proof Hs as [(H1 & H2 & H3 & H4 & H5) Hp Hf Hl]. split; [nia| | |done].
  { intros t Ht. by rewrite Z.mod_small by lia. }
  intros s Hs'. set (q := s / p). set (r := s mod p).
  assert (s = q * p + r /\ 0 <= r < p /\ 0 <= q) as (Es & Hr & Hq).
  { pose proof (Z.div_mod s p). pose proof (Z.mod_pos_bound s p). pose proof (Z.div_pos s p). unfold q, r. nia. }
  clearbody q r. subst s. replace (c + (q * p + r)) with (c + q * p + r) by lia.
  assert (forall u, 0 <= u -> r + u < p -> q * p + r + u < mult * p + i -> x (c + q * p + r + u) = x (c + (r + u))) as Hat.
  { intros u Hu Hru Hlt'. rewrite <- (scan_at c p mult i q (r + u)) by (done || lia). f_equal. lia. }
  destruct (decide (r = 0)) as [-> |Hr0].
  - assert (1 <= q <= mult) by nia. exists ((mult - q) * p + i).
    assert (forall u, 0 <= u < (mult - q) * p + i -> x (c + q * p + 0 + u) = x (c + u)) as Hu.
    { intros u Hu. rewrite (Hp u) by nia. replace (c + q * p + 0 + u) with (c + (q * p + u)) by lia. rewrite Hp by nia.
      f_equal. f_equal. rewrite Z.add_comm. apply Z.mod_add. lia. }
    split_and!; [nia|nia| |done]. replace (c + q * p + 0 + _) with (c + mult * p + i) by lia.
    rewrite (scan_at c p mult i (mult - q) i) by (done || nia). done.
  - destruct (Hf r) as (t & Ht0 & Ht1 & Ht2 & Ht3); [lia|].
    destruct (Z.lt_ge_cases (q * p + r + t) (mult * p + i)) as [Hin|Hout].
    + exists t. split_and!; [lia|lia| |].
      * rewrite Hat by lia. by rewrite Z.add_assoc.
      * intros u Hu. rewrite Hat by lia. rewrite Z.add_assoc. apply Ht3. lia.
    + assert (q = mult) as -> by nia. exists (i - r). split_and!; [lia|lia| |].
      * replace (c + mult * p + r + (i - r)) with (c + mult * p + i) by lia.
        destruct (decide (i - r = t)) as [<- |].
        -- replace (c + r + (i - r)) with (c + i) in Ht2 by lia. lia.
        -- specialize (Ht3 (i - r) ltac:(lia)). replace (c + r + (i - r)) with (c + i) in Ht3 by lia. lia.
      * intros u Hu. rewrite Hat by lia. rewrite Z.add_assoc. apply Ht3. lia.
Qed.

(** A suffix inside what has been read is below the one that starts after the last
    whole period, when the value read is larger. *)
Lemma scan_below_next c p mult i s :
  scan c p mult i -> c + mult * p + i < n -> x (c + i) < x (c + mult * p + i) -> 0 <= s < mult * p ->
  below (c + s) (c + mult * p).
Proof.
  intros Hs Hn Hlt Hsr. pose proof Hs as [(H1 & H2 & H3 & H4 & H5) Hp Hf Hl].
  set (q := s / p). set (r := s mod p).
  assert (s = q * p + r /\ 0 <= r < p /\ 0 <= q) as (Es & Hr & Hq).
  { pose proof (Z.div_mod s p). pose proof (Z.mod_pos_bound s p). pose proof (Z.div_pos s p). unfold q, r. nia. }
  clearbody q r. subst s. assert (q + 1 <= mult) by nia.
  assert (forall u, 0 <= u -> r + u < p -> x (c + (q * p + r) + u) = x (c + (r + u))) as Hat.
  { intros u Hu Hru. rewrite <- (scan_at c p mult i q (r + u)) by (done || nia). f_equal. lia. }
  assert (forall u, 0 <= u < i -> x (c + mult * p + u) = x (c + u)) as Hnext.
  { intros u Hu. rewrite <- Z.add_assoc. apply (scan_at c p mult i); (done || lia). }
  assert (exists t, 0 <= t <= i /\ r + t < p /\ (forall u, 0 <= u < t -> x (c + (r + u)) = x (c + u)) /\
      (t < i -> x (c + (r + t)) < x (c + t)) /\ x (c + (r + t)) <= x (c + t)) as (t & Ht & Hrt & Heq & Hlt1 & Hle).
  { destruct (decide (r = 0)) as [-> |Hr0]; [exists i; split_and!; (lia || done)|].
    destruct (Hf r) as (t & Ht0 & Ht1 & Ht2 & Ht3); [lia|]. rewrite <- Z.add_assoc in Ht2.
    assert (forall u, 0 <= u < t -> x (c + (r + u)) = x (c + u)) as Ht3' by (intros; rewrite Z.add_assoc; by apply Ht3).
    destruct (Z.le_gt_cases t i).
    - exists t. split_and!; (lia || done).
    - exists i. split_and!; try lia; [intros; apply Ht3'; lia|]. rewrite Ht3' by lia. lia. }
  exists t. split_and!; [lia|nia|nia| |].
  - rewrite Hat by lia. destruct (decide (t = i)) as [-> |]; [lia|]. rewrite Hnext by lia. apply Hlt1. lia.
  - intros u Hu. rewrite Hat, Hnext by lia. by apply Heq.
Qed.

(** [a > b]: the candidate moves. *)
Lemma scan_larger c p mult i :
  scan c p mult i -> c + mult * p + i < n -> x (c + i) < x (c + mult * p + i) -> scan (c + mult * p) 1 1 0.
Proof.
  intros Hs Hn Hlt. pose proof Hs as [(H1 & H2 & H3 & H4 & H5) Hp Hf Hl]. split; [nia| |intros; lia|].
  { intros t Ht. by replace t with 0 by lia. }
  intros s Hs'. destruct (Z.lt_ge_cases s c).
  - apply (below_trans s c); [done|apply Hl; lia|]. rewrite <- (Z.add_0_r c) at 1. apply (scan_below_next c p mult i); (done || nia).
  - replace s with (c + (s - c)) by lia. apply (scan_below_next c p mult i); (done || lia).
Qed.

(** The whole word has been read: the candidate is the largest suffix and [p] its least period. *)
Lemma scan_end c p mult i : scan c p mult i -> c + mult * p + i = n -> maximal c /\ least_period c p /\ c + p <= n.
Proof.
  intros Hs Hn. pose proof Hs as [(H1 & H2 & H3 & H4 & H5) Hp Hf Hl]. split_and!; [split; [nia|done|]| |nia].
  - intros s Hsr. set (q := (s - c) / p). set (r := (s - c) mod p).
    assert (s = c + (q * p + r) /\ 0 <= r < p /\ 0 <= q) as (Es & Hr & Hq).
    { pose proof (Z.div_mod (s - c) p). pose proof (Z.mod_pos_bound (s - c) p). pose proof (Z.div_pos (s - c) p). unfold q, r. nia. }
    clearbody q r. subst s.
    assert (forall u, 0 <= u -> r + u < p -> q * p + r + u < mult * p + i -> x (c + (q * p + r) + u) = x (c + (r + u))) as Hat.
    { intros u Hu Hru Hlt'. rewrite <- (scan_at c p mult i q (r + u)) by (done || lia). f_equal. lia. }
    destruct (decide (r = 0)) as [-> |Hr0].
    { right. intros t Ht Hlt. rewrite Z.add_0_r in *. rewrite <- Z.add_assoc, (Hp (q * p + t)), (Hp t) by nia.
      f_equal. f_equal. rewrite Z.add_comm. apply Z.mod_add. lia. }
    destruct (Hf r) as (t & Ht0 & Ht1 & Ht2 & Ht3); [lia|].
    destruct (Z.lt_ge_cases (c + (q * p + r) + t) n) as [Hin|Hout]; [left|right].
    + exists t. split_and!; [lia|lia|lia| |].
      * rewrite Hat by lia. by rewrite Z.add_assoc.
      * intros u Hu. rewrite Hat by lia. rewrite Z.add_assoc. by apply Ht3.
    + intros u Hu Hlt. rewrite Hat by lia. rewrite Z.add_assoc. apply Ht3. lia.
  - split_and!; [lia| |].
    + intros k Hk Hlt. replace k with (c + (k - c)) by lia. rewrite <- Z.add_assoc, (Hp (k - c)), (Hp (k - c + p)) by nia.
      f_equal. f_equal. rewrite <- (Z.mod_add (k - c) 1 p) by lia. f_equal. lia.
    + intros q Hq Hper. destruct (Hf q) as (t & Ht0 & Ht1 & Ht2 & _); [lia|].
      specialize (Hper (c + t) ltac:(lia) ltac:(nia)). replace (c + t + q) with (c + q + t) in Hper by lia. lia.
Qed.

(** ** Repetitions at a position *)

(** The word of length [r] that ends before [l] is the one that starts at [l], as far
    as both lie in the word. *)
Definition repeats (l r : Z) : Prop := forall k, 0 <= k < l -> l <= k + r < n -> x k = x (k + r).

Lemma period_repeats l r : period_from 0 r -> repeats l r.
Proof. intros H k Hk Hr. apply H; lia. Qed.

(** A repetition at the largest suffix is longer than the part before it. *)
Lemma maximal_repeats_longer l r : maximal l -> 1 <= r -> repeats l r -> l < r.
Proof.
  intros [Hl Hleft Hright] Hr Hrep. destruct (Z.lt_ge_cases l r) as [|Hge]; [done|exfalso].
  destruct (Hleft (l - r)) as (t & Ht & H1 & H2 & Hlt & Heq); [lia|].
  destruct (Z.lt_ge_cases t r) as [Htr|Htr].
  { specialize (Hrep (l - r + t) ltac:(lia) ltac:(lia)). replace (l - r + t + r) with (l + t) in Hrep by lia. lia. }
  assert (forall u, l - r + (r + u) = l + u) as Ea by lia. assert (forall u, l + (r + u) = l + r + u) as Eb by lia.
  replace t with (r + (t - r)) in Hlt by lia. rewrite Ea, Eb in Hlt.
  assert (forall u, 0 <= u < t - r -> x (l + u) = x (l + r + u)) as Heq'.
  { intros u Hu. specialize (Heq (r + u) ltac:(lia)). by rewrite Ea, Eb in Heq. }
  destruct (Hright (l + r)) as [(t' & Ht' & H3 & H4 & Hlt' & Heq2)|Hb]; [lia| |].
  - destruct (Z.lt_trichotomy t' (t - r)) as [H| [-> |H]]; [rewrite Heq' in Hlt'; lia|lia|].
    specialize (Heq2 (t - r) ltac:(lia)). lia.
  - specialize (Hb (t - r) ltac:(lia) ltac:(lia)). lia.
Qed.

(** Reduction of a repetition by a period of the right part. *)
Lemma repeats_reduce l r q :
  0 <= l -> l <= r -> l + r <= n -> repeats l r -> 1 <= q -> period_from l q ->
  repeats l ((r - 1) mod q + 1).
Proof.
  intros Hl Hlr Hrn Hrep Hq Hper k Hk Hkr. set (r' := (r - 1) mod q + 1) in *.
  assert (exists d, 0 <= d /\ r = r' + d * q) as (d & Hd & Er).
  { exists ((r - 1) / q). split; [apply Z.div_pos; lia|]. unfold r'. pose proof (Z.div_mod (r - 1) q ltac:(lia)). lia. }
  clearbody r'. rewrite Hrep by lia. rewrite Er in *. clear Hrep Er Hlr. revert Hrn.
  cut (forall e, 0 <= e -> k + (r' + e * q) < n -> x (k + (r' + e * q)) = x (k + r')).
  { intros H Hrn. apply H; lia. }
  intros e He. pattern e. apply natlike_ind; [|clear e He|done].
  - intros _. f_equal. lia.
  - intros e He IH Hlt. rewrite <- IH by nia. symmetry.
    replace (k + (r' + Z.succ e * q)) with (k + (r' + e * q) + q) by lia. apply Hper; nia.
Qed.

End Words.

(** ** The critical factorization theorem *)

Lemma maximal_neg x n c : maximal x n c -> maximal (fun k => - - x k) n c.
Proof.
  assert (forall s, below x n s c -> below (fun k => - - x k) n s c) as Hb.
  { intros s (t & H1 & H2 & H3 & H4 & H5). exists t. split_and!; [done..|lia|]. intros u Hu. by rewrite H5. }
  intros [H1 H2 H3]. split; [done|intros; by apply Hb, H2|]. intros s Hs. destruct (H3 s Hs) as [H|H]; [by left; apply Hb|].
  right. intros t Ht Hn. by rewrite H.
Qed.

Lemma repeats_neg x n l r : repeats x n l r <-> repeats (fun k => - x k) n l r.
Proof. split; intros H k Hk Hr; specialize (H k Hk Hr); cbv beta in *; lia. Qed.

Lemma period_from_neg x n c p : period_from x n c p <-> period_from (fun k => - x k) n c p.
Proof. split; intros H k Hk Hr; specialize (H k Hk Hr); cbv beta in *; lia. Qed.

(** At the later of the largest suffixes for the two orders, every repetition is a period of the
    whole word and longer than the left part. *)
Lemma critical_repeats x n l l' r :
  maximal x n l -> maximal (fun k => - x k) n l' -> l' <= l -> 1 <= r -> repeats x n l r ->
  l < r /\ period_from x n 0 r.
Proof.
  intros Hm Hm' Hle Hr Hrep. pose proof (maximal_repeats_longer x n l r Hm Hr Hrep) as Hlt. split; [done|].
  destruct Hm as [Hl _ Hright]. destruct Hm' as [Hl' _ Hright'].
  intros k Hk Hkn. destruct (Z.lt_ge_cases k l) as [|Hkl]; [apply Hrep; lia|].
  destruct (Hright (l + r)) as [(t & Ht & H1 & H2 & Hx & Heq)|Hb]; [lia| |].
  2: { specialize (Hb (k - l) ltac:(lia) ltac:(lia)). replace (l + r + (k - l)) with (k + r) in Hb by lia.
       by replace (l + (k - l)) with k in Hb by lia. }
  exfalso. assert (forall u, 0 <= u < l - l' + t -> x (l' + r + u) = x (l' + u)) as Heq'.
  { intros u Hu. destruct (Z.lt_ge_cases u (l - l')).
    - symmetry. replace (l' + r + u) with (l' + u + r) by lia. apply Hrep; lia.
    - specialize (Heq (u - (l - l')) ltac:(lia)). by replace (l + r + _) with (l' + r + u) in Heq by lia;
        replace (l + _) with (l' + u) in Heq by lia. }
  replace (l + r + t) with (l' + r + (l - l' + t)) in Hx by lia. replace (l + t) with (l' + (l - l' + t)) in Hx by lia.
  destruct (Hright' (l' + r)) as [(t' & Ht' & H3 & H4 & Hx' & Heq2)|Hb]; [lia| |].
  - destruct (Z.lt_trichotomy t' (l - l' + t)) as [H| [-> |H]]; [rewrite Heq' in Hx'; lia|lia|].
    specialize (Heq2 (l - l' + t) ltac:(lia)). cbv beta in *. lia.
  - specialize (Hb (l - l' + t) ltac:(lia) ltac:(lia)). cbv beta in *. lia.
Qed.

(** What the search relies on: [l] is a critical position and [per] the least period of the right part. *)
Record critical (x : Z -> Z) (n l per : Z) : Prop := {
  cr_range : 0 <= l < n /\ l + per <= n;
  cr_repeats : forall r, 1 <= r -> repeats x n l r -> l < r /\ period_from x n 0 r;
  cr_period : least_period x n l per
}.

Section Search.
Context (x y : Z -> Z) (n l per : Z) (Hc : critical x n l per).

(** The word occurs in [y] at [j]. *)
Definition occurs (j : Z) : Prop := forall k, 0 <= k < n -> y (j + k) = x k.

(** The word agrees with [y] at [j] on a range of places. *)
Definition agrees (j a b : Z) : Prop := forall k, a <= k < b -> y (j + k) = x k.

Lemma agrees_repeats j s i : agrees j l i -> occurs (j + s) -> 0 < s -> (l + s <= i \/ i = n) -> repeats x n l s.
Proof.
  intros Ha Ho Hs Hi k Hk Hr. rewrite <- (Ha (k + s)) by lia.
  rewrite <- (Ho k) by (pose proof (cr_range _ _ _ _ Hc); lia). f_equal. lia.
Qed.

(** A mismatch in the right part at [i]. *)
Lemma right_mismatch j i s : l <= i < n -> agrees j l i -> y (j + i) <> x i -> 0 <= s <= i - l -> ~ occurs (j + s).
Proof.
  intros Hi Ha Hne Hs Ho. pose proof (cr_range _ _ _ _ Hc). apply Hne. destruct (decide (s = 0)) as [-> |].
  { rewrite Z.add_0_r in Ho. apply Ho. lia. }
  destruct (cr_repeats _ _ _ _ Hc s) as [_ Hp]; [lia|by apply (agrees_repeats j s i); try done; lia|].
  replace (j + i) with (j + s + (i - s)) by lia. rewrite Ho by lia. rewrite Hp by lia. f_equal. lia.
Qed.

(** A mismatch in the left part after the right part agreed, for a periodic word. *)
Lemma left_mismatch_periodic j i s :
  0 <= i < l -> agrees j l n -> y (j + i) <> x i -> 0 <= s < per -> ~ occurs (j + s).
Proof.
  intros Hi Ha Hne Hs Ho. pose proof (cr_range _ _ _ _ Hc). destruct (decide (s = 0)) as [-> |].
  { apply Hne. rewrite Z.add_0_r in Ho. apply Ho. lia. }
  destruct (cr_repeats _ _ _ _ Hc s) as [_ Hp]; [lia|apply (agrees_repeats j s n); (done || lia)|].
  destruct (cr_period _ _ _ _ Hc) as (_ & _ & Hleast). apply (Hleast s); [lia|]. intros k Hk Hn. apply Hp; lia.
Qed.

(** The same for a word that does not have the period of its right part. *)
Lemma left_mismatch_distinct j i s :
  0 <= i < l -> agrees j l n -> y (j + i) <> x i -> ~ (forall k, 0 <= k < l -> x k = x (k + per)) ->
  0 <= s <= Z.max l (n - l) -> ~ occurs (j + s).
Proof.
  intros Hi Ha Hne Hnp Hs Ho. pose proof (cr_range _ _ _ _ Hc). destruct (decide (s = 0)) as [-> |].
  { apply Hne. rewrite Z.add_0_r in Ho. apply Ho. lia. }
  assert (repeats x n l s) as Hrep by (apply (agrees_repeats j s n); (done || lia)).
  destruct (cr_repeats _ _ _ _ Hc s) as [Hls _]; [lia|done|]. destruct (cr_period _ _ _ _ Hc) as (Hp1 & Hp2 & Hp3).
  pose proof (repeats_reduce x n l s per) as Hr. pose proof (Z.mod_pos_bound (s - 1) per ltac:(lia)).
  set (r' := (s - 1) mod per + 1) in *. destruct (cr_repeats _ _ _ _ Hc r') as [_ Hper]; [lia|apply Hr; (done || lia)|].
  destruct (decide (r' = per)) as [Er|]; [|apply (Hp3 r'); [lia|]; intros k Hk Hn; apply Hper; lia].
  apply Hnp. intros k Hk. rewrite <- Er. apply Hper; lia.
Qed.

(** The last place differs one period after the right part agreed. *)
Lemma memory_mismatch j s :
  period_from x n 0 per -> agrees (j - per) l n -> y (j + (n - 1)) <> x (n - 1) -> 0 <= s < n - per -> ~ occurs (j + s).
Proof.
  intros Hp Ha Hne Hs Ho. pose proof (cr_range _ _ _ _ Hc). destruct (cr_period _ _ _ _ Hc) as (Hp1 & _).
  apply Hne. destruct (decide (s = 0)) as [-> |].
  { rewrite Z.add_0_r in Ho. apply Ho. lia. }
  destruct (cr_repeats _ _ _ _ Hc (s + per)) as [_ Hsp]; [lia| |].
  { apply (agrees_repeats (j - per) _ n); [done| |lia|lia]. by replace (j - per + (s + per)) with (j + s) by lia. }
  replace (j + (n - 1)) with (j + s + (n - 1 - s)) by lia. rewrite Ho by lia.
  transitivity (x (n - 1 - s - per)); [symmetry; rewrite Hp by lia; f_equal; lia|]. rewrite Hsp by lia. f_equal. lia.
Qed.

End Search.
