(* ===== verification/StrSearch.v ===== *)
(** * Searching in strings: string.c and str-two-way.h

    The rest of the string library: spans and sets of characters, the
    last occurrence, bounded concatenation, error messages, and [strstr] with
    its four methods (a 32-bit window for needles of two to four characters, Sunday's quick
    search below 255 and the two-way algorithm above). Loops take fuel as in
    [Strings]; sizes are 64-bit words, wrapped where the C code relies on
    it ([SIZE_MAX] stands for -1). *)

From S2P Require Import Prelude Memory Strings Words.
From stdpp Require Import strings.
Local Open Scope Z_scope.

(** ** Spans *)

(** The byte set of [strcspn]: [size_t byteset[32 / sizeof(size_t)]]. *)
Definition byteset_add (bs : Z -> Z) (b : Z) : Z -> Z :=
  upd bs (b / 64) (Z.lor (bs (b / 64)) (Z.shiftl 1 (b mod 64))).
Definition byteset_has (bs : Z -> Z) (b : Z) : Z := Z.land (bs (b / 64)) (Z.shiftl 1 (b mod 64)).

(** [for (; *c && BITOP(byteset, *c, |=); c++);] *)
Fixpoint byteset_fill (fuel : nat) (m : mem) (c : Z) (bs : Z -> Z) : outcome (Z -> Z) :=
  match fuel with
  | O => Err OutOfFuel
  | S f =>
      if m c =? 0 then Ok bs
      else
        let bs := byteset_add bs (m c) in
        if bs (m c / 64) =? 0 then Ok bs else byteset_fill f m (c + 1) bs
  end.

(** [for (; *s && !BITOP(byteset, *s, &); s++);] *)
Fixpoint byteset_scan (fuel : nat) (m : mem) (s : Z) (bs : Z -> Z) : outcome Z :=
  match fuel with
  | O => Err OutOfFuel
  | S f => if negb (m s =? 0) && (byteset_has bs (m s) =? 0) then byteset_scan f m (s + 1) bs else Ok s
  end.

Definition strcspn (fuel : nat) (m : mem) (s c : Z) : outcome Z :=
  if (m c =? 0) || (m (c + 1) =? 0) then r ← __strchrnul fuel m s (m c); Ok (r - s)
  else
    bs ← byteset_fill fuel m c (fun _ => 0);
    e ← byteset_scan fuel m s bs;
    Ok (e - s).

(** The inner loop of [strspn] and [strpbrk] is the loop over the delimiters of [strtok_r]. *)
Fixpoint strspn_loop (fuel : nat) (m : mem) (s1 s2 : Z) : outcome Z :=
  match fuel with
  | O => Err OutOfFuel
  | S f =>
      if m s1 =? 0 then Ok s1
      else found ← in_delims fuel m s2 (m s1); if (found : bool) then strspn_loop f m (s1 + 1) s2 else Ok s1
  end.

Definition strspn (fuel : nat) (m : mem) (s1 s2 : Z) : outcome Z := e ← strspn_loop fuel m s1 s2; Ok (e - s1).

Fixpoint strpbrk (fuel : nat) (m : mem) (s1 s2 : Z) : outcome Z :=
  match fuel with
  | O => Err OutOfFuel
  | S f =>
      if m s1 =? 0 then Ok NULL
      else found ← in_delims fuel m s2 (m s1); if (found : bool) then Ok s1 else strpbrk f m (s1 + 1) s2
  end.

(** [while ((s = strchr(s, c))) { last = s; s++; }] *)
Fixpoint strrchr_loop (fuel : nat) (m : mem) (s c last : Z) : outcome Z :=
  match fuel with
  | O => Err OutOfFuel
  | S f =>
      s ← strchr fuel m s c;
      if s =? NULL then Ok last else strrchr_loop f m (s + 1) c s
  end.

Definition strrchr (fuel : nat) (m : mem) (s i : Z) : outcome Z :=
  let c := wrap8 i in
  if negb (c =? 0) then strrchr_loop fuel m s c NULL else strchr fuel m s c.

Definition strcoll (fuel : nat) (m : mem) (s1 s2 : Z) : outcome Z := strcmp fuel m s1 s2.

(** [strtok]: the variable [last] is static. Gives the token, the memory and the new [last]. *)
Definition strtok (fuel : nat) (m : mem) (last s delim : Z) : outcome (Z * mem * Z) := strtok_r fuel m s delim last.

(** ** Bounded concatenation and transformation *)

(** [while (n-- != 0 && ( *s1++ = *s2++)) { if (n == 0) *s1 = 0; }] *)
Fixpoint strncat_copy (n : nat) (m : mem) (s1 s2 : Z) : mem :=
  match n with
  | O => m
  | S n' =>
      let m := store8 m s1 (m s2) in
      if m s1 =? 0 then m
      else strncat_copy n' (if Nat.eqb n' 0 then store8 m (s1 + 1) 0 else m) (s1 + 1) (s2 + 1)
  end.

Definition strncat (fuel : nat) (m : mem) (s1 s2 n : Z) : outcome mem :=
  e ← (if Z.land s1 7 =? 0 then skip_words fuel m s1 else Ok s1);
  e ← scan_nul fuel m e;
  Ok (strncat_copy (Z.to_nat n) m e s2).

(** The copying loop of [strxfrm]: [inl] is its early return. *)
Fixpoint strxfrm_copy (n : nat) (m : mem) (s1 s2 res : Z) : mem * (Z + Z * Z) :=
  match n with
  | O => (m, inr (s2, res))
  | S n' =>
      let m := store8 m s1 (m s2) in
      if m s1 =? 0 then (m, inl res) else strxfrm_copy n' m (s1 + 1) (s2 + 1) (res + 1)
  end.

Definition strxfrm (fuel : nat) (m : mem) (s1 s2 n : Z) : outcome (Z * mem) :=
  match strxfrm_copy (Z.to_nat n) m s1 s2 0 with
  | (m, inl res) => Ok (res, m)
  | (m, inr (s2, res)) => e ← scan_nul fuel m s2; Ok (res + (e - s2), m)
  end.

(** ** strstr for needles of two, three and four characters

    [h2] is the window of the last characters, [c] the character at [hs]. *)

Fixpoint strstr_window (fuel : nat) (push : Z -> Z -> Z) (m : mem) (hs h1 h2 : Z) : outcome (Z * Z) :=
  match fuel with
  | O => Err OutOfFuel
  | S f =>
      if negb (h1 =? h2) && negb (m hs =? 0) then strstr_window f push m (hs + 1) h1 (push h2 (m hs)) else Ok (hs, h2)
  end.

Definition push2 (h2 c : Z) : Z := Z.lor (wrap32 (Z.shiftl h2 16)) c.
Definition push3 (h2 c : Z) : Z := wrap32 (Z.shiftl (Z.lor h2 c) 8).
Definition push4 (h2 c : Z) : Z := Z.lor (wrap32 (Z.shiftl h2 8)) c.

Definition strstr2 (fuel : nat) (m : mem) (hs ne : Z) : outcome Z :=
  let h1 := Z.lor (Z.shiftl (m ne) 16) (m (ne + 1)) in
  '(hs, h2) ← strstr_window fuel push2 m hs h1 0;
  Ok (if h1 =? h2 then hs - 2 else NULL).

Definition strstr3 (fuel : nat) (m : mem) (hs ne : Z) : outcome Z :=
  let h1 := Z.lor (Z.lor (Z.shiftl (m ne) 24) (Z.shiftl (m (ne + 1)) 16)) (Z.shiftl (m (ne + 2)) 8) in
  '(hs, h2) ← strstr_window fuel push3 m hs h1 0;
  Ok (if h1 =? h2 then hs - 3 else NULL).

Definition strstr4 (fuel : nat) (m : mem) (hs ne : Z) : outcome Z :=
  let h1 := Z.lor (Z.lor (Z.lor (Z.shiftl (m ne) 24) (Z.shiftl (m (ne + 1)) 16)) (Z.shiftl (m (ne + 2)) 8)) (m (ne + 3)) in
  '(hs, h2) ← strstr_window fuel push4 m hs h1 0;
  Ok (if h1 =? h2 then hs - 4 else NULL).

(** ** Quick search *)

(** [memset (shift, ne_len + 1, sizeof (shift)); for (i = 0; i < ne_len; i++) shift[ne[i] % 64] = ne_len - i;] *)
Fixpoint shift_fill (k : nat) (i : Z) (m : mem) (ne ne_len : Z) (shift : Z -> Z) : Z -> Z :=
  match k with
  | O => shift
  | S k' => shift_fill k' (i + 1) m ne ne_len (upd shift (m (ne + i) mod 64) (wrap8 (ne_len - i)))
  end.

Definition shift_table (m : mem) (ne ne_len : Z) : Z -> Z :=
  shift_fill (Z.to_nat ne_len) 0 m ne ne_len (fun _ => wrap8 (ne_len + 1)).

(** The inner loop: [inl] is the occurrence, [inr] the position after the loop. *)
Fixpoint quick_scan (fuel : nat) (m : mem) (shift : Z -> Z) (ne ne_len hs end_ : Z) : outcome (Z + Z) :=
  match fuel with
  | O => Err OutOfFuel
  | S f =>
      if hs <=? end_ then
        let tmp := shift (m (hs + ne_len) mod 64) in
        if memcmp m hs ne ne_len =? 0 then Ok (inl hs)
        else quick_scan f m shift ne ne_len (hs + tmp) end_
      else Ok (inr hs)
  end.

Fixpoint quick_search (fuel : nat) (m : mem) (shift : Z -> Z) (ne ne_len hs end_ : Z) : outcome Z :=
  match fuel with
  | O => Err OutOfFuel
  | S f =>
      let hs := hs - 1 in
      let tmp := shift (m (hs + ne_len) mod 64) in
      r ← quick_scan fuel m shift ne ne_len (hs + tmp) end_;
      match r with
      | inl p => Ok p
      | inr hs =>
          if m (end_ + ne_len) =? 0 then Ok NULL
          else
            let end_ := end_ + strnlen m (end_ + ne_len) 2048 in
            if hs <=? end_ then quick_search f m shift ne ne_len hs end_ else Ok NULL
      end
  end.

(** ** The two-way algorithm *)

Definition SIZE_MAX : Z := 2 ^ 64 - 1.

(** One of the two loops of [critical_factorization]; [rev] is the reverse order. Gives
    [max_suffix] and the period. *)
Fixpoint max_suffix_loop (fuel : nat) (rev : bool) (m : mem) (needle needle_len max_suffix j k p : Z) : outcome (Z * Z) :=
  match fuel with
  | O => Err OutOfFuel
  | S f =>
      if wrap64 (j + k) <? needle_len then
        let a := m (needle + wrap64 (j + k)) in
        let b := m (needle + wrap64 (max_suffix + k)) in
        if (if rev then b <? a else a <? b) then
          let j := wrap64 (j + k) in
          max_suffix_loop f rev m needle needle_len max_suffix j 1 (wrap64 (j - max_suffix))
        else if a =? b then
          if negb (k =? p) then max_suffix_loop f rev m needle needle_len max_suffix j (wrap64 (k + 1)) p
          else max_suffix_loop f rev m needle needle_len max_suffix (wrap64 (j + p)) 1 p
        else max_suffix_loop f rev m needle needle_len j (wrap64 (j + 1)) 1 1
      else Ok (max_suffix, p)
  end.

(** The index of the right half and its period. *)
Definition critical_factorization (fuel : nat) (m : mem) (needle needle_len : Z) : outcome (Z * Z) :=
  '(max_suffix, period) ← max_suffix_loop fuel false m needle needle_len SIZE_MAX 0 1 1;
  '(max_suffix_rev, p) ← max_suffix_loop fuel true m needle needle_len SIZE_MAX 0 1 1;
  if wrap64 (max_suffix_rev + 1) <? wrap64 (max_suffix + 1) then Ok (wrap64 (max_suffix + 1), period)
  else Ok (wrap64 (max_suffix_rev + 1), p).

(** [AVAILABLE(h, h_l, j, n_l)]: the answer and the new [h_l]. *)
Definition AVAILABLE (m : mem) (h h_l j n_l : Z) : bool * Z :=
  if j <=? wrap64 (h_l - n_l) then (true, h_l)
  else
    let h_l := wrap64 (h_l + strnlen m (h + h_l) (Z.lor n_l 2048)) in
    (j <=? wrap64 (h_l - n_l), h_l).

(** [for (i = 0; i < needle_len; i++) shift_table[needle[i]] = needle_len - i - 1;] *)
Fixpoint last_fill (k : nat) (i : Z) (m : mem) (needle needle_len : Z) (table : Z -> Z) : Z -> Z :=
  match k with
  | O => table
  | S k' => last_fill k' (i + 1) m needle needle_len (upd table (m (needle + i)) (needle_len - i - 1))
  end.

Definition last_table (m : mem) (needle needle_len : Z) : Z -> Z :=
  last_fill (Z.to_nat needle_len) 0 m needle needle_len (fun _ => needle_len).

(** [while (i < bound && needle[i] == haystack[i + j]) ++i;] *)
Fixpoint scan_right (fuel : nat) (m : mem) (haystack needle bound i j : Z) : outcome Z :=
  match fuel with
  | O => Err OutOfFuel
  | S f =>
      if (i <? bound) && (m (needle + i) =? m (haystack + (i + j)))
      then scan_right f m haystack needle bound (i + 1) j else Ok i
  end.

(** [while (memory < i + 1 && needle[i] == haystack[i + j]) --i;]; with [memory] 0 the first
    condition is [i != SIZE_MAX]. *)
Fixpoint scan_left (fuel : nat) (m : mem) (haystack needle memory i j : Z) : outcome Z :=
  match fuel with
  | O => Err OutOfFuel
  | S f =>
      if (memory <? wrap64 (i + 1)) && (m (needle + i) =? m (haystack + wrap64 (i + j)))
      then scan_left f m haystack needle memory (wrap64 (i - 1)) j else Ok i
  end.

(** What an iteration of the search does: return, or go on with new [j] and [memory]. *)
Inductive search_step : Type :=
| Found (p : Z)
| Next (j memory : Z).

(** The comparison of the needle, right half first up to [bound], for a periodic needle. *)
Definition periodic_compare (fuel : nat) (m : mem) (haystack needle needle_len suffix period bound j memory : Z)
    : outcome search_step :=
  i ← scan_right fuel m haystack needle bound (Z.max suffix memory) j;
  if bound <=? i then
    i ← scan_left fuel m haystack needle memory (wrap64 (suffix - 1)) j;
    if wrap64 (i + 1) <? memory + 1 then Ok (Found (haystack + j))
    else Ok (Next (j + period) (needle_len - period))
  else Ok (Next (j + (i - suffix + 1)) 0).

(** The same for a needle whose halves are distinct. *)
Definition distinct_compare (fuel : nat) (m : mem) (haystack needle suffix period bound j : Z) : outcome search_step :=
  i ← scan_right fuel m haystack needle bound suffix j;
  if bound <=? i then
    i ← scan_left fuel m haystack needle 0 (wrap64 (suffix - 1)) j;
    if i =? SIZE_MAX then Ok (Found (haystack + j)) else Ok (Next (j + period) 0)
  else Ok (Next (j + (i - suffix + 1)) 0).

(** The bodies of the two loops of [two_way_long_needle]: the last byte is checked first. *)
Definition periodic_body (fuel : nat) (m : mem) (haystack needle needle_len suffix period : Z) (table : Z -> Z) (j memory : Z)
    : outcome search_step :=
  let shift := table (m (haystack + (j + needle_len - 1))) in
  if 0 <? shift then
    let shift := if negb (memory =? 0) && (shift <? period) then needle_len - period else shift in
    Ok (Next (j + shift) 0)
  else periodic_compare fuel m haystack needle needle_len suffix period (needle_len - 1) j memory.

Definition distinct_body (fuel : nat) (m : mem) (haystack needle needle_len suffix period : Z) (table : Z -> Z) (j : Z)
    : outcome search_step :=
  let shift := table (m (haystack + (j + needle_len - 1))) in
  if 0 <? shift then Ok (Next (j + shift) 0)
  else distinct_compare fuel m haystack needle suffix period (needle_len - 1) j.

(** [while (AVAILABLE (haystack, haystack_len, j, needle_len)) body]; NULL after the loop. *)
Fixpoint search_loop (fuel : nat) (body : Z -> Z -> outcome search_step) (m : mem) (haystack haystack_len needle_len j memory : Z)
    : outcome Z :=
  match fuel with
  | O => Err OutOfFuel
  | S f =>
      let '(more, haystack_len) := AVAILABLE m haystack haystack_len j needle_len in
      if (more : bool) then
        r ← body j memory;
        match r with
        | Found p => Ok p
        | Next j memory => search_loop f body m haystack haystack_len needle_len j memory
        end
      else Ok NULL
  end.

Definition two_way_long_needle (fuel : nat) (m : mem) (haystack haystack_len needle needle_len : Z) : outcome Z :=
  '(suffix, period) ← critical_factorization fuel m needle needle_len;
  let table := last_table m needle needle_len in
  if memcmp m needle (needle + period) suffix =? 0 then
    search_loop fuel (periodic_body fuel m haystack needle needle_len suffix period table)
      m haystack haystack_len needle_len 0 0
  else
    let period := Z.max suffix (needle_len - suffix) + 1 in
    search_loop fuel (fun j _ => distinct_body fuel m haystack needle needle_len suffix period table j)
      m haystack haystack_len needle_len 0 0.

(** The same without the table; nothing calls it. *)
Definition two_way_short_needle (fuel : nat) (m : mem) (haystack haystack_len needle needle_len : Z) : outcome Z :=
  '(suffix, period) ← critical_factorization fuel m needle needle_len;
  if memcmp m needle (needle + period) suffix =? 0 then
    search_loop fuel (periodic_compare fuel m haystack needle needle_len suffix period needle_len)
      m haystack haystack_len needle_len 0 0
  else
    let period := Z.max suffix (needle_len - suffix) + 1 in
    search_loop fuel (fun j _ => distinct_compare fuel m haystack needle suffix period needle_len j)
      m haystack haystack_len needle_len 0 0.

(** ** strstr *)

Definition strstr (fuel : nat) (m : mem) (haystack needle : Z) : outcome Z :=
  if m needle =? 0 then Ok haystack
  else if m (needle + 1) =? 0 then strchr fuel m haystack (m needle)
  else if m (needle + 2) =? 0 then strstr2 fuel m haystack needle
  else if m (needle + 3) =? 0 then strstr3 fuel m haystack needle
  else if m (needle + 4) =? 0 then strstr4 fuel m haystack needle
  else
    ne_len ← strlen fuel m needle;
    let hs_len := strnlen m haystack (Z.lor ne_len 512) in
    if hs_len <? ne_len then Ok NULL
    else if ne_len <? 255 then
      quick_search fuel m (shift_table m needle ne_len) needle ne_len haystack (haystack + hs_len - ne_len)
    else two_way_long_needle fuel m haystack hs_len needle ne_len.

(** ** strerror

    The cases of the switch, with the numbers of errno.h and the preprocessor's conditions resolved
    ([EWOULDBLOCK] is [EAGAIN]; [ENOTSUP] and [ENMFILE] are not defined). *)

Definition error_messages : list (Z * string) := [
  (0, "Success"%string);
  (1, "Not owner"%string);
  (2, "No such file or directory"%string);
  (3, "No such process"%string);
  (4, "Interrupted system call"%string);
  (5, "I/O error"%string);
  (6, "No such device or address"%string);
  (7, "Arg list too long"%string);
  (8, "Exec format error"%string);
  (114, "Socket already connected"%string);
  (9, "Bad file number"%string);
  (10, "No children"%string);
  (89, "Destination address required"%string);
  (11, "No more processes"%string);
  (12, "Not enough space"%string);
  (13, "Permission denied"%string);
  (14, "Bad address"%string);
  (15, "Block device required"%string);
  (16, "Device or resource busy"%string);
  (17, "File exists"%string);
  (18, "Cross-device link"%string);
  (19, "No such device"%string);
  (20, "Not a directory"%string);
  (112, "Host is down"%string);
  (115, "Connection already in progress"%string);
  (21, "Is a directory"%string);
  (22, "Invalid argument"%string);
  (100, "Network interface is not configured"%string);
  (102, "Connection aborted by network"%string);
  (23, "Too many open files in system"%string);
  (24, "File descriptor value too large"%string);
  (25, "Not a character device"%string);
  (26, "Text file busy"%string);
  (27, "File too large"%string);
  (113, "Host is unreachable"%string);
  (28, "No space left on device"%string);
  (29, "Illegal seek"%string);
  (30, "Read-only file system"%string);
  (31, "Too many links"%string);
  (32, "Broken pipe"%string);
  (33, "Mathematics argument out of domain of function"%string);
  (34, "Result too large"%string);
  (42, "No message of desired type"%string);
  (43, "Identifier removed"%string);
  (84, "Illegal byte sequence"%string);
  (35, "Deadlock"%string);
  (101, "Network is unreachable"%string);
  (37, "No lock"%string);
  (60, "Not a stream"%string);
  (62, "Stream ioctl timeout"%string);
  (63, "No stream resources"%string);
  (64, "Machine is not on the network"%string);
  (65, "No package"%string);
  (66, "Resource is remote"%string);
  (67, "Virtual circuit is gone"%string);
  (68, "Advertise error"%string);
  (69, "Srmount error"%string);
  (70, "Communication error"%string);
  (71, "Protocol error"%string);
  (93, "Unknown protocol"%string);
  (72, "Multihop attempted"%string);
  (74, "Bad message"%string);
  (79, "Cannot access a needed shared library"%string);
  (80, "Accessing a corrupted shared library"%string);
  (81, ".lib section in a.out corrupted"%string);
  (82, "Attempting to link in more shared libraries than system limit"%string);
  (83, "Cannot exec a shared library directly"%string);
  (38, "Function not implemented"%string);
  (39, "Directory not empty"%string);
  (36, "File or path name too long"%string);
  (40, "Too many symbolic links"%string);
  (105, "No buffer space available"%string);
  (61, "No data"%string);
  (97, "Address family not supported by protocol family"%string);
  (91, "Protocol wrong type for socket"%string);
  (88, "Socket operation on non-socket"%string);
  (92, "Protocol not available"%string);
  (108, "Can't send after socket shutdown"%string);
  (111, "Connection refused"%string);
  (104, "Connection reset by peer"%string);
  (98, "Address already in use"%string);
  (99, "Address not available"%string);
  (103, "Software caused connection abort"%string);
  (107, "Socket is not connected"%string);
  (94, "Socket type not supported"%string);
  (106, "Socket is already connected"%string);
  (125, "Operation canceled"%string);
  (131, "State not recoverable"%string);
  (130, "Previous owner died"%string);
  (86, "Streams pipe error"%string);
  (95, "Operation not supported on socket"%string);
  (75, "Value too large for defined data type"%string);
  (90, "Message too long"%string);
  (110, "Connection timed out"%string)
].

Fixpoint find_message (l : list (Z * string)) (errnum : Z) : string :=
  match l with
  | (e, error) :: l' => if errnum =? e then error else find_message l' errnum
  | [] => "unknown error"%string
  end.

Definition strerror (errnum : Z) : string := find_message error_messages errnum.

(** ** The critical factorization *)

Section TwoWay.
Context (m : mem) (needle n : Z) (Hn : 1 <= n < 2 ^ 63).

Definition char (k : Z) : Z := m (needle + k).
Definition ordered (rev : bool) (k : Z) : Z := if rev then - char k else char k.

Lemma wrap64_wrap_add a b : wrap64 (wrap64 a + b) = wrap64 (a + b).
Proof. unfold wrap64. by rewrite Z.add_mod_idemp_l. Qed.

Lemma wrap64_wrap_sub a b : wrap64 (a - wrap64 b) = wrap64 (a - b).
Proof. unfold wrap64. by rewrite Zminus_mod_idemp_r. Qed.

Lemma max_suffix_loop_spec rev : forall fuel c p mult i,
  scan (ordered rev) n c p mult i -> 2 * n - (2 * c + mult * p + i - 1) < Z.of_nat fuel ->
  exists c' p', max_suffix_loop fuel rev m needle n (wrap64 (c - 1)) (c - 1 + mult * p) (i + 1) p = Ok (wrap64 (c' - 1), p') /\
    maximal (ordered rev) n c' /\ least_period (ordered rev) n c' p' /\ c' + p' <= n.
Proof.
  induction fuel as [|fuel IH]; intros c p mult i Hs Hf; pose proof (sc_range _ _ _ _ _ _ Hs) as (H1 & H2 & H3 & H4 & H5); [nia|].
  cbn [max_suffix_loop]. rewrite wrap64_wrap_add. replace (c - 1 + (i + 1)) with (c + i) by lia.
  replace (c - 1 + mult * p + (i + 1)) with (c + mult * p + i) by lia.
  rewrite !(wrap64_small (c + _)), !(wrap64_small (c + mult * p + i)) by nia.
  destruct (Z.ltb_spec (c + mult * p + i) n) as [Hlt|Hge].
  2: { exists c, p. split; [done|]. apply (scan_end _ _ _ _ mult i); [done|lia]. }
  assert ((if rev then m (needle + (c + i)) <? m (needle + (c + mult * p + i)) else m (needle + (c + mult * p + i)) <? m (needle + (c + i)))
    = (ordered rev (c + mult * p + i) <? ordered rev (c + i))) as ->.
  { unfold ordered, char. destruct rev; [|done]. repeat destr_cmp; (done || lia). }
  assert ((m (needle + (c + mult * p + i)) =? m (needle + (c + i))) = (ordered rev (c + mult * p + i) =? ordered rev (c + i))) as ->.
  { unfold ordered, char. destruct rev; [|done]. repeat destr_cmp; (done || lia). }
  destruct (Z.ltb_spec (ordered rev (c + mult * p + i)) (ordered rev (c + i))) as [Hc|Hc].
  { rewrite wrap64_wrap_sub. replace (c + mult * p + i - (c - 1)) with (mult * p + i + 1) by lia.
    rewrite (wrap64_small (mult * p + i + 1)) by nia.
    pose proof (scan_smaller _ _ _ _ _ _ Hs Hlt Hc) as Hs'.
    destruct (IH c (mult * p + i + 1) 1 0 Hs') as (c' & p' & Hl & Hr); [nia|]. exists c', p'. split; [|done].
    rewrite <- Hl. f_equal; lia. }
  destruct (Z.eqb_spec (ordered rev (c + mult * p + i)) (ordered rev (c + i))) as [He|He].
  - pose proof (scan_equal _ _ _ _ _ _ Hs Hlt He) as Hs'. case_decide as Hi.
    + destruct (Z.eqb_spec (i + 1) p); [|done]. cbn [negb]. rewrite (wrap64_small (c - 1 + mult * p + p)) by nia.
      destruct (IH c p (mult + 1) 0 Hs') as (c' & p' & Hl & Hr); [nia|]. exists c', p'. split; [|done]. rewrite <- Hl. f_equal; lia.
    + destruct (Z.eqb_spec (i + 1) p); [done|]. cbn [negb]. rewrite (wrap64_small (i + 1 + 1)) by nia. apply (IH c p mult (i + 1) Hs'). nia.
  - pose proof (scan_larger _ _ _ _ _ _ Hs Hlt ltac:(lia)) as Hs'.
    destruct (IH (c + mult * p) 1 1 0 Hs') as (c' & p' & Hl & Hr); [nia|]. exists c', p'. split; [|done]. rewrite <- Hl.
    rewrite (wrap64_small (c - 1 + mult * p + 1)), (wrap64_small (c + mult * p - 1)) by nia. f_equal; lia.
Qed.

Lemma max_suffix_spec rev fuel : 2 * n < Z.of_nat fuel ->
  exists c p, max_suffix_loop fuel rev m needle n SIZE_MAX 0 1 1 = Ok (wrap64 (c - 1), p) /\
    maximal (ordered rev) n c /\ least_period (ordered rev) n c p /\ c + p <= n.
Proof.
  intros Hf. destruct (max_suffix_loop_spec rev fuel 0 1 1 0 (scan_init _ n ltac:(lia)) ltac:(lia)) as (c & p & Hl & Hr).
  exists c, p. split; [|done]. rewrite <- Hl. done.
Qed.

(** The function returns a critical position and the least period of the right half. *)
Lemma critical_factorization_spec fuel : 2 * n < Z.of_nat fuel ->
  exists l per, critical_factorization fuel m needle n = Ok (l, per) /\ critical char n l per.
Proof.
  intros Hf. destruct (max_suffix_spec false fuel Hf) as (c & p & H1 & H2 & H3 & H4).
  destruct (max_suffix_spec true fuel Hf) as (c' & p' & H1' & H2' & H3' & H4').
  unfold critical_factorization. rewrite H1, H1'. cbn [mbind outcome_bind]. rewrite !wrap64_wrap_add, !Z.sub_add.
  pose proof (mx_range _ _ _ H2). pose proof (mx_range _ _ _ H2'). rewrite !wrap64_small by lia.
  destruct (Z.ltb_spec c' c); eexists _, _; (split; [done|]).
  - split; [done| |done]. intros r Hr Hrep. by apply (critical_repeats char n c c'); [..|lia|done|done].
  - split; [done| |].
    + intros r Hr Hrep. destruct (critical_repeats (ordered true) n c' c r) as [Ha Hb]; [done|exact (maximal_neg char n c H2)|done|done|exact (proj1 (repeats_neg char n c' r) Hrep)|].
      split; [done|]. exact (proj2 (period_from_neg char n 0 r) Hb).
    + destruct H3' as (Ha & Hb & Hc). split_and!; [done|exact (proj2 (period_from_neg char n c' p') Hb)|]. intros q Hq Hp.
      exact (Hc q Hq (proj1 (period_from_neg char n c' q) Hp)).
Qed.

End TwoWay.

(** ** The two-way search *)

Lemma lor_ge a b : 0 <= a -> 0 <= b -> a <= Z.lor a b.
Proof.
  intros Ha Hb. assert (Z.lor a b - a = Z.ldiff (Z.lor a b) a) as E.
  { apply Z.sub_nocarry_ldiff. apply Z.bits_inj'. intros k Hk. rewrite Z.ldiff_spec, Z.lor_spec, Z.bits_0.
    by destruct (Z.testbit a k). }
  assert (0 <= Z.ldiff (Z.lor a b) a) by (apply Z.ldiff_nonneg; left; apply Z.lor_nonneg; lia). lia.
Qed.

(** [y] has [N] characters before its end. *)
Definition text (y : Z -> Z) (N : Z) : Prop := 0 <= N /\ y N = 0 /\ forall k, 0 <= k < N -> y k <> 0.

Lemma strnlen_loop_spec k m s N : text (fun i => m (s + i)) N -> strnlen_loop k m s = s + Z.min (Z.of_nat k) N.
Proof.
  revert s N. induction k as [|k IH]; intros s N (H0 & H1 & H2); cbn [strnlen_loop]; [lia|].
  destruct (Z.eqb_spec (m s) 0) as [E|E].
  - destruct (decide (N = 0)) as [-> |]; [lia|]. destruct (H2 0); [lia|]. by rewrite Z.add_0_r.
  - destruct (decide (N = 0)) as [-> |]; [by rewrite Z.add_0_r in H1|]. rewrite (IH (s + 1) (N - 1)); [lia|].
    split_and!; [lia|rewrite <- H1; f_equal; lia|]. intros i Hi. replace (s + 1 + i) with (s + (i + 1)) by lia. apply H2. lia.
Qed.

Lemma strnlen_text m s h k N : text (fun i => m (s + i)) N -> 0 <= h <= N -> 0 <= k -> strnlen m (s + h) k = Z.min k (N - h).
Proof.
  intros (H0 & H1 & H2) Hh Hk. unfold strnlen. rewrite (strnlen_loop_spec _ _ _ (N - h)); [lia|].
  split_and!; [lia|rewrite <- H1; f_equal; lia|]. intros i Hi. rewrite <- Z.add_assoc. apply H2. lia.
Qed.

Section TwoWaySearch.
Context (m : mem) (needle n haystack N l per : Z).
Context (Hn : 1 <= n < 2 ^ 63) (HN : N < 2 ^ 63).
Context (Hy : text (fun k => m (haystack + k)) N).
Local Abbreviation x := (char m needle).
Local Abbreviation y := (char m haystack).
Context (Hc : critical x n l per).
Local Abbreviation occurs := (occurs x y n).
Local Abbreviation agrees := (agrees x y).

(** The first occurrence, or NULL when there is none. *)
Definition first_result (r : Z) : Prop :=
  (exists j, 0 <= j /\ j + n <= N /\ r = haystack + j /\ occurs j /\ forall s, 0 <= s < j -> ~ occurs s) \/
  (r = NULL /\ forall s, 0 <= s -> s + n <= N -> ~ occurs s).

Lemma AVAILABLE_spec h_l j : n <= h_l <= N -> 0 <= j <= h_l ->
  exists more h_l', AVAILABLE m haystack h_l j n = (more, h_l') /\ h_l <= h_l' <= N /\
    if (more : bool) then j + n <= h_l' else N < j + n.
Proof.
  intros Hl Hj. unfold AVAILABLE. rewrite wrap64_small by lia.
  destruct (Z.leb_spec j (h_l - n)); [exists true, h_l; split_and!; (done || lia)|].
  pose proof (lor_ge n 2048 ltac:(lia) ltac:(lia)). rewrite (strnlen_text m haystack h_l _ N) by (done || lia).
  rewrite (wrap64_small (h_l + _)) by lia. rewrite wrap64_small by lia.
  eexists _, _. split; [done|]. split; [lia|]. destr_cmp; lia.
Qed.

(** An iteration of the search at [j]: it finds the needle there, or moves on and skips no occurrence. *)
Definition step_ok (inv : Z -> Z -> Prop) (j : Z) (r : search_step) : Prop :=
  match r with
  | Found p => p = haystack + j /\ occurs j
  | Next j' memory' => j < j' <= j + n /\ inv j' memory' /\ forall s, j <= s < j' -> ~ occurs s
  end.

Definition body_ok (inv : Z -> Z -> Prop) (body : Z -> Z -> outcome search_step) : Prop :=
  forall j memory, inv j memory -> 0 <= j -> j + n <= N -> exists r, body j memory = Ok r /\ step_ok inv j r.

Lemma search_loop_spec inv body : body_ok inv body -> forall fuel h_l j memory,
  inv j memory -> n <= h_l <= N -> 0 <= j <= h_l -> (forall s, 0 <= s < j -> ~ occurs s) -> N - j < Z.of_nat fuel ->
  exists r, search_loop fuel body m haystack h_l n j memory = Ok r /\ first_result r.
Proof.
  intros Hb. induction fuel as [|fuel IH]; intros h_l j memory Hinv Hl Hj Hno Hf; [lia|]. cbn [search_loop].
  destruct (AVAILABLE_spec h_l j Hl Hj) as (more & h_l' & -> & Hl' & Hm). destruct more.
  - destruct (Hb j memory Hinv) as (r & -> & Hr); [lia|lia|]. cbn [mbind outcome_bind]. destruct r as [p|j' memory'].
    + destruct Hr as [-> Ho]. eexists. split; [done|]. left. exists j. split_and!; (done || lia).
    + destruct Hr as (Hj' & Hinv' & Hskip). apply IH; [done|lia|lia| |lia].
      intros s Hs. destruct (Z.lt_ge_cases s j); [apply Hno|apply Hskip]; lia.
  - eexists. split; [done|]. right. split; [done|]. intros s Hs Hsn. apply Hno. lia.
Qed.

(** ** The scans *)

Lemma scan_right_spec bound j : bound <= n -> forall fuel i,
  Z.max 0 (bound - i) < Z.of_nat fuel -> exists i', scan_right fuel m haystack needle bound i j = Ok i' /\
    i <= i' /\ agrees j i i' /\ (i' < bound -> y (j + i') <> x i') /\ (i <= bound -> i' <= bound).
Proof.
  intros Hbn. induction fuel as [|fuel IH]; intros i Hf; cbn [scan_right].
  - lia.
  - destruct (Z.ltb_spec i bound) as [Hi|Hi]; cbn [andb].
    2: { exists i. split_and!; [done|lia|intros k Hk; lia|lia|lia]. }
    destruct (Z.eqb_spec (m (needle + i)) (m (haystack + (i + j)))) as [E|E].
    + destruct (IH (i + 1)) as (i' & -> & H1 & H2 & H3 & H4); [lia|]. exists i'. split_and!; [done|lia| |done|lia].
      intros k Hk. destruct (decide (k = i)) as [-> |]; [|apply H2; lia]. unfold char. rewrite E. f_equal. lia.
    + exists i. split_and!; [done|lia|intros k Hk; lia| |lia]. intros _ E'. apply E. unfold char in E'. rewrite <- E'. f_equal. lia.
Qed.

Lemma scan_left_spec memory j : 0 <= memory -> 0 <= j -> j + n <= N -> forall fuel e,
  0 <= e <= l -> e < Z.of_nat fuel -> exists e', scan_left fuel m haystack needle memory (wrap64 (e - 1)) j = Ok (wrap64 (e' - 1)) /\
    0 <= e' <= e /\ agrees j e' e /\ (memory < e' -> y (j + (e' - 1)) <> x (e' - 1)).
Proof.
  intros Hmem Hj HjN. pose proof (cr_range _ _ _ _ Hc). induction fuel as [|fuel IH]; intros e He Hf; [lia|]. cbn [scan_left].
  rewrite wrap64_wrap_add, Z.sub_add, (wrap64_small e) by lia.
  destruct (Z.ltb_spec memory e) as [Hlt|Hge]; cbn [andb].
  2: { exists e. split_and!; [done|lia|lia|intros k Hk; lia|lia]. }
  rewrite !(wrap64_small (e - 1)) by lia. rewrite (wrap64_small (e - 1 + j)) by lia.
  destruct (Z.eqb_spec (m (needle + (e - 1))) (m (haystack + (e - 1 + j)))) as [E|E].
  - destruct (IH (e - 1)) as (e' & -> & H1 & H2 & H3); [lia|lia|]. exists e'. split_and!; [done|lia|lia| |done].
    intros k Hk. destruct (decide (k = e - 1)) as [-> |]; [|apply H2; lia]. unfold char. rewrite E. f_equal. lia.
  - exists e. rewrite wrap64_small by lia. split_and!; [done|lia|lia|intros k Hk; lia|].
    intros _ E'. apply E. unfold char in E'. rewrite <- E'. f_equal. lia.
Qed.

(** ** The table *)

Lemma last_fill_spec k : forall i t c,
  let t' := last_fill k i m needle n t in
  (t' c = t c /\ forall u, i <= u < i + Z.of_nat k -> x u <> c) \/
  (exists u, i <= u < i + Z.of_nat k /\ x u = c /\ t' c = n - u - 1 /\ forall v, u < v < i + Z.of_nat k -> x v <> c).
Proof.
  induction k as [|k IH]; intros i t c; cbn [last_fill]; [left; split; [done|lia]|].
  destruct (IH (i + 1) (upd t (m (needle + i)) (n - i - 1)) c) as [[-> H]|(u & Hu & H1 & H2 & H3)].
  - destruct (decide (x i = c)) as [<- |Hne].
    + right. exists i. split_and!; [lia|lia|done|apply upd_eq|]. intros v Hv. apply H. lia.
    + left. split; [by apply upd_ne|]. intros u Hu. destruct (decide (u = i)) as [-> |]; [done|]. apply H. lia.
  - right. exists u. split_and!; [lia|lia|done|done|]. intros v Hv. apply H3. lia.
Qed.

Lemma last_table_spec c :
  0 <= last_table m needle n c <= n /\ (last_table m needle n c = 0 -> x (n - 1) = c) /\
  forall k, 0 <= k < n -> x k = c -> last_table m needle n c <= n - 1 - k.
Proof.
  unfold last_table. destruct (last_fill_spec (Z.to_nat n) 0 (fun _ => n) c) as [[-> H]|(u & Hu & H1 & -> & H3)].
  - split_and!; [lia|lia|lia|]. intros k Hk E. by destruct (H k); [lia|].
  - split_and!; [lia|lia| |].
    + intros E. by replace (n - 1) with u by lia.
    + intros k Hk E. destruct (Z.le_gt_cases k u); [lia|]. by destruct (H3 k); [lia|].
Qed.

(** A shift by the table skips no occurrence. *)
Lemma table_shift j s : 0 <= s < last_table m needle n (y (j + (n - 1))) -> ~ occurs (j + s).
Proof.
  intros Hs Ho. destruct (last_table_spec (y (j + (n - 1)))) as (H1 & _ & H2).
  specialize (H2 (n - 1 - s) ltac:(lia)). rewrite <- (Ho (n - 1 - s)) in H2 by lia.
  replace (j + s + (n - 1 - s)) with (j + (n - 1)) in H2 by lia. specialize (H2 eq_refl). lia.
Qed.

(** ** The bodies *)

(** The right half has just been compared one period before. *)
Definition remembered (j memory : Z) : Prop :=
  memory = 0 \/ (memory = n - per /\ 0 < memory /\ per <= j /\ agrees (j - per) l n).

Lemma remembered_agrees j memory : period_from x n 0 per -> remembered j memory -> agrees j 0 memory.
Proof.
  intros Hp [-> |(-> & _ & _ & Ha)] k Hk; [lia|]. destruct (cr_period _ _ _ _ Hc) as (Hp1 & _).
  destruct (cr_repeats _ _ _ _ Hc per Hp1 (period_repeats _ _ _ _ Hp)) as [Hlt _].
  replace (j + k) with (j - per + (k + per)) by lia. rewrite Ha by lia. symmetry. apply Hp; lia.
Qed.

Lemma agrees_join j a b c : agrees j a b -> agrees j b c -> agrees j a c.
Proof. intros H1 H2 k Hk. destruct (Z.lt_ge_cases k b); [apply H1|apply H2]; lia. Qed.

Lemma periodic_compare_spec fuel bound j memory :
  period_from x n 0 per -> remembered j memory -> 0 <= j -> j + n <= N -> n - 1 <= bound <= n -> agrees j bound n ->
  n < Z.of_nat fuel ->
  exists r, periodic_compare fuel m haystack needle n l per bound j memory = Ok r /\ step_ok remembered j r.
Proof.
  intros Hp Hmem Hj HjN Hb Hlast Hf. pose proof (cr_range _ _ _ _ Hc). destruct (cr_period _ _ _ _ Hc) as (Hp1 & _).
  assert (0 <= memory <= n - 1) as Hm0 by (destruct Hmem as [-> |(-> & _)]; lia).
  pose proof (remembered_agrees j memory Hp Hmem) as Hpre. unfold periodic_compare.
  destruct (scan_right_spec bound j ltac:(lia) fuel (Z.max l memory)) as (i & -> & H1 & H2 & H3 & H4); [lia|].
  cbn [mbind outcome_bind].
  assert (agrees j l i) as Hright.
  { intros k Hk. destruct (Z.lt_ge_cases k memory); [apply Hpre|apply H2]; lia. }
  destruct (Z.leb_spec bound i) as [Hi|Hi].
  - assert (agrees j l n) as Hall by (intros k Hk; destruct (Z.lt_ge_cases k i); [apply Hright|apply Hlast]; lia).
    destruct (scan_left_spec memory j ltac:(lia) Hj HjN fuel l) as (e & -> & He & Hle & Hne); [lia|lia|]. cbn [mbind outcome_bind].
    rewrite wrap64_wrap_add, Z.sub_add, wrap64_small by lia. destruct (Z.ltb_spec e (memory + 1)) as [Hlt|Hge]; (eexists; split; [done|]).
    + split; [done|]. intros k Hk. destruct (Z.lt_ge_cases k memory); [apply Hpre; lia|].
      destruct (Z.lt_ge_cases k l); [apply Hle|apply Hall]; lia.
    + split_and!; [lia|lia| |].
      * destruct (decide (n - per = 0)); [by left|right]. split_and!; [done|lia|lia|]. by rewrite Z.add_simpl_r.
      * intros s Hs. replace s with (j + (s - j)) by lia.
        apply (left_mismatch_periodic x y n l per Hc j (e - 1)); (done || lia).
  - eexists. split; [done|]. split_and!; [lia|lia|by left|]. intros s Hs. replace s with (j + (s - j)) by lia.
    apply (right_mismatch x y n l per Hc j i); (done || lia).
Qed.

Lemma distinct_compare_spec fuel bound j :
  ~ (forall k, 0 <= k < l -> x k = x (k + per)) -> 0 <= j -> j + n <= N -> n - 1 <= bound <= n -> agrees j bound n ->
  n < Z.of_nat fuel ->
  exists r, distinct_compare fuel m haystack needle l (Z.max l (n - l) + 1) bound j = Ok r /\ step_ok (fun _ _ => True) j r.
Proof.
  intros Hnp Hj HjN Hb Hlast Hf. pose proof (cr_range _ _ _ _ Hc). unfold distinct_compare.
  assert (0 < l) as Hl0 by (destruct (decide (l = 0)); [destruct Hnp; intros; lia|lia]).
  destruct (scan_right_spec bound j ltac:(lia) fuel l) as (i & -> & H1 & H2 & H3 & H4); [lia|]. cbn [mbind outcome_bind].
  destruct (Z.leb_spec bound i) as [Hi|Hi].
  - assert (agrees j l n) as Hall by (intros k Hk; destruct (Z.lt_ge_cases k i); [apply H2|apply Hlast]; lia).
    destruct (scan_left_spec 0 j ltac:(lia) Hj HjN fuel l) as (e & -> & He & Hle & Hne); [lia|lia|]. cbn [mbind outcome_bind].
    destruct (decide (e = 0)) as [-> |Hne0].
    + eexists. split; [done|]. split; [done|]. by apply (agrees_join j 0 l n).
    + rewrite wrap64_small by lia. destruct (Z.eqb_spec (e - 1) SIZE_MAX); [unfold SIZE_MAX in *; lia|].
      eexists. split; [done|]. split_and!; [lia|lia|done|]. intros s Hs. replace s with (j + (s - j)) by lia.
      apply (left_mismatch_distinct x y n l per Hc j (e - 1)); (done || lia).
  - eexists. split; [done|]. split_and!; [lia|lia|done|]. intros s Hs. replace s with (j + (s - j)) by lia.
    apply (right_mismatch x y n l per Hc j i); (done || lia).
Qed.

Lemma table_zero j : last_table m needle n (y (j + (n - 1))) = 0 -> agrees j (n - 1) n.
Proof.
  intros E k Hk. replace k with (n - 1) by lia. destruct (last_table_spec (y (j + (n - 1)))) as (_ & H & _). by rewrite H.
Qed.

Lemma table_positive j : 0 < last_table m needle n (y (j + (n - 1))) -> y (j + (n - 1)) <> x (n - 1).
Proof.
  intros H E. destruct (last_table_spec (y (j + (n - 1)))) as (_ & _ & H2). specialize (H2 (n - 1) ltac:(lia) ltac:(done)). lia.
Qed.

Lemma periodic_body_ok fuel : period_from x n 0 per -> n < Z.of_nat fuel ->
  body_ok remembered (periodic_body fuel m haystack needle n l per (last_table m needle n)).
Proof.
  intros Hp Hf j memory Hmem Hj HjN. unfold periodic_body. pose proof (cr_range _ _ _ _ Hc). destruct (cr_period _ _ _ _ Hc) as (Hp1 & _).
  replace (m (haystack + (j + n - 1))) with (y (j + (n - 1))) by (unfold char; f_equal; lia).
  destruct (last_table_spec (y (j + (n - 1)))) as (Hr & _).
  destruct (Z.ltb_spec 0 (last_table m needle n (y (j + (n - 1))))) as [Hs|Hs].
  - eexists. split; [done|]. destruct (Z.eqb_spec memory 0) as [-> |Hm0]; cbn [negb andb].
    { split_and!; [lia|lia|by left|]. intros s Hs'. replace s with (j + (s - j)) by lia. apply table_shift. lia. }
    destruct Hmem as [|(-> & H0 & Hpj & Ha)]; [done|].
    destruct (Z.ltb_spec (last_table m needle n (y (j + (n - 1)))) per); (split_and!; [lia|lia|by left|]);
      intros s Hs'; replace s with (j + (s - j)) by lia; [|apply table_shift; lia].
    apply (memory_mismatch x y n l per Hc); [done|done|by apply table_positive|lia].
  - apply periodic_compare_spec; try done; [lia|]. apply table_zero. lia.
Qed.

Lemma distinct_body_ok fuel : ~ (forall k, 0 <= k < l -> x k = x (k + per)) -> n < Z.of_nat fuel ->
  body_ok (fun _ _ => True) (fun j _ => distinct_body fuel m haystack needle n l (Z.max l (n - l) + 1) (last_table m needle n) j).
Proof.
  intros Hp Hf j _ _ Hj HjN. unfold distinct_body.
  replace (m (haystack + (j + n - 1))) with (y (j + (n - 1))) by (unfold char; f_equal; lia).
  destruct (last_table_spec (y (j + (n - 1)))) as (Hr & _).
  destruct (Z.ltb_spec 0 (last_table m needle n (y (j + (n - 1))))) as [Hs|Hs].
  - eexists. split; [done|]. split_and!; [lia|lia|done|]. intros s Hs'. replace s with (j + (s - j)) by lia. apply table_shift. lia.
  - apply distinct_compare_spec; try done; [lia|]. apply table_zero. lia.
Qed.

(** The test for a periodic needle. *)
Lemma periodic_test : memcmp m needle (needle + per) l = 0 -> period_from x n 0 per.
Proof.
  intros E k Hk Hkn. destruct (Z.lt_ge_cases k l) as [Hkl|Hkl].
  - pose proof (proj1 (memcmp_zero _ _ _ _) E k ltac:(lia)) as Ek. unfold char. rewrite Ek. f_equal. lia.
  - destruct (cr_period _ _ _ _ Hc) as (_ & Hp & _). by apply Hp.
Qed.

Lemma distinct_test : memcmp m needle (needle + per) l <> 0 -> ~ (forall k, 0 <= k < l -> x k = x (k + per)).
Proof.
  intros E H. apply E, memcmp_zero. intros k Hk. specialize (H k Hk). unfold char in H. rewrite H. f_equal. lia.
Qed.

End TwoWaySearch.

(** Both searches find the first occurrence. *)
Lemma two_way_spec m needle n haystack N h_l fuel :
  1 <= n < 2 ^ 63 -> N < 2 ^ 63 -> text (fun k => m (haystack + k)) N -> n <= h_l <= N ->
  2 * n < Z.of_nat fuel -> N < Z.of_nat fuel ->
  (exists r, two_way_long_needle fuel m haystack h_l needle n = Ok r /\ first_result m needle n haystack N r) /\
  (exists r, two_way_short_needle fuel m haystack h_l needle n = Ok r /\ first_result m needle n haystack N r).
Proof.
  intros Hn HN Hy Hl Hf1 Hf2. destruct (critical_factorization_spec m needle n Hn fuel Hf1) as (l & per & Hcf & Hc).
  unfold two_way_long_needle, two_way_short_needle. rewrite Hcf. cbn [mbind outcome_bind].
  assert (forall s, 0 <= s < 0 -> ~ Words.occurs (char m needle) (char m haystack) n s) as Hno by lia.
  assert (forall j, agrees (char m needle) (char m haystack) j n n) as Hn' by (intros j k Hk; lia).
  destruct (Z.eqb_spec (memcmp m needle (needle + per) l) 0) as [E|E].
  - pose proof (periodic_test m needle n l per Hc E) as Hp.
    split; apply (search_loop_spec m needle n haystack N Hn HN Hy (remembered m needle n haystack l per)); try done; try lia; try by left.
    + apply (periodic_body_ok m needle n haystack N l per); (done || lia).
    + intros j memory Hmem Hj HjN. apply (periodic_compare_spec m needle n haystack N l per); (done || lia).
  - pose proof (distinct_test m needle l per E) as Hp.
    split; apply (search_loop_spec m needle n haystack N Hn HN Hy (fun _ _ => True)); try done; try lia.
    + apply (distinct_body_ok m needle n haystack N l per); (done || lia).
    + intros j memory _ Hj HjN. apply (distinct_compare_spec m needle n haystack N l per); (done || lia).
Qed.

(** ** Quick search *)

Section QuickSearch.
Context (m : mem) (needle n haystack N : Z).
Context (Hn : 1 <= n < 255).
Context (Hy : text (fun k => m (haystack + k)) N).
Local Abbreviation x := (char m needle).
Local Abbreviation y := (char m haystack).
Local Abbreviation occurs := (occurs x y n).
Local Abbreviation shift := (shift_table m needle n).

Lemma shift_fill_spec k : forall i t, 0 <= i -> i + Z.of_nat k <= n ->
  (forall h, 1 <= t h <= n + 1 /\ forall u, 0 <= u < i -> x u mod 64 = h -> t h <= n - u) ->
  forall h, let t' := shift_fill k i m needle n t in
    1 <= t' h <= n + 1 /\ forall u, 0 <= u < i + Z.of_nat k -> x u mod 64 = h -> t' h <= n - u.
Proof.
  induction k as [|k IH]; intros i t Hi Hk Ht h; cbn [shift_fill]; [by rewrite Z.add_0_r|].
  replace (i + Z.of_nat (S k)) with (i + 1 + Z.of_nat k) by lia. apply IH; [lia|lia|]. clear h. intros h.
  rewrite wrap8_small by lia. unfold upd. destruct (Z.eqb_spec h (m (needle + i) mod 64)) as [Eh|Eh].
  - split; [lia|]. intros u Hu _. lia.
  - destruct (Ht h) as [H1 H2]. split; [done|]. intros u Hu Eu. apply H2; [|done].
    destruct (decide (u = i)) as [-> |]; [by destruct Eh|lia].
Qed.

Lemma shift_table_spec h : 1 <= shift h <= n + 1 /\ forall u, 0 <= u < n -> x u mod 64 = h -> shift h <= n - u.
Proof.
  unfold shift_table. destruct (shift_fill_spec (Z.to_nat n) 0 (fun _ => wrap8 (n + 1))) with h as [H1 H2]; [lia|lia| |].
  - intros h'. rewrite wrap8_small by lia. split; [lia|intros; lia].
  - split; [done|]. intros u Hu. apply H2. lia.
Qed.

(** A shift skips no occurrence. *)
Lemma shift_skips j d : 1 <= d < shift (y (j + n) mod 64) -> ~ occurs (j + d).
Proof.
  intros Hd Ho. destruct (shift_table_spec (y (j + n) mod 64)) as [H1 H2].
  specialize (H2 (n - d) ltac:(lia)). rewrite <- (Ho (n - d)) in H2 by lia.
  replace (j + d + (n - d)) with (j + n) in H2 by lia. specialize (H2 eq_refl). lia.
Qed.

Lemma quick_scan_spec e : e + n <= N -> forall fuel j,
  0 <= j <= e + n + 1 -> (forall s, 0 <= s < j -> ~ occurs s) -> Z.max 0 (e - j + 1) < Z.of_nat fuel ->
  exists r, quick_scan fuel m shift needle n (haystack + j) (haystack + e) = Ok r /\
    match r with
    | inl p => first_result m needle n haystack N p
    | inr p => exists j', p = haystack + j' /\ e < j' <= e + n + 1 /\ forall s, 0 <= s < j' -> ~ occurs s
    end.
Proof.
  intros He. induction fuel as [|fuel IH]; intros j Hj Hno Hf; [lia|]. cbn [quick_scan].
  destruct (Z.leb_spec (haystack + j) (haystack + e)) as [Hle|Hgt].
  2: { eexists. split; [done|]. exists j. split_and!; (done || lia). }
  destruct (Z.eqb_spec (memcmp m (haystack + j) needle n) 0) as [E|E].
  - eexists. split; [done|]. left. exists j. split_and!; try (done || lia). intros k Hk.
    pose proof (proj1 (memcmp_zero _ _ _ _) E k Hk) as Ek. unfold char. rewrite <- Ek. f_equal. lia.
  - replace (m (haystack + j + n)) with (y (j + n)) by (unfold char; f_equal; lia).
    destruct (shift_table_spec (y (j + n) mod 64)) as [H1 _]. rewrite <- Z.add_assoc. apply IH; [lia| |lia].
    intros s Hs. destruct (Z.lt_trichotomy s j) as [|[-> |]]; [apply Hno; lia| |].
    + intros Ho. apply E, memcmp_zero. intros k Hk. specialize (Ho k Hk). unfold char in Ho. rewrite <- Ho. f_equal. lia.
    + replace s with (j + (s - j)) by lia. apply shift_skips. lia.
Qed.

Lemma quick_search_spec : forall fuel j e,
  0 <= j <= e -> e + n <= N -> (forall s, 0 <= s < j -> ~ occurs s) -> e - j + 1 < Z.of_nat fuel -> N - e < Z.of_nat fuel ->
  exists r, quick_search fuel m shift needle n (haystack + j) (haystack + e) = Ok r /\ first_result m needle n haystack N r.
Proof.
  induction fuel as [|fuel IH]; intros j e Hj He Hno Hf1 Hf2; [lia|]. cbn [quick_search].
  replace (m (haystack + j - 1 + n)) with (y (j - 1 + n)) by (unfold char; f_equal; lia).
  destruct (shift_table_spec (y (j - 1 + n) mod 64)) as [H1 _]. set (tmp := shift_table m needle n _) in *.
  replace (haystack + j - 1 + tmp) with (haystack + (j - 1 + tmp)) by lia.
  destruct (quick_scan_spec e He (S fuel) (j - 1 + tmp)) as (r & -> & Hr); [lia| |lia|].
  { intros s Hs. destruct (Z.lt_ge_cases s j); [apply Hno; lia|]. replace s with (j - 1 + (s - j + 1)) by lia. apply shift_skips. lia. }
  cbn [mbind outcome_bind]. destruct r as [p|p]; [by exists p|]. destruct Hr as (j' & -> & Hj' & Hno').
  rewrite <- Z.add_assoc. pose proof Hy as (_ & Hend & Hpos).
  destruct (Z.eqb_spec (m (haystack + (e + n))) 0) as [E0|E0].
  { eexists. split; [done|]. right. split; [done|]. intros s Hs HsN. apply Hno'.
    destruct (Z.lt_ge_cases (e + n) N); [|lia]. by destruct (Hpos (e + n)); [lia|]. }
  assert (e + n < N) as HeN by (destruct (decide (e + n = N)) as [Ee|]; [by rewrite Ee in E0|lia]).
  rewrite (strnlen_text m haystack (e + n) 2048 N) by (done || lia). rewrite <- Z.add_assoc. set (e' := e + Z.min 2048 (N - (e + n))).
  destruct (Z.leb_spec (haystack + j') (haystack + e')); [apply IH; (done || lia)|].
  eexists. split; [done|]. right. split; [done|]. intros s Hs HsN. apply Hno'. lia.
Qed.

End QuickSearch.

(** ** Bits *)

Lemma land_high_low a b k : 0 <= k -> 0 <= b < 2 ^ k -> Z.land (a * 2 ^ k) b = 0.
Proof.
  intros Hk Hb. apply Z.bits_inj'. intros i Hi. rewrite Z.land_spec, Z.bits_0. destruct (Z.lt_ge_cases i k).
  - by rewrite Z.mul_pow2_bits_low by lia.
  - rewrite <- (Z.mod_small b (2 ^ k)), Z.mod_pow2_bits_high, andb_false_r by lia. done.
Qed.

Lemma lxor_below a b k : 0 <= k -> 0 <= b < 2 ^ k -> Z.lxor (a * 2 ^ k) b = a * 2 ^ k + b.
Proof. intros Hk Hb. by rewrite <- Z.add_nocarry_lxor by by apply land_high_low. Qed.

Lemma lor_below a b k : 0 <= k -> 0 <= b < 2 ^ k -> Z.lor (a * 2 ^ k) b = a * 2 ^ k + b.
Proof. intros Hk Hb. rewrite <- Z.lxor_lor by (by apply land_high_low). by apply lxor_below. Qed.

(** ** Windows of two, three and four characters *)

Section Window.
Context (m : mem) (needle haystack N : Z) (Hm : mem_ok m).
Context (Hy : text (fun k => m (haystack + k)) N).
Local Abbreviation x := (char m needle).
Local Abbreviation y := (char m haystack).

(** The characters before the haystack count as zero. *)
Definition seen (k : Z) : Z := if k <? 0 then 0 else y k.

Lemma seen_range k : 0 <= seen k < 256.
Proof. unfold seen. destr_cmp; [lia|apply Hm]. Qed.

Lemma seen_nonneg k : 0 <= k -> seen k = y k.
Proof. intros H. unfold seen. by destruct (Z.ltb_spec k 0); [lia|]. Qed.

Lemma seen_nonzero k : seen k <> 0 -> 0 <= k.
Proof. unfold seen. destr_cmp; [done|lia]. Qed.

(** The values of [h2] when [i] characters have been read. *)
Definition window2 (i : Z) : Z := seen (i - 2) * 2 ^ 16 + seen (i - 1).
Definition window3 (i : Z) : Z := seen (i - 3) * 2 ^ 24 + seen (i - 2) * 2 ^ 16 + seen (i - 1) * 2 ^ 8.
Definition window4 (i : Z) : Z := seen (i - 4) * 2 ^ 24 + seen (i - 3) * 2 ^ 16 + seen (i - 2) * 2 ^ 8 + seen (i - 1).

Lemma window2_push i : 0 <= i -> push2 (window2 i) (y i) = window2 (i + 1).
Proof.
  intros Hi. unfold push2, window2, wrap32. rewrite Z.shiftl_mul_pow2 by lia. rewrite <- (seen_nonneg i) by done.
  pose proof (seen_range (i - 2)). pose proof (seen_range (i - 1)). pose proof (seen_range i).
  replace ((seen (i - 2) * 2 ^ 16 + seen (i - 1)) * 2 ^ 16) with (seen (i - 1) * 2 ^ 16 + seen (i - 2) * 2 ^ 32) by lia.
  rewrite Z.mod_add, Z.mod_small, lor_below by lia.
  replace (i + 1 - 2) with (i - 1) by lia. replace (i + 1 - 1) with i by lia. lia.
Qed.

Lemma window3_push i : 0 <= i -> push3 (window3 i) (y i) = window3 (i + 1).
Proof.
  intros Hi. unfold push3, window3, wrap32. rewrite <- (seen_nonneg i) by done.
  pose proof (seen_range (i - 3)). pose proof (seen_range (i - 2)). pose proof (seen_range (i - 1)). pose proof (seen_range i).
  replace (seen (i - 3) * 2 ^ 24 + seen (i - 2) * 2 ^ 16 + seen (i - 1) * 2 ^ 8)
    with ((seen (i - 3) * 2 ^ 16 + seen (i - 2) * 2 ^ 8 + seen (i - 1)) * 2 ^ 8) by lia.
  rewrite lor_below, Z.shiftl_mul_pow2 by lia.
  replace (((seen (i - 3) * 2 ^ 16 + seen (i - 2) * 2 ^ 8 + seen (i - 1)) * 2 ^ 8 + seen i) * 2 ^ 8)
    with (seen (i - 2) * 2 ^ 24 + seen (i - 1) * 2 ^ 16 + seen i * 2 ^ 8 + seen (i - 3) * 2 ^ 32) by lia.
  rewrite Z.mod_add, Z.mod_small by lia.
  replace (i + 1 - 3) with (i - 2) by lia. replace (i + 1 - 2) with (i - 1) by lia. replace (i + 1 - 1) with i by lia. lia.
Qed.

Lemma window4_push i : 0 <= i -> push4 (window4 i) (y i) = window4 (i + 1).
Proof.
  intros Hi. unfold push4, window4, wrap32. rewrite Z.shiftl_mul_pow2 by lia. rewrite <- (seen_nonneg i) by done.
  pose proof (seen_range (i - 4)). pose proof (seen_range (i - 3)). pose proof (seen_range (i - 2)). pose proof (seen_range (i - 1)).
  pose proof (seen_range i).
  replace ((seen (i - 4) * 2 ^ 24 + seen (i - 3) * 2 ^ 16 + seen (i - 2) * 2 ^ 8 + seen (i - 1)) * 2 ^ 8)
    with ((seen (i - 3) * 2 ^ 16 + seen (i - 2) * 2 ^ 8 + seen (i - 1)) * 2 ^ 8 + seen (i - 4) * 2 ^ 32) by lia.
  rewrite Z.mod_add, Z.mod_small, lor_below by lia.
  replace (i + 1 - 4) with (i - 3) by lia. replace (i + 1 - 3) with (i - 2) by lia. replace (i + 1 - 2) with (i - 1) by lia.
  replace (i + 1 - 1) with i by lia. lia.
Qed.

Lemma strstr_window_spec push window h1 : (forall i, 0 <= i -> push (window i) (y i) = window (i + 1)) -> forall fuel i,
  0 <= i <= N -> (forall s, 0 <= s < i -> window s <> h1) -> N - i < Z.of_nat fuel ->
  exists i', strstr_window fuel push m (haystack + i) h1 (window i) = Ok (haystack + i', window i') /\ i <= i' <= N /\
    (forall s, 0 <= s < i' -> window s <> h1) /\ (i' < N -> h1 = window i').
Proof.
  intros Hpush. pose proof Hy as (_ & Hend & Hpos). induction fuel as [|fuel IH]; intros i Hi Hno Hf; [lia|]. cbn [strstr_window].
  destruct (Z.eqb_spec h1 (window i)) as [E|E]; cbn [negb andb]; [exists i; split_and!; (done || lia)|].
  destruct (Z.eqb_spec (m (haystack + i)) 0) as [E0|E0]; cbn [negb].
  { exists i. split_and!; [done|lia|lia|done|]. intros Hlt. by destruct (Hpos i); [lia|]. }
  assert (i < N) by (destruct (decide (i = N)) as [-> |]; [done|lia]).
  change (m (haystack + i)) with (y i). rewrite Hpush, <- Z.add_assoc by lia.
  destruct (IH (i + 1)) as (i' & -> & H1 & H2 & H3); [lia| |lia|exists i'; split_and!; (done || lia)].
  intros s Hs. destruct (decide (s = i)) as [-> |]; [by intros <-|apply Hno; lia].
Qed.

(** From the window to the first occurrence. *)
Lemma window_result push window h1 w fuel :
  (forall i, 0 <= i -> push (window i) (y i) = window (i + 1)) -> window 0 = 0 ->
  (forall i, 0 <= i <= N -> window i = h1 <-> w <= i /\ Words.occurs x y w (i - w)) -> N < Z.of_nat fuel -> 0 <= w ->
  exists r, ('(hs, h2) ← strstr_window fuel push m haystack h1 0; Ok (if h1 =? h2 then hs - w else NULL)) = Ok r /\
    first_result m needle w haystack N r.
Proof.
  intros Hpush H0 Hocc Hf Hw. pose proof Hy as (HN0 & _).
  destruct (strstr_window_spec push window h1 Hpush fuel 0) as (i & Hl & Hi & Hno & Hlt); [lia|lia|lia|].
  rewrite Z.add_0_r, H0 in Hl. rewrite Hl. cbn [mbind outcome_bind]. eexists. split; [done|].
  assert (forall s, 0 <= s -> s + w < i -> ~ Words.occurs x y w s) as Hno'.
  { intros s Hs Hlt' Ho. apply (Hno (s + w)); [lia|]. apply Hocc; [lia|]. rewrite Z.add_simpl_r. split; [lia|done]. }
  destruct (Z.eqb_spec h1 (window i)) as [E|E].
  - symmetry in E. apply Hocc in E as [Hwi Ho]; [|lia]. left. exists (i - w). split_and!; [lia|lia|lia|done|].
    intros s Hs. apply Hno'; lia.
  - right. split; [done|]. intros s Hs Hsw Ho. assert (i = N) as -> by lia. destruct (decide (s + w = N)) as [Es|]; [|apply (Hno' s); (done || lia)].
    apply E. symmetry. apply Hocc; [lia|]. replace (N - w) with s by lia. split; [lia|done].
Qed.

Context (Hx : x 0 <> 0) (fuel : nat) (Hf : N < Z.of_nat fuel).

(** An occurrence that ends at [i], by the last [w] characters seen. *)
Lemma occurs_window w i : 1 <= w -> w <= i /\ Words.occurs x y w (i - w) <-> forall k, 0 <= k < w -> seen (i - w + k) = x k.
Proof.
  intros Hw. split.
  - intros [Hi H] k Hk. rewrite seen_nonneg by lia. by apply H.
  - intros H. assert (0 <= i - w) as Hi by (apply seen_nonzero; specialize (H 0 ltac:(lia)); rewrite Z.add_0_r in H; by rewrite H).
    split; [lia|]. intros k Hk. rewrite <- H, seen_nonneg by lia. done.
Qed.

(** Computes the places in a window and the ranges of the characters there. *)
Ltac seen_at H k := specialize (H k ltac:(lia)); unfold char in H; rewrite ?Z.add_0_r in H.
Ltac seen_places :=
  rewrite ?Z.add_0_r;
  repeat match goal with
  | |- context [?i - ?a + ?b] => let c := eval vm_compute in (a - b) in replace (i - a + b) with (i - c) by lia
  | H : context [?i - ?a + ?b] |- _ => let c := eval vm_compute in (a - b) in replace (i - a + b) with (i - c) in H by lia
  end.

Lemma strstr2_spec : exists r, strstr2 fuel m haystack needle = Ok r /\ first_result m needle 2 haystack N r.
Proof.
  unfold strstr2. rewrite Z.shiftl_mul_pow2 by lia. pose proof (Hm needle). pose proof (Hm (needle + 1)). rewrite lor_below by lia.
  apply (window_result push2 window2); [apply window2_push|done| |done|lia].
  intros i Hi. pose proof (seen_range (i - 2)). pose proof (seen_range (i - 1)). rewrite occurs_window by lia. unfold window2. split.
  - intros E k Hk. unfold char. assert (k = 0 \/ k = 1) as [-> | ->] by lia; seen_places; lia.
  - intros Ho. pose proof Ho as Ho1. seen_at Ho 0. seen_at Ho1 1. seen_places. lia.
Qed.

Lemma strstr3_spec : exists r, strstr3 fuel m haystack needle = Ok r /\ first_result m needle 3 haystack N r.
Proof.
  unfold strstr3. rewrite !Z.shiftl_mul_pow2 by lia. pose proof (Hm needle). pose proof (Hm (needle + 1)). pose proof (Hm (needle + 2)).
  rewrite lor_below by lia. replace (m needle * 2 ^ 24 + m (needle + 1) * 2 ^ 16) with ((m needle * 2 ^ 8 + m (needle + 1)) * 2 ^ 16) by lia.
  rewrite lor_below by lia. apply (window_result push3 window3); [apply window3_push|done| |done|lia].
  intros i Hi. pose proof (seen_range (i - 3)). pose proof (seen_range (i - 2)). pose proof (seen_range (i - 1)).
  rewrite occurs_window by lia. unfold window3. split.
  - intros E k Hk. unfold char. assert (k = 0 \/ k = 1 \/ k = 2) as [-> |[-> | ->]] by lia; seen_places; lia.
  - intros Ho. pose proof Ho as Ho1. pose proof Ho as Ho2. seen_at Ho 0. seen_at Ho1 1. seen_at Ho2 2. seen_places. lia.
Qed.

Lemma strstr4_spec : exists r, strstr4 fuel m haystack needle = Ok r /\ first_result m needle 4 haystack N r.
Proof.
  unfold strstr4. rewrite !Z.shiftl_mul_pow2 by lia. pose proof (Hm needle). pose proof (Hm (needle + 1)). pose proof (Hm (needle + 2)).
  pose proof (Hm (needle + 3)). rewrite lor_below by lia.
  replace (m needle * 2 ^ 24 + m (needle + 1) * 2 ^ 16) with ((m needle * 2 ^ 8 + m (needle + 1)) * 2 ^ 16) by lia.
  rewrite lor_below by lia.
  replace ((m needle * 2 ^ 8 + m (needle + 1)) * 2 ^ 16 + m (needle + 2) * 2 ^ 8)
    with ((m needle * 2 ^ 16 + m (needle + 1) * 2 ^ 8 + m (needle + 2)) * 2 ^ 8) by lia.
  rewrite lor_below by lia. apply (window_result push4 window4); [apply window4_push|done| |done|lia].
  intros i Hi. pose proof (seen_range (i - 4)). pose proof (seen_range (i - 3)). pose proof (seen_range (i - 2)).
  pose proof (seen_range (i - 1)). rewrite occurs_window by lia. unfold window4. split.
  - intros E k Hk. unfold char. assert (k = 0 \/ k = 1 \/ k = 2 \/ k = 3) as [-> |[-> |[-> | ->]]] by lia; seen_places; lia.
  - intros Ho. pose proof Ho as Ho1. pose proof Ho as Ho2. pose proof Ho as Ho3.
    seen_at Ho 0. seen_at Ho1 1. seen_at Ho2 2. seen_at Ho3 3. seen_places. lia.
Qed.

End Window.

(** ** strchr *)

Lemma lxor_byte b c Y W : 0 <= b < 256 -> 0 <= c < 256 -> Z.lxor (b + 256 * Y) (c + 256 * W) = Z.lxor b c + 256 * Z.lxor Y W.
Proof.
  intros Hb Hc. assert (forall b Y, 0 <= b < 256 -> b + 256 * Y = Z.lxor (Y * 2 ^ 8) b) as E.
  { intros b' Y' Hb'. rewrite lxor_below; lia. }
  assert (0 <= Z.lxor b c < 256) as Hbc.
  { split; [apply Z.lxor_nonneg; lia|]. destruct (Z.eq_dec (Z.lxor b c) 0) as [-> |Hne]; [lia|].
    assert (0 < Z.lxor b c) by (pose proof (proj2 (Z.lxor_nonneg b c)); lia).
    apply (Z.log2_lt_pow2 _ 8); [done|]. eapply Z.le_lt_trans; [apply Z.log2_lxor; lia|].
    apply Z.max_lub_lt; (destruct (Z.eq_dec b 0), (Z.eq_dec c 0); subst; try (cbn; lia); apply Z.log2_lt_pow2; lia). }
  rewrite !E by done. rewrite <- !Z.shiftl_mul_pow2, Z.shiftl_lxor by lia.
  rewrite <- !Z.lxor_assoc. f_equal. rewrite !Z.lxor_assoc. f_equal. apply Z.lxor_comm.
Qed.

Section Chr.
Context (m : mem) (s N c : Z) (Hm : mem_ok m) (Hc : 0 < c < 256).
Context (Hy : text (fun k => m (s + k)) N).
Local Abbreviation y := (char m s).

Definition masked : mem := fun a => Z.lxor (m a) c.

Lemma masked_zero a : masked a = 0 <-> m a = c.
Proof. apply Z.lxor_eq_0_iff. Qed.

Lemma load_masked k a : load_le k masked a = Z.lxor (load_le k m a) (ones k * c).
Proof.
  revert a. induction k as [|k IH]; intros a; [done|]. cbn [load_le ones]. rewrite IH.
  replace ((1 + 256 * ones k) * c) with (c + 256 * (ones k * c)) by lia. rewrite lxor_byte by (apply Hm || lia). done.
Qed.

Lemma masked_ok : mem_ok masked.
Proof.
  intros a. pose proof (load_masked 1 a) as E. pose proof (Hm a). unfold masked.
  assert (0 <= Z.lxor (m a) c) by (apply Z.lxor_nonneg; lia). split; [done|].
  destruct (Z.eq_dec (Z.lxor (m a) c) 0) as [-> |]; [lia|]. apply (Z.log2_lt_pow2 _ 8); [lia|].
  eapply Z.le_lt_trans; [apply Z.log2_lxor; lia|]. apply Z.max_lub_lt; [|apply Z.log2_lt_pow2; lia].
  destruct (Z.eq_dec (m a) 0) as [-> |]; [cbn; lia|apply Z.log2_lt_pow2; lia].
Qed.

(** The test for the character in a word. *)
Lemma DETECTNULL_masked a : DETECTNULL (Z.lxor (load64 m a) (wrap64 (ONES * c))) = 0 <-> forall i, 0 <= i < 8 -> m (a + i) <> c.
Proof.
  rewrite wrap64_small by (unfold ONES; lia). change ONES with (ones 8). unfold load64. rewrite <- load_masked.
  change (load_le 8 masked a) with (load64 masked a). rewrite DETECTNULL_load by apply masked_ok.
  split; intros H i Hi E; apply (H i Hi); by apply masked_zero.
Qed.

(** Nothing found up to [i]. *)
Definition absent (i : Z) : Prop := 0 <= i <= N /\ forall k, 0 <= k < i -> y k <> c.

Lemma absent_next i : absent i -> m (s + i) <> 0 -> m (s + i) <> c -> absent (i + 1).
Proof.
  intros [Hi H] H0 H1. pose proof Hy as (_ & Hend & _). split.
  - destruct (decide (i = N)) as [-> |]; [done|lia].
  - intros k Hk. destruct (decide (k = i)) as [-> |]; [done|apply H; lia].
Qed.

Definition stops (i : Z) : Prop := absent i /\ (y i = 0 \/ y i = c).

Lemma scan_char_spec : forall fuel i, absent i -> N - i < Z.of_nat fuel ->
  exists i', scan_char fuel m (s + i) c = Ok (s + i') /\ stops i'.
Proof.
  induction fuel as [|fuel IH]; intros i Hi Hf; pose proof (proj1 Hi); [lia|]. cbn [scan_char].
  destruct (Z.eqb_spec (m (s + i)) 0) as [E|E]; [exists i; split; [done|split; [done|by left]]|].
  destruct (Z.eqb_spec (m (s + i)) c) as [E'|E']; [exists i; split; [done|split; [done|by right]]|]. cbn [orb].
  rewrite <- Z.add_assoc. apply IH; [by apply absent_next|lia].
Qed.

Lemma strchrnul_align_spec : forall fuel i, absent i -> N - i < Z.of_nat fuel ->
  exists r, strchrnul_align fuel m (s + i) c = Ok r /\
    match r with inl p => exists i', p = s + i' /\ stops i' | inr p => exists i', p = s + i' /\ absent i' /\ i <= i' end.
Proof.
  induction fuel as [|fuel IH]; intros i Hi Hf; pose proof (proj1 Hi); [lia|]. cbn [strchrnul_align].
  destruct ((s + i) mod 7 =? 0); [eexists; split; [done|]; by exists i|].
  destruct (Z.eqb_spec (m (s + i)) 0) as [E|E]; [eexists; split; [done|]; exists i; split; [done|split; [done|by left]]|].
  destruct (Z.eqb_spec (m (s + i)) c) as [E'|E']; [eexists; split; [done|]; exists i; split; [done|split; [done|by right]]|]. cbn [orb].
  rewrite <- Z.add_assoc. destruct (IH (i + 1)) as (r & -> & Hr); [by apply absent_next|lia|]. exists r. split; [done|].
  destruct r; [done|]. destruct Hr as (i' & -> & Ha & Hle). exists i'. split_and!; (done || lia).
Qed.

Lemma strchrnul_words_spec : forall fuel i, absent i -> N - i < Z.of_nat fuel ->
  exists i', strchrnul_words fuel m (s + i) (wrap64 (ONES * c)) = Ok (s + i') /\ absent i' /\ i <= i'.
Proof.
  induction fuel as [|fuel IH]; intros i Hi Hf; pose proof (proj1 Hi); [lia|]. cbn [strchrnul_words].
  destruct (Z.eqb_spec (DETECTNULL (load64 m (s + i))) 0) as [E0|E0]; cbn [andb]; [|by exists i].
  destruct (Z.eqb_spec (DETECTNULL (Z.lxor (load64 m (s + i)) (wrap64 (ONES * c)))) 0) as [E1|E1]; [|by exists i].
  rewrite DETECTNULL_load in E0 by done. rewrite DETECTNULL_masked in E1. rewrite <- Z.add_assoc.
  assert (absent (i + 8)) as Ha.
  { split.
    - destruct (Z.le_gt_cases (i + 8) N); [lia|]. destruct (E0 (N - i)); [lia|]. destruct Hy as (_ & <- & _). f_equal. lia.
    - intros k Hk. destruct (Z.lt_ge_cases k i); [apply Hi; lia|]. unfold char. replace (s + k) with (s + i + (k - i)) by lia. apply E1. lia. }
  destruct (IH (i + 8) Ha) as (i' & -> & Ha' & Hle); [lia|]. exists i'. split_and!; (done || lia).
Qed.

Lemma strchrnul_spec fuel : N < Z.of_nat fuel -> exists i, __strchrnul fuel m s c = Ok (s + i) /\ stops i.
Proof.
  intros Hf. pose proof Hy as (HN & _). assert (absent 0) as Ha by (split; [lia|intros; lia]). unfold __strchrnul.
  rewrite wrap8_small by lia. destruct (Z.eqb_spec c 0); [lia|].
  destruct (strchrnul_align_spec fuel 0 Ha ltac:(lia)) as (r & Hr & Hp). rewrite Z.add_0_r in Hr. rewrite Hr. cbn [mbind outcome_bind].
  destruct r as [p|p]; [by destruct Hp as (i & -> & Hs); exists i|]. destruct Hp as (i & -> & Ha1 & Hle).
  destruct (strchrnul_words_spec fuel i Ha1 ltac:(lia)) as (i2 & -> & Ha2 & Hle2). cbn [mbind outcome_bind]. apply scan_char_spec; [done|lia].
Qed.

(** [strchr] gives the first place of the character. *)
Lemma strchr_spec fuel : N < Z.of_nat fuel ->
  exists r, strchr fuel m s c = Ok r /\
    ((exists i, 0 <= i < N /\ r = s + i /\ y i = c /\ forall k, 0 <= k < i -> y k <> c) \/
     (r = NULL /\ forall k, 0 <= k < N -> y k <> c)).
Proof.
  intros Hf. destruct (strchrnul_spec fuel Hf) as (i & H & [Hi Ha] & Hs). unfold strchr. rewrite H. cbn [mbind outcome_bind].
  rewrite wrap8_small by lia. pose proof Hy as (_ & Hend & Hpos). eexists. split; [done|].
  destruct (Z.eqb_spec (m (s + i)) c) as [E|E]; [left|right].
  - exists i. split_and!; (done || lia || idtac). destruct (decide (i = N)) as [-> |]; [cbv beta in Hend; lia|lia].
  - split; [done|]. destruct Hs as [Hs|Hs]; [|done]. intros k Hk. apply Ha.
    destruct (Z.lt_ge_cases i N); [|lia]. by destruct (Hpos i); [lia|].
Qed.

End Chr.

(** ** The specification of strstr *)

(** The first place where [ne] occurs in [hs]: the reference definition. *)
Fixpoint first_sub (ne hs : list Z) : option nat :=
  if decide (ne `prefix_of` hs) then Some O
  else match hs with [] => None | _ :: hs' => S <$> first_sub ne hs' end.

Lemma first_sub_some ne hs i : first_sub ne hs = Some i ->
  (i <= length hs)%nat /\ ne `prefix_of` drop i hs /\ forall j, (j < i)%nat -> ~ ne `prefix_of` drop j hs.
Proof.
  revert i. induction hs as [|c hs IH]; intros i; cbn [first_sub]; case_decide as Hp.
  - intros [= <-]. split_and!; [lia|done|lia].
  - done.
  - intros [= <-]. split_and!; [lia|done|lia].
  - destruct (first_sub ne hs) as [k|]; [|done]. intros [= <-]. destruct (IH k eq_refl) as (H1 & H2 & H3).
    split_and!; [cbn; lia|done|]. intros [|j] Hj; [done|]. apply H3. lia.
Qed.

Lemma first_sub_none ne hs : first_sub ne hs = None -> forall j, (j <= length hs)%nat -> ~ ne `prefix_of` drop j hs.
Proof.
  induction hs as [|c hs IH]; cbn [first_sub]; case_decide as Hp; try done.
  - intros _ j Hj. by replace j with O by (cbn in Hj; lia).
  - destruct (first_sub ne hs); [done|]. intros _ [|j] Hj; [done|]. apply IH; [done|]. cbn in Hj. lia.
Qed.

Lemma cstr_lookup m a l k c : cstr m a l -> l !! k = Some c -> m (a + Z.of_nat k) = c.
Proof.
  intros Hs Hk. rewrite <- (cstr_bytes_at m a l Hs), bytes_at_lookup in Hk by (pose proof (lookup_lt_Some _ _ _ Hk); rewrite length_bytes_at in *; lia). by injection Hk.
Qed.

Lemma cstr_text m a l : cstr m a l -> text (fun k => m (a + k)) (Z.of_nat (length l)).
Proof. intros Hs. split_and!; [lia|by apply cstr_end|]. intros k Hk. by eapply cstr_nonzero. Qed.

Lemma occurs_prefix m haystack needle hl nl j :
  cstr m haystack hl -> cstr m needle nl -> (j + length nl <= length hl)%nat ->
  occurs (char m needle) (char m haystack) (Z.of_nat (length nl)) (Z.of_nat j) <-> nl `prefix_of` drop j hl.
Proof.
  intros Hh Hn Hj. split.
  - intros Ho. exists (drop (length nl) (drop j hl)). rewrite <- (take_drop (length nl) (drop j hl)) at 1. f_equal.
    apply list_eq_same_length with (length nl); [done|rewrite length_take, length_drop; lia|].
    intros k c c' Hk Hc Hc'. rewrite lookup_take_lt in Hc by done. rewrite lookup_drop in Hc.
    specialize (Ho (Z.of_nat k) ltac:(lia)). unfold char in Ho. rewrite <- Nat2Z.inj_add in Ho.
    by rewrite (cstr_lookup m haystack hl _ c), (cstr_lookup m needle nl k c') in Ho.
  - intros [rest E] k Hk. unfold char. assert (is_Some (nl !! Z.to_nat k)) as [c Hc] by (apply lookup_lt_is_Some; lia).
    replace (needle + k) with (needle + Z.of_nat (Z.to_nat k)) by lia. rewrite (cstr_lookup m needle nl _ c) by done.
    replace (haystack + (Z.of_nat j + k)) with (haystack + Z.of_nat (j + Z.to_nat k)) by lia.
    apply (cstr_lookup m haystack hl); [done|]. rewrite <- lookup_drop, E. by apply lookup_app_l_Some.
Qed.

(** The address of an answer of the reference definition. *)
Definition sub_address (haystack : Z) (o : option nat) : Z :=
  match o with Some i => haystack + Z.of_nat i | None => NULL end.

Lemma first_result_address m haystack needle hl nl r :
  cstr m haystack hl -> cstr m needle nl ->
  first_result m needle (Z.of_nat (length nl)) haystack (Z.of_nat (length hl)) r -> r = sub_address haystack (first_sub nl hl).
Proof.
  intros Hh Hn Hr. destruct (first_sub nl hl) as [i|] eqn:E; cbn [sub_address].
  - apply first_sub_some in E as (Hi & Hp & Hno). pose proof (prefix_length _ _ Hp) as Hlen. rewrite length_drop in Hlen.
    destruct Hr as [(j & Hj & HjN & -> & Ho & Hnj)|[-> Hnone]].
    + replace j with (Z.of_nat (Z.to_nat j)) in Ho |- * by lia. apply (occurs_prefix m haystack needle hl nl) in Ho; [|done|done|lia].
      assert (~ (Z.to_nat j < i)%nat) by (intros Hlt; by apply (Hno (Z.to_nat j))).
      assert (~ (Z.of_nat i < j)) by (intros Hlt; apply (Hnj (Z.of_nat i)); [lia|]; apply (occurs_prefix m haystack needle hl nl); (done || lia)).
      lia.
    + destruct (Hnone (Z.of_nat i)); [lia|lia|]. apply (occurs_prefix m haystack needle hl nl); (done || lia).
  - destruct Hr as [(j & Hj & HjN & _ & Ho & _)|[-> _]]; [|done]. exfalso.
    apply (first_sub_none nl hl E (Z.to_nat j)); [lia|]. apply (occurs_prefix m haystack needle hl nl); [done|done|lia|].
    by rewrite Z2Nat.id by lia.
Qed.

(** The length of the needle, as the tests of [strstr] find it. *)
Lemma cstr_length_at m a l k :
  cstr m a l -> (k <= length l)%nat -> if m (a + Z.of_nat k) =? 0 then length l = k else (k < length l)%nat.
Proof.
  intros Hs Hk. destruct (Z.eqb_spec (m (a + Z.of_nat k)) 0) as [E|E].
  - destruct (decide (length l = k)) as [|Hne]; [done|]. destruct (cstr_nonzero m a l (Z.of_nat k)); (done || lia).
  - destruct (decide (length l = k)) as [<- |Hne]; [|lia]. by destruct E; apply cstr_end.
Qed.

(** A needle of one character. *)
Lemma strstr1_spec m haystack needle N fuel :
  mem_ok m -> text (fun k => m (haystack + k)) N -> m needle <> 0 -> N < Z.of_nat fuel ->
  exists r, strchr fuel m haystack (m needle) = Ok r /\ first_result m needle 1 haystack N r.
Proof.
  intros Hm Hy H0 Hf. pose proof (Hm needle).
  destruct (strchr_spec m haystack N (m needle) Hm ltac:(lia) Hy fuel Hf) as (r & -> & Hr). exists r. split; [done|].
  assert (forall j, occurs (char m needle) (char m haystack) 1 j <-> char m haystack j = m needle) as Ho.
  { intros j. split; [intros H1; specialize (H1 0 ltac:(lia))|intros H1 k Hk; replace k with 0 by lia];
      unfold char in *; by rewrite ?Z.add_0_r in *. }
  destruct Hr as [(i & Hi & -> & E & Hno)|[-> Hno]]; [left|right].
  - exists i. split_and!; [lia|lia|done|by apply Ho|]. intros k Hk. rewrite Ho. by apply Hno.
  - split; [done|]. intros k Hk Hk1. rewrite Ho. apply Hno. lia.
Qed.

(** Every method finds the first occurrence. *)
Lemma strstr_result fuel m haystack needle hl nl :
  mem_ok m -> cstr m haystack hl -> cstr m needle nl -> nl <> [] ->
  Z.of_nat (length hl) < 2 ^ 63 -> Z.of_nat (length nl) < 2 ^ 63 -> (2 * length nl + length hl + 1 < fuel)%nat ->
  exists r, strstr fuel m haystack needle = Ok r /\
    (first_result m needle (Z.of_nat (length nl)) haystack (Z.of_nat (length hl)) r).
Proof.
  intros Hm Hh Hn Hne Hhl Hnl Hf. pose proof (cstr_text _ _ _ Hh) as Hy. pose proof (Hm needle).
  assert (1 <= length nl)%nat as H1 by (destruct nl; [done|cbn; lia]).
  pose proof (cstr_length_at m needle nl 0 Hn ltac:(lia)) as L0. rewrite Z.add_0_r in L0. unfold strstr.
  destruct (Z.eqb_spec (m needle) 0) as [|E0]; [lia|]. assert (char m needle 0 <> 0) as Hx0 by (unfold char; by rewrite Z.add_0_r).
  pose proof (cstr_length_at m needle nl 1 Hn H1) as L1. change (Z.of_nat 1) with 1 in L1.
  destruct (m (needle + 1) =? 0); [rewrite L1; by apply strstr1_spec; [..|lia]|].
  pose proof (cstr_length_at m needle nl 2 Hn L1) as L2. change (Z.of_nat 2) with 2 in L2.
  destruct (m (needle + 2) =? 0); [rewrite L2; by apply strstr2_spec; [..|lia]|].
  pose proof (cstr_length_at m needle nl 3 Hn L2) as L3. change (Z.of_nat 3) with 3 in L3.
  destruct (m (needle + 3) =? 0); [rewrite L3; by apply strstr3_spec; [..|lia]|].
  pose proof (cstr_length_at m needle nl 4 Hn L3) as L4. change (Z.of_nat 4) with 4 in L4.
  destruct (m (needle + 4) =? 0); [rewrite L4; by apply strstr4_spec; [..|lia]|].
  rewrite (strlen_spec fuel m needle nl) by (done || lia). cbn [mbind outcome_bind].
  pose proof (lor_ge (Z.of_nat (length nl)) 512 ltac:(lia) ltac:(lia)).
  pose proof (strnlen_text m haystack 0 (Z.lor (Z.of_nat (length nl)) 512) _ Hy ltac:(lia) ltac:(lia)) as Es.
  rewrite Z.add_0_r in Es. rewrite Es, Z.sub_0_r.
  destruct (Z.ltb_spec (Z.min (Z.lor (Z.of_nat (length nl)) 512) (Z.of_nat (length hl))) (Z.of_nat (length nl))).
  { eexists. split; [done|]. right. split; [done|]. intros s Hs Hsn. lia. }
  destruct (Z.ltb_spec (Z.of_nat (length nl)) 255).
  - rewrite <- Z.add_sub_assoc. set (e := Z.min _ _ - _).
    destruct (quick_search_spec m needle (Z.of_nat (length nl)) haystack (Z.of_nat (length hl)) ltac:(lia) Hy fuel 0 e) as (r & Hq & Hr); [lia..|].
    rewrite Z.add_0_r in Hq. by exists r.
  - apply two_way_spec; (done || lia).
Qed.

(** C18: [strstr] equals the reference definition of a substring search for every
    needle, through each of its methods: the empty needle, [strchr] for one
    character, the 32-bit windows for two to four, quick search with its
    hashed shift table below 255, and the two-way algorithm with its critical
    factorization above. It returns the address of the first occurrence, or NULL
    when there is none, and it returns after a number of iterations linear in the lengths of
    the strings. *)
Theorem strstr_first_occurrence (fuel : nat) (m : mem) (haystack needle : Z) (hl nl : list Z)
    (Hm : mem_ok m) (Hh : cstr m haystack hl) (Hn : cstr m needle nl)
    (Hhl : Z.of_nat (length hl) < 2 ^ 63) (Hnl : Z.of_nat (length nl) < 2 ^ 63)
    (Hf : (2 * length nl + length hl + 1 < fuel)%nat) :
  strstr fuel m haystack needle = Ok (sub_address haystack (first_sub nl hl)).
Proof.
  destruct nl as [|c nl].
  - unfold strstr. cbn in Hn. rewrite Hn. cbn. f_equal. destruct hl as [|c hl]; cbn [first_sub];
      (rewrite decide_True by apply prefix_nil); cbn; lia.
  - destruct (strstr_result fuel m haystack needle hl (c :: nl)) as (r & -> & Hr); try done.
    f_equal. by apply (first_result_address m haystack needle).
Qed.

(** ** Spans *)

(** The length of the longest prefix whose elements all satisfy [P]. *)
Fixpoint span_length (P : Z -> bool) (l : list Z) : Z :=
  match l with
  | c :: l' => if P c then 1 + span_length P l' else 0
  | [] => 0
  end.

Definition among (set : list Z) (c : Z) : bool := bool_decide (c ∈ set).

Lemma in_delims_spec fuel m a set c : cstr m a set -> (length set < fuel)%nat -> in_delims fuel m a c = Ok (among set c).
Proof.
  revert a set. induction fuel as [|fuel IH]; intros a set Hs Hf; [lia|]. cbn [in_delims]. destruct set as [|d set]; cbn in Hs, Hf.
  - rewrite Hs. unfold among. rewrite bool_decide_eq_false_2; [done|]. apply not_elem_of_nil.
  - destruct Hs as (-> & Hd & Hs). destruct (Z.eqb_spec d 0); [done|]. destruct (Z.eqb_spec c d) as [-> |Hne].
    + unfold among. rewrite bool_decide_eq_true_2; [done|left].
    + rewrite (IH _ set) by (done || lia). f_equal. apply bool_decide_ext. rewrite elem_of_cons. split; [by right|by intros [|]].
Qed.

Lemma strspn_loop_spec fuel m a b l set : cstr m a l -> cstr m b set -> (length l + length set < fuel)%nat ->
  strspn_loop fuel m a b = Ok (a + span_length (among set) l).
Proof.
  revert a l. induction fuel as [|fuel IH]; intros a l Hs Hb Hf; [lia|]. cbn [strspn_loop]. destruct l as [|c l]; cbn in Hs, Hf.
  - rewrite Hs. cbn. f_equal. lia.
  - destruct Hs as (-> & Hc & Hs). destruct (Z.eqb_spec c 0); [done|]. rewrite (in_delims_spec _ _ _ set) by (done || lia).
    cbn [mbind outcome_bind span_length]. destruct (among set c); [|f_equal; lia]. rewrite (IH _ l) by (done || lia). f_equal. lia.
Qed.

(** ** The byte set *)

Lemma byteset_has_bit bs b : byteset_has bs b <> 0 <-> Z.testbit (bs (b / 64)) (b mod 64) = true.
Proof.
  pose proof (Z.mod_pos_bound b 64 ltac:(lia)). unfold byteset_has. rewrite Z.shiftl_1_l. split.
  - intros Hne. destruct (Z.testbit _ _) eqn:E; [done|]. destruct Hne.
    apply Z.bits_inj'. intros i Hi. rewrite Z.land_spec, Z.bits_0, Z.pow2_bits_eqb by lia.
    destruct (Z.eqb_spec (b mod 64) i) as [<- |]; [by rewrite E|by rewrite andb_false_r].
  - intros E H0. apply (f_equal (fun z => Z.testbit z (b mod 64))) in H0.
    by rewrite Z.land_spec, Z.bits_0, E, Z.pow2_bits_true in H0 by lia.
Qed.

Lemma byteset_add_has bs b d : 0 <= b -> 0 <= d -> byteset_has (byteset_add bs b) d <> 0 <-> d = b \/ byteset_has bs d <> 0.
Proof.
  intros Hb Hd. rewrite !byteset_has_bit. unfold byteset_add, upd. pose proof (Z.mod_pos_bound b 64 ltac:(lia)).
  pose proof (Z.mod_pos_bound d 64 ltac:(lia)). pose proof (Z.div_mod b 64 ltac:(lia)). pose proof (Z.div_mod d 64 ltac:(lia)).
  destruct (Z.eqb_spec (d / 64) (b / 64)) as [E|E].
  - rewrite Z.lor_spec, Z.shiftl_1_l, Z.pow2_bits_eqb, orb_true_iff, Z.eqb_eq, E by lia. split; intros [Hl|Hr]; auto; [|].
    + left. lia.
    + right. congruence.
  - split; [by right|]. intros [-> |]; done.
Qed.

Lemma byteset_fill_spec fuel m c set bs : mem_ok m -> cstr m c set -> (length set < fuel)%nat ->
  exists bs', byteset_fill fuel m c bs = Ok bs' /\
    forall d, 0 <= d -> byteset_has bs' d <> 0 <-> d ∈ set \/ byteset_has bs d <> 0.
Proof.
  intros Hm. revert c set bs. induction fuel as [|fuel IH]; intros c set bs Hs Hf; [lia|]. cbn [byteset_fill].
  destruct set as [|b set]; cbn in Hs, Hf.
  { rewrite Hs. exists bs. split; [done|]. intros d Hd. rewrite elem_of_nil. tauto. }
  destruct Hs as (Hb & Hb0 & Hs). rewrite Hb. destruct (Z.eqb_spec b 0); [done|]. pose proof (Hm c) as Hbr. rewrite Hb in Hbr.
  assert (byteset_add bs b (b / 64) <> 0) as Hw.
  { intros E. assert (byteset_has (byteset_add bs b) b <> 0) as Hh by (apply byteset_add_has; [lia|lia|by left]).
    unfold byteset_has in Hh. by rewrite E in Hh. }
  destruct (Z.eqb_spec (byteset_add bs b (b / 64)) 0); [done|].
  destruct (IH (c + 1) set (byteset_add bs b) Hs) as (bs' & -> & H'); [lia|]. exists bs'. split; [done|].
  intros d Hd. rewrite H', byteset_add_has, elem_of_cons by lia. tauto.
Qed.

Lemma byteset_scan_spec fuel m a l bs set : mem_ok m -> cstr m a l -> (length l < fuel)%nat ->
  (forall d, 0 <= d -> byteset_has bs d <> 0 <-> d ∈ set) ->
  byteset_scan fuel m a bs = Ok (a + span_length (fun c => negb (among set c)) l).
Proof.
  intros Hm Hs Hf Hbs. revert a l Hs Hf. induction fuel as [|fuel IH]; intros a l Hs Hf; [lia|]. cbn [byteset_scan].
  destruct l as [|c l]; cbn in Hs, Hf; [rewrite Hs; cbn; f_equal; lia|].
  destruct Hs as (Hc & Hc0 & Hs). pose proof (Hm a) as Hr. rewrite Hc in *. destruct (Z.eqb_spec c 0); [done|]. cbn [negb andb span_length].
  assert ((byteset_has bs c =? 0) = negb (among set c)) as ->.
  { unfold among. destruct (Z.eqb_spec (byteset_has bs c) 0) as [E|E].
    - rewrite bool_decide_eq_false_2; [done|]. rewrite <- Hbs by lia. tauto.
    - rewrite bool_decide_eq_true_2; [done|]. by apply Hbs; [lia|]. }
  destruct (negb (among set c)); [|f_equal; lia]. rewrite (IH _ l) by (done || lia). f_equal. lia.
Qed.

(** The span by the place where it ends. *)
Lemma span_length_at P m a l i : cstr m a l -> 0 <= i <= Z.of_nat (length l) ->
  (forall k, 0 <= k < i -> P (m (a + k)) = true) -> (i < Z.of_nat (length l) -> P (m (a + i)) = false) -> span_length P l = i.
Proof.
  revert a i. induction l as [|c l IH]; intros a i Hs Hi Hk Hend; cbn in *; [lia|]. destruct Hs as (<- & Hc & Hs).
  destruct (decide (i = 0)) as [-> |].
  { rewrite Z.add_0_r in Hend. by rewrite Hend by lia. }
  pose proof (Hk 0 ltac:(lia)) as H0. rewrite Z.add_0_r in H0. rewrite H0, (IH (a + 1) (i - 1)); [lia|done|lia| |].
  - intros k Hkk. rewrite <- Z.add_assoc. apply Hk. lia.
  - intros Hlt. rewrite <- Z.add_assoc. replace (1 + (i - 1)) with i by lia. apply Hend. lia.
Qed.

Lemma strcspn_single fuel m a l c : mem_ok m -> cstr m a l -> 0 < c < 256 -> (length l < fuel)%nat ->
  (r ← __strchrnul fuel m a c; Ok (r - a)) = Ok (span_length (fun d => negb (among [c] d)) l).
Proof.
  intros Hm Hs Hc Hf. destruct (strchrnul_spec m a (Z.of_nat (length l)) c Hm Hc (cstr_text _ _ _ Hs) fuel ltac:(lia)) as (i & -> & [Hi Ha] & Hstop).
  cbn [mbind outcome_bind]. f_equal. rewrite (span_length_at _ m a l i); [lia|done|done| |]; unfold among, char in *.
  - intros k Hk. rewrite bool_decide_eq_false_2; [done|]. intros E%list_elem_of_singleton. by apply (Ha k).
  - intros Hlt. destruct Hstop as [E|E]; [by destruct (cstr_nonzero m a l i Hs); [lia|]|]. rewrite bool_decide_eq_true_2; [done|]. rewrite E. left.
Qed.

(** [strspn] and [strcspn] compute the length of the longest prefix of a string
    made of characters in a set, or of characters outside it: [strspn] by
    comparing with every character of the set, [strcspn] through its 256-bit
    map, or through the word-at-a-time [__strchrnul] when the set has at most one character. *)
Lemma spans_correct (fuel : nat) (m : mem) (a b : Z) (l set : list Z)
    (Hm : mem_ok m) (Hs : cstr m a l) (Hb : cstr m b set) (Hf : (length l + length set < fuel)%nat) :
  strspn fuel m a b = Ok (span_length (among set) l) /\
  strcspn fuel m a b = Ok (span_length (fun c => negb (among set c)) l).
Proof.
  split.
  - unfold strspn. rewrite (strspn_loop_spec fuel m a b l set) by done. cbn [mbind outcome_bind]. f_equal. lia.
  - unfold strcspn. pose proof (Hm b) as Hr. destruct set as [|c set]; cbn in Hb, Hf.
    { rewrite Hb. cbn [Z.eqb orb]. unfold __strchrnul. cbn [wrap8 Z.eqb]. change (wrap8 0 =? 0) with true. cbn iota.
      rewrite (strlen_spec fuel m a l) by (done || lia). cbn [mbind outcome_bind]. f_equal.
      rewrite (span_length_at _ m a l (Z.of_nat (length l))); [lia|done|lia| |lia]. intros k Hk. unfold among.
      rewrite bool_decide_eq_false_2; [done|]. apply not_elem_of_nil. }
    destruct Hb as (E & Hc0 & Hb). rewrite E in *. destruct (Z.eqb_spec c 0); [done|]. cbn [orb]. destruct set as [|d set].
    { cbn in Hb. rewrite Hb. cbn [Z.eqb]. apply strcspn_single; (done || lia). }
    pose proof Hb as (E' & Hd0 & _). rewrite E'. destruct (Z.eqb_spec d 0); [done|].
    destruct (byteset_fill_spec fuel m b (c :: d :: set) (fun _ => 0) Hm) as (bs & -> & Hbs); [by cbn|cbn in *; lia|].
    cbn [mbind outcome_bind]. rewrite (byteset_scan_spec fuel m a l bs (c :: d :: set)); [cbn [mbind outcome_bind]; f_equal; lia|done|done|lia|].
    intros x Hx. rewrite Hbs by done. unfold byteset_has. rewrite Z.land_0_l. tauto.
Qed.

(** C19: [critical_factorization] returns for every needle, after at most twice its
    length iterations of each loop, a position and a period with which the two-way search
    is sound: every word repeated around the position is longer than the left half and its
    length is a period of the whole needle, and the period returned is the
    least of the right half. *)
Theorem critical_factorization_terminates (m : mem) (needle n : Z) (fuel : nat)
    (Hn : 1 <= n < 2 ^ 63) (Hf : 2 * n < Z.of_nat fuel) :
  exists l per, critical_factorization fuel m needle n = Ok (l, per) /\ 0 <= l < n /\ l + per <= n /\
    (forall r, 1 <= r -> repeats (char m needle) n l r -> l < r /\ period_from (char m needle) n 0 r) /\
    least_period (char m needle) n l per.
Proof.
  destruct (critical_factorization_spec m needle n Hn fuel Hf) as (l & per & H & [[Hl Hp] Hr Hper]).
  exists l, per. split; [done|]. split; [done|]. split; [done|]. by split.
Qed.

(** ** Witnesses *)

(** A memory with a string at 1000 and another at 2000. *)
Definition two_strings (a b : list Z) : mem := fun p =>
  if Prelude.between 1000 p 2000 then nth (Z.to_nat (p - 1000)) a 0 else if Prelude.between 2000 p 3000 then nth (Z.to_nat (p - 2000)) b 0 else 0.

Definition sample_haystack : list Z := [120; 97; 98; 99; 97; 98; 99; 97; 98; 100; 121].
Definition sample_needle : list Z := [97; 98; 99; 97; 98; 100].

Lemma two_strings_ok : mem_ok (two_strings sample_haystack sample_needle).
Proof.
  assert (forall l k, Forall (fun c => 0 <= c < 256) l -> 0 <= nth k l 0 < 256) as H.
  { intros l k Hl. rewrite List.Forall_forall in Hl. destruct (nth_in_or_default k l 0) as [Hi| ->]; [by apply Hl|lia]. }
  intros p. unfold two_strings. repeat destr_cmp; try lia; apply H; repeat constructor; lia.
Qed.

Lemma strstr_first_occurrence_witness :
  strstr 40 (two_strings sample_haystack sample_needle) 1000 2000 = Ok 1004.
Proof.
  change 1004 with (sub_address 1000 (first_sub sample_needle sample_haystack)).
  apply (strstr_first_occurrence 40 (two_strings sample_haystack sample_needle)).
  - exact two_strings_ok.
  - repeat split; vm_compute; discriminate.
  - repeat split; vm_compute; discriminate.
  - reflexivity.
  - reflexivity.
  - cbn. lia.
Defined.

Lemma spans_correct_witness :
  strspn 40 (two_strings sample_haystack sample_needle) 1001 2000 = Ok 9 /\
  strcspn 40 (two_strings sample_haystack sample_needle) 1000 2000 = Ok 1.
Proof.
  split.
  - apply (spans_correct 40 (two_strings sample_haystack sample_needle) 1001 2000 (tail sample_haystack) sample_needle);
      [exact two_strings_ok|repeat split; vm_compute; discriminate|repeat split; vm_compute; discriminate|cbn; lia].
  - apply (spans_correct 40 (two_strings sample_haystack sample_needle) 1000 2000 sample_haystack sample_needle);
      [exact two_strings_ok|repeat split; vm_compute; discriminate|repeat split; vm_compute; discriminate|cbn; lia].
Defined.

Lemma critical_factorization_terminates_witness :
  exists l per, critical_factorization 13 (two_strings sample_haystack sample_needle) 2000 6 = Ok (l, per) /\ l + per <= 6.
Proof.
  destruct (critical_factorization_terminates (two_strings sample_haystack sample_needle) 2000 6 13) as (l & per & H & _ & H1 & _);
    [lia|lia|]. exists l, per. by split.
Defined.
