(* ===== verification/Tmpfs.v ===== *)
(** * The temporary file system: tmpfs.c

    Every structure is in the byte memory, at the offsets the C compiler gives
    its fields, and is allocated with the modelled [kmalloc_byte]: what the
    code leaves uninitialised keeps the old contents of the heap, and a write
    past the end of an array reaches whatever lies there.  [kprintf] output is
    left out. *)

From Stdlib Require Import String Ascii.
From S2P Require Import Prelude Memory Machine Heap Arena Strings Mutex.

Local Open Scope list_scope.

(** ** Layout *)

(** [tmpfs_header_t] *)
Definition H_NAME : Z := 8.
Definition H_FS_TYPE : Z := 1160.
Definition H_TYPE : Z := 1192.
Definition H_TIMESTAMPS : Z := 1200.
Definition H_MUTEX : Z := 1224.

(** [tmpfs_file_t] and [tmpfs_directory_t], after the header *)
Definition F_SIZE : Z := 1232.
Definition F_DATA : Z := 1240.
Definition F_OPEN_COUNT : Z := 1248.
Definition D_FILES : Z := 1232.
Definition D_MAX_FILES : Z := 1240.
Definition D_NUM_FILES : Z := 1248.
Definition SIZEOF_OBJECT : Z := 1256.
Definition SIZEOF_MUTEX : Z := 16.

(** [vnode_t], [vnode_ops_t], [vfs_t] and [vfs_ops_t] (vfs.h) *)
Definition V_VFSMOUNTEDHERE : Z := 8.
Definition V_OPS : Z := 16.
Definition V_TYPE : Z := 32.
Definition V_DATA : Z := 40.
Definition V_MOUNTED_VFS : Z := 48.
Definition SIZEOF_VNODE : Z := 56.
Definition OP_RD : Z := 0.
Definition OP_WR : Z := 8.
Definition OP_LOOKUP : Z := 24.
Definition OP_CREATE : Z := 32.
Definition OP_REMOVE : Z := 40.
Definition OP_MKDIR : Z := 48.
Definition OP_RMDIR : Z := 56.
Definition OP_RMDIR_NO_ORPHAN : Z := 64.
Definition SIZEOF_VNODE_OPS : Z := 72.
Definition VFS_OPS : Z := 8.
Definition VFS_COVERED : Z := 16.
Definition VFS_TYPE : Z := 40.
Definition SIZEOF_VFS : Z := 48.
Definition SIZEOF_VFS_OPS : Z := 56.

(** [enum vtype] *)
Inductive vtype : Type := VNON | VREG | VDIR | VBLK | VCHR | VLNK | VSOCK | VBAD.

Definition vtype_code (t : vtype) : Z :=
  match t with
  | VNON => 0 | VREG => 1 | VDIR => 2 | VBLK => 3 | VCHR => 4 | VLNK => 5 | VSOCK => 6 | VBAD => 7
  end.

#[export] Instance vtype_eq_dec : EqDecision vtype.
Proof. solve_decision. Defined.

(** The functions whose address the code stores. *)
Inductive fn : Type :=
| VNODE_TMPFS_CREATE_FILE | VNODE_TMPFS_DELETE_FILE | VNODE_TMPFS_CREATE_DIRECTORY
| VNODE_TMPFS_DELETE_DIRECTORY | VNODE_TMPFS_DELETE_DIRECTORY_NO_ORPHAN | VNODE_TMPFS_LOOKUP
| VNODE_TMPFS_READ_FROM_FILE | VNODE_TMPFS_WRITE_TO_FILE | VNODE_MOUNT_VFS.

(** The bytes of a string literal, without the terminator. *)
Fixpoint chars (l : string) : list Z :=
  match l with
  | EmptyString => []
  | String c l' => Z.of_N (N_of_ascii c) :: chars l'
  end.

Fixpoint put_bytes (m : mem) (a : Z) (l : list Z) : mem :=
  match l with
  | [] => m
  | c :: l' => put_bytes (store8 m a c) (a + 1) l'
  end.

(** Unfolds the field offsets, for [lia]. *)
Ltac layout :=
  unfold SIZEOF_MUTEX, SIZEOF_OBJECT, H_NAME, H_FS_TYPE, H_TYPE, H_TIMESTAMPS, H_MUTEX, F_SIZE, F_DATA,
    F_OPEN_COUNT, D_FILES, D_MAX_FILES, D_NUM_FILES in *.

Section Tmpfs.

(** Where the linker put the string literals and the functions; [fuel] bounds
    the string loops. *)
Context (lit : string -> Z) (addr : fn -> Z) (fuel : nat).

(** ** Creation *)

(** [for (int i = 0; i < dir->max_files; i++) if (dir->files[i] == NULL) {
    free_index = i; break; }], which leaves [free_index] at 0 when no slot is
    free. *)
Fixpoint scan_free (n : nat) (i : Z) (m : mem) (files : Z) : Z :=
  match n with
  | O => 0
  | S n' => if load64 m (files + 8 * i) =? NULL then i else scan_free n' (i + 1) m files
  end.

Definition find_free_index (m : mem) (dir : Z) : outcome Z :=
  files ← deref64 m dir D_FILES;
  f0 ← deref64 m files 0;
  if f0 =? NULL then Ok 0
  else Ok (scan_free (Z.to_nat (load64 m (dir + D_MAX_FILES))) 0 m files).

(** The header fields both kinds of object set, up to [strcpy(fs_type, "tmpfs")]. *)
Definition new_header (p type : Z) (s : mst) : outcome mst :=
  if p =? NULL then Err NullDeref
  else
    let m := store8 (store8 (store8 (mm s) p 114) (p + 1) 119) (p + 2) 120 in
    let m := store16 (store16 m (p + 4) 0) (p + 6) 0 in
    let m := store8 m (p + H_TYPE) type in
    '(mutex, s) ← kmalloc_byte SIZEOF_MUTEX (set_mm m s);
    if mutex =? NULL then Err NullDeref
    else
      let m := store8 (store64 (mm s) (p + H_MUTEX) mutex) mutex 0 in
      Ok (set_mm (put_bytes m (p + H_FS_TYPE) (chars "tmpfs" ++ [0])) s).

(** [for (i < 3) timestamps[i] = 0; strncpy(name, name, kstrlen(name)+1)] *)
Definition stamp_and_name (p name : Z) (s : mst) : outcome mst :=
  let m := store64 (store64 (store64 (mm s) (p + H_TIMESTAMPS) 0) (p + H_TIMESTAMPS + 8) 0)
             (p + H_TIMESTAMPS + 16) 0 in
  l ← kstrlen fuel m name;
  m ← strncpy fuel m (p + H_NAME) name (l + 1);
  Ok (set_mm m s).

(** [for (i = lo; i < lo + n; i++) files[i] = NULL;] *)
Fixpoint clear_files (n : nat) (i : Z) (m : mem) (files : Z) : mem :=
  match n with
  | O => m
  | S n' => clear_files n' (i + 1) (store64 m (files + 8 * i) 0) files
  end.

(** [dir->num_files++] and the reallocation of a full array. *)
Definition grow_dir (dir : Z) (s : mst) : outcome mst :=
  let num := wrap64 (load64 (mm s) (dir + D_NUM_FILES) + 1) in
  let m := store64 (mm s) (dir + D_NUM_FILES) num in
  let max := load64 m (dir + D_MAX_FILES) in
  if num =? max then
    let max := wrap64 (max + 32) in
    let m := store64 m (dir + D_MAX_FILES) max in
    '(files, s) ← krealloc_byte (load64 m (dir + D_FILES)) (wrap64 (max * 8)) (set_mm m s);
    let m := store64 (mm s) (dir + D_FILES) files in
    if files =? NULL then Err NullDeref
    else Ok (set_mm (clear_files 32 (max - 32) m files) s)
  else Ok (set_mm m s).

(** The new file, up to [new_file->size = size]. *)
Definition build_file (name size : Z) (s : mst) : outcome (Z * mst) :=
  '(new_file, s) ← kmalloc_byte SIZEOF_OBJECT s;
  s ← new_header new_file 0 s;
  let s := set_mm (store64 (mm s) (new_file + F_OPEN_COUNT) 0) s in
  s ← stamp_and_name new_file name s;
  Ok (new_file, set_mm (store64 (mm s) (new_file + F_SIZE) size) s).

(** [acquire_mutex(dir->header.mutex); dir->files[free_index] = p;] *)
Definition put_entry (dir free_index p : Z) (s : mst) : outcome mst :=
  s ← acquire_mutex_at (load64 (mm s) (dir + H_MUTEX)) s;
  Ok (set_mm (store64 (mm s) (load64 (mm s) (dir + D_FILES) + 8 * free_index) p) s).

(** [num_files++], the reallocation, and [release_mutex(dir->header.mutex)]. *)
Definition close_entry (dir : Z) (s : mst) : outcome mst :=
  s ← grow_dir dir s;
  release_mutex_at (load64 (mm s) (dir + H_MUTEX)) s.

Definition tmpfs_create_file (dir name size : Z) (s : mst) : outcome (Z * mst) :=
  let '(irq, s) := irq_disable_save s in
  free_index ← find_free_index (mm s) dir;
  '(new_file, s) ← build_file name size s;
  s ← put_entry dir free_index new_file s;
  '(data, s) ← kmalloc_byte size s;
  s ← close_entry dir (set_mm (store64 (mm s) (new_file + F_DATA) data) s);
  Ok (new_file, irq_restore irq s).

(** The new directory; [parent_max] is [dir->max_files], to which the second
    clearing loop runs. *)
Definition build_directory (dir name : Z) (s : mst) : outcome (Z * mst) :=
  '(new_dir, s) ← kmalloc_byte SIZEOF_OBJECT s;
  s ← new_header new_dir 1 s;
  let m := store64 (store64 (mm s) (new_dir + D_MAX_FILES) 32) (new_dir + D_NUM_FILES) 0 in
  '(files, s) ← kmalloc_byte (32 * 8) (set_mm m s);
  let m := store64 (mm s) (new_dir + D_FILES) files in
  if files =? NULL then Err NullDeref
  else
    s ← stamp_and_name new_dir name (set_mm (clear_files 32 0 m files) s);
    let parent_max := load64 (mm s) (dir + D_MAX_FILES) in
    Ok (new_dir, set_mm (clear_files (Z.to_nat parent_max) 0 (mm s) (load64 (mm s) (new_dir + D_FILES))) s).

Definition tmpfs_create_directory (dir name : Z) (s : mst) : outcome (Z * mst) :=
  let '(irq, s) := irq_disable_save s in
  free_index ← find_free_index (mm s) dir;
  '(new_dir, s) ← build_directory dir name s;
  s ← put_entry dir free_index new_dir s;
  s ← close_entry dir s;
  Ok (new_dir, irq_restore irq s).

(** ** Search and deletion *)

(** The loops over [dir->files]: the first index whose entry is not null and
    passes the test. *)
Fixpoint find_entry (n : nat) (i : Z) (m : mem) (files : Z) (test : Z -> outcome bool) : outcome (option Z) :=
  match n with
  | O => Ok None
  | S n' =>
      let e := load64 m (files + 8 * i) in
      if e =? NULL then find_entry n' (i + 1) m files test
      else
        b ← test e;
        if (b : bool) then Ok (Some i) else find_entry n' (i + 1) m files test
  end.

Definition scan_dir (m : mem) (dir : Z) (test : Z -> outcome bool) : outcome (option Z) :=
  if dir =? NULL then Err NullDeref
  else find_entry (Z.to_nat (load64 m (dir + D_MAX_FILES))) 0 m (load64 m (dir + D_FILES)) test.

Definition name_is (m : mem) (name e : Z) : outcome bool :=
  c ← strcmp fuel m (e + H_NAME) name; Ok (c =? 0).

Definition type_of (m : mem) (e : Z) : Z := m (e + H_TYPE).

Definition entry_at (m : mem) (dir i : Z) : Z := load64 m (load64 m (dir + D_FILES) + 8 * i).

Definition tmpfs_lookup (dir name : Z) (s : mst) : outcome Z :=
  r ← scan_dir (mm s) dir (name_is (mm s) name);
  Ok (match r with Some i => entry_at (mm s) dir i | None => NULL end).

(** [acquire; dir->files[i] = NULL; dir->num_files--; release] *)
Definition drop_entry (dir i : Z) (s : mst) : outcome mst :=
  s ← acquire_mutex_at (load64 (mm s) (dir + H_MUTEX)) s;
  let m := store64 (mm s) (load64 (mm s) (dir + D_FILES) + 8 * i) 0 in
  let m := store64 m (dir + D_NUM_FILES) (wrap64 (load64 m (dir + D_NUM_FILES) - 1)) in
  release_mutex_at (load64 m (dir + H_MUTEX)) (set_mm m s).

(** The three [kfree]s of a deleted file. *)
Definition free_file (e : Z) (s : mst) : outcome mst :=
  s ← kfree (load64 (mm s) (e + F_DATA)) s;
  s ← kfree (load64 (mm s) (e + H_MUTEX)) s;
  kfree e s.

Definition tmpfs_delete_file (dir name : Z) (s : mst) : outcome mst :=
  r ← scan_dir (mm s) dir
        (fun e => b ← name_is (mm s) name e; Ok (b && (type_of (mm s) e =? 0)));
  match r with
  | None => Ok s
  | Some i =>
      let e := entry_at (mm s) dir i in
      if negb (load64 (mm s) (e + F_OPEN_COUNT) =? 0) then Ok s
      else s ← free_file e s; drop_entry dir i s
  end.

Definition tmpfs_delete_directory (dir name : Z) (s : mst) : outcome mst :=
  r ← scan_dir (mm s) dir
        (fun e => b ← name_is (mm s) name e; Ok (b && (type_of (mm s) e =? 1)));
  match r with
  | None => Ok s
  | Some i =>
      let e := entry_at (mm s) dir i in
      s ← kfree (load64 (mm s) (e + H_MUTEX)) s;
      s ← kfree e s;
      drop_entry dir i s
  end.

(** Recursive into the directory of that name, with the same name; the inner
    loop over its files breaks at once. *)
Fixpoint tmpfs_delete_directory_no_orphan (depth : nat) (dir name : Z) (s : mst) : outcome mst :=
  match depth with
  | O => Err OutOfFuel
  | S d =>
      r ← scan_dir (mm s) dir
            (fun e => b ← name_is (mm s) name e;
               Ok (b && ((type_of (mm s) e =? 1) || (type_of (mm s) e =? 0))));
      match r with
      | None => Ok s
      | Some i =>
          let e := entry_at (mm s) dir i in
          if type_of (mm s) e =? 1 then
            s ← tmpfs_delete_directory_no_orphan d e name s;
            s ← acquire_mutex_at (load64 (mm s) (dir + H_MUTEX)) s;
            let e := entry_at (mm s) dir i in
            s ← kfree (load64 (mm s) (e + H_MUTEX)) s;
            s ← kfree e s;
            let m := store64 (mm s) (load64 (mm s) (dir + D_FILES) + 8 * i) 0 in
            let m := store64 m (dir + D_NUM_FILES) (wrap64 (load64 m (dir + D_NUM_FILES) - 1)) in
            release_mutex_at (load64 m (dir + H_MUTEX)) (set_mm m s)
          else s ← free_file e s; drop_entry dir i s
      end
  end.

(** ** Contents *)

(** The block that moves the contents when they do not fit; with no data yet the
    mutex is released without having been taken. *)
Definition extend_file (file end_ : Z) (s : mst) : outcome mst :=
  '(new_file, s) ← kmalloc_byte end_ s;
  s ← (if load64 (mm s) (file + F_DATA) =? NULL then Ok s
       else
         s ← acquire_mutex_at (load64 (mm s) (file + H_MUTEX)) s;
         let m := memcpy (mm s) new_file (load64 (mm s) (file + F_DATA)) (load64 (mm s) (file + F_SIZE)) in
         kfree (load64 m (file + F_DATA)) (set_mm m s));
  let m := store64 (store64 (mm s) (file + F_DATA) new_file) (file + F_SIZE) end_ in
  release_mutex_at (load64 m (file + H_MUTEX)) (set_mm m s).

Definition tmpfs_write_to_file (file data size offset : Z) (s : mst) : outcome mst :=
  let end_ := wrap64 (offset + size) in
  s ← (if load64 (mm s) (file + F_SIZE) <? end_ then extend_file file end_ s else Ok s);
  s ← acquire_mutex_at (load64 (mm s) (file + H_MUTEX)) s;
  let m := memcpy (mm s) (wrap64 (load64 (mm s) (file + F_DATA) + offset)) data size in
  release_mutex_at (load64 m (file + H_MUTEX)) (set_mm m s).

(** Past the end of the file it returns 1. *)
Definition tmpfs_read_from_file (file data size offset : Z) (s : mst) : outcome (Z * mst) :=
  let fsize := load64 (mm s) (file + F_SIZE) in
  if fsize <=? offset then Ok (1, s)
  else
    let count := fsize - offset in
    let count := if size <? count then size else count in
    s ← acquire_mutex_at (load64 (mm s) (file + H_MUTEX)) s;
    let m := memcpy (mm s) data (wrap64 (load64 (mm s) (file + F_DATA) + offset)) count in
    s ← release_mutex_at (load64 m (file + H_MUTEX)) (set_mm m s);
    Ok (count, s).

(** ** vnodes

    [vfs_tmpfs] is the global of tmpfs.c. *)

Definition tmpfs_link_vnode (vfs_tmpfs file_object : Z) (type : vtype) (s : mst) : outcome (Z * mst) :=
  '(new_vnode, s) ← kmalloc_byte SIZEOF_VNODE s;
  if new_vnode =? NULL then Err NullDeref
  else
    let s := set_mm (store32 (mm s) (new_vnode + V_TYPE) (vtype_code type)) s in
    '(ops, s) ← kmalloc_byte SIZEOF_VNODE_OPS s;
    let m := store64 (mm s) (new_vnode + V_OPS) ops in
    m ← match type with
        | VDIR =>
            m ← assign64 m ops OP_CREATE (addr VNODE_TMPFS_CREATE_FILE);
            m ← assign64 m ops OP_REMOVE (addr VNODE_TMPFS_DELETE_FILE);
            m ← assign64 m ops OP_MKDIR (addr VNODE_TMPFS_CREATE_DIRECTORY);
            m ← assign64 m ops OP_RMDIR (addr VNODE_TMPFS_DELETE_DIRECTORY);
            m ← assign64 m ops OP_RMDIR_NO_ORPHAN (addr VNODE_TMPFS_DELETE_DIRECTORY_NO_ORPHAN);
            assign64 m ops OP_LOOKUP (addr VNODE_TMPFS_LOOKUP)
        | VREG =>
            m ← assign64 m ops OP_RD (addr VNODE_TMPFS_READ_FROM_FILE);
            assign64 m ops OP_WR (addr VNODE_TMPFS_WRITE_TO_FILE)
        | _ => Ok m
        end;
    let m := store64 m (new_vnode + V_VFSMOUNTEDHERE) vfs_tmpfs in
    Ok (new_vnode, set_mm (store64 m (new_vnode + V_DATA) file_object) s).

(** A vnode that covers a mounted file system first compares [name] with the
    name of that file system's root.  For an entry that is neither a file nor
    a directory the C function returns an uninitialised variable. *)
Definition vnode_tmpfs_lookup (vfs_tmpfs vnode name : Z) (s : mst) : outcome (Z * mst) :=
  mounted ← deref64 (mm s) vnode V_MOUNTED_VFS;
  hit ← (if mounted =? NULL then Ok None
         else
           covered ← deref64 (mm s) mounted VFS_COVERED;
           root ← deref64 (mm s) covered V_DATA;
           b ← name_is (mm s) name root;
           Ok (if (b : bool) then Some covered else None));
  match hit with
  | Some covered => Ok (covered, s)
  | None =>
      temp ← tmpfs_lookup (load64 (mm s) (vnode + V_DATA)) name s;
      if temp =? NULL then Ok (NULL, s)
      else if type_of (mm s) temp =? 0 then tmpfs_link_vnode vfs_tmpfs temp VREG s
      else if type_of (mm s) temp =? 1 then tmpfs_link_vnode vfs_tmpfs temp VDIR s
      else Err BadCall
  end.

Definition vnode_tmpfs_create_file (vfs_tmpfs vnode name size : Z) (s : mst) : outcome (Z * mst) :=
  '(file, s) ← tmpfs_create_file (load64 (mm s) (vnode + V_DATA)) name size s;
  tmpfs_link_vnode vfs_tmpfs file VREG s.

Definition vnode_tmpfs_delete_file (vnode name : Z) (s : mst) : outcome mst :=
  tmpfs_delete_file (load64 (mm s) (vnode + V_DATA)) name s.

Definition vnode_tmpfs_create_directory (vfs_tmpfs vnode name : Z) (s : mst) : outcome (Z * mst) :=
  '(dir, s) ← tmpfs_create_directory (load64 (mm s) (vnode + V_DATA)) name s;
  tmpfs_link_vnode vfs_tmpfs dir VDIR s.

Definition vnode_tmpfs_delete_directory (vnode name : Z) (s : mst) : outcome mst :=
  tmpfs_delete_directory (load64 (mm s) (vnode + V_DATA)) name s.

Definition vnode_tmpfs_delete_directory_no_orphan (depth : nat) (vnode name : Z) (s : mst) : outcome mst :=
  tmpfs_delete_directory_no_orphan depth (load64 (mm s) (vnode + V_DATA)) name s.

Definition vnode_tmpfs_write_to_file (vnode data size offset : Z) (s : mst) : outcome mst :=
  tmpfs_write_to_file (load64 (mm s) (vnode + V_DATA)) data size offset s.

Definition vnode_tmpfs_read_from_file (vnode data size offset : Z) (s : mst) : outcome (Z * mst) :=
  tmpfs_read_from_file (load64 (mm s) (vnode + V_DATA)) data size offset s.

(** ** init_tmpfs *)

(** The hand-made parent of the root directory: two slots in an array of 32
    bytes. *)
Definition root_dir_pointer (s : mst) : outcome (Z * mst) :=
  '(p, s) ← kmalloc_byte SIZEOF_OBJECT s;
  m ← assign64 (mm s) p D_MAX_FILES 2;
  m ← assign64 m p D_NUM_FILES 0;
  '(mutex, s) ← kmalloc_byte SIZEOF_MUTEX (set_mm m s);
  m ← assign64 (mm s) p H_MUTEX mutex;
  if mutex =? NULL then Err NullDeref
  else
    '(files, s) ← kmalloc_byte (2 * 2 * 8) (set_mm (store8 m mutex 0) s);
    m ← assign64 (mm s) p D_FILES files;
    if files =? NULL then Err NullDeref
    else Ok (p, set_mm (clear_files 2 0 m files) s).

(** The calls after the file system is built: a self-test that creates and
    deletes entries.  The two lookups that are printed dereference their
    result. *)
Definition tmpfs_self_test (depth : nat) (root_dir : Z) (s : mst) : outcome mst :=
  '(_, s) ← tmpfs_create_file root_dir (lit "test file") 4096 s;
  '(_, s) ← tmpfs_create_directory root_dir (lit "test dir") s;
  s ← tmpfs_delete_file root_dir (lit "test file") s;
  s ← tmpfs_delete_directory root_dir (lit "test dir") s;
  '(test_dir_1, s) ← tmpfs_create_directory root_dir (lit "test dir 1") s;
  '(_, s) ← tmpfs_create_file test_dir_1 (lit "test file 1") 1000 s;
  '(test_dir_2, s) ← tmpfs_create_directory test_dir_1 (lit "test dir 2") s;
  '(_, s) ← tmpfs_create_file test_dir_2 (lit "test file 2") 1000 s;
  s ← tmpfs_delete_directory_no_orphan depth test_dir_1 (lit "test dir 2") s;
  s ← tmpfs_delete_file root_dir (lit "test file 2") s;
  s ← tmpfs_delete_file root_dir (lit "test file 1") s;
  s ← tmpfs_delete_file root_dir (lit "test file 1") s;
  '(_, s) ← tmpfs_create_file test_dir_1 (lit "test file") 4096 s;
  temp ← tmpfs_lookup root_dir (lit "test dir 1") s;
  _ ← deref64 (mm s) temp H_NAME;
  _ ← tmpfs_lookup root_dir (lit "test dir") s;
  temp1 ← tmpfs_lookup test_dir_1 (lit "test file") s;
  _ ← deref64 (mm s) temp1 H_NAME;
  Ok s.

(** [vfs_tmpfs], which is also what the function returns, and the state. *)
Definition init_tmpfs (depth : nat) (s : mst) : outcome (Z * mst) :=
  '(p, s) ← root_dir_pointer s;
  '(root_dir, s) ← tmpfs_create_directory p (lit "TMPFS_ROOT") s;
  '(vfs_tmpfs, s) ← kmalloc_byte SIZEOF_VFS s;
  '(root_vnode, s) ← tmpfs_link_vnode vfs_tmpfs root_dir VDIR s;
  m ← assign64 (mm s) vfs_tmpfs VFS_COVERED root_vnode;
  '(vops, s) ← kmalloc_byte SIZEOF_VFS_OPS (set_mm m s);
  m ← assign64 (mm s) vfs_tmpfs VFS_OPS vops;
  m ← assign64 m vops 0 (addr VNODE_MOUNT_VFS);
  let s := set_mm (store32 m (vfs_tmpfs + VFS_TYPE) 0) s in
  s ← tmpfs_self_test depth root_dir s;
  Ok (vfs_tmpfs, s).

(** ** Directories as maps from names to entries *)

Definition slot (m : mem) (dir i : Z) : Z := entry_at m dir i.
Definition max_files (m : mem) (dir : Z) : Z := load64 m (dir + D_MAX_FILES).

(** The entry [e] is named [nm]. *)
Definition named (m : mem) (e : Z) (nm : list Z) : Prop := cstr m (e + H_NAME) nm.

(** Every entry has a terminated name. *)
Definition names_ok (m : mem) (dir : Z) : Prop :=
  forall i, 0 <= i < max_files m dir -> slot m dir i <> NULL ->
    exists nm, named m (slot m dir i) nm /\ (length nm < fuel)%nat.

(** [e] is the first entry of [dir] named [nm]; no entry is named [nm]. *)
Definition finds (m : mem) (dir : Z) (nm : list Z) (e : Z) : Prop :=
  exists i, 0 <= i < max_files m dir /\ slot m dir i = e /\ e <> NULL /\ named m e nm /\
    forall j, 0 <= j < i -> slot m dir j = NULL \/ ~ named m (slot m dir j) nm.
Definition misses (m : mem) (dir : Z) (nm : list Z) : Prop :=
  forall j, 0 <= j < max_files m dir -> slot m dir j = NULL \/ ~ named m (slot m dir j) nm.

Lemma find_entry_spec n i m files test (b : Z -> bool) :
  (forall j, i <= j < i + Z.of_nat n -> load64 m (files + 8 * j) <> NULL ->
     test (load64 m (files + 8 * j)) = Ok (b (load64 m (files + 8 * j)))) ->
  let skipped j := load64 m (files + 8 * j) = NULL \/ b (load64 m (files + 8 * j)) = false in
  exists r, find_entry n i m files test = Ok r /\
    match r with
    | Some j => i <= j < i + Z.of_nat n /\ load64 m (files + 8 * j) <> NULL /\
                b (load64 m (files + 8 * j)) = true /\ forall j', i <= j' < j -> skipped j'
    | None => forall j', i <= j' < i + Z.of_nat n -> skipped j'
    end.
Proof.
  revert i. induction n as [|n IH]; intros i Ht skipped; cbn [find_entry].
  { exists None. split; [done|]. intros. lia. }
  destruct (IH (i + 1)) as (r & Hr & Hp); [intros j Hj; apply Ht; lia|].
  assert (skipped i -> exists r, find_entry n (i + 1) m files test = Ok r /\
    match r with
    | Some j => i <= j < i + Z.of_nat (S n) /\ load64 m (files + 8 * j) <> NULL /\
                b (load64 m (files + 8 * j)) = true /\ forall j', i <= j' < j -> skipped j'
    | None => forall j', i <= j' < i + Z.of_nat (S n) -> skipped j'
    end) as Hskip.
  { intros Hi. exists r. split; [done|]. destruct r as [j|].
    - destruct Hp as (? & ? & ? & Hp). split_and!; [lia|lia|done|done|].
      intros j' Hj'. destruct (Z.eq_dec j' i) as [->|]; [done|]. apply Hp. lia.
    - intros j' Hj'. destruct (Z.eq_dec j' i) as [->|]; [done|]. apply Hp. lia. }
  destruct (Z.eqb_spec (load64 m (files + 8 * i)) NULL) as [He|He]; [apply Hskip; by left|].
  rewrite (Ht i) by (done || lia). cbn [mbind outcome_bind].
  destruct (b (load64 m (files + 8 * i))) eqn:Hb; [|apply Hskip; by right].
  exists (Some i). split; [done|]. split_and!; [lia|lia|done|done|]. intros. lia.
Qed.

(** [strcmp] against a name decides [named]. *)
Lemma name_is_spec m name e nm nm' :
  cstr m name nm -> named m e nm' -> (length nm' < fuel)%nat ->
  exists b : bool, name_is m name e = Ok b /\ (b = true <-> named m e nm).
Proof.
  intros Hn He Hf. unfold name_is, named in *.
  destruct (strcmp_spec fuel m (e + H_NAME) name nm' nm He Hn Hf) as (v & -> & Hv).
  exists (v =? 0). split; [done|]. rewrite Z.eqb_eq, Hv. split; [by intros <-|].
  intros He'. by eapply cstr_unique.
Qed.

Lemma tmpfs_lookup_spec dir name nm s :
  dir <> NULL -> names_ok (mm s) dir -> cstr (mm s) name nm ->
  exists e, tmpfs_lookup dir name s = Ok e /\
    (e <> NULL /\ finds (mm s) dir nm e \/ e = NULL /\ misses (mm s) dir nm).
Proof.
  intros Hdir Hok Hn. set (m := mm s) in *. unfold tmpfs_lookup, scan_dir.
  fold m. destruct (Z.eqb_spec dir NULL); [done|].
  set (b e := match name_is m name e with Ok b => b | Err _ => false end).
  assert (forall j, 0 <= j < 0 + Z.of_nat (Z.to_nat (max_files m dir)) ->
    slot m dir j <> NULL -> name_is m name (slot m dir j) = Ok (b (slot m dir j)) /\
      (b (slot m dir j) = true <-> named m (slot m dir j) nm)) as Hb.
  { intros j Hj He. destruct (Hok j ltac:(lia) He) as (nm' & Hnm & Hf).
    destruct (name_is_spec m name (slot m dir j) nm nm' Hn Hnm Hf) as (b0 & Hb0 & Hb1).
    unfold b. rewrite Hb0. done. }
  destruct (find_entry_spec (Z.to_nat (max_files m dir)) 0 m (load64 m (dir + D_FILES)) (name_is m name) b)
    as (r & Hr & Hp); [intros j Hj He; by apply Hb|].
  unfold max_files in Hr. rewrite Hr. cbn [mbind outcome_bind].
  assert (forall j, 0 <= j < 0 + Z.of_nat (Z.to_nat (max_files m dir)) ->
    slot m dir j = NULL \/ b (slot m dir j) = false -> slot m dir j = NULL \/ ~ named m (slot m dir j) nm) as Hsk.
  { intros j Hj [?|Hbj]; [by left|]. destruct (Z.eq_dec (slot m dir j) NULL) as [|He]; [by left|]. right.
    rewrite <- (proj2 (Hb j Hj He)), Hbj. done. }
  destruct r as [i|]; (eexists; split; [done|]).
  - left. destruct Hp as (Hi & He & Hbi & Hlt). split; [done|]. exists i. split_and!; [lia|lia|done|done| |].
    + by apply (Hb i Hi He).
    + intros j Hj. apply Hsk; [lia|]. apply Hlt. lia.
  - right. split; [done|]. intros j Hj. apply Hsk; [lia|]. apply Hp. lia.
Qed.

(** ** The effect of creating a file *)

Definition dir_files (m : mem) (dir : Z) : Z := load64 m (dir + D_FILES).
Definition dir_mutex (m : mem) (dir : Z) : Z := load64 m (dir + H_MUTEX).

(** [n] bytes at [a] lie in the part of the heap already handed out. *)
Definition live (k : nat) (a n : Z) : Prop := HEAP_START_VIRT_DEFINED <= a /\ a + n <= node_addr k.

(** The bytes lie outside the heap. *)
Definition outside_heap (s : mst) (a n : Z) : Prop :=
  apart HEAP_START_VIRT_DEFINED (64 * Z.of_nat (length (heap_page_head s))) a n.

(** The number of slots in use. *)
Fixpoint count_slots (n : nat) (i : Z) (m : mem) (files : Z) : Z :=
  match n with
  | O => 0
  | S n' => (if load64 m (files + 8 * i) =? NULL then 0 else 1) + count_slots n' (i + 1) m files
  end.

(** The array of a directory: a heap block of its own, long enough, with
    [num_files] slots in use and one free at least. *)
Record array_wf (s : mst) (k : nat) (dir : Z) : Prop := {
  aw_block : exists i l, dir_files (mm s) dir = node_addr i /\ (1 <= i)%nat /\
    block (heap_page_head s) i l /\ 8 * max_files (mm s) dir <= 64 * l;
  aw_live : live k (dir_files (mm s) dir) (8 * max_files (mm s) dir);
  aw_apart : apart (dir_files (mm s) dir) (8 * max_files (mm s) dir) dir SIZEOF_OBJECT;
  aw_count : load64 (mm s) (dir + D_NUM_FILES) =
    count_slots (Z.to_nat (max_files (mm s) dir)) 0 (mm s) (dir_files (mm s) dir);
  aw_free : load64 (mm s) (dir + D_NUM_FILES) < max_files (mm s) dir
}.

(** The structures of a directory are in the heap and do not overlap. *)
Record dir_wf (s : mst) (k : nat) (dir : Z) : Prop := {
  dw_dir : live k dir SIZEOF_OBJECT;
  dw_array : array_wf s k dir;
  dw_mutex : live k (dir_mutex (mm s) dir) SIZEOF_MUTEX /\
    apart (dir_mutex (mm s) dir) SIZEOF_MUTEX dir SIZEOF_OBJECT /\
    apart (dir_mutex (mm s) dir) SIZEOF_MUTEX (dir_files (mm s) dir) (8 * max_files (mm s) dir);
  dw_entries : forall i, 0 <= i < max_files (mm s) dir -> slot (mm s) dir i <> NULL ->
    let e := slot (mm s) dir i in
    live k e SIZEOF_OBJECT /\ apart e SIZEOF_OBJECT dir SIZEOF_OBJECT /\
    apart e SIZEOF_OBJECT (dir_files (mm s) dir) (8 * max_files (mm s) dir) /\
    apart e SIZEOF_OBJECT (dir_mutex (mm s) dir) SIZEOF_MUTEX /\
    exists nm, named (mm s) e nm /\ (length nm < fuel)%nat /\ (length nm < 128)%nat
}.

Lemma count_slots_ext n i m m' f f' :
  (forall j, i <= j < i + Z.of_nat n -> load64 m' (f' + 8 * j) = load64 m (f + 8 * j)) ->
  count_slots n i m' f' = count_slots n i m f.
Proof.
  revert i. induction n as [|n IH]; intros i H; cbn [count_slots]; [done|].
  rewrite H by lia. rewrite IH; [done|]. intros j Hj. apply H. lia.
Qed.

Lemma count_slots_bounds n i m f : 0 <= count_slots n i m f <= Z.of_nat n.
Proof. revert i. induction n as [|n IH]; intros i; cbn [count_slots]; [lia|]. specialize (IH (i + 1)). destr_cmp; lia. Qed.

Lemma count_slots_set n i m m' f f' j :
  i <= j < i + Z.of_nat n -> load64 m (f + 8 * j) = NULL -> load64 m' (f' + 8 * j) <> NULL ->
  (forall j', i <= j' < i + Z.of_nat n -> j' <> j -> load64 m' (f' + 8 * j') = load64 m (f + 8 * j')) ->
  count_slots n i m' f' = count_slots n i m f + 1.
Proof.
  revert i. induction n as [|n IH]; intros i Hj H0 H1 Hrest; [lia|]. cbn [count_slots].
  destruct (Z.eq_dec j i) as [->|Hne].
  - rewrite H0. destruct (Z.eqb_spec (load64 m' (f' + 8 * i)) NULL); [done|].
    rewrite (count_slots_ext n (i + 1) m m' f f'); [destr_cmp; (lia || done)|]. intros j Hj'. apply Hrest; lia.
  - rewrite Hrest by lia. rewrite (IH (i + 1)); [lia|lia|done|done|]. intros j' Hj'. apply Hrest. lia.
Qed.

Lemma count_slots_free n i m f :
  count_slots n i m f < Z.of_nat n -> exists j, i <= j < i + Z.of_nat n /\ load64 m (f + 8 * j) = NULL.
Proof.
  revert i. induction n as [|n IH]; intros i H; cbn [count_slots] in H; [lia|].
  destruct (Z.eqb_spec (load64 m (f + 8 * i)) NULL) as [He|He]; [exists i; split; [lia|done]|].
  destruct (IH (i + 1)) as (j & ? & ?); [lia|]. exists j. split; [lia|done].
Qed.

Lemma count_slots_app n k i m f :
  count_slots (n + k) i m f = count_slots n i m f + count_slots k (i + Z.of_nat n) m f.
Proof.
  revert i. induction n as [|n IH]; intros i; cbn [count_slots Nat.add]; [by rewrite Z.add_0_r|].
  rewrite IH. replace (i + 1 + Z.of_nat n) with (i + Z.of_nat (S n)) by lia. lia.
Qed.

Lemma count_slots_zero n i m f :
  (forall j, i <= j < i + Z.of_nat n -> load64 m (f + 8 * j) = NULL) -> count_slots n i m f = 0.
Proof.
  revert i. induction n as [|n IH]; intros i H; cbn [count_slots]; [done|].
  rewrite H by lia. rewrite IH; [done|]. intros j Hj. apply H. lia.
Qed.

Lemma scan_free_spec n i m files :
  (exists j, i <= j < i + Z.of_nat n /\ load64 m (files + 8 * j) = NULL) ->
  let r := scan_free n i m files in i <= r < i + Z.of_nat n /\ load64 m (files + 8 * r) = NULL.
Proof.
  revert i. induction n as [|n IH]; intros i (j & Hj & Hz); [lia|]. cbn [scan_free].
  destruct (Z.eqb_spec (load64 m (files + 8 * i)) NULL) as [He|He]; [cbn zeta; split; [lia|done]|].
  destruct (IH (i + 1)) as [? ?].
  - exists j. split; [|done]. destruct (Z.eq_dec j i) as [->|]; [done|lia].
  - cbn zeta. split; [lia|done].
Qed.

Lemma find_free_index_spec m dir j :
  dir <> NULL -> dir_files m dir <> NULL -> 0 <= j < max_files m dir -> slot m dir j = NULL ->
  exists i, find_free_index m dir = Ok i /\ 0 <= i < max_files m dir /\ slot m dir i = NULL.
Proof.
  intros Hd Hf Hj Hz. unfold find_free_index, deref64.
  destruct (Z.eqb_spec dir NULL); [done|]. cbn [mbind outcome_bind]. fold (dir_files m dir).
  destruct (Z.eqb_spec (dir_files m dir) NULL); [done|]. cbn [mbind outcome_bind].
  destruct (Z.eqb_spec (load64 m (dir_files m dir + 0)) NULL) as [H0|H0].
  - exists 0. split; [done|]. split; [lia|done].
  - eexists. split; [done|].
    destruct (scan_free_spec (Z.to_nat (max_files m dir)) 0 m (dir_files m dir)) as [? ?].
    + exists j. split; [lia|done].
    + fold (max_files m dir). split; [lia|done].
Qed.

Lemma put_bytes_out m a l x : ~ (a <= x < a + Z.of_nat (length l)) -> put_bytes m a l x = m x.
Proof.
  revert m a. induction l as [|c l IH]; intros m a Hx; cbn [put_bytes]; [done|]. cbn [length] in Hx.
  rewrite IH by lia. apply store8_ne. lia.
Qed.

Lemma put_bytes_ok m a l : mem_ok m -> mem_ok (put_bytes m a l).
Proof. revert m a. induction l; intros; cbn [put_bytes]; auto with willow. Qed.

Lemma nodes_16 : nodes SIZEOF_MUTEX = 1%nat.
Proof. done. Qed.

Lemma node_addr_add k n : node_addr (k + n) = node_addr k + 64 * Z.of_nat n.
Proof. unfold node_addr. lia. Qed.

Lemma new_header_spec p type s k :
  p <> NULL -> p + SIZEOF_OBJECT <= node_addr k -> 0 <= type < 256 ->
  arena s k -> room s k SIZEOF_MUTEX -> mem_ok (mm s) ->
  exists s', new_header p type s = Ok s' /\ arena s' (k + 1) /\ mem_ok (mm s') /\ iflag s' = iflag s /\
    length (heap_page_head s') = length (heap_page_head s) /\
    (forall x, ~ (p <= x < p + SIZEOF_OBJECT) -> ~ (node_addr k <= x < node_addr (k + 1)) -> mm s' x = mm s x) /\
    mm s' (p + H_TYPE) = type /\
    (forall q l, block (heap_page_head s) q l -> block (heap_page_head s') q l).
Proof.
  intros Hp Hpk Hty Har Hroom Hok. unfold new_header. destruct (Z.eqb_spec p NULL); [done|].
  set (m1 := store8 (store16 _ _ _) _ _).
  destruct (kmalloc_byte_arena SIZEOF_MUTEX (set_mm m1 s) k) as (s1 & -> & Hmm & Hif & Har1 & Hlen & _ & Hbs);
    [done|auto with willow|done|].
  cbn [mbind outcome_bind]. destruct (Z.eqb_spec (node_addr k) NULL) as [Hn|_]; [by destruct (node_addr_nonnull s k Har)|].
  pose proof (node_addr_add k 1) as Hk1. layout. eexists. split; [done|].
  split_and!; [auto with willow| |done|done| | |exact Hbs].
  - cbn [mm set_mm]. apply put_bytes_ok. rewrite Hmm. cbn [mm set_mm]. unfold m1. auto 10 with willow.
  - intros x Hx1 Hx2. cbn [mm set_mm]. rewrite put_bytes_out by (simpl; lia). rewrite Hmm. unfold m1. cbn [mm set_mm]. by frame_byte.
  - cbn [mm set_mm]. rewrite put_bytes_out by (simpl; lia). rewrite Hmm. unfold m1. cbn [mm set_mm].
    rewrite store8_ne by lia. rewrite store64_out by lia. rewrite store8_eq. by apply wrap8_small.
Qed.

Lemma stamp_and_name_spec p name nm s :
  mem_ok (mm s) -> cstr (mm s) name nm -> name <> NULL -> (length nm < fuel)%nat -> (length nm < 128)%nat ->
  apart p SIZEOF_OBJECT name (Z.of_nat (length nm) + 1) ->
  exists s', stamp_and_name p name s = Ok s' /\ mem_ok (mm s') /\ heap_page_head s' = heap_page_head s /\
    iflag s' = iflag s /\ cstr (mm s') (p + H_NAME) nm /\
    (forall x, ~ (p + H_NAME <= x < p + H_NAME + 128) -> ~ (p + H_TIMESTAMPS <= x < p + H_TIMESTAMPS + 24) ->
       mm s' x = mm s x).
Proof.
  intros Hok Hn Hn0 Hf H128 Hd. unfold stamp_and_name, apart in *. set (m := store64 _ _ _).
  layout. assert (mem_ok m) as Hokm by (unfold m; auto with willow).
  assert (cstr m name nm) as Hnm.
  { apply (cstr_ext (mm s)); [|done]. intros x Hx. unfold m. by frame_byte. }
  unfold kstrlen. destruct (Z.eqb_spec name NULL); [done|]. rewrite (scan_nul_spec fuel m name nm) by done.
  cbn [mbind outcome_bind]. replace (name + Z.of_nat (length nm) - name + 1) with (Z.of_nat (length nm) + 1) by lia.
  destruct (strncpy_whole fuel m (p + 8) name nm) as (m' & -> & Hok' & Hc & Hout); [done..|unfold apart; lia|done|].
  cbn [mbind outcome_bind]. eexists. split; [done|]. split_and!; [done..|].
  intros x Hx1 Hx2. cbn [mm set_mm]. rewrite Hout by lia. unfold m. by frame_byte.
Qed.

Lemma clear_files_out n i m f x : ~ (f + 8 * i <= x < f + 8 * (i + Z.of_nat n)) -> clear_files n i m f x = m x.
Proof.
  revert i m. induction n as [|n IH]; intros i m Hx; cbn [clear_files]; [done|].
  rewrite IH by lia. apply store64_out. lia.
Qed.

Lemma clear_files_in n i m f j : i <= j < i + Z.of_nat n -> load64 (clear_files n i m f) (f + 8 * j) = 0.
Proof.
  revert i m. induction n as [|n IH]; intros i m Hj; [lia|]. cbn [clear_files].
  destruct (Z.eq_dec j i) as [->|]; [|apply IH; lia].
  rewrite (load64_ext (store64 m (f + 8 * i) 0)); [by rewrite load64_store64_eq by (unfold is_u64; lia)|].
  intros x Hx. apply clear_files_out. lia.
Qed.

Lemma clear_files_ok n i m f : mem_ok m -> mem_ok (clear_files n i m f).
Proof. revert i m. induction n; intros; cbn [clear_files]; auto with willow. Qed.

(** What [grow_dir] needs to know of the array when one free slot has just been
    filled. *)
Record array_pre (s : mst) (k : nat) (dir num max : Z) : Prop := {
  ap_num : load64 (mm s) (dir + D_NUM_FILES) = num;
  ap_max : max_files (mm s) dir = max;
  ap_lt : 0 <= num < max;
  ap_block : exists i l, dir_files (mm s) dir = node_addr i /\ (1 <= i)%nat /\
    block (heap_page_head s) i l /\ 8 * max <= 64 * l;
  ap_live : live k (dir_files (mm s) dir) (8 * max);
  ap_apart : apart (dir_files (mm s) dir) (8 * max) dir SIZEOF_OBJECT
}.

(** [s'] has the array of [s], or a longer copy of it at node [k], and one more
    file. *)
Record array_post (s : mst) (k : nat) (s' : mst) (k' : nat) (dir num max : Z) : Prop := {
  aq_num : load64 (mm s') (dir + D_NUM_FILES) = num + 1;
  aq_lt : num + 1 < max_files (mm s') dir;
  aq_max : max <= max_files (mm s') dir;
  aq_block : exists i l, dir_files (mm s') dir = node_addr i /\ (1 <= i)%nat /\
    block (heap_page_head s') i l /\ 8 * max_files (mm s') dir <= 64 * l;
  aq_live : live k' (dir_files (mm s') dir) (8 * max_files (mm s') dir);
  aq_where : dir_files (mm s') dir = dir_files (mm s) dir /\ max_files (mm s') dir = max \/
    node_addr k <= dir_files (mm s') dir;
  aq_old : forall i, 0 <= i < max -> slot (mm s') dir i = slot (mm s) dir i;
  aq_new : forall i, max <= i < max_files (mm s') dir -> slot (mm s') dir i = NULL
}.

Lemma grow_dir_spec dir s k num max :
  arena s k -> mem_ok (mm s) -> live k dir SIZEOF_OBJECT -> array_pre s k dir num max ->
  room s k (8 * (max + 32)) ->
  exists s' k', grow_dir dir s = Ok s' /\ arena s' k' /\ (k <= k')%nat /\ mem_ok (mm s') /\ iflag s' = iflag s /\
    length (heap_page_head s') = length (heap_page_head s) /\
    (forall x, ~ (dir + D_FILES <= x < dir + D_FILES + 24) -> ~ (node_addr k <= x < node_addr k') -> mm s' x = mm s x) /\
    array_post s k s' k' dir num max.
Proof.
  intros Har Hok Hdir [Hnum Hmax Hlt (i & l & Hf & Hi & Hb & Hl) Hlive Hap] Hroom.
  pose proof (ar_len _ _ Har) as Hlen. pose proof (ar_k _ _ Har) as Hkl.
  pose proof (node_addr_range s k Har) as Hrange.
  unfold live, apart in *. unfold grow_dir. rewrite Hnum.
  assert (8 * max <= 2 ^ 39) as Hmaxb by (unfold node_addr in *; lia).
  rewrite (wrap64_small (num + 1)) by lia. set (m1 := store64 _ _ (num + 1)).
  assert (load64 m1 (dir + D_MAX_FILES) = max) as ->.
  { rewrite <- Hmax. unfold m1, max_files. layout. apply load64_store64_ne. lia. }
  assert (mem_ok m1) as Hok1 by (unfold m1; auto with willow).
  destruct (Z.eqb_spec (num + 1) max) as [Hfull|Hnot].
  2: { exists (set_mm m1 s), k.
    assert (forall x, ~ (dir + D_NUM_FILES <= x < dir + D_NUM_FILES + 8) -> m1 x = mm s x) as Hout.
    { intros x Hx. unfold m1. by frame_byte. }
    assert (load64 m1 (dir + D_NUM_FILES) = num + 1) as Hnum1.
    { unfold m1. apply load64_store64_eq. unfold is_u64. lia. }
    assert (dir_files m1 dir = dir_files (mm s) dir) as Hf1.
    { unfold dir_files. apply load64_ext. intros x Hx. apply Hout. layout. lia. }
    assert (max_files m1 dir = max) as Hmax1.
    { rewrite <- Hmax. apply load64_ext. intros x Hx. apply Hout. layout. lia. }
    split_and!; [done|auto with willow|done|done|done|done| |].
    { intros x Hx _. apply Hout. layout. lia. }
    split; cbn [mm set_mm heap_page_head]; rewrite ?Hmax1, ?Hf1; [done|lia|lia|by exists i, l|done|by left| |].
    - intros j Hj. unfold slot, entry_at. fold (dir_files m1 dir) (dir_files (mm s) dir). rewrite Hf1.
      apply load64_ext. intros x Hx. apply Hout. layout. lia.
    - intros j Hj. lia. }
  rewrite (wrap64_small (max + 32)) by lia. set (m2 := store64 m1 _ (max + 32)).
  assert (load64 m2 (dir + D_FILES) = node_addr i) as Hf2.
  { rewrite <- Hf. unfold dir_files. apply load64_ext. intros x Hx. unfold m2, m1. layout. by frame_byte. }
  rewrite Hf2, (wrap64_small ((max + 32) * 8)) by lia.
  destruct (krealloc_byte_arena (set_mm m2 s) k i l ((max + 32) * 8)) as (s1 & -> & Hif & Hmm & Har1 & Hlen1 & Hbk);
    [auto with willow|done|done|lia|unfold room in *; by replace ((max + 32) * 8) with (8 * (max + 32)) by lia|].
  cbn [mbind outcome_bind]. destruct (Z.eqb_spec (node_addr k) NULL) as [Hz|_]; [by destruct (node_addr_nonnull s k Har)|].
  replace (max + 32 - 32) with max by lia. set (m3 := store64 (mm s1) _ _). set (m4 := clear_files 32 max m3 _).
  set (cp := Z.min ((max + 32) * 8) (64 * l)) in *. cbn [mm set_mm] in Hmm.
  set (sz := (max + 32) * 8) in *. pose proof (chunks_bytes sz ltac:(lia)) as Hcb.
  pose proof (node_addr_add k (nodes sz)) as Hk'.
  assert (Z.of_nat (nodes sz) = chunks sz) as Hnodes by (unfold nodes; lia). rewrite Hnodes in Hk'.
  assert (forall x, m3 x = if between (dir + D_FILES) x (dir + D_FILES + 8) then m3 x else mm s1 x) as Hm3.
  { intros x. destr_cmp; [done|]. unfold m3. by frame_byte. }
  assert (mem_ok m2) as Hok2 by (unfold m2; auto with willow).
  assert (mem_ok m4) as Hok4.
  { unfold m4, m3. apply clear_files_ok. rewrite Hmm. apply store64_ok, memcpy_loop_ok, Hok2. }
  destruct (memcpy_spec m2 (node_addr k) (node_addr i) cp) as [Hcopy Hcopy_out]; [lia|done| |].
  { pose proof (block_below s k i l Har Hb). unfold node_addr. lia. }
  assert (forall x, ~ (dir + D_FILES <= x < dir + D_FILES + 24) -> ~ (node_addr k <= x < node_addr (k + nodes sz)) ->
    m4 x = mm s x) as Hout.
  { intros x Hx1 Hx2. unfold m4. rewrite clear_files_out by lia. unfold m3. layout. rewrite store64_out by lia.
    rewrite Hmm, Hcopy_out by lia. unfold m2, m1. layout. by frame_byte. }
  assert (forall x, dir + D_FILES <= x < dir + D_FILES + 24 -> m4 x = m3 x) as Hin.
  { intros x Hx. unfold m4. apply clear_files_out. layout. lia. }
  assert (dir_files m4 dir = node_addr k) as Hf4.
  { unfold dir_files. rewrite (load64_ext m3) by (intros x Hx; apply Hin; layout; lia).
    unfold m3. apply load64_store64_eq. unfold is_u64. unfold HEAP_START_VIRT_DEFINED in *. lia. }
  assert (max_files m4 dir = max + 32) as Hmax4.
  { unfold max_files. rewrite (load64_ext m2).
    - unfold m2. apply load64_store64_eq. unfold is_u64. lia.
    - intros x Hx. rewrite Hin by (layout; lia). unfold m3. layout. rewrite store64_out by lia.
      rewrite Hmm. apply Hcopy_out. lia. }
  assert (load64 m4 (dir + D_NUM_FILES) = num + 1) as Hnum4.
  { rewrite (load64_ext m1).
    - unfold m1. apply load64_store64_eq. unfold is_u64. lia.
    - intros x Hx. rewrite Hin by (layout; lia). unfold m3. layout. rewrite store64_out by lia.
      rewrite Hmm. rewrite Hcopy_out by lia. unfold m2. layout. by frame_byte. }
  exists (set_mm m4 s1), (k + nodes sz)%nat.
  split_and!; [done|auto with willow|lia|done|done|done|done|].
  split; cbn [mm set_mm heap_page_head]; rewrite ?Hmax4, ?Hf4; [done|lia|lia| |unfold live; lia|right; lia| |].
  - exists k, (chunks sz). pose proof (block_below s k i l Har Hb). split_and!; [done|lia|done|lia].
  - intros j Hj. unfold slot, entry_at. fold (dir_files m4 dir) (dir_files (mm s) dir). rewrite Hf4, Hf.
    transitivity (load64 m2 (node_addr i + 8 * j)).
    + apply load64_shift. intros x Hx. unfold m4. rewrite clear_files_out by lia. unfold m3. layout.
      rewrite store64_out by lia. rewrite Hmm, <- Z.add_assoc, Hcopy by lia. f_equal. lia.
    + apply load64_ext. intros x Hx. unfold m2, m1. layout. rewrite !store64_out by lia. done.
  - intros j Hj. unfold slot, entry_at. fold (dir_files m4 dir). rewrite Hf4. unfold m4. apply clear_files_in. lia.
Qed.

(** The memory after the new object [p] has been built and put in the slot [fi]. *)
Record created (s : mst) (k : nat) (s' : mst) (k' : nat) (dir fi p : Z) (nm : list Z) : Prop := {
  cr_arena : arena s' k';
  cr_k : (k <= k')%nat;
  cr_ok : mem_ok (mm s');
  cr_iflag : iflag s' = iflag s;
  cr_len : length (heap_page_head s') = length (heap_page_head s);
  cr_fi : 0 <= fi < max_files (mm s) dir /\ slot (mm s) dir fi = NULL;
  cr_p : p = node_addr k /\ p + SIZEOF_OBJECT <= node_addr k';
  cr_frame : forall x, ~ (dir + D_FILES <= x < dir + D_FILES + 24) -> ~ (node_addr k <= x < node_addr k') ->
    x <> dir_mutex (mm s) dir ->
    ~ (dir_files (mm s) dir + 8 * fi <= x < dir_files (mm s) dir + 8 * fi + 8) -> mm s' x = mm s x;
  cr_block : exists i l, dir_files (mm s') dir = node_addr i /\ (1 <= i)%nat /\
    block (heap_page_head s') i l /\ 8 * max_files (mm s') dir <= 64 * l;
  cr_live : live k' (dir_files (mm s') dir) (8 * max_files (mm s') dir);
  cr_where : dir_files (mm s') dir = dir_files (mm s) dir /\ max_files (mm s') dir = max_files (mm s) dir \/
    p + SIZEOF_OBJECT <= dir_files (mm s') dir;
  cr_max : max_files (mm s) dir <= max_files (mm s') dir;
  cr_num : load64 (mm s') (dir + D_NUM_FILES) = load64 (mm s) (dir + D_NUM_FILES) + 1;
  cr_lt : load64 (mm s') (dir + D_NUM_FILES) < max_files (mm s') dir;
  cr_slots : forall i, 0 <= i < max_files (mm s') dir ->
    slot (mm s') dir i = if i =? fi then p else if i <? max_files (mm s) dir then slot (mm s) dir i else NULL;
  cr_name : named (mm s') p nm /\ (length nm < 128)%nat
}.

(** The room a new object needs: the object, its mutex, [data] bytes and, when the
    directory grows, the new array. *)
Definition create_room (s : mst) (k : nat) (dir data : Z) : Prop :=
  (k + nodes SIZEOF_OBJECT + 1 + nodes data + nodes (8 * (max_files (mm s) dir + 32))
     <= length (heap_page_head s))%nat.

Lemma dir_wf_free s k dir : dir_wf s k dir -> exists j, 0 <= j < max_files (mm s) dir /\ slot (mm s) dir j = NULL.
Proof.
  intros [_ [_ _ _ Hc Hlt] _ _]. rewrite Hc in Hlt.
  pose proof (count_slots_bounds (Z.to_nat (max_files (mm s) dir)) 0 (mm s) (dir_files (mm s) dir)).
  destruct (count_slots_free (Z.to_nat (max_files (mm s) dir)) 0 (mm s) (dir_files (mm s) dir)) as (j & Hj & Hz); [lia|].
  exists j. split; [lia|done].
Qed.

(** What building an object needs of the name. *)
Definition good_name (s : mst) (name : Z) (nm : list Z) : Prop :=
  cstr (mm s) name nm /\ name <> NULL /\ (length nm < fuel)%nat /\ (length nm < 128)%nat /\
  outside_heap s name (Z.of_nat (length nm) + 1).

(** A new object at node [k], in an otherwise unchanged memory. *)
Record built (s : mst) (k : nat) (s' : mst) (k' : nat) (type : Z) (nm : list Z) : Prop := {
  bu_arena : arena s' k';
  bu_k : node_addr k + 1344 <= node_addr k';
  bu_ok : mem_ok (mm s');
  bu_iflag : iflag s' = iflag s;
  bu_len : length (heap_page_head s') = length (heap_page_head s);
  bu_blocks : forall q l, block (heap_page_head s) q l -> block (heap_page_head s') q l;
  bu_frame : forall x, ~ (node_addr k <= x < node_addr k') -> mm s' x = mm s x;
  bu_name : named (mm s') (node_addr k) nm;
  bu_type : mm s' (node_addr k + H_TYPE) = type
}.

Lemma build_file_spec name nm size s k :
  arena s k -> mem_ok (mm s) -> good_name s name nm -> 0 <= size < 2 ^ 64 ->
  (k + nodes SIZEOF_OBJECT + 1 <= length (heap_page_head s))%nat ->
  exists s', build_file name size s = Ok (node_addr k, s') /\
    built s k s' (k + nodes SIZEOF_OBJECT + 1) 0 nm /\ load64 (mm s') (node_addr k + F_SIZE) = size.
Proof.
  intros Har Hok (Hn & Hn0 & Hf & H128 & Hout) Hsize Hroom. unfold build_file.
  destruct (kmalloc_byte_arena SIZEOF_OBJECT s k) as (s1 & -> & Hmm1 & Hif1 & Har1 & Hl1 & _ & Hbs1);
    [done|done|unfold room; lia|].
  cbn [mbind outcome_bind]. set (k1 := (k + nodes SIZEOF_OBJECT)%nat) in *. set (p := node_addr k) in *.
  assert (node_addr k1 = p + 1280) as Hk1 by (unfold k1; by rewrite node_addr_add).
  assert (node_addr (k1 + 1) = p + 1344) as Hk2 by (rewrite node_addr_add; lia).
  destruct (new_header_spec p 0 s1 k1) as (s2 & -> & Har2 & Hok2 & Hif2 & Hl2 & Hfr2 & Hty2 & Hbs2).
  { by apply (node_addr_nonnull s). } { layout. lia. } { lia. } { done. }
  { unfold room. rewrite nodes_16, Hl1. lia. } { by rewrite Hmm1. }
  cbn [mbind outcome_bind]. set (m3 := store64 (mm s2) _ 0).
  assert (mem_ok m3) as Hok3 by (unfold m3; auto with willow).
  assert (forall x, ~ (p <= x < p + 1344) -> m3 x = mm s x) as Hfr3.
  { intros x Hx. unfold m3. layout. rewrite store64_out by lia. rewrite Hfr2 by lia. by rewrite Hmm1. }
  assert (HEAP_START_VIRT_DEFINED <= p /\
    p + 1344 <= HEAP_START_VIRT_DEFINED + 64 * Z.of_nat (length (heap_page_head s))) as Hend.
  { unfold p, node_addr. assert (nodes SIZEOF_OBJECT = 20%nat) as E by done. lia. }
  unfold outside_heap, apart in Hout.
  destruct (stamp_and_name_spec p name nm (set_mm m3 s2)) as (s4 & -> & Hok4 & Hh4 & Hif4 & Hnm4 & Hfr4);
    [done| |done|done|done|unfold apart; layout; lia|].
  { apply (cstr_ext (mm s)); [|done]. intros x Hx. apply Hfr3. lia. }
  cbn [mbind outcome_bind mm set_mm] in *. eexists. split; [done|]. layout. split.
  - split; cbn [mm set_mm iflag heap_page_head]; rewrite ?Hh4.
    + by apply (arena_same_heap s2).
    + lia.
    + auto with willow.
    + rewrite Hif4. cbn [iflag set_mm]. by rewrite Hif2.
    + cbn [heap_page_head set_mm]. by rewrite Hl2.
    + intros q l Hb. cbn [heap_page_head set_mm]. auto.
    + intros x Hx. rewrite store64_out by lia. rewrite Hfr4 by lia. apply Hfr3. lia.
    + unfold named. fold p. layout. apply (cstr_ext (mm s4)); [|done]. intros x Hx. apply store64_out. lia.
    + fold p. layout. rewrite store64_out by lia. rewrite Hfr4 by lia. unfold m3. layout. by rewrite store64_out by lia.
  - cbn [mm set_mm]. by apply load64_store64_eq.
Qed.


(** The state once the object [p] is in the slot [fi] and the mutex of the
    directory is held. *)
Record attached (s : mst) (k : nat) (s2 : mst) (k2 : nat) (dir fi : Z) (nm : list Z) : Prop := {
  at_arena : arena s2 k2;
  at_k : node_addr k + SIZEOF_OBJECT <= node_addr k2;
  at_ok : mem_ok (mm s2);
  at_len : length (heap_page_head s2) = length (heap_page_head s);
  at_blocks : forall q l, block (heap_page_head s) q l -> block (heap_page_head s2) q l;
  at_fi : 0 <= fi < max_files (mm s) dir /\ slot (mm s) dir fi = NULL;
  at_frame : forall x, ~ (node_addr k <= x < node_addr k2) -> x <> dir_mutex (mm s) dir ->
    ~ (dir_files (mm s) dir + 8 * fi <= x < dir_files (mm s) dir + 8 * fi + 8) -> mm s2 x = mm s x;
  at_slot : load64 (mm s2) (dir_files (mm s) dir + 8 * fi) = node_addr k;
  at_name : named (mm s2) (node_addr k) nm /\ (length nm < 128)%nat
}.

(** The fields of the directory before and after. *)
Lemma attached_fields s k s2 k2 dir fi nm :
  dir_wf s k dir -> attached s k s2 k2 dir fi nm ->
  dir_files (mm s2) dir = dir_files (mm s) dir /\ max_files (mm s2) dir = max_files (mm s) dir /\
  dir_mutex (mm s2) dir = dir_mutex (mm s) dir /\
  load64 (mm s2) (dir + D_NUM_FILES) = load64 (mm s) (dir + D_NUM_FILES) /\
  forall i, 0 <= i < max_files (mm s) dir ->
    slot (mm s2) dir i = if i =? fi then node_addr k else slot (mm s) dir i.
Proof.
  intros [Hdir [_ Hlive Hap _ _] (Hml & Hmd & Hmf) _] [_ _ _ _ _ [Hfi _] Hfr Hs _].
  unfold live, apart in *. layout.
  assert (dir_files (mm s2) dir = dir_files (mm s) dir) as Hf.
  { apply load64_ext. intros x Hx. apply Hfr; layout; lia. }
  split_and!; [done|..].
  1-3: apply load64_ext; intros x Hx; apply Hfr; layout; lia.
  intros i Hi. unfold slot, entry_at. fold (dir_files (mm s2) dir) (dir_files (mm s) dir). rewrite Hf.
  destruct (Z.eqb_spec i fi) as [->|Hne]; [done|]. apply load64_ext. intros x Hx. apply Hfr; lia.
Qed.

Lemma close_entry_spec s k s2 k2 dir fi nm :
  arena s k -> dir_wf s k dir -> attached s k s2 k2 dir fi nm -> room s2 k2 (8 * (max_files (mm s) dir + 32)) ->
  exists s' k', close_entry dir s2 = Ok s' /\ iflag s' = iflag s2 /\
    (iflag s2 = false -> created s k (irq_restore (iflag s) s') k' dir fi (node_addr k) nm) /\
    (forall x, node_addr k <= x < node_addr k + SIZEOF_OBJECT -> mm s' x = mm s2 x).
Proof.
  intros Har Hwf Hat Hroom. pose proof (attached_fields _ _ _ _ _ _ _ Hwf Hat) as (Ef & Em & Et & En & Es).
  pose proof Hwf as [Hdir [(i & l & Hbf & Hi & Hb & Hbl) Hlive Hap Hc Hlt] (Hml & Hmd & Hmf) _].
  pose proof Hat as [Har2 Hk2 Hok2 Hl2 Hbs [Hfi Hfz] Hfr Hsl Hnm].
  pose proof (node_addr_range s k Har) as Hkr. unfold live, apart in *.
  pose proof (count_slots_bounds (Z.to_nat (max_files (mm s) dir)) 0 (mm s) (dir_files (mm s) dir)) as Hcb.
  unfold close_entry.
  destruct (grow_dir_spec dir s2 k2 (load64 (mm s) (dir + D_NUM_FILES)) (max_files (mm s) dir))
    as (s3 & k3 & -> & Har3 & Hk3 & Hok3 & Hif3 & Hl3 & Hfr3 & [Qn Ql Qm Qb Qlv Qw Qo Qz]);
    [done|done|unfold live; layout; lia| |done|].
  { split; rewrite ?En, ?Em, ?Ef; [done|done|lia| |unfold live; layout; lia|done].
    exists i, l. split_and!; auto. }
  cbn [mbind outcome_bind]. rewrite Ef in Qw. assert (dir_mutex (mm s3) dir = dir_mutex (mm s) dir) as Et3.
  { rewrite <- Et. apply load64_ext. intros x Hx. apply Hfr3; layout; lia. }
  fold (dir_mutex (mm s3) dir). rewrite Et3. set (mtx := dir_mutex (mm s) dir) in *.
  assert (mtx <> NULL) as Hm0 by (unfold HEAP_START_VIRT_DEFINED, NULL in *; lia).
  rewrite release_mutex_at_ok by done. set (m4 := store8 (mm s3) mtx 0).
  assert (forall x, x <> mtx -> m4 x = mm s3 x) as Hm4 by (intros x Hx; unfold m4; by apply store8_ne).
  assert (node_addr k2 <= node_addr k3) as Hk23 by (unfold node_addr; lia).
  assert (dir_files m4 dir = dir_files (mm s3) dir) as Ef4.
  { apply load64_ext. intros x Hx. apply Hm4. layout. lia. }
  assert (max_files m4 dir = max_files (mm s3) dir) as Em4.
  { apply load64_ext. intros x Hx. apply Hm4. layout. lia. }
  assert (load64 m4 (dir + D_NUM_FILES) = load64 (mm s3) (dir + D_NUM_FILES)) as En4.
  { apply load64_ext. intros x Hx. apply Hm4. layout. lia. }
  assert (forall j, 0 <= j < max_files (mm s3) dir -> slot m4 dir j = slot (mm s3) dir j) as Es4.
  { intros j Hj. unfold slot, entry_at. fold (dir_files m4 dir) (dir_files (mm s3) dir). rewrite Ef4.
    apply load64_ext. intros x Hx. apply Hm4. layout. lia. }
  exists (set_mm m4 s3), k3. split; [done|]. split; [done|].
  assert (forall x, node_addr k <= x < node_addr k + SIZEOF_OBJECT -> m4 x = mm s2 x) as Hobj.
  { intros x Hx. rewrite Hm4 by (layout; lia). apply Hfr3; layout; lia. }
  split; [|done].
  intros Hif2. split; autorewrite with willow_rw; cbn [mm set_mm heap_page_head].
  - apply (arena_same_heap s3); [by autorewrite with willow_rw|done].
  - layout. unfold node_addr in Hk2. lia.
  - unfold m4. auto with willow.
  - rewrite irq_restore_iflag; [done|]. cbn [iflag set_mm]. by rewrite Hif3.
  - by rewrite Hl3.
  - done.
  - layout. split; [done|lia].
  - intros x Hx1 Hx2 Hx3 Hx4. rewrite Hm4 by done. rewrite Hfr3 by (layout; lia). apply Hfr; (done || lia).
  - rewrite Ef4, Em4. done.
  - rewrite Ef4, Em4. done.
  - rewrite Ef4, Em4. destruct Qw as [Qw|Qw]; [by left|right; lia].
  - by rewrite Em4.
  - by rewrite En4, Qn.
  - by rewrite En4, Em4, Qn.
  - intros j Hj. rewrite Em4 in Hj. rewrite Es4 by done. destruct (Z.ltb_spec j (max_files (mm s) dir)).
    + rewrite Qo by lia. apply Es. lia.
    + rewrite Qz by lia. destruct (Z.eqb_spec j fi); [lia|done].
  - destruct Hnm as [Hnm H128]. split; [|done].
    apply (cstr_ext (mm s2)); [|done]. intros x Hx. apply Hobj. layout. lia.
Qed.

(** From a built object to the filled slot; [extra] bytes of the object may be
    written in between. *)
Lemma put_entry_spec s k s1 k1 type nm dir fi :
  arena s k -> dir_wf s k dir -> built s k s1 k1 type nm -> (length nm < 128)%nat ->
  0 <= fi < max_files (mm s) dir -> slot (mm s) dir fi = NULL ->
  exists s2, put_entry dir fi (node_addr k) s1 = Ok s2 /\ attached s k s2 k1 dir fi nm /\ iflag s2 = iflag s1 /\
    (forall x, node_addr k <= x < node_addr k + SIZEOF_OBJECT -> mm s2 x = mm s1 x).
Proof.
  intros Har [Hdir [_ Hlive Hap _ _] (Hml & Hmd & Hmf) _] [Bar Bk Bok Bif Bl Bbs Bfr Bn Bt] H128 Hfi Hfz.
  pose proof (node_addr_range s k Har) as Hkr. pose proof (node_addr_range s1 k1 Bar) as Hkr1.
  unfold live, apart in *. unfold put_entry.
  assert (load64 (mm s1) (dir + H_MUTEX) = dir_mutex (mm s) dir) as ->.
  { apply load64_ext. intros x Hx. apply Bfr. layout. lia. }
  set (mtx := dir_mutex (mm s) dir) in *.
  rewrite acquire_mutex_at_ok by (unfold HEAP_START_VIRT_DEFINED, NULL in *; lia).
  cbn [mbind outcome_bind mm set_mm].
  assert (load64 (store8 (mm s1) mtx 1) (dir + D_FILES) = dir_files (mm s) dir) as ->.
  { apply load64_ext. intros x Hx. layout. rewrite store8_ne by lia. apply Bfr. lia. }
  eexists. split; [done|]. cbn [iflag set_mm mm]. split; [|split; [done|]].
  - split; cbn [mm set_mm heap_page_head]; [auto with willow|layout; lia|auto with willow|done|done|done|..].
    + intros x Hx1 Hx2 Hx3. rewrite store64_out, store8_ne by done. by apply Bfr.
    + apply load64_store64_eq. unfold is_u64. unfold HEAP_START_VIRT_DEFINED in *. lia.
    + split; [|done]. apply (cstr_ext (mm s1)); [|done]. intros x Hx. layout.
      rewrite store64_out, store8_ne by lia. done.
  - intros x Hx. layout. by rewrite store64_out, store8_ne by lia.
Qed.

(** Allocating the data of the new file keeps it attached. *)
Lemma attach_data s k s2 k2 dir fi nm size :
  arena s k -> attached s k s2 k2 dir fi nm -> 0 < size -> room s2 k2 size ->
  live k (dir_files (mm s) dir) (8 * max_files (mm s) dir) ->
  exists s3, kmalloc_byte size s2 = Ok (node_addr k2, s3) /\ iflag s3 = iflag s2 /\ mm s3 = mm s2 /\
    attached s k (set_mm (store64 (mm s3) (node_addr k + F_DATA) (node_addr k2)) s3) (k2 + nodes size) dir fi nm.
Proof.
  intros Har [Aar Ak Aok Al Abs Afi Afr Asl Anm] Hsz Hroom [Hl1 Hl2].
  destruct (kmalloc_byte_arena size s2 k2 Hsz Aar Hroom) as (s3 & -> & Hmm & Hif & Har3 & Hl3 & _ & Hbs).
  exists s3. split_and!; [done..|]. pose proof (node_addr_add k2 (nodes size)) as Hk3. layout.
  split; cbn [mm set_mm heap_page_head]; rewrite ?Hmm, ?Hl3; [auto with willow|layout; lia|auto with willow|done| |done|..].
  - intros q l Hb. auto.
  - intros x Hx1 Hx2 Hx3. rewrite store64_out by lia. apply Afr; (done || lia).
  - rewrite <- Asl. destruct Afi as [Hfi _]. apply load64_store64_ne. lia.
  - destruct Anm as [Hn H128]. split; [|done]. apply (cstr_ext (mm s2)); [|done]. intros x Hx.
    layout. apply store64_out. lia.
Qed.

Lemma tmpfs_create_file_effect dir name nm size s k :
  arena s k -> mem_ok (mm s) -> dir_wf s k dir -> good_name s name nm -> 0 < size < 2 ^ 64 ->
  create_room s k dir size ->
  exists s' k' fi, tmpfs_create_file dir name size s = Ok (node_addr k, s') /\
    created s k s' k' dir fi (node_addr k) nm /\
    type_of (mm s') (node_addr k) = 0 /\ load64 (mm s') (node_addr k + F_SIZE) = size.
Proof.
  intros Har Hok Hwf Hgood Hsize Hroom. unfold create_room in Hroom.
  pose proof Hgood as (_ & _ & _ & H128 & _).
  pose proof Hwf as [Hdir [_ Hlive _ _ _] _ _]. pose proof (node_addr_range s k Har) as Hkr.
  destruct (dir_wf_free s k dir Hwf) as (j & Hj & Hjz).
  unfold tmpfs_create_file. cbn [irq_disable_save]. set (s0 := set_iflag false s).
  assert (arena s0 k) as Har0 by (unfold s0; auto with willow).
  assert (dir_wf s0 k dir) as Hwf0 by (destruct Hwf as [? [? ? ? ? ?] ? ?]; split; [done|by split|done|done]).
  destruct (find_free_index_spec (mm s0) dir j) as (fi & -> & Hfi & Hfz); [..|done|done|].
  { destruct Hdir. unfold HEAP_START_VIRT_DEFINED, NULL in *. lia. }
  { destruct Hlive. unfold HEAP_START_VIRT_DEFINED, NULL in *. cbn. lia. }
  cbn [mbind outcome_bind].
  destruct (build_file_spec name nm size s0 k) as (s1 & -> & Hbuilt & Hsz1);
    [done|done|done|lia|unfold s0; cbn [heap_page_head set_iflag]; lia|]. cbn [mbind outcome_bind].
  set (k1 := (k + nodes SIZEOF_OBJECT + 1)%nat) in *.
  destruct (put_entry_spec s0 k s1 k1 0 nm dir fi) as (s2 & -> & Hat & Hif2 & Hobj2); [done..|]. cbn [mbind outcome_bind].
  destruct (attach_data s0 k s2 k1 dir fi nm size) as (s3 & -> & Hif3 & Hmm3 & Hat3);
    [done|done|lia|unfold room; rewrite (at_len _ _ _ _ _ _ _ Hat); unfold s0, k1; cbn [heap_page_head set_iflag]; lia|done|].
  cbn [mbind outcome_bind].
  destruct (close_entry_spec s0 k _ _ dir fi nm Har0 Hwf0 Hat3) as (s4 & k4 & -> & Hif4 & Hcr & Hobj4).
  { unfold room. rewrite (at_len _ _ _ _ _ _ _ Hat3). unfold s0, k1. cbn [heap_page_head set_iflag mm]. lia. }
  cbn [mbind outcome_bind iflag set_mm] in *.
  assert (iflag s3 = false) as Hif by by rewrite Hif3, Hif2, (bu_iflag _ _ _ _ _ _ Hbuilt).
  exists (irq_restore (iflag s) s4), k4, fi. split; [done|].
  assert (forall x, node_addr k <= x < node_addr k + SIZEOF_OBJECT ->
    ~ (node_addr k + F_DATA <= x < node_addr k + F_DATA + 8) -> mm s4 x = mm s1 x) as Hobj.
  { intros x Hx1 Hx2. rewrite Hobj4 by done. cbn [mm set_mm]. rewrite store64_out by done. rewrite Hmm3. by apply Hobj2. }
  split_and!.
  - destruct (Hcr Hif) as [C1 C2 C3 C4 C5 C6 C7 C8 C9 C10 C11 C12 C13 C14 C15 C16].
    change (iflag s0) with false in *. cbn [irq_restore] in *.
    split; autorewrite with willow_rw; try done.
    + apply (arena_same_heap s4); [by autorewrite with willow_rw|done].
    + apply irq_restore_iflag. by rewrite C4.
  - unfold type_of. autorewrite with willow_rw. rewrite Hobj by (layout; lia). by destruct Hbuilt.
  - autorewrite with willow_rw. rewrite <- Hsz1. apply load64_ext. intros x Hx. apply Hobj; layout; lia.
Qed.

(** ** Creation as insertion *)

Section Created.
Context (s : mst) (k : nat) (s' : mst) (k' : nat) (dir fi : Z) (nm : list Z).
Context (Har : arena s k) (Hwf : dir_wf s k dir) (Hcr : created s k s' k' dir fi (node_addr k) nm).

(** A string inside an entry that was there keeps its bytes. *)
Lemma created_entry i nm' :
  0 <= i < max_files (mm s) dir -> slot (mm s) dir i <> NULL ->
  (length nm' < 128)%nat -> named (mm s) (slot (mm s) dir i) nm' -> named (mm s') (slot (mm s) dir i) nm'.
Proof.
  intros Hi Hne Hl Hn. destruct (dw_entries _ _ _ Hwf i Hi Hne) as (Hlv & Ha1 & Ha2 & Ha3 & _).
  destruct (cr_fi _ _ _ _ _ _ _ _ Hcr) as [Hfi _]. unfold live, apart in *.
  apply (cstr_ext (mm s)); [|done]. intros x Hx. layout. apply (cr_frame _ _ _ _ _ _ _ _ Hcr); layout; lia.
Qed.

Lemma created_mutex : dir_mutex (mm s') dir = dir_mutex (mm s) dir.
Proof.
  destruct (dw_mutex _ _ _ Hwf) as (Hl & Hd & _). pose proof (dw_dir _ _ _ Hwf) as Hdir.
  destruct (dw_array _ _ _ Hwf) as [_ _ Hap _ _].
  destruct (cr_fi _ _ _ _ _ _ _ _ Hcr) as [Hfi _]. unfold live, apart in *.
  apply load64_ext. intros x Hx. layout. apply (cr_frame _ _ _ _ _ _ _ _ Hcr); layout; lia.
Qed.

Lemma created_slot_old i :
  0 <= i < max_files (mm s) dir -> i <> fi -> slot (mm s') dir i = slot (mm s) dir i.
Proof.
  intros Hi Hne. rewrite (cr_slots _ _ _ _ _ _ _ _ Hcr) by (pose proof (cr_max _ _ _ _ _ _ _ _ Hcr); lia).
  destruct (Z.eqb_spec i fi); [done|]. destruct (Z.ltb_spec i (max_files (mm s) dir)); [done|lia].
Qed.

Lemma created_slot_new : slot (mm s') dir fi = node_addr k.
Proof.
  destruct (cr_fi _ _ _ _ _ _ _ _ Hcr) as [Hfi _]. pose proof (cr_max _ _ _ _ _ _ _ _ Hcr).
  rewrite (cr_slots _ _ _ _ _ _ _ _ Hcr) by lia. by rewrite Z.eqb_refl.
Qed.

(** A slot in use afterwards is the new one or one that was in use. *)
Lemma created_slot_inv i :
  0 <= i < max_files (mm s') dir -> slot (mm s') dir i <> NULL ->
  i = fi \/ 0 <= i < max_files (mm s) dir /\ i <> fi /\ slot (mm s') dir i = slot (mm s) dir i.
Proof.
  intros Hi Hne. rewrite (cr_slots _ _ _ _ _ _ _ _ Hcr) in Hne |- * by done.
  destruct (Z.eqb_spec i fi); [by left|]. right. destruct (Z.ltb_spec i (max_files (mm s) dir)); [|done].
  split_and!; (lia || done).
Qed.

Lemma created_count :
  load64 (mm s') (dir + D_NUM_FILES) =
    count_slots (Z.to_nat (max_files (mm s') dir)) 0 (mm s') (dir_files (mm s') dir).
Proof.
  destruct (cr_fi _ _ _ _ _ _ _ _ Hcr) as [Hfi Hfz]. pose proof (cr_max _ _ _ _ _ _ _ _ Hcr) as Hmx.
  rewrite (cr_num _ _ _ _ _ _ _ _ Hcr), (aw_count _ _ _ (dw_array _ _ _ Hwf)).
  set (n := Z.to_nat (max_files (mm s) dir)).
  replace (Z.to_nat (max_files (mm s') dir)) with (n + Z.to_nat (max_files (mm s') dir - max_files (mm s) dir))%nat by lia.
  rewrite count_slots_app, (count_slots_zero _ (0 + Z.of_nat n)), Z.add_0_r.
  2: { intros j Hj. change (slot (mm s') dir j = NULL). rewrite (cr_slots _ _ _ _ _ _ _ _ Hcr) by lia.
       destruct (Z.eqb_spec j fi); [lia|]. destruct (Z.ltb_spec j (max_files (mm s) dir)); [lia|done]. }
  symmetry. apply (count_slots_set n 0 (mm s) (mm s') _ _ fi); [lia|done| |].
  - change (slot (mm s') dir fi <> NULL). rewrite created_slot_new. by apply (node_addr_nonnull s).
  - intros j Hj Hne. apply created_slot_old; [lia|done].
Qed.

(** The invariant of a directory is kept. *)
Lemma created_wf : (length nm < fuel)%nat -> dir_wf s' k' dir.
Proof.
  intros Hfuel. pose proof created_mutex as Et. pose proof (node_addr_range s k Har) as Hkr.
  destruct (dw_mutex _ _ _ Hwf) as (Hml & Hmd & Hmf). pose proof (dw_dir _ _ _ Hwf) as Hdir.
  destruct (dw_array _ _ _ Hwf) as [_ Hlv Hap _ _]. destruct (cr_p _ _ _ _ _ _ _ _ Hcr) as [_ Hp].
  destruct (cr_fi _ _ _ _ _ _ _ _ Hcr) as [Hfi _]. pose proof (cr_max _ _ _ _ _ _ _ _ Hcr) as Hmx.
  unfold live, apart in *. layout.
  pose proof (cr_where _ _ _ _ _ _ _ _ Hcr) as Hw. layout. split; unfold live, apart; layout.
  - lia.
  - split; [by destruct Hcr|by destruct Hcr| |exact created_count|by destruct Hcr]. unfold apart. layout.
    destruct Hw as [[-> ->]|Hw]; [done|lia].
  - rewrite Et. split_and!; [lia|lia|lia|]. destruct Hw as [[-> ->]|Hw]; [done|lia].
  - intros i Hi Hne. destruct (created_slot_inv i Hi Hne) as [->|(Hi' & Hif & E)].
    + rewrite created_slot_new, Et. split_and!; [lia|lia|lia| |lia|].
      * destruct Hw as [[-> ->]|Hw]; lia.
      * destruct (cr_name _ _ _ _ _ _ _ _ Hcr). eauto.
    + rewrite E in Hne |- *. destruct (dw_entries _ _ _ Hwf i Hi' Hne) as (Hle & Ha1 & Ha2 & Ha3 & (nm' & Hn & Hf & H128)).
      unfold live, apart in *. layout. rewrite Et. split_and!; [lia|lia|lia| |lia|].
      * destruct Hw as [[-> ->]|Hw]; lia.
      * exists nm'. split; [|done]. by apply created_entry.
Qed.

(** Whether an old entry has a name does not change. *)
Lemma created_named i nm' :
  0 <= i < max_files (mm s) dir -> slot (mm s) dir i <> NULL ->
  named (mm s') (slot (mm s) dir i) nm' <-> named (mm s) (slot (mm s) dir i) nm'.
Proof.
  intros Hi Hne. destruct (dw_entries _ _ _ Hwf i Hi Hne) as (_ & _ & _ & _ & (nm0 & Hn & _ & H128)).
  pose proof (created_entry i nm0 Hi Hne H128 Hn) as Hn'. split; intros H.
  - assert (nm' = nm0) as -> by by eapply cstr_unique. done.
  - assert (nm' = nm0) as -> by by eapply cstr_unique. done.
Qed.

(** The directory as a map: [nm] is bound to the new object, other names as
    before. *)
Lemma created_finds_new : misses (mm s) dir nm -> finds (mm s') dir nm (node_addr k).
Proof.
  intros Hmiss. destruct (cr_fi _ _ _ _ _ _ _ _ Hcr) as [Hfi _]. pose proof (cr_max _ _ _ _ _ _ _ _ Hcr).
  exists fi. split_and!; [lia|lia|exact created_slot_new|by apply (node_addr_nonnull s)|by destruct (cr_name _ _ _ _ _ _ _ _ Hcr)|].
  intros j Hj. rewrite created_slot_old by lia.
  destruct (Z.eq_dec (slot (mm s) dir j) NULL) as [|Hne]; [by left|right].
  rewrite created_named by (done || lia). destruct (Hmiss j ltac:(lia)); [done|done].
Qed.

Lemma created_finds_other nm' e : nm' <> nm -> finds (mm s) dir nm' e -> finds (mm s') dir nm' e.
Proof.
  intros Hnm (i & Hi & Hs & He & Hn & Hbefore). pose proof (cr_max _ _ _ _ _ _ _ _ Hcr).
  destruct (cr_fi _ _ _ _ _ _ _ _ Hcr) as [Hfi Hfz].
  assert (i <> fi) as Hif by (intros ->; congruence).
  exists i. rewrite created_slot_old by done. split_and!; [lia|lia|done|done| |].
  - rewrite <- Hs. rewrite <- Hs in Hn, He. by apply created_named.
  - intros j Hj. destruct (Z.eq_dec j fi) as [->|Hjf].
    + right. rewrite created_slot_new. intros Hn'. apply Hnm. destruct (cr_name _ _ _ _ _ _ _ _ Hcr) as [Hc _].
      by eapply cstr_unique.
    + rewrite created_slot_old by (done || lia). destruct (Z.eq_dec (slot (mm s) dir j) NULL) as [|Hne]; [by left|right].
      rewrite created_named by (done || lia). by destruct (Hbefore j Hj).
Qed.

Lemma created_misses_other nm' : nm' <> nm -> misses (mm s) dir nm' -> misses (mm s') dir nm'.
Proof.
  intros Hnm Hmiss j Hj. destruct (Z.eq_dec (slot (mm s') dir j) NULL) as [|Hne]; [by left|right].
  destruct (created_slot_inv j Hj Hne) as [->|(Hj' & Hjf & E)].
  - rewrite created_slot_new. intros Hn'. apply Hnm. destruct (cr_name _ _ _ _ _ _ _ _ Hcr) as [Hc _].
    by eapply cstr_unique.
  - rewrite E in Hne |- *. rewrite created_named by done. by destruct (Hmiss j Hj').
Qed.

End Created.

Lemma dir_wf_names s k dir : dir_wf s k dir -> names_ok (mm s) dir.
Proof.
  intros Hwf i Hi Hne. destruct (dw_entries _ _ _ Hwf i Hi Hne) as (_ & _ & _ & _ & (nm & ? & ? & _)). eauto.
Qed.

Lemma finds_unique m dir nm e e' : finds m dir nm e -> finds m dir nm e' -> e = e'.
Proof.
  intros (i & Hi & <- & He & Hn & Hb) (j & Hj & <- & He' & Hn' & Hb').
  destruct (Z.lt_trichotomy i j) as [|[->|]]; [|done|].
  - destruct (Hb' i ltac:(lia)); done.
  - destruct (Hb j ltac:(lia)); done.
Qed.

Lemma dir_wf_nonnull s k dir : dir_wf s k dir -> dir <> NULL.
Proof. intros [[H _] _ _ _]. unfold HEAP_START_VIRT_DEFINED, NULL in *. lia. Qed.

Lemma tmpfs_lookup_finds s k dir name nm e :
  dir_wf s k dir -> cstr (mm s) name nm -> finds (mm s) dir nm e -> tmpfs_lookup dir name s = Ok e.
Proof.
  intros Hwf Hn Hf. destruct (tmpfs_lookup_spec dir name nm s) as (e' & -> & [[_ Hf']|[_ Hm]]);
    [by eapply dir_wf_nonnull|by eapply dir_wf_names|done|f_equal; by eapply finds_unique|].
  destruct Hf as (i & Hi & <- & He & Hnm & _). by destruct (Hm i Hi).
Qed.

Lemma tmpfs_lookup_misses s k dir name nm :
  dir_wf s k dir -> cstr (mm s) name nm -> misses (mm s) dir nm -> tmpfs_lookup dir name s = Ok NULL.
Proof.
  intros Hwf Hn Hm. destruct (tmpfs_lookup_spec dir name nm s) as (e' & -> & [[_ Hf']|[-> _]]);
    [by eapply dir_wf_nonnull|by eapply dir_wf_names|done| |done].
  destruct Hf' as (i & Hi & <- & He & Hnm & _). by destruct (Hm i Hi).
Qed.

(** ** The parent of the root *)

(** [root_dir_pointer] builds a well-formed directory of two slots, both free. *)
Lemma root_dir_pointer_spec s k :
  arena s k -> mem_ok (mm s) -> (k + nodes SIZEOF_OBJECT + 2 <= length (heap_page_head s))%nat ->
  exists s', root_dir_pointer s = Ok (node_addr k, s') /\ iflag s' = iflag s /\ mem_ok (mm s') /\
    length (heap_page_head s') = length (heap_page_head s) /\
    arena s' (k + nodes SIZEOF_OBJECT + 2) /\ dir_wf s' (k + nodes SIZEOF_OBJECT + 2) (node_addr k) /\
    max_files (mm s') (node_addr k) = 2 /\ (forall i, 0 <= i < 2 -> slot (mm s') (node_addr k) i = NULL) /\
    (forall x, ~ (node_addr k <= x < node_addr (k + nodes SIZEOF_OBJECT + 2)) -> mm s' x = mm s x).
Proof.
  intros Har Hok Hroom. pose proof (node_addr_range s k Har) as Hkr. unfold root_dir_pointer, assign64.
  destruct (kmalloc_byte_arena SIZEOF_OBJECT s k) as (s1 & -> & Hmm1 & Hif1 & Har1 & Hl1 & _ & Hbs1);
    [done|done|unfold room; lia|]. cbn [mbind outcome_bind].
  destruct (Z.eqb_spec (node_addr k) NULL) as [E|_]; [by destruct (node_addr_nonnull s k Har)|]. cbn [mbind outcome_bind].
  set (k1 := (k + nodes SIZEOF_OBJECT)%nat) in *. set (p := node_addr k) in *. set (m2 := store64 (store64 _ _ _) _ _).
  assert (node_addr k1 = p + 1280) as Hk1 by (unfold k1; by rewrite node_addr_add).
  destruct (kmalloc_byte_arena SIZEOF_MUTEX (set_mm m2 s1) k1) as (s3 & -> & Hmm3 & Hif3 & Har3 & Hl3 & _ & Hbs3);
    [done|auto with willow|unfold room; cbn [heap_page_head set_mm]; rewrite nodes_16, Hl1; lia|].
  cbn [mbind outcome_bind]. destruct (Z.eqb_spec (node_addr k1) NULL) as [E|_]; [by destruct (node_addr_nonnull s1 k1 Har1)|].
  rewrite nodes_16 in Har3. set (m4 := store8 (store64 _ _ _) _ _).
  assert (node_addr (k1 + 1) = p + 1344) as Hk2 by (rewrite node_addr_add; lia).
  destruct (kmalloc_byte_arena (2 * 2 * 8) (set_mm m4 s3) (k1 + 1)) as (s5 & -> & Hmm5 & Hif5 & Har5 & Hl5 & Hb5 & _);
    [done|auto with willow|unfold room; cbn [heap_page_head set_mm]; rewrite Hl3; cbn [heap_page_head set_mm]; rewrite Hl1;
      change (nodes (2 * 2 * 8)) with 1%nat; lia|].
  cbn [mbind outcome_bind].
  destruct (Z.eqb_spec (node_addr (k1 + 1)) NULL) as [E|_]; [by destruct (node_addr_nonnull s3 (k1 + 1) Har3)|].
  change (nodes (2 * 2 * 8)) with 1%nat in Har5. replace (k1 + 1 + 1)%nat with (k1 + 2)%nat in Har5 by lia.
  assert (node_addr (k1 + 2) = p + 1408) as Hk3 by (rewrite node_addr_add; lia).
  rewrite Hmm5. cbn [mm set_mm] in *. set (f := node_addr (k1 + 1)) in *. set (m6 := store64 m4 _ f). set (m7 := clear_files 2 0 m6 f).
  assert (forall x, ~ (p <= x < p + 1408) -> m7 x = mm s x) as Hfr.
  { intros x Hx. unfold m7. rewrite clear_files_out by lia. unfold m6, m4. layout. rewrite store64_out, store8_ne, store64_out by lia.
    rewrite Hmm3. unfold m2. layout. rewrite !store64_out by lia. by rewrite Hmm1. }
  assert (mem_ok m7) as Hok7.
  { apply clear_files_ok. unfold m6, m4. rewrite Hmm3. unfold m2. rewrite Hmm1. auto 10 with willow. }
  assert (forall x, p <= x < p + 1256 -> m7 x = m6 x) as Hin by (intros x Hx; apply clear_files_out; lia).
  assert (dir_files m7 p = f) as Ef.
  { unfold dir_files. rewrite (load64_ext m6) by (intros x Hx; apply Hin; layout; lia).
    apply load64_store64_eq. unfold is_u64, HEAP_START_VIRT_DEFINED in *. pose proof (node_addr_range _ _ Har5). lia. }
  assert (dir_mutex m7 p = node_addr k1) as Et.
  { unfold dir_mutex. rewrite (load64_ext m6) by (intros x Hx; apply Hin; layout; lia). unfold m6, m4. layout.
    rewrite load64_store64_ne by lia. rewrite (load64_ext (store64 (mm s3) (p + 1224) (node_addr k1))) by (intros; apply store8_ne; lia).
    apply load64_store64_eq. unfold is_u64, HEAP_START_VIRT_DEFINED in *. pose proof (node_addr_range _ _ Har5). lia. }
  assert (forall off, off = D_MAX_FILES \/ off = D_NUM_FILES -> load64 m7 (p + off) = load64 m2 (p + off)) as Hkeep.
  { intros off Hoff. apply load64_ext. intros x Hx. rewrite Hin by (layout; lia). unfold m6, m4. layout.
    rewrite store64_out, store8_ne, store64_out by lia. by rewrite Hmm3. }
  assert (max_files m7 p = 2) as Em.
  { unfold max_files. rewrite Hkeep by auto. unfold m2. layout. rewrite load64_store64_ne by lia. by apply load64_store64_eq. }
  assert (load64 m7 (p + D_NUM_FILES) = 0) as En.
  { rewrite Hkeep by auto. unfold m2. by apply load64_store64_eq. }
  assert (forall i, 0 <= i < 2 -> slot m7 p i = NULL) as Es.
  { intros i Hi. unfold slot, entry_at. fold (dir_files m7 p). rewrite Ef. by apply clear_files_in. }
  exists (set_mm m7 s5). cbn [mm set_mm iflag heap_page_head].
  split_and!; [done| |done| |auto with willow| |done|done|intros x Hx; apply Hfr; lia].
  - rewrite Hif5. cbn [iflag set_mm]. rewrite Hif3. done.
  - rewrite Hl5. cbn [heap_page_head set_mm]. rewrite Hl3. done.
  - split; cbn [mm set_mm heap_page_head]; rewrite ?Ef, ?Em, ?Et; unfold live, apart; layout.
    + lia.
    + split; cbn [mm set_mm heap_page_head]; rewrite ?Ef, ?Em; unfold live, apart; layout.
      * exists (k1 + 1)%nat, (chunks (2 * 2 * 8)). split_and!; [done|lia|done|done].
      * lia.
      * lia.
      * rewrite En. cbn. symmetry. apply (count_slots_zero 2 0). intros j Hj.
        rewrite <- (Es j) by lia. unfold slot, entry_at. fold (dir_files m7 p). by rewrite Ef.
      * rewrite En. lia.
    + lia.
    + intros i Hi Hne. by destruct (Hne (Es i Hi)).
Qed.

(** C14: creating a file refines insertion into the map from names to entries:
    in a well-formed directory with room in the heap and a name not yet there,
    [tmpfs_create_file] returns a fresh object of type file and of the given
    size, [tmpfs_lookup] of the name gives it, [tmpfs_lookup] of any other name
    gives what it gave, and the directory stays well formed, whether its array
    had to grow or not. *)
Theorem tmpfs_create_file_refines_insert (s : mst) (k : nat) (dir name size : Z) (nm : list Z)
    (Har : arena s k) (Hok : mem_ok (mm s)) (Hwf : dir_wf s k dir) (Hname : good_name s name nm)
    (Hsize : 0 < size < 2 ^ 64) (Hroom : create_room s k dir size)
    (Hnew : tmpfs_lookup dir name s = Ok NULL) :
  exists p s' k', tmpfs_create_file dir name size s = Ok (p, s') /\ p <> NULL /\ iflag s' = iflag s /\
    arena s' k' /\ dir_wf s' k' dir /\ type_of (mm s') p = 0 /\ load64 (mm s') (p + F_SIZE) = size /\
    tmpfs_lookup dir name s' = Ok p /\
    forall other nm', good_name s other nm' -> nm' <> nm ->
      tmpfs_lookup dir other s' = tmpfs_lookup dir other s.
Proof.
  destruct (tmpfs_create_file_effect dir name nm size s k Har Hok Hwf Hname Hsize Hroom)
    as (s' & k' & fi & Hc & Hcr & Hty & Hsz).
  pose proof Hname as (Hn & _ & Hf & _ & _). pose proof (created_wf s k s' k' dir fi nm Har Hwf Hcr Hf) as Hwf'.
  assert (forall a l, good_name s a l -> cstr (mm s') a l) as Hstr.
  { intros a l (Hl & _ & _ & _ & Hout). apply (cstr_ext (mm s)); [|done]. intros x Hx.
    destruct (cr_fi _ _ _ _ _ _ _ _ Hcr) as [Hfi _]. pose proof (ar_k _ _ (cr_arena _ _ _ _ _ _ _ _ Hcr)) as Hk'.
    rewrite (cr_len _ _ _ _ _ _ _ _ Hcr) in Hk'. pose proof (cr_k _ _ _ _ _ _ _ _ Hcr). pose proof (ar_k _ _ Har).
    destruct Hwf as [Hdir [_ Hlv _ _ _] (Hml & _) _]. unfold live, outside_heap, apart, node_addr in *.
    layout. apply (cr_frame _ _ _ _ _ _ _ _ Hcr); unfold node_addr; layout; lia. }
  assert (misses (mm s) dir nm) as Hmiss.
  { destruct (tmpfs_lookup_spec dir name nm s) as (e & He & [[Hne _]|[_ Hm]]);
      [by eapply dir_wf_nonnull|by eapply dir_wf_names|done| |done]. congruence. }
  exists (node_addr k), s', k'. split_and!; try done; try by destruct Hcr.
  - by apply (node_addr_nonnull s).
  - eapply tmpfs_lookup_finds; [done|by apply Hstr|]. by apply created_finds_new with (s := s) (fi := fi) (k' := k').
  - intros other nm' Hother Hne.
    destruct (tmpfs_lookup_spec dir other nm' s) as (e & -> & [[_ Hf']|[-> Hm]]);
      [by eapply dir_wf_nonnull|by eapply dir_wf_names|by destruct Hother|..].
    + eapply tmpfs_lookup_finds; [done|by apply Hstr|]. by apply (created_finds_other s k s' k' dir fi nm).
    + eapply tmpfs_lookup_misses; [done|by apply Hstr|]. by apply (created_misses_other s k s' k' dir fi nm).
Qed.

(** ** Contents of files *)

Definition file_size (m : mem) (file : Z) : Z := load64 m (file + F_SIZE).
Definition file_data (m : mem) (file : Z) : Z := load64 m (file + F_DATA).
Definition file_mutex (m : mem) (file : Z) : Z := load64 m (file + H_MUTEX).

(** Byte [j] of the contents. *)
Definition file_byte (m : mem) (file j : Z) : Z := m (file_data m file + j).

(** A file, its mutex and its data are in the heap and do not overlap; the data
    has a block of its own. *)
Record file_wf (s : mst) (k : nat) (file : Z) : Prop := {
  fw_file : live k file SIZEOF_OBJECT;
  fw_mutex : live k (file_mutex (mm s) file) SIZEOF_MUTEX /\
    apart (file_mutex (mm s) file) SIZEOF_MUTEX file SIZEOF_OBJECT;
  fw_data : exists i l, file_data (mm s) file = node_addr i /\ (1 <= i)%nat /\
    block (heap_page_head s) i l /\ file_size (mm s) file <= 64 * l /\ live k (node_addr i) (64 * l) /\
    apart (node_addr i) (64 * l) file SIZEOF_OBJECT /\
    apart (node_addr i) (64 * l) (file_mutex (mm s) file) SIZEOF_MUTEX
}.

(** What reading needs of it. *)
Record readable (m : mem) (k : nat) (file : Z) : Prop := {
  rd_file : live k file SIZEOF_OBJECT;
  rd_mutex : live k (file_mutex m file) SIZEOF_MUTEX /\ apart (file_mutex m file) SIZEOF_MUTEX file SIZEOF_OBJECT;
  rd_data : live k (file_data m file) (file_size m file);
  rd_data_file : apart (file_data m file) (file_size m file) file SIZEOF_OBJECT;
  rd_data_mutex : apart (file_data m file) (file_size m file) (file_mutex m file) SIZEOF_MUTEX
}.

Lemma file_wf_readable s k file : file_wf s k file -> readable (mm s) k file.
Proof.
  intros [Hf Hm (i & l & Hd & _ & _ & Hsz & Hl & Hdf & Hdm)]. unfold live, apart in *. split; unfold live, apart; rewrite ?Hd; lia.
Qed.

(** A file stays readable, with the same contents, while its bytes do not change. *)
Lemma readable_keep m m' k k' file :
  readable m k file -> (k <= k')%nat -> (forall x, HEAP_START_VIRT_DEFINED <= x < node_addr k -> m' x = m x) ->
  readable m' k' file /\ file_size m' file = file_size m file /\
  forall j, 0 <= j < file_size m file -> file_byte m' file j = file_byte m file j.
Proof.
  intros [Hf [Hml Hmf] Hd Hdf Hdm] Hk E. assert (node_addr k <= node_addr k') by (unfold node_addr; lia). unfold live in *.
  assert (forall off, 0 <= off <= SIZEOF_OBJECT - 8 -> load64 m' (file + off) = load64 m (file + off)) as El.
  { intros off Ho. apply load64_ext. intros x Hx. apply E. layout. lia. }
  assert (file_mutex m' file = file_mutex m file) as Em by (apply El; layout; lia).
  assert (file_data m' file = file_data m file) as Ed by (apply El; layout; lia).
  assert (file_size m' file = file_size m file) as Es by (apply El; layout; lia).
  split_and!; [split; rewrite ?Em, ?Ed, ?Es; unfold live, apart in *; (done || lia)|done|].
  intros j Hj. unfold file_byte. rewrite Ed. apply E. lia.
Qed.

Lemma extend_file_spec s k file end_ :
  arena s k -> mem_ok (mm s) -> file_wf s k file -> file_size (mm s) file < end_ -> room s k end_ ->
  exists s', extend_file file end_ s = Ok s' /\ arena s' (k + nodes end_) /\ mem_ok (mm s') /\ iflag s' = iflag s /\
    length (heap_page_head s') = length (heap_page_head s) /\
    file_wf s' (k + nodes end_) file /\ file_size (mm s') file = end_ /\
    (forall j, 0 <= j < file_size (mm s) file -> file_byte (mm s') file j = file_byte (mm s) file j) /\
    (forall x, outside_heap s x 1 -> mm s' x = mm s x).
Proof.
  intros Har Hok [Hf [Hml Hmf] (i & l & Hd & Hi & Hb & Hsz & Hdl & Hdf & Hdm)] Hlt Hroom.
  pose proof (node_addr_range s k Har) as Hkr. pose proof (load64_range (mm s) (file + F_SIZE) Hok) as Hu.
  fold (file_size (mm s) file) in Hu. unfold is_u64 in Hu. unfold live, apart in *. unfold extend_file.
  destruct (kmalloc_byte_arena end_ s k) as (s1 & -> & Hmm1 & Hif1 & Har1 & Hl1 & Hbk & Hbs1); [lia|done|done|].
  cbn [mbind outcome_bind]. rewrite Hmm1. fold (file_data (mm s) file) (file_mutex (mm s) file). rewrite Hd.
  set (mtx := file_mutex (mm s) file) in *. set (p := node_addr k) in *.
  assert (node_addr (k + nodes end_) = p + 64 * chunks end_) as Hk'.
  { rewrite node_addr_add. unfold nodes. pose proof (chunks_nonneg end_). lia. }
  pose proof (chunks_bytes end_ ltac:(lia)) as Hcb.
  assert (p + 64 * chunks end_ <= HEAP_START_VIRT_DEFINED + 64 * Z.of_nat (length (heap_page_head s))) as Hend.
  { unfold room, nodes in Hroom. unfold p, node_addr. pose proof (chunks_nonneg end_). lia. }
  pose proof (ar_len _ _ Har) as Hlen.
  destruct (Z.eqb_spec (node_addr i) NULL) as [E|_]; [unfold HEAP_START_VIRT_DEFINED, NULL in *; lia|].
  rewrite acquire_mutex_at_ok by (unfold HEAP_START_VIRT_DEFINED, NULL in *; lia).
  cbn [mbind outcome_bind mm set_mm]. rewrite Hmm1. set (m2 := store8 (mm s) mtx 1).
  assert (forall x, x <> mtx -> m2 x = mm s x) as Hm2 by (intros x Hx; unfold m2; by apply store8_ne).
  assert (load64 m2 (file + F_DATA) = node_addr i) as ->.
  { rewrite <- Hd. apply load64_ext. intros x Hx. apply Hm2. layout. lia. }
  assert (load64 m2 (file + F_SIZE) = file_size (mm s) file) as ->.
  { apply load64_ext. intros x Hx. apply Hm2. layout. lia. }
  set (sz := file_size (mm s) file) in *. set (m3 := memcpy m2 p (node_addr i) sz).
  assert (mem_ok m2) as Hok2 by (unfold m2; auto with willow).
  assert (mem_ok m3) as Hok3 by (by apply memcpy_loop_ok).
  destruct (memcpy_spec m2 p (node_addr i) sz) as [Hin Hout]; [lia|done|lia|]. fold m3 in Hin, Hout.
  assert (load64 m3 (file + F_DATA) = node_addr i) as ->.
  { rewrite <- Hd. apply load64_ext. intros x Hx. layout. rewrite Hout by lia. apply Hm2. lia. }
  destruct (kfree_arena (set_mm m3 (set_mm m2 s1)) (k + nodes end_) i l) as (s4 & -> & Hmm4 & Hif4 & Har4 & Hl4 & Hbs4);
    [auto with willow|by apply Hbs1|done|].
  cbn [mbind outcome_bind]. rewrite Hmm4. cbn [mm set_mm]. set (m5 := store64 (store64 _ _ _) _ _).
  assert (file_mutex m5 file = mtx) as Et.
  { unfold mtx, file_mutex. apply load64_ext. intros x Hx. unfold m5. layout.
    rewrite !store64_out by lia. rewrite Hout by lia. apply Hm2. lia. }
  fold (file_mutex m5 file). rewrite Et.
  rewrite release_mutex_at_ok by (unfold HEAP_START_VIRT_DEFINED, NULL in *; lia). cbn [mm set_mm].
  set (m6 := store8 m5 mtx 0).
  assert (forall x, x <> mtx -> m6 x = m5 x) as Hm6 by (intros x Hx; unfold m6; by apply store8_ne).
  assert (file_data m6 file = p) as Ed6.
  { unfold file_data. rewrite (load64_ext m5) by (intros x Hx; apply Hm6; layout; lia). unfold m5. layout.
    rewrite load64_store64_ne by lia. apply load64_store64_eq.
    unfold is_u64, HEAP_START_VIRT_DEFINED in *. lia. }
  assert (file_size m6 file = end_) as Es6.
  { unfold file_size. rewrite (load64_ext m5) by (intros x Hx; apply Hm6; layout; lia). unfold m5.
    apply load64_store64_eq. unfold is_u64. lia. }
  assert (file_mutex m6 file = mtx) as Et6.
  { rewrite <- Et. apply load64_ext. intros x Hx. apply Hm6. layout. lia. }
  eexists. split; [done|]. cbn [mm set_mm iflag heap_page_head].
  split_and!; [auto with willow|unfold m6, m5; auto with willow|rewrite Hif4; done|by rewrite Hl4| |done| |].
  - split; cbn [mm set_mm heap_page_head]; rewrite ?Es6, ?Ed6, ?Et6; unfold live, apart; layout; [lia|lia|].
    exists k, (chunks end_). fold p.
    pose proof (block_below s k i l Har Hb) as Hik.
    split_and!; [done|lia| |lia|lia|lia|lia|lia].
    apply Hbs4; [destruct Hb as (? & ? & ? & ?); lia|]. exact Hbk.
  - intros j Hj. unfold file_byte. layout. rewrite Ed6, Hd, Hm6 by lia. unfold m5. layout. rewrite !store64_out by lia.
    rewrite Hin by lia. apply Hm2. lia.
  - intros x Hx. unfold outside_heap, apart in Hx. layout. rewrite Hm6 by lia. unfold m5. layout.
    rewrite !store64_out by lia. rewrite Hout by lia. apply Hm2. lia.
Qed.

(** The copy at the end of [tmpfs_write_to_file]: the bytes of the range come from
    [src], everything else in the file stays. *)
Lemma file_copy_in s k file src size off :
  arena s k -> mem_ok (mm s) -> file_wf s k file -> 0 <= off -> 0 < size -> off + size <= file_size (mm s) file ->
  outside_heap s src size ->
  exists s', tmpfs_write_to_file file src size off s = Ok s' /\ arena s' k /\ mem_ok (mm s') /\ iflag s' = iflag s /\
    heap_page_head s' = heap_page_head s /\
    file_wf s' k file /\ file_size (mm s') file = file_size (mm s) file /\
    (forall j, 0 <= j < file_size (mm s) file -> file_byte (mm s') file j =
       if between off j (off + size) then mm s (src + (j - off)) else file_byte (mm s) file j) /\
    (forall x, outside_heap s x 1 -> mm s' x = mm s x).
Proof.
  intros Har Hok [Hf [Hml Hmf] (i & l & Hd & Hi & Hb & Hsz & Hdl & Hdf & Hdm)] Hoff Hsize Hend Hsrc.
  pose proof (node_addr_range s k Har) as Hkr. pose proof (ar_len _ _ Har) as Hlen. pose proof (ar_k _ _ Har) as Hkl.
  unfold outside_heap, live, apart in *. layout.
  assert (node_addr k <= HEAP_START_VIRT_DEFINED + 64 * Z.of_nat (length (heap_page_head s))) as Hkend.
  { unfold node_addr. lia. }
  assert (node_addr k < 2 ^ 64) as Hk64 by lia.
  unfold tmpfs_write_to_file. fold (file_size (mm s) file). rewrite (wrap64_small (off + size)).
  2: { unfold HEAP_START_VIRT_DEFINED in *. lia. }
  destruct (Z.ltb_spec (file_size (mm s) file) (off + size)); [lia|]. cbn [mbind outcome_bind].
  fold (file_mutex (mm s) file). set (mtx := file_mutex (mm s) file) in *.
  rewrite acquire_mutex_at_ok by (unfold HEAP_START_VIRT_DEFINED, NULL in *; lia).
  cbn [mbind outcome_bind mm set_mm]. set (m2 := store8 (mm s) mtx 1).
  assert (forall x, x <> mtx -> m2 x = mm s x) as Hm2 by (intros x Hx; unfold m2; by apply store8_ne).
  assert (load64 m2 (file + F_DATA) = node_addr i) as ->.
  { rewrite <- Hd. apply load64_ext. intros x Hx. apply Hm2. layout. lia. }
  rewrite wrap64_small by (unfold HEAP_START_VIRT_DEFINED in *; lia).
  set (m3 := memcpy m2 (node_addr i + off) src size).
  assert (mem_ok m2) as Hok2 by (unfold m2; auto with willow).
  assert (mem_ok m3) as Hok3 by (by apply memcpy_loop_ok).
  destruct (memcpy_spec m2 (node_addr i + off) src size) as [Hin Hout]; [lia|done|lia|]. fold m3 in Hin, Hout.
  assert (file_mutex m3 file = mtx) as Et.
  { unfold mtx, file_mutex. apply load64_ext. intros x Hx. layout. rewrite Hout by lia. apply Hm2. lia. }
  fold (file_mutex m3 file). rewrite Et.
  rewrite release_mutex_at_ok by (unfold HEAP_START_VIRT_DEFINED, NULL in *; lia). cbn [mm set_mm].
  set (m4 := store8 m3 mtx 0).
  assert (forall x, x <> mtx -> ~ (node_addr i + off <= x < node_addr i + off + size) -> m4 x = mm s x) as Hfr.
  { intros x Hx1 Hx2. unfold m4. rewrite store8_ne, Hout by done. by apply Hm2. }
  assert (file_data m4 file = node_addr i) as Ed.
  { rewrite <- Hd. apply load64_ext. intros x Hx. apply Hfr; layout; lia. }
  assert (file_size m4 file = file_size (mm s) file) as Es.
  { apply load64_ext. intros x Hx. apply Hfr; layout; lia. }
  assert (file_mutex m4 file = mtx) as Et4.
  { unfold mtx, file_mutex. apply load64_ext. intros x Hx. apply Hfr; layout; lia. }
  eexists. split; [done|]. cbn [mm set_mm iflag heap_page_head].
  split_and!; [auto with willow|unfold m4; auto with willow|done|done| |done| |].
  - split; cbn [mm set_mm heap_page_head]; rewrite ?Es, ?Ed, ?Et4; unfold live, apart; layout; [lia|lia|].
    exists i, l. split_and!; (done || lia).
  - intros j Hj. unfold file_byte. rewrite Ed, Hd. destr_cmp.
    + unfold m4. rewrite store8_ne by lia. replace (node_addr i + j) with (node_addr i + off + (j - off)) by lia.
      rewrite Hin by lia. apply Hm2. lia.
    + apply Hfr; lia.
  - intros x Hx. apply Hfr; lia.
Qed.

(** Writing past the end is writing after the extension. *)
Lemma write_extended s file src size off s1 :
  file_size (mm s) file < wrap64 (off + size) -> extend_file file (wrap64 (off + size)) s = Ok s1 ->
  file_size (mm s1) file = wrap64 (off + size) ->
  tmpfs_write_to_file file src size off s = tmpfs_write_to_file file src size off s1.
Proof.
  intros Hlt Hext Hsz. unfold tmpfs_write_to_file.
  fold (file_size (mm s) file) (file_size (mm s1) file). rewrite Hsz, Z.ltb_irrefl.
  destruct (Z.ltb_spec (file_size (mm s) file) (wrap64 (off + size))); [|lia]. by rewrite Hext.
Qed.

Lemma tmpfs_write_spec s k file src size off :
  arena s k -> mem_ok (mm s) -> file_wf s k file -> 0 <= off -> 0 < size -> off + size < 2 ^ 64 ->
  room s k (off + size) -> outside_heap s src size ->
  exists s' k', tmpfs_write_to_file file src size off s = Ok s' /\ arena s' k' /\ mem_ok (mm s') /\
    iflag s' = iflag s /\ length (heap_page_head s') = length (heap_page_head s) /\ file_wf s' k' file /\
    file_size (mm s') file = Z.max (file_size (mm s) file) (off + size) /\
    (forall j, off <= j < off + size -> file_byte (mm s') file j = mm s (src + (j - off))) /\
    (forall j, 0 <= j < file_size (mm s) file -> ~ (off <= j < off + size) ->
       file_byte (mm s') file j = file_byte (mm s) file j).
Proof.
  intros Har Hok Hwf Hoff Hsize H64 Hroom Hsrc.
  assert (wrap64 (off + size) = off + size) as Hw by (apply wrap64_small; lia).
  destruct (Z_lt_dec (file_size (mm s) file) (off + size)) as [Hlt|Hge].
  - destruct (extend_file_spec s k file (off + size) Har Hok Hwf Hlt Hroom)
      as (s1 & He & Har1 & Hok1 & Hif1 & Hl1 & Hwf1 & Hs1 & Hb1 & Ho1).
    assert (forall x n, outside_heap s x n <-> outside_heap s1 x n) as Houts.
    { intros x n. unfold outside_heap. by rewrite Hl1. }
    destruct (file_copy_in s1 (k + nodes (off + size)) file src size off)
      as (s2 & Hwr & Har2 & Hok2 & Hif2 & Hh2 & Hwf2 & Hs2 & Hb2 & Ho2); [done|done|done|done|done|lia|by apply Houts|].
    exists s2, (k + nodes (off + size))%nat.
    rewrite (write_extended s file src size off s1) by (rewrite ?Hw; done || lia).
    split_and!; [done|done|done|congruence|by rewrite Hh2|done|lia|..].
    + intros j Hj. rewrite Hb2 by lia. destr_cmp; [|lia]. apply Ho1. unfold outside_heap, apart in *. lia.
    + intros j Hj Hne. rewrite Hb2 by lia. destr_cmp; [lia|]. by apply Hb1.
  - destruct (file_copy_in s k file src size off) as (s2 & Hwr & Har2 & Hok2 & Hif2 & Hh2 & Hwf2 & Hs2 & Hb2 & Ho2);
      [done|done|done|done|done|lia|done|].
    exists s2, k. split_and!; [done|done|done|done|by rewrite Hh2|done|lia|..].
    + intros j Hj. rewrite Hb2 by lia. destr_cmp; [done|lia].
    + intros j Hj Hne. rewrite Hb2 by lia. destr_cmp; [lia|done].
Qed.

Lemma tmpfs_read_spec s k file buf size off :
  arena s k -> mem_ok (mm s) -> readable (mm s) k file -> 0 <= off < file_size (mm s) file -> 0 <= size ->
  let count := Z.min size (file_size (mm s) file - off) in
  outside_heap s buf count ->
  exists s', tmpfs_read_from_file file buf size off s = Ok (count, s') /\ iflag s' = iflag s /\
    (forall j, 0 <= j < count -> mm s' (buf + j) = file_byte (mm s) file (off + j)).
Proof.
  intros Har Hok [Hf [Hml Hmf] Hdl Hdf Hdm] Hoff Hsize count Hbuf.
  pose proof (node_addr_range s k Har) as Hkr. pose proof (ar_k _ _ Har) as Hkl.
  set (d := file_data (mm s) file) in *. unfold outside_heap, live, apart in *. layout.
  assert (node_addr k <= HEAP_START_VIRT_DEFINED + 64 * Z.of_nat (length (heap_page_head s))) as Hkend.
  { unfold node_addr. lia. }
  unfold tmpfs_read_from_file. fold (file_size (mm s) file).
  destruct (Z.leb_spec (file_size (mm s) file) off); [lia|].
  replace (if size <? file_size (mm s) file - off then size else file_size (mm s) file - off) with count
    by (unfold count; destr_cmp; lia).
  fold (file_mutex (mm s) file). set (mtx := file_mutex (mm s) file) in *.
  rewrite acquire_mutex_at_ok by (unfold HEAP_START_VIRT_DEFINED, NULL in *; lia).
  cbn [mbind outcome_bind mm set_mm]. set (m2 := store8 (mm s) mtx 1).
  assert (forall x, x <> mtx -> m2 x = mm s x) as Hm2 by (intros x Hx; unfold m2; by apply store8_ne).
  assert (load64 m2 (file + F_DATA) = d) as ->.
  { apply load64_ext. intros x Hx. apply Hm2. layout. lia. }
  rewrite wrap64_small by (unfold HEAP_START_VIRT_DEFINED in *; lia).
  set (m3 := memcpy m2 buf (d + off) count).
  assert (mem_ok m2) as Hok2 by (unfold m2; auto with willow).
  destruct (memcpy_spec m2 buf (d + off) count) as [Hin Hout]; [lia|done|lia|]. fold m3 in Hin, Hout.
  assert (file_mutex m3 file = mtx) as Et.
  { unfold mtx, file_mutex. apply load64_ext. intros x Hx. layout. rewrite Hout by lia. apply Hm2. lia. }
  fold (file_mutex m3 file). rewrite Et.
  rewrite release_mutex_at_ok by (unfold HEAP_START_VIRT_DEFINED, NULL in *; lia). cbn [mbind outcome_bind mm set_mm].
  eexists. split; [done|]. split; [done|]. intros j Hj. cbn [mm set_mm].
  rewrite store8_ne by lia. rewrite Hin by lia. rewrite Hm2 by lia. unfold file_byte. fold d. f_equal. lia.
Qed.

(** C16: what is written is read back: writing [size] bytes at [off] into a
    well-formed file, extended when they do not fit, returns with the
    interrupt flag as it was and the file well formed; reading the range gives
    exactly the bytes written, the size is the larger of the old size and the
    end of the range, and every byte of the old contents outside the range is
    kept. *)
Theorem tmpfs_write_read_roundtrip (s : mst) (k : nat) (file src buf size off : Z)
    (Har : arena s k) (Hok : mem_ok (mm s)) (Hwf : file_wf s k file) (Hoff : 0 <= off) (Hsize : 0 < size)
    (H64 : off + size < 2 ^ 64) (Hroom : room s k (off + size))
    (Hsrc : outside_heap s src size) (Hbuf : outside_heap s buf size) :
  exists s1 k1 s2, tmpfs_write_to_file file src size off s = Ok s1 /\
    tmpfs_read_from_file file buf size off s1 = Ok (size, s2) /\ iflag s2 = iflag s /\
    arena s1 k1 /\ file_wf s1 k1 file /\
    (forall j, 0 <= j < size -> mm s2 (buf + j) = mm s (src + j)) /\
    file_size (mm s1) file = Z.max (file_size (mm s) file) (off + size) /\
    (forall j, 0 <= j < file_size (mm s) file -> ~ (off <= j < off + size) ->
       file_byte (mm s1) file j = file_byte (mm s) file j).
Proof.
  destruct (tmpfs_write_spec s k file src size off Har Hok Hwf Hoff Hsize H64 Hroom Hsrc)
    as (s1 & k1 & Hw & Har1 & Hok1 & Hif1 & Hl1 & Hwf1 & Hs1 & Hb1 & Hk1).
  assert (Z.min size (file_size (mm s1) file - off) = size) as Hcount by lia.
  destruct (tmpfs_read_spec s1 k1 file buf size off Har1 Hok1 (file_wf_readable _ _ _ Hwf1)) as (s2 & Hr & Hif2 & Hb2); [lia|lia| |].
  { rewrite Hcount. unfold outside_heap. by rewrite Hl1. }
  rewrite Hcount in Hr, Hb2. exists s1, k1, s2. split_and!; [done|done|congruence|done|done| |done|done].
  intros j Hj. rewrite Hb2, Hb1 by lia. f_equal. lia.
Qed.

End Tmpfs.

(** ** Witness *)

(** A heap of 256 nodes, with the one-letter names "a" and "b" below it. *)
Definition sample_names : mst :=
  Mst (fun x => if x =? 0x1000 then 97 else if x =? 0x2000 then 98 else 0) true [] 0 (fresh_heap 256).

Lemma sample_arena : arena sample_names 0.
Proof.
  split; [apply fresh_heap_inv| |vm_compute; discriminate|vm_compute; lia].
  intros i n Hn. apply lookup_replicate in Hn as [-> _]. done.
Qed.

Lemma sample_mem_ok : mem_ok (mm sample_names).
Proof. intros x. cbn. repeat destr_cmp; lia. Qed.

Lemma tmpfs_create_file_refines_insert_witness :
  exists dir s p s', root_dir_pointer sample_names = Ok (dir, s) /\
    tmpfs_create_file 8 dir 0x1000 4096 s = Ok (p, s') /\ tmpfs_lookup 8 dir 0x1000 s' = Ok p /\
    tmpfs_lookup 8 dir 0x2000 s' = tmpfs_lookup 8 dir 0x2000 s.
Proof.
  destruct (root_dir_pointer_spec 8 sample_names 0) as (s & Hr & _ & Hok & Hl & Har & Hwf & Hmx & Hs & Hfr);
    [exact sample_arena|exact sample_mem_ok|vm_compute; lia|].
  assert (forall a c, c <> 0 -> mm sample_names a = c -> mm sample_names (a + 1) = 0 -> a + 2 < HEAP_START_VIRT_DEFINED ->
    a <> NULL -> good_name 8 s a [c]) as Hgood.
  { intros a c Hc Ha Ha1 Hlow Hnz. unfold good_name, outside_heap, apart. cbn [length cstr].
    rewrite !Hfr by (unfold node_addr; lia). split_and!; [done..|lia|lia|lia]. }
  assert (good_name 8 s 0x1000 [97]) as Ha by (by apply Hgood).
  assert (good_name 8 s 0x2000 [98]) as Hb by (by apply Hgood).
  destruct (tmpfs_create_file_refines_insert 8 s (0 + nodes SIZEOF_OBJECT + 2) (node_addr 0) 0x1000 4096 [97])
    as (p & s' & k' & Hc & _ & _ & _ & _ & _ & _ & Hlk & Ho).
  - exact Har.
  - exact Hok.
  - exact Hwf.
  - exact Ha.
  - lia.
  - unfold create_room. rewrite Hmx, Hl. vm_compute. lia.
  - eapply tmpfs_lookup_misses; [exact Hwf|exact (proj1 Ha)|]. intros j Hj. left. apply Hs. lia.
  - exists (node_addr 0), s, p, s'. split; [exact Hr|]. split; [exact Hc|]. split; [exact Hlk|].
    apply (Ho 0x2000 [98]); [exact Hb|discriminate].
Defined.

(** A file of ten bytes. *)
Definition sample_file (s : mst) : outcome (Z * mst) :=
  '(file, s) ← kmalloc_byte SIZEOF_OBJECT s;
  '(mutex, s) ← kmalloc_byte SIZEOF_MUTEX s;
  '(data, s) ← kmalloc_byte 10 s;
  let m := store64 (store64 (mm s) (file + F_SIZE) 10) (file + F_DATA) data in
  Ok (file, set_mm (store64 m (file + H_MUTEX) mutex) s).

Lemma sample_file_spec :
  exists s, sample_file sample_names = Ok (node_addr 0, s) /\ arena s 22 /\ mem_ok (mm s) /\ file_wf s 22 (node_addr 0) /\
    length (heap_page_head s) = 256%nat.
Proof.
  pose proof sample_arena as Har0. unfold sample_file.
  destruct (kmalloc_byte_arena SIZEOF_OBJECT sample_names 0) as (s1 & -> & Hmm1 & _ & Har1 & Hl1 & _ & _);
    [done|done|vm_compute; lia|]. cbn [mbind outcome_bind]. change (0 + nodes SIZEOF_OBJECT)%nat with 20%nat in *.
  destruct (kmalloc_byte_arena SIZEOF_MUTEX s1 20) as (s2 & -> & Hmm2 & _ & Har2 & Hl2 & _ & _);
    [done|done|unfold room; rewrite Hl1; vm_compute; lia|]. cbn [mbind outcome_bind].
  change (20 + nodes SIZEOF_MUTEX)%nat with 21%nat in *.
  destruct (kmalloc_byte_arena 10 s2 21) as (s3 & -> & Hmm3 & _ & Har3 & Hl3 & Hb3 & _);
    [done|done|unfold room; rewrite Hl2, Hl1; vm_compute; lia|]. cbn [mbind outcome_bind].
  change (21 + nodes 10)%nat with 22%nat in *. eexists. split; [done|].
  rewrite Hmm3, Hmm2, Hmm1. set (m := store64 _ _ (node_addr 20)).
  split_and!; [auto with willow| | |].
  - unfold m. cbn [mm set_mm]. auto using sample_mem_ok with willow.
  - assert (file_mutex m (node_addr 0) = node_addr 20) as Et by (vm_compute; reflexivity).
    assert (file_data m (node_addr 0) = node_addr 21) as Ed by (vm_compute; reflexivity).
    assert (file_size m (node_addr 0) = 10) as Es by (vm_compute; reflexivity).
    split; cbn [mm set_mm heap_page_head]; rewrite ?Et, ?Ed, ?Es; unfold live, apart, node_addr; layout; [lia|lia|].
    exists 21%nat, (chunks 10). split_and!; [done|lia|done|done|..].
    all: change (chunks 10) with 1; lia.
  - cbn [heap_page_head set_mm]. rewrite Hl3, Hl2, Hl1. reflexivity.
Qed.

Lemma tmpfs_write_read_roundtrip_witness :
  exists s s1 s2, sample_file sample_names = Ok (node_addr 0, s) /\
    tmpfs_write_to_file (node_addr 0) 0x1000 100 5 s = Ok s1 /\
    tmpfs_read_from_file (node_addr 0) 0x3000 100 5 s1 = Ok (100, s2) /\ mm s2 0x3000 = mm s 0x1000.
Proof.
  destruct sample_file_spec as (s & Hs & Har & Hok & Hwf & Hl).
  destruct (tmpfs_write_read_roundtrip s 22 (node_addr 0) 0x1000 0x3000 100 5)
    as (s1 & k1 & s2 & Hw & Hr & _ & _ & _ & Hb & _).
  - exact Har.
  - exact Hok.
  - exact Hwf.
  - lia.
  - lia.
  - lia.
  - unfold room. rewrite Hl. vm_compute. lia.
  - unfold outside_heap, apart, HEAP_START_VIRT_DEFINED. lia.
  - unfold outside_heap, apart, HEAP_START_VIRT_DEFINED. lia.
  - exists s, s1, s2. split; [exact Hs|]. split; [exact Hw|]. split; [exact Hr|]. exact (Hb 0 ltac:(lia)).
Defined.
