(* ===== verification/TmpfsDelete.v ===== *)
(** * Deleting a file (K/tmpfs.c)

    [tmpfs_delete_file] refines removal from the map from names to entries: the three
    [kfree]s leave the directory alone, the slot is cleared and every other name keeps its
    entry.  A file in use and a missing name change nothing. *)

From S2P Require Import Prelude Memory Machine Heap Arena Mutex Strings Tmpfs.

Local Open Scope list_scope.

Section Delete.
Context (fuel : nat).
Local Abbreviation dir_wf := (dir_wf fuel).
Local Abbreviation good_name := (good_name fuel).

(** ** The search *)

Definition is_file (m : mem) (e : Z) (nm : list Z) : Prop := named m e nm /\ type_of m e = 0.

Lemma scan_file s k dir name nm : dir_wf s k dir -> cstr (mm s) name nm ->
  exists r, scan_dir (mm s) dir (fun e => b ← name_is fuel (mm s) name e; Ok (b && (type_of (mm s) e =? 0))) = Ok r /\
    match r with
    | Some j => 0 <= j < max_files (mm s) dir /\ slot (mm s) dir j <> NULL /\ is_file (mm s) (slot (mm s) dir j) nm
    | None => forall j, 0 <= j < max_files (mm s) dir -> slot (mm s) dir j <> NULL -> ~ is_file (mm s) (slot (mm s) dir j) nm
    end.
Proof.
  intros Hwf Hn. set (m := mm s) in *. unfold scan_dir.
  destruct (Z.eqb_spec dir NULL) as [->|_]; [by destruct (dir_wf_nonnull _ _ _ _ Hwf)|].
  set (test e := b ← name_is fuel m name e; Ok (b && (type_of m e =? 0))).
  set (b e := match test e with Ok b => b | Err _ => false end).
  assert (0 <= max_files m dir) as Hmax.
  { destruct (dw_array _ _ _ _ Hwf) as [_ _ _ Hc Hf]. rewrite Hc in Hf. pose proof (count_slots_bounds (Z.to_nat (max_files m dir)) 0 m (dir_files m dir)).
    unfold m in *. lia. }
  assert (forall j, 0 <= j < max_files m dir -> slot m dir j <> NULL ->
    test (slot m dir j) = Ok (b (slot m dir j)) /\ (b (slot m dir j) = true <-> is_file m (slot m dir j) nm)) as Hb.
  { intros j Hj He. destruct (dir_wf_names _ _ _ _ Hwf j Hj He) as (nm' & Hnm & Hf).
    destruct (name_is_spec fuel m name (slot m dir j) nm nm' Hn Hnm Hf) as (b0 & Hb0 & Hb1).
    unfold b, test. rewrite Hb0. cbn [mbind outcome_bind]. split; [done|]. unfold is_file. rewrite andb_true_iff, Hb1, Z.eqb_eq. done. }
  destruct (find_entry_spec (Z.to_nat (max_files m dir)) 0 m (load64 m (dir + D_FILES)) test b) as (r & Hr & Hp).
  { intros j Hj He. apply Hb; [lia|done]. }
  exists r. split; [exact Hr|]. destruct r as [j|].
  - destruct Hp as (Hj & He & Hbj & _). split_and!; [lia|lia|done|]. by apply Hb; [lia| |].
  - intros j Hj He Hf. destruct (Hp j ltac:(lia)) as [Hz|Hz]; [done|]. apply (Hb j Hj He) in Hf. unfold slot, entry_at in Hf. congruence.
Qed.

(** ** The three kfrees *)

Definition entry_freeable (s : mst) (e : Z) : Prop :=
  freeable_at (heap_page_head s) (load64 (mm s) (e + F_DATA)) /\ freeable_at (heap_page_head s) (load64 (mm s) (e + H_MUTEX)) /\
  freeable_at (heap_page_head s) e.

Lemma freeable_less h h' a : length h' = length h -> (forall q l, block h' q l -> block h q l) -> freeable_at h a -> freeable_at h' a.
Proof. intros Hl Hb (i & -> & Hi & H1). exists i. rewrite Hl. split_and!; [done|lia|lia|]. intros l Hbl. by apply H1, Hb. Qed.

(** [s'] has the memory of [s] and its blocks of more than one node. *)
Record freed (s s' : mst) (k : nat) : Prop := {
  fr_arena : arena s' k;
  fr_mm : mm s' = mm s;
  fr_if : iflag s' = iflag s;
  fr_len : length (heap_page_head s') = length (heap_page_head s);
  fr_less : forall q l, block (heap_page_head s') q l -> block (heap_page_head s) q l;
  fr_long : forall q l, 1 < l -> block (heap_page_head s) q l -> block (heap_page_head s') q l
}.

Lemma kfree_freed s k a : arena s k -> freeable_at (heap_page_head s) a -> exists s', kfree a s = Ok s' /\ freed s s' k.
Proof.
  intros Har Ha. destruct (kfree_arena_at s k a Har Ha) as (s' & H1 & H2 & H3 & H4 & H5 & H6 & H7). exists s'. split; [done|].
  split; try done. intros q l Hl Hb. apply H7; [|done]. intros ->. destruct Ha as (i & E & _ & H1').
  assert (i = S q) as -> by (unfold node_addr in E; lia). replace (S q - 1)%nat with q in H1' by lia. specialize (H1' l Hb). lia.
Qed.

Lemma freed_trans s1 s2 s3 k : freed s1 s2 k -> freed s2 s3 k -> freed s1 s3 k.
Proof. intros [] []. split; try congruence; auto. Qed.

Lemma free_file_freed s k e : arena s k -> entry_freeable s e -> exists s', free_file e s = Ok s' /\ freed s s' k.
Proof.
  intros Har (Hd & Hm & He). unfold free_file.
  destruct (kfree_freed s k _ Har Hd) as (s1 & -> & F1). cbn [mbind outcome_bind].
  pose proof (fun a => freeable_less _ _ a (fr_len _ _ _ F1) (fr_less _ _ _ F1)) as L1. rewrite (fr_mm _ _ _ F1).
  destruct (kfree_freed s1 k _ (fr_arena _ _ _ F1) (L1 _ Hm)) as (s2 & -> & F2). cbn [mbind outcome_bind].
  pose proof (freed_trans _ _ _ _ F1 F2) as F12.
  destruct (kfree_freed s2 k e (fr_arena _ _ _ F2)) as (s3 & -> & F3).
  { apply (freeable_less (heap_page_head s)); [apply F12|apply F12|done]. }
  exists s3. split; [done|]. by eapply freed_trans.
Qed.

(** ** Clearing the slot *)

Lemma dir_wf_freed s s' k dir : freed s s' k -> 8 < max_files (mm s) dir -> dir_wf s k dir -> dir_wf s' k dir.
Proof.
  intros F Hmax [H1 [(i & l & E & Hi & Hb & Hl) A2 A3 A4 A5] H3 H4]. split; rewrite ?(fr_mm _ _ _ F); try done.
  split; rewrite ?(fr_mm _ _ _ F); try done. exists i, l. split_and!; [done|done| |done]. apply (fr_long _ _ _ F); [lia|done].
Qed.

(** Slot [i] is cleared and the count goes down; outside of the slot, the count and the mutex memory
    is unchanged. *)
Record dropped (s : mst) (dir i : Z) (m' : mem) : Prop := {
  dr_ok : mem_ok m';
  dr_slot : load64 m' (dir_files (mm s) dir + 8 * i) = 0;
  dr_num : load64 m' (dir + D_NUM_FILES) = load64 (mm s) (dir + D_NUM_FILES) - 1;
  dr_frame : forall x, ~ (dir_files (mm s) dir + 8 * i <= x < dir_files (mm s) dir + 8 * i + 8) ->
    ~ (dir + D_NUM_FILES <= x < dir + D_NUM_FILES + 8) -> x <> dir_mutex (mm s) dir -> m' x = mm s x
}.

Lemma drop_entry_spec s k dir i : mem_ok (mm s) -> dir_wf s k dir -> 0 <= i < max_files (mm s) dir ->
  0 < load64 (mm s) (dir + D_NUM_FILES) -> exists m', drop_entry dir i s = Ok (set_mm m' s) /\ dropped s dir i m'.
Proof.
  intros Hok [Hdir [_ Hlive Hap _ _] (Hml & Hmd & Hmf) _] Hi Hnum. unfold live, apart in *. unfold drop_entry.
  change (load64 (mm s) (dir + H_MUTEX)) with (dir_mutex (mm s) dir). set (mtx := dir_mutex (mm s) dir) in *.
  assert (mtx <> NULL) as Hmtx by (unfold HEAP_START_VIRT_DEFINED, NULL in *; lia).
  rewrite acquire_mutex_at_ok by done. cbn [mbind outcome_bind mm set_mm]. set (m1 := store8 (mm s) mtx 1).
  assert (load64 m1 (dir + D_FILES) = dir_files (mm s) dir) as ->.
  { apply load64_ext. intros x Hx. layout. apply store8_ne. lia. }
  set (f := dir_files (mm s) dir) in *. set (m2 := store64 m1 (f + 8 * i) 0).
  assert (load64 m2 (dir + D_NUM_FILES) = load64 (mm s) (dir + D_NUM_FILES)) as Hn2.
  { apply load64_ext. intros x Hx. layout. unfold m2, m1. rewrite store64_out, store8_ne by lia. done. }
  rewrite Hn2. pose proof (load64_range (mm s) (dir + D_NUM_FILES) Hok) as Hr. unfold is_u64 in Hr. rewrite wrap64_small by lia.
  set (m3 := store64 m2 (dir + D_NUM_FILES) _).
  assert (load64 m3 (dir + H_MUTEX) = mtx) as ->.
  { apply load64_ext. intros x Hx. layout. unfold m3, m2, m1. layout. rewrite !store64_out, store8_ne by lia. done. }
  rewrite release_mutex_at_ok by done. eexists. split; [done|]. cbn [mm set_mm]. split.
  - unfold m3, m2, m1. auto 10 with willow.
  - rewrite (load64_ext m2); [by apply load64_store64_eq|]. intros x Hx. layout. unfold m3. layout. rewrite store8_ne, store64_out by lia. done.
  - rewrite (load64_ext m3); [apply load64_store64_eq; unfold is_u64; lia|]. intros x Hx. layout. apply store8_ne. lia.
  - intros x H1 H2 H3. unfold m3, m2, m1. rewrite store8_ne, !store64_out, store8_ne by done. done.
Qed.

(** ** Deletion as removal *)

Section Dropped.
Context (s : mst) (k : nat) (dir i : Z) (m' : mem).
Context (Hwf : dir_wf s k dir) (Hi : 0 <= i < max_files (mm s) dir) (Hdr : dropped s dir i m').
Local Abbreviation s' := (set_mm m' s).

Lemma dropped_fields : dir_files m' dir = dir_files (mm s) dir /\ max_files m' dir = max_files (mm s) dir /\
  dir_mutex m' dir = dir_mutex (mm s) dir.
Proof.
  destruct Hwf as [Hdir [_ Hlive Hap _ _] (Hml & Hmd & Hmf) _]. unfold live, apart in *.
  split_and!; apply load64_ext; intros x Hx; layout; apply (dr_frame _ _ _ _ Hdr); layout; lia.
Qed.

Lemma dropped_slot j : 0 <= j < max_files (mm s) dir -> slot m' dir j = if j =? i then NULL else slot (mm s) dir j.
Proof.
  intros Hj. destruct dropped_fields as (Ef & _ & _). unfold slot, entry_at. fold (dir_files m' dir) (dir_files (mm s) dir). rewrite Ef.
  destruct (Z.eqb_spec j i) as [->|Hne]; [exact (dr_slot _ _ _ _ Hdr)|].
  destruct Hwf as [Hdir [_ Hlive Hap _ _] (Hml & Hmd & Hmf) _]. unfold live, apart in *.
  apply load64_ext. intros x Hx. layout. apply (dr_frame _ _ _ _ Hdr); layout; lia.
Qed.

Lemma dropped_entry j nm : 0 <= j < max_files (mm s) dir -> slot (mm s) dir j <> NULL ->
  named m' (slot (mm s) dir j) nm <-> named (mm s) (slot (mm s) dir j) nm.
Proof.
  intros Hj Hne. destruct (dw_entries _ _ _ _ Hwf j Hj Hne) as (Hlv & Ha1 & Ha2 & Ha3 & (nm0 & Hn & _ & H128)).
  unfold live, apart in *. assert (named m' (slot (mm s) dir j) nm0) as Hn'.
  { apply (cstr_ext (mm s)); [|done]. intros x Hx. layout. apply (dr_frame _ _ _ _ Hdr); layout; lia. }
  split; intros H; assert (nm = nm0) as -> by (by eapply cstr_unique); done.
Qed.

Lemma dropped_wf : slot (mm s) dir i <> NULL -> dir_wf s' k dir.
Proof.
  intros Hne. destruct dropped_fields as (Ef & Em & Et). split; cbn [mm set_mm]; rewrite ?Ef, ?Em, ?Et.
  - apply Hwf.
  - destruct (dw_array _ _ _ _ Hwf) as [A1 A2 A3 A4 A5]. split; cbn [mm set_mm heap_page_head]; rewrite ?Ef, ?Em; try done.
    + rewrite (dr_num _ _ _ _ Hdr), A4.
      rewrite (count_slots_set (Z.to_nat (max_files (mm s) dir)) 0 m' (mm s) (dir_files (mm s) dir) (dir_files (mm s) dir) i);
        [lia|lia|exact (dr_slot _ _ _ _ Hdr)|done|].
      intros j Hj Hji. pose proof (dropped_slot j ltac:(lia)) as E. unfold slot, entry_at in E.
      fold (dir_files m' dir) (dir_files (mm s) dir) in E. rewrite Ef in E. destruct (Z.eqb_spec j i); [done|]. by rewrite E.
    + rewrite (dr_num _ _ _ _ Hdr). lia.
  - apply Hwf.
  - intros j Hj Hnj. rewrite dropped_slot in Hnj |- * by done. destruct (Z.eqb_spec j i); [done|].
    destruct (dw_entries _ _ _ _ Hwf j Hj Hnj) as (H1 & H2 & H3 & H4 & (nm & Hn & Hf)). split_and!; try done.
    exists nm. split; [|done]. by apply dropped_entry.
Qed.

Lemma dropped_finds nm e : ~ named (mm s) (slot (mm s) dir i) nm -> finds (mm s) dir nm e -> finds m' dir nm e.
Proof.
  intros Hno (j & Hj & Hs & He & Hn & Hb). assert (j <> i) as Hji by (intros ->; by rewrite Hs in Hno).
  destruct dropped_fields as (_ & Em & _). exists j. rewrite Em, dropped_slot by done. destruct (Z.eqb_spec j i); [done|].
  split_and!; [lia|lia|done|done| |].
  - rewrite <- Hs in Hn, He |- *. by apply dropped_entry.
  - intros j' Hj'. rewrite dropped_slot by lia. destruct (Z.eqb_spec j' i); [by left|].
    destruct (Z.eq_dec (slot (mm s) dir j') NULL) as [|Hne]; [by left|right]. rewrite dropped_entry by (done || lia).
    by destruct (Hb j' Hj').
Qed.

Lemma dropped_misses nm :
  (forall j, 0 <= j < max_files (mm s) dir -> j <> i -> slot (mm s) dir j <> NULL -> ~ named (mm s) (slot (mm s) dir j) nm) ->
  misses m' dir nm.
Proof.
  intros H j Hj. destruct dropped_fields as (_ & Em & _). rewrite Em in Hj. rewrite dropped_slot by done.
  destruct (Z.eqb_spec j i); [by left|]. destruct (Z.eq_dec (slot (mm s) dir j) NULL) as [|Hne]; [by left|right].
  rewrite dropped_entry by done. by apply H.
Qed.

End Dropped.

Lemma count_slots_pos n : forall i m f j, i <= j < i + Z.of_nat n -> load64 m (f + 8 * j) <> NULL -> 0 < count_slots n i m f.
Proof.
  induction n as [|n IH]; intros i m f j Hj Hne; [lia|]. cbn [count_slots]. pose proof (count_slots_bounds n (i + 1) m f).
  destruct (Z.eq_dec j i) as [->|]; [destruct (Z.eqb_spec (load64 m (f + 8 * i)) NULL); (done || lia)|].
  specialize (IH (i + 1) m f j ltac:(lia) Hne). destruct (_ =? NULL); lia.
Qed.

(** Strings outside of the heap are not touched. *)
Lemma dropped_string s k dir i m' a l : arena s k -> dir_wf s k dir -> 0 <= i < max_files (mm s) dir -> dropped s dir i m' ->
  good_name s a l -> cstr m' a l.
Proof.
  intros Har [Hdir [_ Hlive Hap _ _] (Hml & _) _] Hi Hdr (Hl & _ & _ & _ & Hout). pose proof (ar_k _ _ Har) as Hk.
  apply (cstr_ext (mm s)); [|done]. intros x Hx. unfold live, outside_heap, apart, node_addr in *. layout.
  apply (dr_frame _ _ _ _ Hdr); layout; lia.
Qed.

(** [e] is the only entry of [dir] named [nm], and it is a file. *)
Definition sole_file (m : mem) (dir : Z) (nm : list Z) (e : Z) : Prop :=
  exists i, 0 <= i < max_files m dir /\ slot m dir i = e /\ e <> NULL /\ is_file m e nm /\
    forall j, 0 <= j < max_files m dir -> j <> i -> slot m dir j <> NULL -> ~ named m (slot m dir j) nm.

Lemma scan_sole s k dir name nm e : dir_wf s k dir -> cstr (mm s) name nm -> sole_file (mm s) dir nm e ->
  exists i, scan_dir (mm s) dir (fun e => b ← name_is fuel (mm s) name e; Ok (b && (type_of (mm s) e =? 0))) = Ok (Some i) /\
    0 <= i < max_files (mm s) dir /\ slot (mm s) dir i = e /\
    forall j, 0 <= j < max_files (mm s) dir -> j <> i -> slot (mm s) dir j <> NULL -> ~ named (mm s) (slot (mm s) dir j) nm.
Proof.
  intros Hwf Hn (i & Hi & He & Hne & Hf & Hu). destruct (scan_file s k dir name nm Hwf Hn) as ([j|] & E & Hr).
  - exists i. destruct Hr as (Hj & Hnj & [Hnm _]). destruct (Z.eq_dec j i) as [->|Hji]; [done|].
    by destruct (Hu j Hj Hji Hnj).
  - destruct (Hr i Hi); by rewrite He.
Qed.

(** C15: deleting a file refines removal from the map from names to entries. In a well-formed directory whose
    only entry of the name is a file that no one has open, [tmpfs_delete_file] returns, the
    directory stays well formed with one entry less, [tmpfs_lookup] of the name gives NULL and of any
    other name what it gave. If the file is open, or no file has the name, nothing changes. *)
Theorem tmpfs_delete_file_refines_delete (s : mst) (k : nat) (dir name : Z) (nm : list Z)
    (Har : arena s k) (Hok : mem_ok (mm s)) (Hwf : dir_wf s k dir) (Hname : good_name s name nm) :
  (forall e, sole_file (mm s) dir nm e -> load64 (mm s) (e + F_OPEN_COUNT) = 0 -> entry_freeable s e -> 8 < max_files (mm s) dir ->
     exists s', tmpfs_delete_file fuel dir name s = Ok s' /\ iflag s' = iflag s /\ arena s' k /\ dir_wf s' k dir /\
       load64 (mm s') (dir + D_NUM_FILES) = load64 (mm s) (dir + D_NUM_FILES) - 1 /\
       tmpfs_lookup fuel dir name s' = Ok NULL /\
       forall other nm', good_name s other nm' -> nm' <> nm -> tmpfs_lookup fuel dir other s' = tmpfs_lookup fuel dir other s) /\
  (forall e, sole_file (mm s) dir nm e -> load64 (mm s) (e + F_OPEN_COUNT) <> 0 -> tmpfs_delete_file fuel dir name s = Ok s) /\
  (misses (mm s) dir nm -> tmpfs_delete_file fuel dir name s = Ok s).
Proof.
  pose proof Hname as (Hn & _). unfold tmpfs_delete_file. split_and!.
  - intros e Hs Hopen Hfree Hmax. destruct (scan_sole s k dir name nm e Hwf Hn Hs) as (i & -> & Hi & He & Hu).
    destruct Hs as (_ & _ & _ & Hne & [Hnm _] & _). cbn [mbind outcome_bind]. change (entry_at (mm s) dir i) with (slot (mm s) dir i).
    rewrite He, Hopen. cbn [negb Z.eqb].
    destruct (free_file_freed s k e Har Hfree) as (s1 & -> & F). cbn [mbind outcome_bind]. pose proof (fr_mm _ _ _ F) as Em.
    assert (dir_wf s1 k dir) as Hwf1 by by apply (dir_wf_freed s).
    destruct (drop_entry_spec s1 k dir i) as (m' & -> & Hdr); rewrite ?Em; try done.
    { rewrite (aw_count _ _ _ (dw_array _ _ _ _ Hwf)). apply (count_slots_pos _ _ _ _ i); [lia|]. change (slot (mm s) dir i <> NULL). by rewrite He. }
    assert (0 <= i < max_files (mm s1) dir) as Hi1 by by rewrite Em.
    assert (forall a l, good_name s a l -> good_name s1 a l) as Hgood.
    { intros a l (? & ? & ? & ? & ?). unfold Tmpfs.good_name, outside_heap. by rewrite Em, (fr_len _ _ _ F). }
    pose proof (dropped_wf s1 k dir i m' Hwf1 Hi1 Hdr ltac:(by rewrite Em, He)) as Hwf'.
    pose proof (fun a l Ha => dropped_string s1 k dir i m' a l (fr_arena _ _ _ F) Hwf1 Hi1 Hdr (Hgood a l Ha)) as Hstr.
    exists (set_mm m' s1). split_and!; [done|exact (fr_if _ _ _ F)|apply arena_set_mm, F|done|cbn [mm set_mm]; by rewrite (dr_num _ _ _ _ Hdr), Em| |].
    + eapply tmpfs_lookup_misses; [done|by apply Hstr|]. apply (dropped_misses s1 k dir i m' Hwf1 Hi1 Hdr). by rewrite Em.
    + intros other nm' Hother Hne'. pose proof Hother as (Ho & _).
      destruct (tmpfs_lookup_spec fuel dir other nm' s) as (e' & -> & [[_ Hf]|[-> Hm]]);
        [by eapply dir_wf_nonnull|by eapply dir_wf_names|done|..].
      * eapply tmpfs_lookup_finds; [done|by apply Hstr|]. apply (dropped_finds s1 k dir i m' Hwf1 Hi1 Hdr); rewrite Em; [|done].
        rewrite He. intros Hn'. apply Hne'. by eapply cstr_unique.
      * eapply tmpfs_lookup_misses; [done|by apply Hstr|]. apply (dropped_misses s1 k dir i m' Hwf1 Hi1 Hdr). rewrite Em.
        intros j Hj _ Hnj. by destruct (Hm j Hj).
  - intros e Hs Hopen. destruct (scan_sole s k dir name nm e Hwf Hn Hs) as (i & -> & Hi & He & _). cbn [mbind outcome_bind].
    change (entry_at (mm s) dir i) with (slot (mm s) dir i). rewrite He. by destruct (Z.eqb_spec (load64 (mm s) (e + F_OPEN_COUNT)) 0).
  - intros Hm. destruct (scan_file s k dir name nm Hwf Hn) as ([j|] & -> & Hr); [|done].
    destruct Hr as (Hj & Hnj & [Hf _]). by destruct (Hm j Hj).
Qed.

End Delete.

(** ** Witness *)

(** Two files in a directory, which has grown to 34 slots; the first one is deleted. *)
Definition two_files (s : mst) : outcome mst :=
  '(dir, s) ← root_dir_pointer s;
  '(_, s) ← tmpfs_create_file 8 dir 0x1000 10 s;
  '(_, s) ← tmpfs_create_file 8 dir 0x2000 10 s;
  Ok s.

(** What the deletion of the object at node 22 depends on: its data, mutex and open count, the array, and the
    nodes before the freed ones. *)
Definition file_facts (s : mst) : Z * Z * Z * Z * Z * list (option Z) :=
  (load64 (mm s) (node_addr 22 + F_DATA), load64 (mm s) (node_addr 22 + H_MUTEX), load64 (mm s) (node_addr 22 + F_OPEN_COUNT), type_of (mm s) (node_addr 22),
   max_files (mm s) (node_addr 0), (fun i => alloc_length <$> heap_page_head s !! i) <$> [42; 41; 21]%nat).

Lemma two_files_steps s dir s1 p1 s2 p2 s3 : root_dir_pointer s = Ok (dir, s1) -> tmpfs_create_file 8 dir 0x1000 10 s1 = Ok (p1, s2) ->
  tmpfs_create_file 8 dir 0x2000 10 s2 = Ok (p2, s3) -> two_files s = Ok s3.
Proof. intros H1 H2 H3. unfold two_files. by rewrite H1, bind_step, H2, bind_step, H3, bind_step. Qed.

Lemma two_files_facts s : two_files sample_names = Ok s ->
  file_facts s = (node_addr 43, node_addr 42, 0, 0, 34, [Some 1; Some 0; Some 1]).
Proof.
  intros H. assert ((s ← two_files sample_names; Ok (file_facts s)) = Ok (node_addr 43, node_addr 42, 0, 0, 34, [Some 1; Some 0; Some 1])) as E
    by (vm_compute; reflexivity). rewrite H, bind_step in E. congruence.
Qed.

Lemma short_freeable h i n : h !! (i - 1)%nat = Some n -> alloc_length n <= 1 -> (1 <= i < length h)%nat -> freeable_at h (node_addr i).
Proof. intros Hn Hl Hi. exists i. split_and!; [done|lia|lia|]. intros l (m & Hm & <- & _). congruence. Qed.

(** After the first file node 100 is free and the array has its two slots. *)
Lemma one_file_facts dir s p s' : root_dir_pointer sample_names = Ok (dir, s) -> tmpfs_create_file 8 dir 0x1000 10 s = Ok (p, s') ->
  status <$> heap_page_head s' !! 100%nat = Some 0 /\ max_files (mm s') (node_addr 0) = 2.
Proof.
  intros H1 H2.
  assert (('(dir, s) ← root_dir_pointer sample_names; '(_, s) ← tmpfs_create_file 8 dir 0x1000 10 s;
           Ok (status <$> heap_page_head s !! 100%nat, max_files (mm s) (node_addr 0))) = Ok (Some 0, 2)) as E by (vm_compute; reflexivity).
  rewrite H1, bind_step, H2, bind_step in E. by injection E.
Qed.

(** A new entry leaves what is below the heap. *)
Lemma created_low s k s' k' dir fi p nm : arena s k -> dir_wf 8 s k dir -> created s k s' k' dir fi p nm ->
  forall x, x < HEAP_START_VIRT_DEFINED -> mm s' x = mm s x.
Proof.
  intros Har [Hdir [_ Hlv _ _ _] (Hml & _) _] Hcr x Hx. destruct (cr_fi _ _ _ _ _ _ _ _ Hcr) as [Hfi _].
  unfold live in *. pose proof (node_addr_range s k Har). layout. apply (cr_frame _ _ _ _ _ _ _ _ Hcr); layout; lia.
Qed.

Lemma sample_good_names (s : mst) : (forall x, x < HEAP_START_VIRT_DEFINED -> mm s x = mm sample_names x) ->
  good_name 8 s 0x1000 [97] /\ good_name 8 s 0x2000 [98].
Proof.
  intros Hlow. unfold good_name, outside_heap, apart. cbn [length cstr]. rewrite !Hlow by done.
  split; (split_and!; [done..|lia|lia|]); right; unfold HEAP_START_VIRT_DEFINED; lia.
Qed.

Lemma two_files_state :
  exists s k, two_files sample_names = Ok s /\ arena s k /\ mem_ok (mm s) /\ dir_wf 8 s k (node_addr 0) /\
    good_name 8 s 0x1000 [97] /\ good_name 8 s 0x2000 [98] /\ sole_file (mm s) (node_addr 0) [97] (node_addr 22) /\
    length (heap_page_head s) = 256%nat.
Proof.
  destruct (root_dir_pointer_spec 8 sample_names 0) as (s & Hr & _ & Hok & Hl & Har & Hwf & Hmx & Hs & Hfr);
    [exact sample_arena|exact sample_mem_ok|vm_compute; lia|]. change (0 + nodes SIZEOF_OBJECT + 2)%nat with 22%nat in *.
  assert (forall x, x < HEAP_START_VIRT_DEFINED -> mm s x = mm sample_names x) as L0 by (intros x Hx; apply Hfr; unfold node_addr; lia).
  destruct (sample_good_names s L0) as [Ga _].
  destruct (tmpfs_create_file_effect 8 (node_addr 0) 0x1000 [97] 10 s 22 Har Hok Hwf Ga) as (s1 & k1 & f1 & E1 & C1 & T1 & _);
    [lia|unfold create_room; rewrite Hmx, Hl; vm_compute; lia|].
  pose proof (created_wf 8 s 22 s1 k1 _ f1 [97] Har Hwf C1 ltac:(cbn; lia)) as Hwf1. pose proof (cr_arena _ _ _ _ _ _ _ _ C1) as Har1.
  destruct (one_file_facts _ _ _ _ Hr E1) as [(nd & Hnd & H0)%fmap_Some Hmx1].
  assert (k1 <= 100)%nat as Hk1. { pose proof (ar_dense _ _ Har1 _ _ Hnd) as Hd. case_bool_decide; [congruence|lia]. }
  assert (forall x, x < HEAP_START_VIRT_DEFINED -> mm s1 x = mm sample_names x) as L1.
  { intros x Hx. rewrite (created_low _ _ _ _ _ _ _ _ Har Hwf C1) by done. by apply L0. }
  destruct (tmpfs_create_file_effect 8 (node_addr 0) 0x2000 [98] 10 s1 k1 Har1 (cr_ok _ _ _ _ _ _ _ _ C1) Hwf1 (proj2 (sample_good_names s1 L1)))
    as (s2 & k2 & f2 & E2 & C2 & _);
    [lia|unfold create_room; rewrite Hmx1, (cr_len _ _ _ _ _ _ _ _ C1), Hl; change (length (heap_page_head sample_names)) with 256%nat;
      change (nodes SIZEOF_OBJECT) with 20%nat; change (nodes 10) with 1%nat; change (nodes _) with 5%nat; lia|].
  pose proof (created_wf 8 s1 k1 s2 k2 _ f2 [98] Har1 Hwf1 C2 ltac:(cbn; lia)) as Hwf2.
  destruct (sample_good_names s2) as [Ga2 Gb2].
  { intros x Hx. rewrite (created_low _ _ _ _ _ _ _ _ Har1 Hwf1 C2) by done. by apply L1. }
  exists s2, k2. split; [exact (two_files_steps _ _ _ _ _ _ _ Hr E1 E2)|]. split_and!; try done; try apply C2.
  - pose proof (cr_fi _ _ _ _ _ _ _ _ C1) as [Hf1 _]. pose proof (cr_fi _ _ _ _ _ _ _ _ C2) as [Hf2 Hz2].
    pose proof (created_slot_new s 22 s1 k1 _ f1 [97] C1) as Hnew. rewrite Hmx in Hf1. rewrite Hmx1 in Hf2.
    assert (f1 <> f2) as Hne. { intros ->. rewrite Hnew in Hz2. by vm_compute in Hz2. }
    assert (slot (mm s2) (node_addr 0) f1 = node_addr 22) as Hslot.
    { rewrite (created_slot_old s1 k1 s2 k2 _ f2 [98] C2) by lia. exact Hnew. }
    exists f1. pose proof (cr_max _ _ _ _ _ _ _ _ C2) as Hm2. split; [lia|]. split; [exact Hslot|]. split; [by vm_compute|]. split.
    + split.
      * rewrite <- Hnew. apply (created_named 8 s1 k1 s2 k2 (node_addr 0) f2 [98] Hwf1 C2); [lia|by rewrite Hnew|].
        rewrite Hnew. by destruct (cr_name _ _ _ _ _ _ _ _ C1).
      * pose proof (two_files_facts s2 (two_files_steps _ _ _ _ _ _ _ Hr E1 E2)) as Hfacts. by injection Hfacts.
    + intros j Hj Hji Hnj. destruct (created_slot_inv s1 k1 s2 k2 _ f2 [98] C2 j Hj Hnj) as [-> |(Hj1 & Hjf & Es)].
      * rewrite (created_slot_new s1 k1 s2 k2 _ f2 [98] C2). intros Hn'. destruct (cr_name _ _ _ _ _ _ _ _ C2) as [Hn2 _].
        pose proof (cstr_unique _ _ _ _ Hn' Hn2). discriminate.
      * rewrite Es in Hnj. destruct (created_slot_inv s 22 s1 k1 _ f1 [97] C1 j Hj1 Hnj) as [-> |(Hj0 & _ & Es0)]; [done|].
        rewrite Es0 in Hnj. by destruct Hnj, (Hs j ltac:(lia)).
  - by rewrite (cr_len _ _ _ _ _ _ _ _ C2), (cr_len _ _ _ _ _ _ _ _ C1), Hl.
Qed.

Lemma tmpfs_delete_file_refines_delete_witness :
  exists s s', two_files sample_names = Ok s /\ tmpfs_delete_file 8 (node_addr 0) 0x1000 s = Ok s' /\
    tmpfs_lookup 8 (node_addr 0) 0x1000 s' = Ok NULL /\
    tmpfs_lookup 8 (node_addr 0) 0x2000 s' = tmpfs_lookup 8 (node_addr 0) 0x2000 s.
Proof.
  destruct two_files_state as (s & k & E & Har & Hok & Hwf & Ga & Gb & Hs & Hl).
  pose proof (two_files_facts s E) as F. injection F as Fd Fm Fo _ Fx F1 F2 F3.
  destruct (tmpfs_delete_file_refines_delete 8 s k (node_addr 0) 0x1000 [97]) as (H & _ & _).
  - exact Har.
  - exact Hok.
  - exact Hwf.
  - exact Ga.
  - destruct (H (node_addr 22) Hs) as (s' & H1 & _ & _ & _ & _ & H2 & H3).
    + exact Fo.
    + unfold entry_freeable. rewrite Fd, Fm. apply fmap_Some in F1 as (n1 & N1 & L1). apply fmap_Some in F2 as (n2 & N2 & L2).
      apply fmap_Some in F3 as (n3 & N3 & L3).
      split; [apply (short_freeable _ 43 n1 N1); lia|]. split; [apply (short_freeable _ 42 n2 N2); lia|apply (short_freeable _ 22 n3 N3); lia].
    + rewrite Fx. lia.
    + exists s, s'. split; [exact E|]. split; [exact H1|]. split; [exact H2|]. apply (H3 0x2000 [98]); [exact Gb|discriminate].
Defined.
