(* ===== verification/Vfs.v ===== *)
(** * The virtual file system: vfs.c

    Paths, file descriptors and the calls through the function pointers of a
    vnode, over the file system of [Tmpfs] and the descriptor table of the
    running thread ([OaHash], kept in the scheduler state under its
    address).  [npf_snprintf] is third-party code: the characters it writes
    for ["%d"] are the parameter [dec]. *)

From Stdlib Require Import String.
From S2P Require Import Prelude Memory Machine Heap Arena Paging OaHash Mutex Scheduler Strings Tmpfs.

Local Open Scope list_scope.

(** [vfs_file_t] *)
Definition FILE_VNODE : Z := 0.
Definition FILE_LOCKED : Z := 8.
Definition FILE_OBJECT : Z := 16.
Definition FILE_OPS : Z := 24.
Definition FILE_FLAGS : Z := 32.
Definition FILE_MODE : Z := 36.
Definition FILE_POSITION : Z := 40.
Definition FILE_ABS_PATH : Z := 48.
Definition SIZEOF_FILE : Z := 56.
Definition SIZEOF_FILE_OPS : Z := 48.

(** [strdup] of main.c. *)
Definition strdup (fuel : nat) (p : Z) (s : mst) : outcome (Z * mst) :=
  l ← strlen fuel (mm s) p;
  '(d, s) ← kmalloc_byte (l + 1) s;
  if d =? NULL then Ok (NULL, s) else Ok (d, set_mm (memcpy (mm s) d p (l + 1)) s).

Section Vfs.

Context (lit : string -> Z) (addr : fn -> Z) (fuel : nat).
(** The two globals [init_vfs] sets, and the decimal characters of an [int]. *)
Context (vfs_tmpfs tmpfs_root : Z) (dec : Z -> list Z).

(** ** Calls through a vnode *)

Definition vnode_op (m : mem) (vnode op : Z) : outcome Z :=
  ops ← deref64 m vnode V_OPS; deref64 m ops op.

Definition call_lookup (f vnode name : Z) (s : mst) : outcome (Z * mst) :=
  if f =? addr VNODE_TMPFS_LOOKUP then vnode_tmpfs_lookup addr fuel vfs_tmpfs vnode name s else Err BadCall.

Definition call_rd (f vnode buf size offset : Z) (s : mst) : outcome (Z * mst) :=
  if f =? addr VNODE_TMPFS_READ_FROM_FILE then vnode_tmpfs_read_from_file vnode buf size offset s else Err BadCall.

Definition call_wr (f vnode data size offset : Z) (s : mst) : outcome mst :=
  if f =? addr VNODE_TMPFS_WRITE_TO_FILE then vnode_tmpfs_write_to_file vnode data size offset s else Err BadCall.

(** ** Mounting *)

(** A null [vfs] is reported and mounted all the same. *)
Definition vnode_mount_vfs (parent_vnode vfs : Z) (s : mst) : outcome mst :=
  m ← assign64 (mm s) parent_vnode V_MOUNTED_VFS vfs; Ok (set_mm m s).

(** ** Paths *)

(** The [while (tok != NULL)] loop; [n] bounds the number of components.  The
    lookup function is the one of [root_dir], whatever the current vnode. *)
Fixpoint walk_path (n : nat) (root_dir ret tok save : Z) (s : mst) : outcome (Z * mst) :=
  match n with
  | O => Err OutOfFuel
  | S n' =>
      if tok =? NULL then Ok (ret, s)
      else
        f ← vnode_op (mm s) root_dir OP_LOOKUP;
        '(ret, s) ← call_lookup f ret tok s;
        '(tok, m, save) ← strtok_r fuel (mm s) NULL (lit "/") save;
        walk_path n' root_dir ret tok save (set_mm m s)
  end.

Definition vfs_resolve_path (root_dir path : Z) (s : mst) : outcome (Z * mst) :=
  _ ← c_assert (negb (path =? NULL));
  let root_dir := if mm s path =? 47 then tmpfs_root else root_dir in
  '(path, s) ← strdup fuel path s;
  '(tok, m, save) ← strtok_r fuel (mm s) path (lit "/") NULL;
  '(ret, s) ← walk_path fuel root_dir root_dir tok save (set_mm m s);
  s ← kfree path s;
  Ok (ret, s).

(** ** File descriptors *)

(** The descriptor table of the running thread. *)
Definition fd_table_of (s : sst) : outcome (Z * oa_hash) :=
  t ← get_thread s (get_current_thread s);
  ht ← checked (fd_tables s !! fd_table t) NullDeref;
  Ok (fd_table t, ht).

(** [npf_snprintf(buf, 64, "%d", n)], for a [dec n] of less than 64 characters. *)
Definition print_int (buf n : Z) (m : mem) : Z * mem :=
  (Z.of_nat (length (dec n)), put_bytes m buf (dec n ++ [0])).

(** [buf = kmalloc_byte(64); len = npf_snprintf(buf, 64, "%d", n);] *)
Definition key_of_fd (n : Z) (s : sst) : outcome (Z * Z * sst) :=
  '(buf, m) ← kmalloc_byte 64 (sm s);
  if buf =? NULL then Err NullDeref
  else let '(len, m') := print_int buf n (mm m) in Ok (buf, len, set_sm (set_mm m' m) s).

Definition vfs_int_fd_to_vfs_file (fd : Z) (s : sst) : outcome (Z * sst) :=
  '(_, ht) ← fd_table_of s;
  '(buf, len, s) ← key_of_fd fd s;
  file ← oa_hash_get (mm (sm s)) ht buf len;
  _ ← c_assert (negb (file =? NULL));
  m ← kfree buf (sm s);
  Ok (file, set_sm m s).

(** A new [vfs_file_t] for the vnode [v]. *)
Definition new_vfs_file (v flags mode : Z) (s : mst) : outcome (Z * mst) :=
  '(fd, s) ← kmalloc_byte SIZEOF_FILE s;
  if fd =? NULL then Err NullDeref
  else
    let m := store32 (store32 (mm s) (fd + FILE_MODE) mode) (fd + FILE_FLAGS) flags in
    '(ops, s) ← kmalloc_byte SIZEOF_FILE_OPS (set_mm m s);
    let m := store64 (mm s) (fd + FILE_OPS) ops in
    let m := store64 (store8 m (fd + FILE_LOCKED) 0) (fd + FILE_OBJECT) NULL in
    let m := store64 (store64 m (fd + FILE_POSITION) 0) (fd + FILE_VNODE) v in
    Ok (fd, set_mm (store64 m (fd + FILE_ABS_PATH) NULL) s).

(** The block for a table of 33 entries: the assertion compares the old array
    with the one [oa_hash_rehash] has just installed. *)
Definition rehash_fd_table (ht : oa_hash) (s : mst) : outcome (oa_hash * mst) :=
  if ht_length ht =? 33 then
    '(new_buckets, s) ← kmalloc_byte (wrap64 (ENTRY_SIZE * (capacity ht + 32))) s;
    '(old_buckets, ht) ← oa_hash_rehash (mm s) ht new_buckets (wrap64 (capacity ht + 32));
    if old_buckets =? NULL then s ← kfree new_buckets s; Ok (ht, s)
    else
      _ ← c_assert (old_buckets =? buckets ht);
      s ← kfree old_buckets s;
      Ok (ht, s)
  else Ok (ht, s).

(** The search for a free number, from [i]: the key buffer is stored in the table
    and then freed.  When no number below the capacity is free the function
    ends without a [return]. *)
Fixpoint find_fd (n : nat) (i buf fd : Z) (ht : oa_hash) (s : mst) : outcome (Z * oa_hash * mst) :=
  match n with
  | O => Err BadCall
  | S n' =>
      let '(len, m) := print_int buf i (memset (mm s) buf 0 64) in
      v ← oa_hash_get m ht buf len;
      if v =? NULL then
        '(_, ht) ← oa_hash_set m ht buf len fd;
        s ← kfree buf (set_mm m s);
        Ok (i, ht, s)
      else find_fd n' (i + 1) buf fd ht (set_mm m s)
  end.

(** The number under which [fd] is stored: the length of the table when it is
    not taken, otherwise the first free one. *)
Definition install_fd (fd : Z) (ht : oa_hash) (s : mst) : outcome (Z * oa_hash * mst) :=
  '(buf, s) ← kmalloc_byte 64 s;
  if buf =? NULL then Err NullDeref
  else
    let htlen := sint32 (ht_length ht) in
    let '(len, m) := print_int buf htlen (mm s) in
    e ← oa_hash_get_entry m ht buf len;
    match e with
    | None =>
        '(_, ht) ← oa_hash_set m ht buf len fd;
        Ok (htlen, ht, set_mm m s)
    | Some _ => find_fd (Z.to_nat (capacity ht)) 0 buf fd ht (set_mm m s)
    end.

(** A relative path gets the working directory appended, not prepended, in the
    buffer [strdup] made for the path alone. *)
Definition open_vnode (path : Z) (s : sst) : outcome (Z * sst) :=
  if mm (sm s) path =? 47 then
    '(v, m) ← vfs_resolve_path tmpfs_root path (sm s); Ok (v, set_sm m s)
  else
    '(path, m) ← strdup fuel path (sm s);
    t ← get_thread s (get_current_thread s);
    m' ← strcat fuel (mm m) path (current_dir t);
    '(v, m) ← vfs_resolve_path tmpfs_root path (set_mm m' m);
    m ← kfree path m;
    Ok (v, set_sm m s).

Definition vfs_fdopen (path flags mode : Z) (s : sst) : outcome (Z * sst) :=
  if negb (scheduling_started s) then Ok (-1, s)
  else
    '(v, s) ← open_vnode path s;
    _ ← c_assert (negb (v =? NULL));
    '(fd, m) ← new_vfs_file v flags mode (sm s);
    '(p, ht) ← fd_table_of s;
    '(ht, m) ← rehash_fd_table ht m;
    '(n, ht, m) ← install_fd fd ht m;
    Ok (n, set_fd_tables (<[p := ht]> (fd_tables s)) (set_sm m s)).

(** The buffer with the key is freed once more by [oa_hash_remove] when the
    descriptor was open under that very buffer. *)
Definition vfs_fdclose (fd : Z) (s : sst) : outcome sst :=
  '(p, ht) ← fd_table_of s;
  '(buf, len, s) ← key_of_fd fd s;
  file ← oa_hash_get (mm (sm s)) ht buf len;
  '(_, ht, m) ← oa_hash_remove ht buf len (sm s);
  m ← kfree buf m;
  let s := set_fd_tables (<[p := ht]> (fd_tables s)) s in
  if file =? NULL then Ok (set_sm m s)
  else
    let abs_path := load64 (mm m) (file + FILE_ABS_PATH) in
    m ← (if abs_path =? NULL then Ok m else kfree abs_path m);
    let ops := load64 (mm m) (file + FILE_OPS) in
    m ← (if ops =? NULL then Ok m else kfree ops m);
    m ← kfree file m;
    Ok (set_sm m s).

Definition fd_open (path flags mode : Z) (s : sst) : outcome (Z * sst) := vfs_fdopen path flags mode s.
Definition fd_close (fd : Z) (s : sst) : outcome sst := vfs_fdclose fd s.

(** ** Reading and writing *)

Definition pread (file buf size offset : Z) (s : mst) : outcome (Z * mst) :=
  vnode ← deref64 (mm s) file FILE_VNODE;
  f ← vnode_op (mm s) vnode OP_RD;
  call_rd f vnode buf size offset s.

Definition pwrite (file data size offset : Z) (s : mst) : outcome mst :=
  vnode ← deref64 (mm s) file FILE_VNODE;
  f ← vnode_op (mm s) vnode OP_WR;
  call_wr f vnode data size offset s.

Definition fd_pread (fd buf size offset : Z) (s : sst) : outcome (Z * sst) :=
  '(file, s) ← vfs_int_fd_to_vfs_file fd s;
  '(n, m) ← pread file buf size offset (sm s);
  Ok (n, set_sm m s).

Definition fd_pwrite (fd data size offset : Z) (s : sst) : outcome sst :=
  '(file, s) ← vfs_int_fd_to_vfs_file fd s;
  m ← pwrite file data size offset (sm s);
  Ok (set_sm m s).

(** ** Descriptors *)

(** The buffers of the keys are in the part of the heap handed out. *)
Definition keys_live (k : nat) (ht : oa_hash) : Prop :=
  forall i e, slot_at ht i e -> occ e -> live k (key_buf e) (key_length e).

(** Documented behaviour of ["%d"] on [n]: some characters, fewer than 64. *)
Definition prints (n : Z) : Prop :=
  (0 < length (dec n) < 64)%nat /\ Forall (fun c => 0 <= c < 256) (dec n).

Lemma put_bytes_at m a l :
  Forall (fun c => 0 <= c < 256) l -> forall rest, bytes_at (put_bytes m a (l ++ rest)) a (length l) = l.
Proof.
  revert m a. induction l as [|c l IH]; intros m a Hl rest; cbn [app put_bytes length bytes_at]; [done|].
  apply Forall_cons_1 in Hl as [Hc Hl]. f_equal; [|by apply IH].
  rewrite put_bytes_out by lia. rewrite store8_eq. by apply wrap8_small.
Qed.

(** A fresh key buffer holds the digits and disturbs no live byte. *)
Lemma key_buffer n (s : mst) k :
  arena s k -> mem_ok (mm s) -> prints n -> (k + 1 <= length (heap_page_head s))%nat ->
  exists s1, kmalloc_byte 64 s = Ok (node_addr k, s1) /\
    let '(len, m) := print_int (node_addr k) n (mm s1) in
    len = Z.of_nat (length (dec n)) /\ arena s1 (k + 1) /\ mem_ok m /\ iflag s1 = iflag s /\
    length (heap_page_head s1) = length (heap_page_head s) /\ block (heap_page_head s1) k 1 /\
    bytes_at m (node_addr k) (Z.to_nat len) = dec n /\
    (forall x, ~ (node_addr k <= x < node_addr (k + 1)) -> m x = mm s x).
Proof.
  intros Har Hok [Hlen Hb] Hroom.
  destruct (kmalloc_byte_arena 64 s k) as (s1 & Hk & Hmm & Hif & Har1 & Hl1 & Hblk & _);
    [done|done|unfold room; by change (nodes 64) with 1%nat|].
  exists s1. split; [done|]. unfold print_int. change (nodes 64) with 1%nat in Har1. change (chunks 64) with 1 in Hblk.
  rewrite Hmm, Nat2Z.id. split_and!; [done|done|by apply put_bytes_ok|done|done|done|by apply put_bytes_at|].
  intros x Hx. apply put_bytes_out. rewrite length_app. cbn [length]. rewrite node_addr_add in Hx. lia.
Qed.

Lemma keys_live_same k ht m m' a n :
  keys_live k ht -> node_addr k <= a -> (forall x, ~ (a <= x < a + n) -> m' x = m x) -> keys_same m m' ht.
Proof.
  intros Hkl Ha Hm i e Hi Ho. destruct (Hkl i e Hi Ho) as [_ Hle]. apply bytes_at_ext.
  intros x Hx. apply Hm. lia.
Qed.

(** Looking up a number that is bound. *)
Lemma int_fd_bound s k t ht n fd :
  threads s !! running_thread s = Some t -> fd_tables s !! fd_table t = Some ht ->
  arena (sm s) k -> mem_ok (mm (sm s)) -> (1 <= k)%nat -> (k + 1 <= length (heap_page_head (sm s)))%nat ->
  oa_inv (mm (sm s)) ht -> keys_live k ht -> prints n -> binds (mm (sm s)) ht (dec n) fd -> fd <> NULL ->
  exists s', vfs_int_fd_to_vfs_file n s = Ok (fd, s') /\ iflag (sm s') = iflag (sm s) /\ arena (sm s') (k + 1) /\
    mem_ok (mm (sm s')) /\ length (heap_page_head (sm s')) = length (heap_page_head (sm s)) /\ fd_tables s' = fd_tables s /\
    (forall x, ~ (node_addr k <= x < node_addr (k + 1)) -> mm (sm s') x = mm (sm s) x).
Proof.
  intros Ht Hht Har Hok Hk1 Hroom Hinv Hkl Hp Hbind Hfd. unfold vfs_int_fd_to_vfs_file, fd_table_of, get_current_thread.
  rewrite (get_thread_ok _ _ _ Ht). cbn [mbind outcome_bind]. rewrite Hht. cbn [checked mbind outcome_bind].
  destruct (key_buffer n (sm s) k Har Hok Hp Hroom) as (m1 & Hkm & Hb). unfold key_of_fd. rewrite Hkm. cbn [mbind outcome_bind].
  destruct (Z.eqb_spec (node_addr k) NULL) as [E|_]; [by destruct (node_addr_nonnull _ _ Har)|].
  destruct (print_int (node_addr k) n (mm m1)) as [len m] eqn:Epi.
  destruct Hb as (-> & Har1 & Hok1 & Hif1 & Hl1 & Hblk & Hbytes & Hfr). cbn [mbind outcome_bind sm set_sm mm set_mm].
  assert (keys_same (mm (sm s)) m ht) as Hks.
  { eapply (keys_live_same k ht _ _ (node_addr k) 64); [done|lia|]. intros x Hx. apply Hfr. rewrite node_addr_add. lia. }
  rewrite (oa_get_bound m ht _ _ fd).
  - cbn [mbind outcome_bind]. unfold c_assert. destruct (Z.eqb_spec fd NULL); [done|]. cbn [negb mbind outcome_bind].
    destruct (kfree_arena (set_mm m m1) (k + 1) k 1) as (m2 & -> & Hmm2 & Hif2 & Har2 & Hl2 & _); [auto with willow|done|done|].
    cbn [mbind outcome_bind]. eexists. split; [done|]. cbn [sm set_sm fd_tables]. rewrite Hmm2, Hl2, Hif2. split_and!; done.
  - by eapply oa_inv_keys.
  - destruct Hp as [Hp _]. lia.
  - by apply (node_addr_nonnull (sm s)).
  - rewrite Hbytes. by apply (binds_keys (mm (sm s))).
Qed.

(** A new descriptor in the table: the number is the number of entries, when that is not taken and a
    slot is left; the other bindings stay. *)
Record installed (m : mst) (k : nat) (ht : oa_hash) (fd : Z) (ht' : oa_hash) (m' : mst) : Prop := {
  in_inv : oa_inv (mm m') ht';
  in_keys : keys_live (k + 1) ht';
  in_arena : arena m' (k + 1);
  in_ok : mem_ok (mm m');
  in_len : length (heap_page_head m') = length (heap_page_head m);
  in_frame : forall x, ~ (node_addr k <= x < node_addr (k + 1)) -> mm m' x = mm m x;
  in_bound : binds (mm m') ht' (dec (ht_length ht)) fd;
  in_others : forall kk v, kk <> dec (ht_length ht) -> binds (mm m) ht kk v -> binds (mm m') ht' kk v
}.

(** A table that takes one more descriptor. *)
Record fd_table_ready (m : mem) (k : nat) (ht : oa_hash) : Prop := {
  ft_inv : oa_inv m ht;
  ft_keys : keys_live k ht;
  ft_small : 0 <= ht_length ht < 2 ^ 31;
  ft_prints : prints (ht_length ht);
  ft_unused : forall v, ~ binds m ht (dec (ht_length ht)) v;
  ft_slot : exists i e, slot_at ht i e /\ state e = OA_HASH_ENTRY_EMPTY
}.

Lemma fd_table_ready_keep m m' k k' ht :
  fd_table_ready m k ht -> (k <= k')%nat -> (forall x, x < node_addr k -> m' x = m x) -> fd_table_ready m' k' ht.
Proof.
  intros [H1 H2 H3 H4 H5 H6] Hk E. assert (keys_same m m' ht) as Hks.
  { intros i e Hi Ho. destruct (H2 i e Hi Ho) as [_ Hle]. apply bytes_at_ext. intros x Hx. apply E. lia. }
  split; [by eapply oa_inv_keys| |done|done| |done].
  - intros i e Hi Ho. destruct (H2 i e Hi Ho) as [Hl Hle]. split; [done|]. unfold node_addr in *. lia.
  - intros v Hb. apply (H5 v). by apply (binds_keys m m').
Qed.

Lemma install_fd_spec m k ht fd :
  arena m k -> mem_ok (mm m) -> (k + 1 <= length (heap_page_head m))%nat -> fd_table_ready (mm m) k ht ->
  exists ht' m', install_fd fd ht m = Ok (ht_length ht, ht', m') /\ installed m k ht fd ht' m'.
Proof.
  intros Har Hok Hroom [Hinv Hkeys Hsmall Hdec Hfree Hempty].
  unfold install_fd. destruct (key_buffer (ht_length ht) m k Har Hok Hdec Hroom) as (m1 & -> & Hb).
  cbn [mbind outcome_bind]. destruct (Z.eqb_spec (node_addr k) NULL) as [E|_]; [by destruct (node_addr_nonnull _ _ Har)|].
  assert (sint32 (ht_length ht) = ht_length ht) as ->.
  { unfold sint32. rewrite wrap32_small by lia. destr_cmp; lia. }
  destruct (print_int (node_addr k) (ht_length ht) (mm m1)) as [len m2] eqn:Epi.
  destruct Hb as (-> & Har1 & Hok1 & Hif1 & Hl1 & Hblk & Hbytes & Hfr).
  set (len := Z.of_nat (length (dec (ht_length ht)))) in *.
  assert (0 < len) as Hlen by (destruct Hdec as [? _]; lia).
  pose proof (node_addr_nonnull _ _ Har) as Hk0.
  assert (keys_same (mm m) m2 ht) as Hks.
  { eapply (keys_live_same k ht _ _ (node_addr k) 64); [done|lia|]. intros x Hx. apply Hfr. rewrite node_addr_add. lia. }
  assert (oa_inv m2 ht) as Hinvm by by eapply oa_inv_keys.
  assert (forall v, ~ binds m2 ht (bytes_at m2 (node_addr k) (Z.to_nat len)) v) as Hno.
  { intros v. rewrite Hbytes, <- (binds_keys (mm m) m2) by done. apply Hfree. }
  assert (oa_hash_get_entry m2 ht (node_addr k) len = Ok None) as ->.
  { destruct (get_entry_spec m2 ht (node_addr k) len Hinvm Hlen Hk0) as [(j & (e' & Hj & Ho' & Hk') & _)|[_ ->]]; [|done].
    destruct (Hno (value e')). by exists j, e'. }
  cbn [mbind outcome_bind].
  destruct (oa_set_cases m2 ht (node_addr k) len fd Hinvm Hlen Hk0) as (r & ht' & Hset & Hc). unfold oa_hash_set.
  rewrite Hset. cbn [mbind outcome_bind].
  destruct Hc as [(-> & -> & _ & Hfull)|((i & ->) & Hinv' & _ & _ & Hb' & _)].
  { destruct Hempty as (i & e & Hi & He). by destruct (Hfull i e Hi He). }
  rewrite Hbytes in Hb'. exists ht', (set_mm m2 m1). split; [done|].
  split; cbn [mm set_mm heap_page_head]; [done| |auto with willow|done|done|done|by apply Hb'; left|].
  - intros j e Hj Ho. pose proof (node_addr_add k 1) as Hadd.
    destruct (oa_set_buffers _ _ _ _ _ _ _ _ _ Hset Hj Ho) as [(e0 & Hj0 & Ho0 & -> & ->)|[-> ->]].
    + destruct (Hkeys j e0 Hj0 Ho0). unfold live. lia.
    + destruct Hdec as [? _]. unfold live. pose proof (node_addr_range _ _ Har). lia.
  - intros kk v Hne Hbk. apply Hb'. right. split; [done|]. by apply (binds_keys (mm m)).
Qed.

(** The record of an open file, at [fd]. *)
Record file_at (m : mem) (fd v flags mode : Z) : Prop := {
  fa_vnode : load64 m (fd + FILE_VNODE) = v;
  fa_flags : load32 m (fd + FILE_FLAGS) = wrap32 flags;
  fa_mode : load32 m (fd + FILE_MODE) = wrap32 mode;
  fa_position : load64 m (fd + FILE_POSITION) = 0;
  fa_locked : m (fd + FILE_LOCKED) = 0;
  fa_abs_path : load64 m (fd + FILE_ABS_PATH) = NULL
}.

Lemma file_at_keep m m' fd v flags mode :
  (forall x, fd <= x < fd + SIZEOF_FILE -> m' x = m x) -> file_at m fd v flags mode -> file_at m' fd v flags mode.
Proof.
  unfold SIZEOF_FILE. intros E [H1 H2 H3 H4 H5 H6].
  split; [rewrite <- H1|rewrite <- H2|rewrite <- H3|rewrite <- H4|rewrite <- H5|rewrite <- H6];
    unfold load32, FILE_VNODE, FILE_FLAGS, FILE_MODE, FILE_POSITION, FILE_LOCKED, FILE_ABS_PATH;
    [apply load64_ext|apply load_le_ext|apply load_le_ext|apply load64_ext|apply E; lia|apply load64_ext]; intros x Hx; apply E; lia.
Qed.

Lemma new_vfs_file_spec v flags mode s k :
  arena s k -> mem_ok (mm s) -> (k + 2 <= length (heap_page_head s))%nat -> is_u64 v ->
  exists s', new_vfs_file v flags mode s = Ok (node_addr k, s') /\ arena s' (k + 2) /\ mem_ok (mm s') /\
    length (heap_page_head s') = length (heap_page_head s) /\ file_at (mm s') (node_addr k) v flags mode /\
    (forall x, ~ (node_addr k <= x < node_addr (k + 1)) -> mm s' x = mm s x).
Proof.
  intros Har Hok Hroom Hv. unfold new_vfs_file.
  destruct (kmalloc_byte_arena SIZEOF_FILE s k) as (s1 & -> & Hmm1 & _ & Har1 & Hl1 & _);
    [done|done|unfold room; change (nodes SIZEOF_FILE) with 1%nat; lia|]. change (nodes SIZEOF_FILE) with 1%nat in Har1. cbn [mbind outcome_bind].
  destruct (Z.eqb_spec (node_addr k) NULL) as [E|_]; [by destruct (node_addr_nonnull s k Har)|].
  set (m1 := store32 _ _ _).
  destruct (kmalloc_byte_arena SIZEOF_FILE_OPS (set_mm m1 s1) (k + 1)) as (s2 & -> & Hmm2 & _ & Har2 & Hl2 & _);
    [done|auto with willow|unfold room; change (nodes SIZEOF_FILE_OPS) with 1%nat; cbn [heap_page_head set_mm]; lia|].
  change (nodes SIZEOF_FILE_OPS) with 1%nat in Har2. replace (k + 1 + 1)%nat with (k + 2)%nat in Har2 by lia. cbn [mbind outcome_bind].
  cbn [mm set_mm] in Hmm2. rewrite Hmm2. eexists. split; [done|]. cbn [mm set_mm heap_page_head].
  assert (mem_ok m1) as Hok1 by (unfold m1; rewrite Hmm1; auto with willow). pose proof (node_addr_add k 1) as A1.
  split_and!; [auto with willow|auto 10 with willow|by rewrite Hl2| |].
  - unfold FILE_VNODE, FILE_FLAGS, FILE_MODE, FILE_POSITION, FILE_LOCKED, FILE_ABS_PATH, FILE_OPS, FILE_OBJECT in *.
    split; unfold load32, FILE_VNODE, FILE_FLAGS, FILE_MODE, FILE_POSITION, FILE_LOCKED, FILE_ABS_PATH.
    + rewrite load64_store64_ne by lia. by apply load64_store64_eq.
    + rewrite (load_le_ext 4 m1) by (intros x Hx; frame_byte; lia || done). apply (load_store_le_eq 4).
    + rewrite (load_le_ext 4 m1) by (intros x Hx; frame_byte; lia || done). unfold m1, store32. rewrite load_store_le_ne by lia. apply (load_store_le_eq 4).
    + rewrite !load64_store64_ne by lia. by apply load64_store64_eq.
    + rewrite !store64_out by lia. apply store8_eq.
    + by apply load64_store64_eq.
  - intros x Hx. unfold FILE_VNODE, FILE_FLAGS, FILE_MODE, FILE_POSITION, FILE_LOCKED, FILE_ABS_PATH, FILE_OPS, FILE_OBJECT in *.
    unfold m1. frame_byte. by rewrite Hmm1.
Qed.

End Vfs.

(** ** Witness *)

(** A decimal printer for small numbers, and an empty table in a fresh heap. *)
Definition digit (n : Z) : list Z := [48 + n mod 10].

Definition sample_context : thread_context :=
  Thread 0 0 0 1 0 0 0 0 (fun _ => 0) 0 0 (Mappings 0 0 0) 0x500 0 0 0x400 0x400 0.

Definition sample_thread : sst :=
  let m := match kmalloc_byte 64 sample_names with Ok (_, m) => m | Err _ => sample_names end in
  Sst m {[0x400 := sample_context]} {[0x500 := oa_hash_init 0x9000 4]} 0x400 0 1 true false 1 0 0 0 [].

Lemma sample_thread_arena : arena (sm sample_thread) 1 /\ mm (sm sample_thread) = mm sample_names /\
  length (heap_page_head (sm sample_thread)) = 256%nat.
Proof.
  destruct (kmalloc_byte_arena 64 sample_names 0) as (m & Hk & Hmm & _ & Har & Hl & _);
    [lia|exact sample_arena|vm_compute; lia|].
  unfold sample_thread. rewrite Hk. cbn [sm]. split_and!; [exact Har|exact Hmm|by rewrite Hl].
Qed.
