(* ===== verification/Kutils.v ===== *)
(** * Kernel utilities: kutils.c

    Number formatting, the tape archive the initial file system comes in, and
    the keyboard map.  Signed overflow of an [int] wraps (gcc on x86-64). *)

From Stdlib Require Import String.
From S2P Require Import Prelude Memory Strings Tmpfs.

Local Open Scope list_scope.

(** ** Numbers to strings *)

(** [while (value > 0) { *ptr++ = '0' + (value % 10); value /= 10; }] *)
Fixpoint put_digits (fuel : nat) (value : Z) (m : mem) (ptr : Z) : outcome (mem * Z) :=
  match fuel with
  | O => Err OutOfFuel
  | S f =>
      if 0 <? value then put_digits f (value / 10) (store8 m ptr (48 + value mod 10)) (ptr + 1)
      else Ok (m, ptr)
  end.

(** [while (start < end) { temp = *start; *start++ = *end; *end-- = temp; }] *)
Fixpoint reverse_loop (fuel : nat) (m : mem) (start end_ : Z) : outcome mem :=
  match fuel with
  | O => Err OutOfFuel
  | S f =>
      if start <? end_ then
        let temp := m start in
        reverse_loop f (store8 (store8 m start (m end_)) end_ temp) (start + 1) (end_ - 1)
      else Ok m
  end.

(** A 64-bit number has at most 20 digits. *)
Definition U64_DIGITS : nat := 21.

Definition uint64_to_string (value : Z) (m : mem) (buffer : Z) : outcome mem :=
  '(m, ptr) ← (if value =? 0 then Ok (store8 m buffer 48, buffer + 1)
               else put_digits U64_DIGITS value m buffer);
  let m := store8 m ptr 0 in
  reverse_loop U64_DIGITS m buffer (ptr - 1).

(** [do { s[i++] = n % 10 + '0'; } while ((n /= 10) > 0);] *)
Fixpoint itoa_digits (fuel : nat) (n : Z) (m : mem) (p : Z) : outcome (mem * Z) :=
  match fuel with
  | O => Err OutOfFuel
  | S f =>
      let m := store8 m p (Z.rem n 10 + 48) in
      let n := Z.quot n 10 in
      if 0 <? n then itoa_digits f n m (p + 1) else Ok (m, p + 1)
  end.

Definition itoa_reverse (fuel : nat) (m : mem) (s : Z) : outcome mem :=
  l ← kstrlen fuel m s;
  reverse_loop fuel m s (s + sint32 (l - 1)).

(** [-n] of the least [int] is itself. *)
Definition itoa (fuel : nat) (n : Z) (m : mem) (s : Z) : outcome mem :=
  let sign := n in
  let n := if sign <? 0 then sint32 (- n) else n in
  '(m, p) ← itoa_digits fuel n m s;
  let '(m, p) := if sign <? 0 then (store8 m p 45, p + 1) else (m, p) in
  itoa_reverse fuel (store8 m p 0) s.

(** ** The ustar archive *)

(** [while (size-- > 0) { n *= 8; n += *c - '0'; c++; }] *)
Fixpoint oct2bin_loop (size : nat) (n : Z) (m : mem) (c : Z) : Z :=
  match size with
  | O => n
  | S size' => oct2bin_loop size' (sint32 (sint32 (n * 8) + (m c - 48))) m (c + 1)
  end.

Definition oct2bin (m : mem) (str : Z) (size : nat) : Z := oct2bin_loop size 0 m str.

Definition ustar : list Z := chars "ustar".

(** [!memcmp(p, "lit", n)] against the bytes of a literal. *)
Fixpoint has_bytes (m : mem) (p : Z) (l : list Z) : bool :=
  match l with
  | [] => true
  | c :: l' => (m p =? c) && has_bytes m (p + 1) l'
  end.

(** The result and what is written to [*out], if anything. *)
Fixpoint tar_loop (fuel sfuel : nat) (m : mem) (ptr filename : Z) : outcome (Z * option Z) :=
  match fuel with
  | O => Err OutOfFuel
  | S f =>
      if has_bytes m (ptr + 257) ustar then
        let filesize := oct2bin m (ptr + 0x7c) 11 in
        l ← kstrlen sfuel m filename;
        if memcmp m ptr filename (l + 1) =? 0 then Ok (filesize, Some (ptr + 512))
        else tar_loop f sfuel m (ptr + (Z.quot (filesize + 511) 512 + 1) * 512) filename
      else Ok (0, None)
  end.

Definition tar_lookup (fuel sfuel : nat) (m : mem) (archive filename : Z) : outcome (Z * option Z) :=
  tar_loop fuel sfuel m archive filename.

Definition tar_lookup_bin (fuel sfuel : nat) (m : mem) (tarball filename : Z) : outcome (Z * option Z) :=
  '(ret, out) ← tar_lookup fuel sfuel m tarball filename;
  Ok (sint32 (ret + 1), out).

(** ** The keyboard *)

Definition scanmap_set1 : list Z :=
  [0; 0; 49; 50; 51; 52; 53; 54; 55; 56; 57; 48; 45; 61; 8; 9;
   113; 119; 101; 114; 116; 121; 117; 105; 111; 112; 91; 93; 10; 0; 97; 115;
   100; 102; 103; 104; 106; 107; 108; 59; 39; 96; 0; 92; 122; 120; 99; 118;
   98; 110; 109; 44; 46; 47; 0; 42; 0; 32] ++ replicate 70 0.

Definition scanmap_set1_upper : list Z :=
  [0; 0; 33; 64; 35; 36; 37; 94; 38; 42; 40; 41; 95; 43; 8; 9;
   81; 87; 69; 82; 84; 89; 85; 73; 79; 80; 123; 125; 10; 0; 65; 83;
   68; 70; 71; 72; 74; 75; 76; 58; 34; 126; 0; 124; 90; 88; 67; 86;
   66; 78; 77; 60; 62; 63; 0; 42; 0; 32] ++ replicate 70 0.

(** The result and the new [lshift_status]. *)
Definition is_lshift (scancode : Z) (lshift_status : bool) : bool * bool :=
  if scancode =? 0xaa then (false, false)
  else if scancode =? 0x2a then (true, true)
  else (false, lshift_status).

(** The characters [print_kb] sends to the terminal. *)
Definition print_kb (scancode : Z) (lshift_status : bool) : outcome (list Z) :=
  if (scancode =? 0x2a) || (scancode =? 0xaa) || (0x80 <=? scancode) then Ok []
  else
    c ← checked ((if lshift_status then scanmap_set1_upper else scanmap_set1) !! Z.to_nat scancode) OutOfBounds;
    Ok (if c =? 8 then [8; 32; 8] else [c]).

(** ** Decimal digits *)

(** The value of a string of digits, most significant first. *)
Definition horner (base : Z) (l : list Z) : Z := fold_left (fun n c => n * base + (c - 48)) l 0.

Definition is_digit (base c : Z) : Prop := 48 <= c < 48 + base.

Lemma horner_snoc base l c : horner base (l ++ [c]) = horner base l * base + (c - 48).
Proof. unfold horner. by rewrite fold_left_app. Qed.

(** [put_digits] writes the digits from the least significant one on. *)
Lemma put_digits_spec fuel v m p :
  0 <= v < 10 ^ (Z.of_nat fuel - 1) -> mem_ok m -> (0 < fuel)%nat ->
  exists m' l, put_digits fuel v m p = Ok (m', p + Z.of_nat (length l)) /\ mem_ok m' /\
    bytes_at m' p (length l) = l /\ Forall (is_digit 10) l /\ horner 10 (rev l) = v /\
    (0 < v -> exists l' c, l = l' ++ [c] /\ c <> 48) /\ (v = 0 -> l = []) /\ Z.of_nat (length l) < Z.of_nat fuel /\
    (forall x, ~ (p <= x < p + Z.of_nat (length l)) -> m' x = m x).
Proof.
  revert v m p. induction fuel as [|f IH]; intros v m p Hv Hok Hf; [lia|]. cbn [put_digits].
  destruct (Z.ltb_spec 0 v) as [Hpos|Hz].
  2: { exists m, []. rewrite Z.add_0_r. split_and!; [done|done|done|constructor|cbn; lia|lia|done|cbn; lia|done]. }
  destruct f as [|f].
  { replace (Z.of_nat 1 - 1) with 0 in Hv by lia. change (10 ^ 0) with 1 in Hv. lia. }
  pose proof (Z.mod_pos_bound v 10 ltac:(lia)) as Hmod. set (c := 48 + v mod 10).
  destruct (IH (v / 10) (store8 m p c) (p + 1)) as (m' & l & -> & Hok' & Hb & Hd & Hh & Htop & Hnil & Hlen & Hfr).
  - replace (Z.of_nat (S (S f)) - 1) with (Z.of_nat (S f) - 1 + 1) in Hv by lia.
    rewrite Z.pow_add_r in Hv by lia. change (10 ^ 1) with 10 in Hv.
    split; [apply Z.div_pos; lia|]. apply Z.div_lt_upper_bound; lia.
  - auto with willow.
  - lia.
  - exists m', (c :: l). cbn [length bytes_at rev]. split_and!.
    + f_equal. f_equal. lia.
    + done.
    + f_equal; [|done]. rewrite Hfr by lia. rewrite store8_eq. apply wrap8_small. unfold c. lia.
    + constructor; [unfold is_digit, c; lia|done].
    + rewrite horner_snoc, Hh. unfold c. pose proof (Z.div_mod v 10). lia.
    + intros _. destruct (Z_lt_dec 0 (v / 10)) as [Hq|Hq].
      * destruct (Htop Hq) as (l' & c' & -> & Hc). by exists (c :: l'), c'.
      * assert (v / 10 = 0) as E by (pose proof (Z.div_pos v 10); lia).
        rewrite (Hnil E).
        exists [], c. split; [done|]. unfold c. pose proof (Z.div_mod v 10). lia.
    + lia.
    + lia.
    + intros x Hx. rewrite Hfr by lia. apply store8_ne. lia.
Qed.

(** The loop reverses the [n] bytes from [a] on. *)
Lemma reverse_loop_spec fuel m a n :
  mem_ok m -> 0 <= n < Z.of_nat fuel ->
  exists m', reverse_loop fuel m a (a + n - 1) = Ok m' /\ mem_ok m' /\
    forall x, m' x = if between a x (a + n) then m (a + n - 1 - (x - a)) else m x.
Proof.
  revert m a n. induction fuel as [|f IH]; intros m a n Hok Hn; [lia|]. cbn [reverse_loop].
  destruct (Z.ltb_spec a (a + n - 1)) as [Hlt|Hge].
  2: { exists m. split_and!; [done|done|]. intros x. destr_cmp; [f_equal; lia|done]. }
  set (m1 := store8 (store8 m a _) _ _).
  destruct (IH m1 (a + 1) (n - 2)) as (m' & Hr & Hok' & Hx); [unfold m1; auto with willow|lia|].
  replace (a + 1 + (n - 2) - 1) with (a + n - 1 - 1) in Hr by lia. rewrite Hr. exists m'.
  split_and!; [done|done|]. intros x. rewrite Hx. unfold m1. repeat destr_cmp; try lia.
  - rewrite !store8_ne by lia. f_equal. lia.
  - destruct (Z.eq_dec x (a + n - 1)) as [->|].
    + rewrite store8_eq, wrap8_small by apply Hok. f_equal. lia.
    + replace x with a by lia. rewrite store8_ne by lia. rewrite store8_eq, wrap8_small by apply Hok. f_equal. lia.
  - by rewrite !store8_ne by lia.
Qed.

Lemma bytes_at_reversed m m' a n :
  (forall x, m' x = if between a x (a + Z.of_nat n) then m (a + Z.of_nat n - 1 - (x - a)) else m x) ->
  bytes_at m' a n = rev (bytes_at m a n).
Proof.
  intros H. apply (nth_ext _ _ 0 0); [by rewrite length_rev, !length_bytes_at|].
  rewrite length_bytes_at. intros i Hi. rewrite rev_nth by (by rewrite length_bytes_at).
  rewrite !nth_lookup, length_bytes_at, !bytes_at_lookup by lia. simpl. rewrite H. destr_cmp; [f_equal; lia|lia].
Qed.

Lemma digits_nonzero l : Forall (is_digit 10) l -> Forall (fun c => c <> 0) l.
Proof. apply List.Forall_impl. intros c Hc. unfold is_digit in Hc. lia. Qed.

(** [uint64_to_string] writes the decimal representation: for every 64-bit
    value it returns, and the buffer then holds a terminated string of one to
    twenty digits, without leading zero, whose value is the number; at most 21
    bytes of the buffer are written. *)
Lemma uint64_to_string_spec (value : Z) (m : mem) (buffer : Z)
    (Hv : is_u64 value) (Hok : mem_ok m) :
  exists m' l, uint64_to_string value m buffer = Ok m' /\ cstr m' buffer l /\
    Forall (is_digit 10) l /\ horner 10 l = value /\ (1 <= length l <= 20)%nat /\
    (0 < value -> exists c l', l = c :: l' /\ c <> 48) /\
    same_outside m m' buffer 21 /\ mem_ok m'.
Proof.
  unfold uint64_to_string, is_u64 in *.
  assert (exists m1 l, (if value =? 0 then Ok (store8 m buffer 48, buffer + 1) else put_digits U64_DIGITS value m buffer)
      = Ok (m1, buffer + Z.of_nat (length l)) /\ mem_ok m1 /\ bytes_at m1 buffer (length l) = l /\
      Forall (is_digit 10) l /\ horner 10 (rev l) = value /\ (1 <= length l <= 20)%nat /\
      (0 < value -> exists l' c, l = l' ++ [c] /\ c <> 48) /\
      (forall x, ~ (buffer <= x < buffer + Z.of_nat (length l)) -> m1 x = m x))
    as (m1 & l & -> & Hok1 & Hb & Hd & Hh & Hlen & Htop & Hfr).
  { destruct (Z.eqb_spec value 0) as [->|Hne].
    - exists (store8 m buffer 48), [48]. cbn [length bytes_at]. split_and!; try done; try lia.
      + auto with willow.
      + by rewrite store8_eq.
      + repeat constructor; unfold is_digit; lia.
      + intros x Hx. apply store8_ne. lia.
    - destruct (put_digits_spec U64_DIGITS value m buffer) as (m1 & l & Hp & Hok1 & Hb & Hd & Hh & Htop & _ & Hl & Hfr);
        [change (10 ^ (Z.of_nat U64_DIGITS - 1)) with 100000000000000000000; lia|done|vm_compute; lia|].
      exists m1, l. unfold U64_DIGITS in Hl. split_and!; try done; try lia.
      destruct (Htop ltac:(lia)) as (l' & c & -> & _). rewrite length_app. simpl. lia. }
  cbn [mbind outcome_bind]. set (p := buffer + Z.of_nat (length l)). set (m2 := store8 m1 p 0).
  destruct (reverse_loop_spec U64_DIGITS m2 buffer (Z.of_nat (length l))) as (m' & Hr & Hok' & Hx);
    [unfold m2; auto with willow|unfold U64_DIGITS; lia|].
  unfold p. rewrite Hr. exists m', (rev l). split; [done|].
  assert (bytes_at m2 buffer (length l) = l) as Hb2.
  { rewrite <- Hb at 2. apply bytes_at_same. intros i Hi. unfold m2, p. apply store8_ne. lia. }
  split_and!.
  - apply cstr_of_bytes.
    + rewrite length_rev, (bytes_at_reversed m2 m') by done. by rewrite Hb2.
    + rewrite length_rev, Hx. destr_cmp; [lia|]. unfold m2. fold p. by rewrite store8_eq.
    + apply digits_nonzero. by apply Forall_rev.
  - by apply Forall_rev.
  - done.
  - rewrite length_rev. lia.
  - rewrite length_rev. lia.
  - intros Hpos. destruct (Htop Hpos) as (l' & c & -> & Hc). exists c, (rev l'). by rewrite rev_app_distr.
  - intros x Hx'. rewrite Hx. destr_cmp; [lia|]. unfold m2, p. rewrite store8_ne by lia. apply Hfr. lia.
  - done.
Qed.

(** ** The archive as a list of files *)

(** The headers from [p] on: a name, the size in eleven octal digits, and the next
    header after the data rounded up to blocks of 512 bytes. *)
Inductive archive (m : mem) : Z -> list (list Z * Z) -> Prop :=
| archive_end p : has_bytes m (p + 257) ustar = false -> archive m p []
| archive_file p nm size digits rest :
    has_bytes m (p + 257) ustar = true -> cstr m p nm ->
    bytes_at m (p + 0x7c) 11 = digits -> Forall (is_digit 8) digits -> horner 8 digits = size ->
    0 <= size < 2 ^ 31 - 511 ->
    archive m (p + ((size + 511) / 512 + 1) * 512) rest ->
    archive m p ((nm, size) :: rest).

(** The first file of that name: its size and the address of its header. *)
Fixpoint find_file (files : list (list Z * Z)) (p : Z) (nm : list Z) : option (Z * Z) :=
  match files with
  | [] => None
  | (nm', size) :: rest =>
      if decide (nm' = nm) then Some (size, p) else find_file rest (p + ((size + 511) / 512 + 1) * 512) nm
  end.

Lemma sint32_small x : - 2 ^ 31 <= x < 2 ^ 31 -> sint32 x = x.
Proof.
  intros H. unfold sint32, wrap32. destruct (Z_le_dec 0 x).
  - rewrite Z.mod_small by lia. destr_cmp; lia.
  - replace (x mod 2 ^ 32) with (x + 2 ^ 32); [destr_cmp; lia|].
    rewrite <- (Z.mod_small (x + 2 ^ 32) (2 ^ 32)) by lia.
    replace (x + 2 ^ 32) with (x + 1 * 2 ^ 32) by lia. by rewrite Z_mod_plus_full.
Qed.

Lemma horner_grows base l acc :
  1 <= base -> 0 <= acc -> Forall (is_digit base) l -> acc <= fold_left (fun n c => n * base + (c - 48)) l acc.
Proof.
  intros Hb. revert acc. induction l as [|c l IH]; intros acc Ha Hl; cbn [fold_left]; [lia|].
  apply Forall_cons_1 in Hl as [Hc Hl]. unfold is_digit in Hc.
  etransitivity; [|apply IH; [nia|done]]. nia.
Qed.

(** No overflow below [2^31]. *)
Lemma oct2bin_loop_spec n acc m c l :
  bytes_at m c n = l -> Forall (is_digit 8) l -> 0 <= acc ->
  fold_left (fun n c => n * 8 + (c - 48)) l acc < 2 ^ 31 ->
  oct2bin_loop n acc m c = fold_left (fun n c => n * 8 + (c - 48)) l acc.
Proof.
  revert acc c l. induction n as [|n IH]; intros acc c l <- Hl Ha Hb; cbn [oct2bin_loop bytes_at fold_left]; [done|].
  cbn [bytes_at fold_left] in Hl, Hb. apply Forall_cons_1 in Hl as [Hc Hl]. unfold is_digit in Hc.
  pose proof (horner_grows 8 _ (acc * 8 + (m c - 48)) ltac:(lia) ltac:(lia) Hl).
  rewrite (sint32_small (acc * 8)) by lia. rewrite sint32_small by lia. apply IH; [done|done|lia|done].
Qed.

(** Comparing a name with its terminator decides equality. *)
Lemma memcmp_names m a b l l' :
  cstr m a l -> cstr m b l' -> memcmp m a b (Z.of_nat (length l') + 1) = 0 <-> l = l'.
Proof.
  intros Ha Hb. rewrite memcmp_zero. split.
  - intros H. eapply (cstr_unique m a); [done|].
    assert (bytes_at m a (length l') = bytes_at m b (length l')) as E.
    { apply bytes_at_eq. intros i Hi. apply H. lia. }
    apply cstr_of_bytes.
    + rewrite E. by apply cstr_bytes_at.
    + rewrite H by lia. by apply cstr_end.
    + apply Forall_forall. intros c Hc. apply list_elem_of_In, list_elem_of_lookup in Hc as [i Hi].
      pose proof (lookup_lt_Some _ _ _ Hi). rewrite <- (cstr_bytes_at m b l' Hb), bytes_at_lookup in Hi by done.
      injection Hi as <-. apply (cstr_nonzero m b l'); [done|lia].
  - intros <- i Hi. destruct (Z.eq_dec i (Z.of_nat (length l))) as [->|].
    + rewrite (cstr_end m a l), (cstr_end m b l) by done. done.
    + apply (proj1 (bytes_at_eq m a b (length l))); [|lia]. by rewrite !cstr_bytes_at.
Qed.

(** [tar_lookup] finds a file in the archive: on a well-formed archive it
    returns the size of the first file of the given name and the address of its
    data, or 0 without setting [out] when there is none. *)
Theorem tar_lookup_finds (fuel sfuel : nat) (m : mem) (p filename : Z) (files : list (list Z * Z)) (nm : list Z)
    (Har : archive m p files) (Hn : cstr m filename nm) (Hn0 : filename <> NULL)
    (Hf : (length files < fuel)%nat) (Hsf : (length nm < sfuel)%nat) :
  tar_lookup fuel sfuel m p filename =
    Ok (match find_file files p nm with
        | Some (size, header) => (size, Some (header + 512))
        | None => (0, None)
        end).
Proof.
  unfold tar_lookup. revert p files Har Hf. induction fuel as [|f IH]; intros p files Har Hf; [lia|].
  cbn [tar_loop]. destruct Har as [p Hend|p nm' size digits rest Hm Hname Hd Hds Hsz Hb Hrest].
  - by rewrite Hend.
  - rewrite Hm. cbn [find_file length] in *.
    assert (oct2bin m (p + 124) 11 = size) as ->.
    { unfold oct2bin. rewrite (oct2bin_loop_spec 11 0 m (p + 124) digits Hd Hds); [done|lia|].
      unfold horner in Hsz. lia. }
    unfold kstrlen. destruct (Z.eqb_spec filename NULL); [done|].
    rewrite (scan_nul_spec sfuel m filename nm Hn Hsf). cbn [mbind outcome_bind].
    replace (filename + Z.of_nat (length nm) - filename + 1) with (Z.of_nat (length nm) + 1) by lia.
    pose proof (memcmp_names m p filename nm' nm Hname Hn) as Hcmp.
    destruct (Z.eqb_spec (memcmp m p filename (Z.of_nat (length nm) + 1)) 0) as [E|E].
    + destruct (decide (nm' = nm)) as [|Hne]; [done|]. by destruct (Hne (proj1 Hcmp E)).
    + destruct (decide (nm' = nm)) as [Heq|_]; [by destruct (E (proj2 Hcmp Heq))|].
      rewrite Z.quot_div_nonneg by lia. apply IH; [done|lia].
Qed.

(** An archive with one file "a" of 8 bytes; its name is also at 0x9000. *)
Definition sample_tar : mem :=
  put_bytes (put_bytes (put_bytes (fun a => if a =? 0x9000 then 97 else 0) 0x1000 [97])
    (0x1000 + 0x7c) (replicate 9 48 ++ [49; 48])) (0x1000 + 257) ustar.

Lemma tar_lookup_finds_witness : tar_lookup 2 8 sample_tar 0x1000 0x9000 = Ok (8, Some 0x1200).
Proof.
  apply (tar_lookup_finds 2 8 sample_tar 0x1000 0x9000 [([97], 8)] [97]).
  - apply (archive_file _ _ _ _ (replicate 9 48 ++ [49; 48])).
    + reflexivity.
    + repeat split; discriminate.
    + reflexivity.
    + repeat constructor; discriminate.
    + reflexivity.
    + lia.
    + apply archive_end. reflexivity.
  - repeat split; discriminate.
  - discriminate.
  - cbn. lia.
  - cbn. lia.
Defined.
