(* ===== verification/Console.v ===== *)
(** * Output (K/main.c, K/kutils.c)

    The console is the text passed to [flanterm_write], a vendored function; what
    [npf_vsnprintf] makes of a format is a parameter of [kprintf].  Numbers are printed through
    a buffer on the stack. *)

From S2P Require Import Prelude Memory Machine Mutex Strings Kutils.

Local Open Scope list_scope.

(** ** Strings *)

(** [flanterm_write(ft_ctx, msg, kstrlen(msg))] *)
Definition kprint (fuel : nat) (m : mem) (msg : Z) (out : list Z) : outcome (list Z) :=
  s ← kstrlen fuel m msg; Ok (out ++ bytes_at m msg (Z.to_nat s)).
Definition kprintln (fuel : nat) (m : mem) (msg : Z) (out : list Z) : outcome (list Z) :=
  out ← kprint fuel m msg out; Ok (out ++ [10]).

(** [kprint] of the one-character array [s] at an address. *)
Definition kprint_char (fuel : nat) (c : Z) (m : mem) (s : Z) (out : list Z) : outcome (mem * list Z) :=
  let m := store8 (store8 m s c) (s + 1) 0 in
  out ← kprint fuel m s out; Ok (m, out).

(** ** Numbers *)

(** [strr] is the buffer of 64 bytes. *)
Definition kprint_uint64 (fuel : nat) (num : Z) (m : mem) (strr : Z) (out : list Z) : outcome (mem * list Z) :=
  m ← uint64_to_string num m strr; out ← kprint fuel m strr out; Ok (m, out).
Definition kprintln_uint64 (fuel : nat) (num : Z) (m : mem) (strr : Z) (out : list Z) : outcome (mem * list Z) :=
  '(m, out) ← kprint_uint64 fuel num m strr out; Ok (m, out ++ [10]).

(** [for (int i = n - 1; i >= 0; i--)]: the bit, and a space after every eighth but the last. *)
Fixpoint binary_loop (n : nat) (value : Z) (out : list Z) : list Z :=
  match n with
  | O => out
  | S i =>
      let out := out ++ (if Z.land value (Z.shiftl 1 (Z.of_nat i)) =? 0 then [48] else [49]) in
      let out := if (Z.of_nat i mod 8 =? 0) && negb (Z.of_nat i =? 0) then out ++ [32] else out in
      binary_loop i value out
  end.
Definition kprintln_uint64_to_binary (value : Z) (out : list Z) : list Z := binary_loop 64 value out ++ [10].

(** ** Formats *)

(** [text] is the output of [npf_vsnprintf]. *)
Definition kprintf_interruptable (ft_ctx_mutex : Z) (text : list Z) (s : mst) (out : list Z) : outcome (mst * list Z) :=
  s ← acquire_mutex_at ft_ctx_mutex s;
  let out := out ++ text in
  s ← release_mutex_at ft_ctx_mutex s;
  Ok (s, out).
Definition kprintf (ft_ctx_mutex : Z) (text : list Z) (s : mst) (out : list Z) : outcome (mst * list Z) :=
  let '(irq_status, s) := irq_disable_save s in
  '(s, out) ← kprintf_interruptable ft_ctx_mutex text s out;
  Ok (irq_restore irq_status s, out).

(** ** Correctness *)

Lemma kprint_string fuel m a l out : mem_ok m -> cstr m a l -> a <> NULL -> (length l < fuel)%nat -> kprint fuel m a out = Ok (out ++ l).
Proof.
  intros Hm Hs Ha Hf. unfold kprint. destruct (strlen_equiv_kstrlen fuel m a l Hm Hs Ha Hf) as [<- ->]. cbn [mbind outcome_bind].
  by rewrite Nat2Z.id, (cstr_bytes_at _ _ _ Hs).
Qed.

(** The digits of the text: without the spaces. *)
Definition not_space (c : Z) : bool := negb (c =? 32).

Lemma land_bit v i : 0 <= i -> (Z.land v (Z.shiftl 1 i) =? 0) = negb (Z.testbit v i).
Proof.
  intros Hi. rewrite Z.shiftl_1_l. destruct (Z.testbit v i) eqn:E; cbn [negb].
  - apply Z.eqb_neq. intros H. assert (Z.testbit (Z.land v (2 ^ i)) i = true) as Hb by (by rewrite Z.land_spec, E, Z.pow2_bits_true).
    by rewrite H, Z.testbit_0_l in Hb.
  - apply Z.eqb_eq, Z.bits_inj'. intros j Hj. rewrite Z.land_spec, Z.testbit_0_l, Z.pow2_bits_eqb by done.
    destruct (Z.eqb_spec i j) as [<-|]; [by rewrite E|apply andb_false_r].
Qed.

Lemma mod_bit v i : 0 <= i -> v mod 2 ^ (i + 1) = Z.b2z (Z.testbit v i) * 2 ^ i + v mod 2 ^ i.
Proof.
  intros Hi. rewrite Z.testbit_spec' by done. rewrite Z.pow_add_r, Z.pow_1_r by lia. rewrite Z.rem_mul_r by lia. lia.
Qed.

Lemma binary_loop_text n : forall v out, exists t, binary_loop n v out = out ++ t /\
  length (List.filter not_space t) = n /\ Forall (is_digit 2) (List.filter not_space t) /\
  forall acc, fold_left (fun a c => a * 2 + (c - 48)) (List.filter not_space t) acc = acc * 2 ^ Z.of_nat n + v mod 2 ^ Z.of_nat n.
Proof.
  induction n as [|n IH]; intros v out; cbn [binary_loop].
  - exists []. rewrite app_nil_r. split_and!; try done. intros acc. cbn. rewrite Z.mod_1_r. lia.
  - rewrite land_bit by lia. set (b := Z.testbit v (Z.of_nat n)). set (sp := (_ && _)%bool).
    destruct (IH v (out ++ (if negb b then [48] else [49]) ++ (if sp then [32] else []))) as (t & Ht & H1 & H2 & H3).
    exists (((if negb b then [48] else [49]) ++ (if sp then [32] else [])) ++ t). split.
    { rewrite app_assoc, <- Ht. by destruct sp; rewrite ?app_nil_r, ?app_assoc. }
    assert (List.filter not_space (((if negb b then [48] else [49]) ++ (if sp then [32] else [])) ++ t)
      = (48 + Z.b2z b) :: List.filter not_space t) as -> by (by destruct b, sp).
    cbn [length fold_left]. split_and!; [by rewrite H1|constructor; [unfold is_digit; destruct b; cbn; lia|done]|].
    intros acc. rewrite H3. rewrite Nat2Z.inj_succ, <- Z.add_1_r, mod_bit, Z.pow_add_r, Z.pow_1_r by lia. fold b. lia.
Qed.

(** Numbers are printed correctly. [kprintln_uint64] appends to the console the decimal digits of the
    number, without leading zero, and a newline, and writes at most 21 bytes of its buffer of 64;
    [kprintln_uint64_to_binary] appends 64 binary digits, in groups that spaces separate, whose value
    is the number. [kprintf] appends its text with the interrupt flag kept, and leaves the mutex
    of the console unlocked, even if another thread held it. *)
Theorem numbers_printed (fuel : nat) (value : Z) (m : mem) (strr : Z) (out : list Z) (ft_ctx_mutex : Z) (text : list Z) (s : mst)
    (Hv : is_u64 value) (Hok : mem_ok m) (Hstrr : strr <> NULL) (Hfuel : (20 < fuel)%nat) (Hmutex : ft_ctx_mutex <> NULL) :
  (exists m' l, kprintln_uint64 fuel value m strr out = Ok (m', out ++ l ++ [10]) /\ Forall (is_digit 10) l /\ horner 10 l = value /\
     (0 < value -> exists c l', l = c :: l' /\ c <> 48) /\ same_outside m m' strr 21) /\
  (exists t, kprintln_uint64_to_binary value out = out ++ t ++ [10] /\ length (List.filter not_space t) = 64%nat /\
     Forall (is_digit 2) (List.filter not_space t) /\ horner 2 (List.filter not_space t) = value) /\
  (exists s', kprintf ft_ctx_mutex text s out = Ok (s', out ++ text) /\ iflag s' = iflag s /\ mm s' ft_ctx_mutex = 0 /\
     forall x, x <> ft_ctx_mutex -> mm s' x = mm s x).
Proof.
  split_and!.
  - destruct (uint64_to_string_spec value m strr Hv Hok) as (m' & l & E & Hs & Hd & Hh & Hl & H0 & Hm & Hok').
    exists m', l. split_and!; try done. unfold kprintln_uint64, kprint_uint64. rewrite E. cbn [mbind outcome_bind].
    rewrite (kprint_string fuel m' strr l); [|done|done|done|lia].
    cbn [mbind outcome_bind]. by rewrite app_assoc.
  - destruct (binary_loop_text 64 value out) as (t & E & Hl & Hd & Hh). exists t.
    split; [unfold kprintln_uint64_to_binary; by rewrite E, app_assoc|]. split; [exact Hl|]. split; [exact Hd|].
    unfold horner. rewrite Hh. rewrite Z.mod_small by exact Hv. lia.
  - unfold kprintf, kprintf_interruptable. cbn [irq_disable_save]. rewrite acquire_mutex_at_ok by done. cbn [mbind outcome_bind].
    rewrite release_mutex_at_ok by done. cbn [mbind outcome_bind]. eexists. split; [done|].
    rewrite irq_restore_iflag, irq_restore_mm by done. cbn [mm set_mm]. split_and!; [done|apply store8_eq|].
    intros x Hx. by rewrite !store8_ne.
Qed.

(** ** Witness *)

Lemma numbers_printed_witness :
  exists m' l, kprintln_uint64 64 18446744073709551615 (fun _ => 0) 0x1000 [] = Ok (m', l ++ [10]) /\ horner 10 l = 18446744073709551615.
Proof.
  destruct (numbers_printed 64 18446744073709551615 (fun _ => 0) 0x1000 [] 0x2000 [] (Mst (fun _ => 0) true [] 0 []))
    as ((m' & l & H1 & _ & H2 & _) & _).
  - split; [discriminate|reflexivity].
  - intros a. lia.
  - discriminate.
  - lia.
  - discriminate.
  - exists m', l. split; [exact H1|exact H2].
Defined.
