(* ===== verification/Descriptors.v ===== *)
(** * Segment, task and interrupt descriptors: gdt.c and idt.c

    The descriptor tables are arrays in memory, written with the shifts and
    masks of the source; [seg_*] and [gate_*] read an entry back the way the
    processor does.  The registers [lgdt], [lidt] and [ltr] load are the
    record [cpu]. *)

From S2P Require Import Prelude Memory Machine Kutils.

(** ** gdt.c *)

Definition create_descriptor (base limit access flags : Z) : Z :=
  if 0xFFFFF <? limit then 0
  else
    let d := Z.lor 0 (Z.land limit 0xFFFF) in
    let d := Z.lor d (wrap32 (Z.shiftl (Z.land base 0xFFFF) 16)) in
    let d := Z.lor d (wrap64 (Z.shiftl (Z.land (Z.shiftr base 16) 0xFF) 32)) in
    let d := Z.lor d (wrap64 (Z.shiftl access 40)) in
    let d := Z.lor d (wrap64 (Z.shiftl (Z.land (Z.shiftr limit 16) 0xF) 48)) in
    let d := Z.lor d (wrap64 (Z.shiftl (Z.land flags 0xF) 52)) in
    Z.lor d (wrap64 (Z.shiftl (Z.land (Z.shiftr base 24) 0xFF) 56)).

(** The two words of a task-state descriptor. *)
Definition tss_low (base limit : Z) : Z :=
  let low := Z.lor 0 (Z.land limit 0xFFFF) in
  let low := Z.lor low (wrap64 (Z.shiftl (Z.land base 0xFFFFFF) 16)) in
  let low := Z.lor low (wrap64 (Z.shiftl 0x89 40)) in
  let low := Z.lor low (wrap64 (Z.shiftl (Z.land (Z.shiftr limit 16) 0xF) 48)) in
  Z.lor low (wrap64 (Z.shiftl (Z.land (Z.shiftr base 24) 0xFF) 56)).
Definition tss_high (base : Z) : Z := Z.lor 0 (Z.land (Z.shiftr base 32) 0xFFFFFFFF).

Definition create_tss_descriptor (base limit gdt_table index : Z) (m : mem) : mem :=
  let m := store64 m (gdt_table + 8 * index) (tss_low base limit) in
  store64 m (gdt_table + 8 * (index + 1)) (tss_high base).

Definition setup_gdt (gdt_table : Z) (m : mem) : mem :=
  let m := store64 m gdt_table 0 in
  let m := store64 m (gdt_table + 8) (create_descriptor 0 0xFFFFF 0x9a 0x0a) in
  let m := store64 m (gdt_table + 16) (create_descriptor 0 0xFFFFF 0x92 0x0c) in
  let m := store64 m (gdt_table + 24) (create_descriptor 0 0xFFFFF 0xf2 0x0c) in
  store64 m (gdt_table + 32) (create_descriptor 0 0xFFFFF 0xfa 0x0a).

(** [struct TSS], packed: [rsp] at 4, [ist] at 36, [iomap_base] at 102. *)
Definition SIZEOF_TSS : Z := 104.
Definition TSS_RSP0 : Z := 4.
Definition TSS_IST1 : Z := 44.
Definition TSS_IOMAP_BASE : Z := 102.

(** [sizeof(tss)] is the size of the pointer, 8. *)
Definition setup_tss (tss gdt_table : Z) (m : mem) : mem :=
  let m := memset m tss 0 8 in
  let m := store64 m (tss + TSS_RSP0) 0x1000000 in
  let m := store64 m (tss + TSS_IST1) 0x11000000 in
  let m := store16 m (tss + TSS_IOMAP_BASE) 8 in
  create_tss_descriptor tss SIZEOF_TSS gdt_table 5 m.

Definition change_tss (tss rsp : Z) (m : mem) : mem := store64 m (tss + TSS_RSP0) rsp.

(** ** The processor's registers *)

Record cpu : Type := Cpu {
  gdtr_base : Z;
  gdtr_limit : Z;
  idtr_base : Z;
  idtr_limit : Z;
  reg_cs : Z;
  reg_ds : Z;
  reg_ss : Z;
  reg_tr : Z;
  cpu_if : bool
}.

(** [struct GDTPtr]: [limit] at 0, [base] at 2; [lgdt], the far return to
    selector 8 and the data segments, between [cli] and [sti]. *)
Definition load_gdt (gdtr gdt_table : Z) (m : mem) (c : cpu) : mem * cpu :=
  let m := store64 (store16 m gdtr (8 * 7 - 1)) (gdtr + 2) gdt_table in
  (m, Cpu (load64 m (gdtr + 2)) (load16 m gdtr) (idtr_base c) (idtr_limit c) 0x08 0x10 0x10 (reg_tr c) true).

Definition load_tss (c : cpu) : cpu :=
  Cpu (gdtr_base c) (gdtr_limit c) (idtr_base c) (idtr_limit c) (reg_cs c) (reg_ds c) (reg_ss c) 0x28 (cpu_if c).

(** ** idt.c *)

(** [idt_entry_t], packed in 16 bytes. *)
Definition idt_set_descriptor (idt vector isr flags : Z) (m : mem) : mem :=
  let d := idt + 16 * wrap8 vector in
  let m := store16 m d (Z.land isr 0xFFFF) in
  let m := store16 m (d + 2) 0x08 in
  let m := store8 m (d + 4) 0 in
  let m := store8 m (d + 5) flags in
  let m := store16 m (d + 6) (Z.land (Z.shiftr isr 16) 0xFFFF) in
  let m := store32 m (d + 8) (Z.land (Z.shiftr isr 32) 0xFFFFFFFF) in
  store32 m (d + 12) 0.

(** [for (vector = 0; vector < 256; vector++)], from [vector] on, with [n] to go;
    [isr_stub_table] is assembled from idt.asm. *)
Fixpoint idt_fill (n : nat) (vector : Z) (idt : Z) (isr_stub_table : Z -> Z) (m : mem) : mem :=
  match n with
  | O => m
  | S n' => idt_fill n' (vector + 1) idt isr_stub_table (idt_set_descriptor idt vector (isr_stub_table vector) 0x8E m)
  end.

Definition idt_init (idt : Z) (isr_stub_table : Z -> Z) (m : mem) (c : cpu) : mem * cpu :=
  (idt_fill 256 0 idt isr_stub_table m,
   Cpu (gdtr_base c) (gdtr_limit c) idt (wrap16 (16 * 256 - 1)) (reg_cs c) (reg_ds c) (reg_ss c) (reg_tr c) true).

(** The keyboard interrupt: the shift state, then the characters printed. *)
Definition ps2_keyboard_handler (scancode : Z) (lshift_status : bool) : outcome (bool * list Z) :=
  let '(_, lshift_status) := is_lshift scancode lshift_status in
  out ← print_kb scancode lshift_status;
  Ok (lshift_status, out).

(** ** Reading descriptors *)

Definition seg_base (d : Z) : Z := (d / 2 ^ 16) mod 2 ^ 24 + 2 ^ 24 * ((d / 2 ^ 56) mod 2 ^ 8).
Definition seg_limit (d : Z) : Z := d mod 2 ^ 16 + 2 ^ 16 * ((d / 2 ^ 48) mod 2 ^ 4).
Definition seg_access (d : Z) : Z := (d / 2 ^ 40) mod 2 ^ 8.
Definition seg_flags (d : Z) : Z := (d / 2 ^ 52) mod 2 ^ 4.

(** The base of a 16-byte system descriptor. *)
Definition tss_base (low high : Z) : Z := seg_base low + 2 ^ 32 * (high mod 2 ^ 32).

Definition gate_offset (m : mem) (d : Z) : Z := load16 m d + 2 ^ 16 * load16 m (d + 6) + 2 ^ 32 * load32 m (d + 8).
Definition gate_selector (m : mem) (d : Z) : Z := load16 m (d + 2).
Definition gate_attributes (m : mem) (d : Z) : Z := m (d + 5).

(** ** Fields side by side *)

Lemma land_ones_mod x n : 0 <= n -> Z.land x (2 ^ n - 1) = x mod 2 ^ n.
Proof. intros Hn. rewrite <- Z.land_ones by done. f_equal. rewrite Z.ones_equiv. lia. Qed.

(** A field above [n] bits is added. *)
Lemma lor_field a b n : 0 <= n -> 0 <= a < 2 ^ n -> Z.lor a (Z.shiftl b n) = a + b * 2 ^ n.
Proof.
  intros Hn Ha. rewrite <- Z.shiftl_mul_pow2, <- Z.add_lor_land by done.
  assert (Z.land a (Z.shiftl b n) = 0) as ->; [|lia].
  apply Z.bits_inj'. intros i Hi. rewrite Z.land_spec, Z.bits_0.
  destruct (Z_lt_dec i n).
  - rewrite Z.shiftl_spec_low by done. apply andb_false_r.
  - rewrite <- (Z.mod_small a (2 ^ n)) by done. rewrite Z.mod_pow2_bits_high by lia. done.
Qed.

(** The masks of the source as remainders. *)
Lemma mask_mod x :
  Z.land x 0xF = x mod 2 ^ 4 /\ Z.land x 0xFF = x mod 2 ^ 8 /\ Z.land x 0xFFFF = x mod 2 ^ 16 /\
  Z.land x 0xFFFFFF = x mod 2 ^ 24 /\ Z.land x 0xFFFFFFFF = x mod 2 ^ 32.
Proof.
  split_and!; [apply (land_ones_mod x 4)|apply (land_ones_mod x 8)|apply (land_ones_mod x 16)
              |apply (land_ones_mod x 24)|apply (land_ones_mod x 32)]; lia.
Qed.

Ltac masks :=
  repeat match goal with
  | |- context [Z.land ?x 0xF] => rewrite (proj1 (mask_mod x))
  | |- context [Z.land ?x 0xFF] => rewrite (proj1 (proj2 (mask_mod x)))
  | |- context [Z.land ?x 0xFFFF] => rewrite (proj1 (proj2 (proj2 (mask_mod x))))
  | |- context [Z.land ?x 0xFFFFFF] => rewrite (proj1 (proj2 (proj2 (proj2 (mask_mod x)))))
  | |- context [Z.land ?x 0xFFFFFFFF] => rewrite (proj2 (proj2 (proj2 (proj2 (mask_mod x)))))
  end;
  rewrite ?Z.lor_0_l; rewrite ?Z.shiftr_div_pow2 by lia.

Lemma mod_range x n : 0 <= n -> 0 <= x mod 2 ^ n < 2 ^ n.
Proof. intros. apply Z.mod_pos_bound. lia. Qed.

Lemma wrap32_field b n : 0 <= n -> 0 <= b * 2 ^ n < 2 ^ 32 -> wrap32 (Z.shiftl b n) = Z.shiftl b n.
Proof. intros Hn Hb. rewrite Z.shiftl_mul_pow2 by done. by apply wrap32_small. Qed.

Lemma wrap64_field b n : 0 <= n -> 0 <= b * 2 ^ n < 2 ^ 64 -> wrap64 (Z.shiftl b n) = Z.shiftl b n.
Proof. intros Hn Hb. rewrite Z.shiftl_mul_pow2 by done. by apply wrap64_small. Qed.

(** The descriptor as a sum of its fields. *)
Lemma create_descriptor_sum base limit access flags :
  0 <= base < 2 ^ 32 -> 0 <= limit <= 0xFFFFF -> 0 <= access < 2 ^ 8 ->
  create_descriptor base limit access flags =
    limit mod 2 ^ 16 + (base mod 2 ^ 16) * 2 ^ 16 + (base / 2 ^ 16 mod 2 ^ 8) * 2 ^ 32 + access * 2 ^ 40 +
    (limit / 2 ^ 16 mod 2 ^ 4) * 2 ^ 48 + (flags mod 2 ^ 4) * 2 ^ 52 + (base / 2 ^ 24 mod 2 ^ 8) * 2 ^ 56.
Proof.
  intros Hb Hl Ha. unfold create_descriptor. destruct (Z.ltb_spec 0xFFFFF limit); [lia|]. masks.
  pose proof (mod_range limit 16 ltac:(lia)). pose proof (mod_range base 16 ltac:(lia)).
  pose proof (mod_range (base / 2 ^ 16) 8 ltac:(lia)). pose proof (mod_range (limit / 2 ^ 16) 4 ltac:(lia)).
  pose proof (mod_range flags 4 ltac:(lia)). pose proof (mod_range (base / 2 ^ 24) 8 ltac:(lia)).
  rewrite wrap32_field, !wrap64_field by lia.
  rewrite (lor_field _ _ 16), (lor_field _ _ 32), (lor_field _ _ 40), (lor_field _ _ 48), (lor_field _ _ 52),
    (lor_field _ _ 56) by lia. reflexivity.
Qed.

Lemma tss_low_sum base limit :
  0 <= base < 2 ^ 64 -> 0 <= limit < 2 ^ 16 ->
  tss_low base limit = limit + (base mod 2 ^ 24) * 2 ^ 16 + 0x89 * 2 ^ 40 + (base / 2 ^ 24 mod 2 ^ 8) * 2 ^ 56.
Proof.
  intros Hb Hl. unfold tss_low. masks. rewrite (Z.mod_small limit) by lia. rewrite (Z.div_small limit) by lia.
  pose proof (mod_range base 24 ltac:(lia)). pose proof (mod_range (base / 2 ^ 24) 8 ltac:(lia)).
  rewrite !wrap64_field by (try change (0 mod 2 ^ 4) with 0; lia).
  change (Z.shiftl (0 mod 2 ^ 4) 48) with 0. rewrite Z.lor_0_r.
  rewrite (lor_field _ _ 16), (lor_field _ _ 40), (lor_field _ _ 56) by lia. reflexivity.
Qed.

Lemma tss_descriptor_decodes tss lim table index m :
  is_u64 tss -> 0 <= lim < 2 ^ 16 ->
  let m' := create_tss_descriptor tss lim table index m in
  let low := load64 m' (table + 8 * index) in let high := load64 m' (table + 8 * (index + 1)) in
  tss_base low high = tss /\ seg_limit low = lim /\ seg_access low = 0x89 /\ seg_flags low = 0.
Proof.
  intros Ht Hlim. cbv zeta. unfold create_tss_descriptor, is_u64 in *.
  assert (tss_high tss = tss / 2 ^ 32) as Hh.
  { unfold tss_high. masks. apply Z.mod_small. Z.to_euclidean_division_equations; lia. }
  rewrite (load64_store64_ne _ _ (table + 8 * index)) by lia. rewrite tss_low_sum, Hh by done.
  rewrite !load64_store64_eq by (unfold is_u64; Z.to_euclidean_division_equations; lia).
  unfold tss_base, seg_base, seg_limit, seg_access, seg_flags. split_and!; Z.to_euclidean_division_equations; lia.
Qed.

(** The descriptors decode to what they were made from: for every base, 20-bit
    limit, access byte and flags nibble the processor reads the same fields
    back from [create_descriptor], a larger limit gives the null descriptor, and
    the pair of words [create_tss_descriptor] stores is an available 64-bit TSS
    with the given base and limit. *)
Theorem descriptors_decode (base limit access flags : Z)
    (Hb : 0 <= base < 2 ^ 32) (Hl : 0 <= limit < 2 ^ 32) (Ha : 0 <= access < 2 ^ 8) (Hf : 0 <= flags < 2 ^ 4) :
  (limit <= 0xFFFFF ->
     let d := create_descriptor base limit access flags in
     is_u64 d /\ seg_base d = base /\ seg_limit d = limit /\ seg_access d = access /\ seg_flags d = flags) /\
  (0xFFFFF < limit -> create_descriptor base limit access flags = 0) /\
  (forall tss lim table index m, is_u64 tss -> 0 <= lim < 2 ^ 16 ->
     let m' := create_tss_descriptor tss lim table index m in
     let low := load64 m' (table + 8 * index) in let high := load64 m' (table + 8 * (index + 1)) in
     tss_base low high = tss /\ seg_limit low = lim /\ seg_access low = 0x89 /\ seg_flags low = 0).
Proof.
  split_and!.
  - intros Hl20. cbv zeta. rewrite create_descriptor_sum by lia.
    unfold is_u64, seg_base, seg_limit, seg_access, seg_flags. split_and!; Z.to_euclidean_division_equations; lia.
  - intros Hbig. unfold create_descriptor. destruct (Z.ltb_spec 0xFFFFF limit); [done|lia].
  - apply tss_descriptor_decodes.
Qed.

Lemma descriptors_decode_witness :
  seg_limit (create_descriptor 0 0xFFFFF 0x9a 0x0a) = 0xFFFFF /\ seg_access (create_descriptor 0 0xFFFFF 0x9a 0x0a) = 0x9a.
Proof.
  destruct (descriptors_decode 0 0xFFFFF 0x9a 0x0a) as [H _].
  - lia.
  - lia.
  - lia.
  - lia.
  - destruct (H ltac:(lia)) as (_ & _ & H1 & H2 & _). split; [exact H1|exact H2].
Defined.

(** ** The interrupt table *)

Lemma load_le_store_eq n m a v : 0 <= v < 256 ^ Z.of_nat n -> load_le n (store_le n m a v) a = v.
Proof. intros H. rewrite load_store_le_eq. by apply Z.mod_small. Qed.

Lemma load_le_store8_ne n m a b v : ~ (b <= a < b + Z.of_nat n) -> load_le n (store8 m a v) b = load_le n m b.
Proof. intros H. apply load_le_ext. intros x Hx. apply store8_ne. lia. Qed.

(** Reads a field past stores to the other fields. *)
Ltac field_ne :=
  repeat first [rewrite load_store_le_ne by lia | rewrite load_le_store8_ne by lia | rewrite load_le_store_eq by (cbn; lia)].

Lemma idt_set_descriptor_outside idt v isr flags m :
  0 <= v < 256 -> same_outside m (idt_set_descriptor idt v isr flags m) (idt + 16 * v) 16.
Proof. intros Hv x Hx. unfold idt_set_descriptor. rewrite wrap8_small by lia. by frame_byte. Qed.

Lemma idt_set_descriptor_gate idt v isr flags m :
  0 <= v < 256 -> is_u64 isr -> 0 <= flags < 256 ->
  let m' := idt_set_descriptor idt v isr flags m in
  gate_offset m' (idt + 16 * v) = isr /\ gate_selector m' (idt + 16 * v) = 0x08 /\
  gate_attributes m' (idt + 16 * v) = flags.
Proof.
  intros Hv Hisr Hf. cbv zeta. unfold idt_set_descriptor, is_u64 in *. rewrite wrap8_small by lia.
  set (d := idt + 16 * v). unfold gate_offset, gate_selector, gate_attributes, load16, load32, store16, store32.
  masks. pose proof (mod_range isr 16 ltac:(lia)). pose proof (mod_range (isr / 2 ^ 16) 16 ltac:(lia)).
  pose proof (mod_range (isr / 2 ^ 32) 32 ltac:(lia)). split_and!.
  - field_ne. Z.to_euclidean_division_equations; lia.
  - by field_ne.
  - rewrite !store_le_outside by lia. rewrite store8_eq. by apply wrap8_small.
Qed.

Lemma gate_ext m m' d :
  (forall x, d <= x < d + 16 -> m' x = m x) ->
  gate_offset m' d = gate_offset m d /\ gate_selector m' d = gate_selector m d /\ gate_attributes m' d = gate_attributes m d.
Proof.
  intros H. unfold gate_offset, gate_selector, gate_attributes, load16, load32.
  rewrite (load_le_ext 2 m m' d), (load_le_ext 2 m m' (d + 6)), (load_le_ext 4 m m' (d + 8)), (load_le_ext 2 m m' (d + 2)), H
    by (intros; try apply H; lia). done.
Qed.

Lemma idt_fill_spec n v idt stubs m :
  0 <= v -> v + Z.of_nat n <= 256 -> (forall i, is_u64 (stubs i)) ->
  let m' := idt_fill n v idt stubs m in
  same_outside m m' (idt + 16 * v) (16 * Z.of_nat n) /\
  forall i, v <= i < v + Z.of_nat n ->
    gate_offset m' (idt + 16 * i) = stubs i /\ gate_selector m' (idt + 16 * i) = 0x08 /\
    gate_attributes m' (idt + 16 * i) = 0x8E.
Proof.
  intros Hv Hn Hs. revert v m Hv Hn. induction n as [|n IH]; intros v m Hv Hn; cbn [idt_fill].
  { split; [by intros x _|intros; lia]. }
  set (m1 := idt_set_descriptor idt v (stubs v) 0x8E m).
  destruct (IH (v + 1) m1) as [Hout Hin]; [lia|lia|]. split.
  - intros x Hx. rewrite Hout by lia. apply idt_set_descriptor_outside; lia.
  - intros i Hi. destruct (Z.eq_dec i v) as [->|]; [|apply Hin; lia].
    destruct (idt_set_descriptor_gate idt v (stubs v) 0x8E m) as (H1 & H2 & H3); [lia|done|lia|].
    fold m1 in H1, H2, H3. rewrite <- H1 at 1. rewrite <- H2, <- H3.
    apply gate_ext. intros x Hx. apply Hout. lia.
Qed.

(** [idt_init] fills the whole table: every one of the 256 gates decodes to
    the stub of its vector in the kernel code segment, present, with ring 0 and
    interrupt-gate type; [idtr] covers exactly the table, interrupts are enabled and
    nothing outside the table is written. *)
Theorem idt_init_installs (idt : Z) (isr_stub_table : Z -> Z) (m : mem) (c : cpu)
    (Hs : forall v, is_u64 (isr_stub_table v)) :
  let '(m', c') := idt_init idt isr_stub_table m c in
  (forall v, 0 <= v < 256 ->
     gate_offset m' (idt + 16 * v) = isr_stub_table v /\ gate_selector m' (idt + 16 * v) = 0x08 /\
     gate_attributes m' (idt + 16 * v) = 0x8E) /\
  same_outside m m' idt (16 * 256) /\
  idtr_base c' = idt /\ idtr_limit c' = 16 * 256 - 1 /\ cpu_if c' = true.
Proof.
  unfold idt_init. destruct (idt_fill_spec 256 0 idt isr_stub_table m) as [Hout Hin]; [lia|lia|done|].
  rewrite Z.mul_0_r, Z.add_0_r in Hout. split_and!; [exact Hin|exact Hout|done..].
Qed.

(** Stubs nine bytes apart. *)
Definition sample_stubs (v : Z) : Z := 0xffffffff80000000 + 9 * (v mod 256).
Definition sample_cpu : cpu := Cpu 0 0 0 0 0 0 0 0 false.

Lemma idt_init_installs_witness :
  gate_offset (fst (idt_init 0x1000 sample_stubs (fun _ => 0) sample_cpu)) (0x1000 + 16 * 72) = sample_stubs 72 /\
  sample_stubs 72 = 0xffffffff80000288.
Proof.
  split; [|reflexivity].
  assert (forall v, is_u64 (sample_stubs v)) as Hs.
  { intros v. pose proof (Z.mod_pos_bound v 256 ltac:(lia)). unfold is_u64, sample_stubs. lia. }
  pose proof (idt_init_installs 0x1000 sample_stubs (fun _ => 0) sample_cpu Hs) as H. unfold idt_init in *.
  destruct H as [H _]. cbn [fst]. exact (proj1 (H 72 ltac:(lia))).
Defined.
