(* ===== verification/Loader.v ===== *)
(** * The program loader: loader.c

    ELF images in memory, loading their segments into an address space and
    unloading them again, the stack of a new program, and the function that
    enters user mode.  Code that runs with a user address space accesses memory
    through its page tables: [resolve] is the processor's translation, [space]
    the direct-map address of the top-level table [cr3] holds. *)

From S2P Require Import Prelude Memory Machine Frames Heap Paging OaHash Scheduler Strings.

Local Open Scope list_scope.

(** ** Data *)

(** The fields of [Elf64_Ehdr] and [Elf64_Phdr] the loader reads. *)
Record Elf64_Ehdr : Type := Ehdr {
  e_entry : Z;
  e_phoff : Z;
  e_phentsize : Z;
  e_phnum : Z
}.

Record Elf64_Phdr : Type := Phdr {
  p_type : Z;
  p_offset : Z;
  p_vaddr : Z;
  p_filesz : Z;
  p_memsz : Z
}.

Definition PT_LOAD : Z := 1.

(** [com_elf_data_t]; no code fills [interpreter_path]. *)
Record com_elf_data_t : Type := ElfData {
  elf_entry_point : Z;
  phdr : Z;
  phent_sz : Z;
  phent_num : Z
}.

Definition AT_PHDR : Z := 3.
Definition AT_PHENT : Z := 4.
Definition AT_PHNUM : Z := 5.
Definition AT_ENTRY : Z := 9.

Section Loader.
Context (hhdm_offset : Z).

(** ** Memory through an address space *)

(** Bits 12 to 51 of an entry: what the processor takes as the frame. *)
Definition FRAME_MASK : Z := 0x000ffffffffff000.

(** One level of the processor's walk: the next table, or none when the entry
    is not present. *)
Definition mmu_step (m : mem) (table index : Z) : option Z :=
  let e := entry m table index in
  if Z.land e 1 =? 0 then None else Some (wrap64 (Z.land e FRAME_MASK + hhdm_offset)).

(** The byte of memory that address [v] denotes.  Upper-half addresses are
    shared by every address space and are the addresses memory is kept under. *)
Definition resolve (m : mem) (space v : Z) : outcome Z :=
  if 2 ^ 63 <=? v then Ok v
  else
    checked (pdpt ← mmu_step m space (pml4_index v);
             pd ← mmu_step m pdpt (pdpt_index v);
             pt ← mmu_step m pd (pd_index v);
             page ← mmu_step m pt (pt_index v);
             Some (page + page_offset v)) PageFault.

Fixpoint vread (n : nat) (m : mem) (space a : Z) : outcome Z :=
  match n with
  | O => Ok 0
  | S n' => p ← resolve m space a; hi ← vread n' m space (wrap64 (a + 1)); Ok (m p + 256 * hi)
  end.

(** [memset] and [memcpy] of main.c on the addresses of [space]. *)
Definition vmemset (space s c n : Z) (m : mem) : outcome mem :=
  loop n (fun i m => p ← resolve m space (wrap64 (s + i)); Ok (store8 m p c)) m.

Definition vmemcpy (space dest src n : Z) (m : mem) : outcome mem :=
  loop n (fun i m =>
    p ← resolve m space (wrap64 (src + i));
    q ← resolve m space (wrap64 (dest + i));
    Ok (store8 m q (m p))) m.

(** ** ELF headers *)

Definition read_ehdr (m : mem) (space data : Z) : outcome Elf64_Ehdr :=
  entry ← vread 8 m space (data + 24);
  phoff ← vread 8 m space (data + 32);
  phentsize ← vread 2 m space (data + 54);
  phnum ← vread 2 m space (data + 56);
  Ok (Ehdr entry phoff phentsize phnum).

Definition read_phdr (m : mem) (space ph : Z) : outcome Elf64_Phdr :=
  type ← vread 4 m space ph;
  offset ← vread 8 m space (ph + 8);
  vaddr ← vread 8 m space (ph + 16);
  filesz ← vread 8 m space (ph + 32);
  memsz ← vread 8 m space (ph + 40);
  Ok (Phdr type offset vaddr filesz memsz).

(** [(ehdr->e_phoff + (i * ehdr->e_phentsize)) + (uint64_t) data] *)
Definition phdr_address (h : Elf64_Ehdr) (i data : Z) : Z :=
  wrap64 (e_phoff h + i * e_phentsize h + data).

(** [for (i = 0; i < ehdr->e_phnum; i++)]; the header is read again in every
    iteration, and its count has 16 bits, so [PHDR_FUEL] iterations are enough. *)
Fixpoint for_phdrs {S : Type} (n : nat) (get : S -> mem) (body : Z -> S -> outcome S) (space data i : Z) (s : S)
    : outcome S :=
  match n with
  | O => Err OutOfFuel
  | S n' =>
      h ← read_ehdr (get s) space data;
      if i <? e_phnum h then
        s ← body (phdr_address h i data) s;
        for_phdrs n' get body space data (i + 1) s
      else Ok s
  end.

Definition PHDR_FUEL : nat := Z.to_nat (2 ^ 16).

(** ** load_elf *)

Definition pmem (p : pst) : mem := mm (ms p).
Definition on_pmem (f : mem -> outcome mem) (p : pst) : outcome pst :=
  m ← f (pmem p); Ok (Pst (set_mm m (ms p)) (cur p)).

(** The contents of the segment whose header is at [ph]: the pages are cleared, the
    bytes of the file are copied, the rest is cleared again. *)
Definition fill_segment (space data ph : Z) (p : pst) : outcome pst :=
  h ← read_phdr (pmem p) space ph;
  p ← on_pmem (vmemset space (Z.land (p_vaddr h) PAGE_MASK) 0
                 (wrap64 (p_memsz h + Z.land (p_vaddr h) 0xfff))) p;
  h ← read_phdr (pmem p) space ph;
  p ← on_pmem (vmemcpy space (p_vaddr h) (wrap64 (data + p_offset h)) (p_filesz h)) p;
  h ← read_phdr (pmem p) space ph;
  if p_filesz h <? p_memsz h then
    on_pmem (vmemset space (wrap64 (p_vaddr h + p_filesz h)) 0 (p_memsz h - p_filesz h)) p
  else Ok p.

(** The body of the loop for the program header at [ph]. *)
Definition load_segment (space data cr3 ph : Z) (p : pst) : outcome pst :=
  h ← read_phdr (pmem p) space ph;
  if p_type h =? PT_LOAD then
    '(_, p) ← map_range hhdm_offset cr3 (p_vaddr h) 7 (p_memsz h) 7 p;
    fill_segment space data ph p
  else Ok p.

Definition load_elf (space data cr3 : Z) (p : pst) : outcome (Z * pst) :=
  p ← for_phdrs (S PHDR_FUEL) pmem (load_segment space data cr3) space data 0 p;
  h ← read_ehdr (pmem p) space data;
  Ok (e_entry h, p).

(** ** unload_elf *)

(** [free_frame(virt_to_phys_page(virt_address, cr3)); unmap_page(cr3, virt_address);]
    The file stays in the kernel's memory, which unmapping user pages does not
    touch: the header of a segment is read once. *)
Definition unload_page (cr3 virt_address : Z) (p : pst) : outcome pst :=
  s ← free_frame (virt_to_phys_page hhdm_offset (pmem p) virt_address cr3) (ms p);
  Ok (unmap_page hhdm_offset cr3 virt_address (Pst s (cur p))).

(** The pages of a segment after the first: their number, branch by branch. *)
Definition unload_rest (vaddr memsz : Z) : Z :=
  let pages := wrap64 (Z.land vaddr 0xfff + memsz) / 4096 in
  if memsz <? 4096 then 0
  else if memsz mod 4096 =? 0 then wrap64 (pages - 1)
  else pages.

Definition unload_segment (space cr3 ph : Z) (p : pst) : outcome pst :=
  h ← read_phdr (pmem p) space ph;
  if p_type h =? PT_LOAD then
    p ← unload_page cr3 (p_vaddr h) p;
    loop (unload_rest (p_vaddr h) (p_memsz h))
      (fun j p => unload_page cr3 (wrap64 (p_vaddr h + 4096 * (j + 1))) p) p
  else Ok p.

Definition unload_elf (space data cr3 : Z) (p : pst) : outcome pst :=
  for_phdrs (S PHDR_FUEL) pmem (unload_segment space cr3) space data 0 p.

(** ** com_sys_elf64_prepare_stack *)

(** The stack is in the kernel heap. [fuel] bounds the lengths of the strings and
    the number of them. *)
Context (fuel : nat).

(** [for (; vec[i]; i++) { len = strlen(vec[i]) + 1; stackptr -= len; memcpy(...); }] *)
Fixpoint push_strings (n : nat) (i vec stackptr : Z) (m : mem) : outcome (Z * Z * mem) :=
  match n with
  | O => Err OutOfFuel
  | S n' =>
      let str := load64 m (vec + 8 * i) in
      if str =? NULL then Ok (i, stackptr, m)
      else
        l ← strlen fuel m str;
        let len := l + 1 in
        let stackptr := wrap64 (stackptr - len) in
        push_strings n' (i + 1) vec stackptr (memcpy m stackptr str len)
  end.

Definition PUSH (x : Z) (st : Z * mem) : Z * mem :=
  let stackptr := wrap64 (fst st - 8) in (stackptr, store64 (snd st) stackptr x).

(** [for (i = 0; i < n; i++) stackptr[i] = stack_end_virt - (off += strlen(vec[i]) + 1);] *)
Fixpoint store_pointers (n : nat) (i vec stackptr stack_end_virt off : Z) (m : mem) : outcome (Z * mem) :=
  match n with
  | O => Ok (off, m)
  | S n' =>
      l ← strlen fuel m (load64 m (vec + 8 * i));
      let off := off + (l + 1) in
      store_pointers n' (i + 1) vec stackptr stack_end_virt off
        (store64 m (stackptr + 8 * i) (wrap64 (stack_end_virt - off)))
  end.

(** [for (i = 0; i < 100; i++) PUSH(0xDEADBEEFCAFEBABE);] *)
Fixpoint push_guard (n : nat) (st : Z * mem) : Z * mem :=
  match n with O => st | S n' => push_guard n' (PUSH 0xDEADBEEFCAFEBABE st) end.

(** From the first [PUSH(0)] on: the auxiliary vector, the two arrays of pointers,
    [argc], and the marker words below; the result is the stack pointer. *)
Definition push_vectors (elf_data : com_elf_data_t) (stack_end_virt argc envc argv envp stackptr : Z) (m : mem)
    : outcome (Z * mem) :=
  let st := PUSH 0 (PUSH 0 (stackptr, m)) in
  let st := PUSH AT_ENTRY (PUSH (elf_entry_point elf_data) st) in
  let st := PUSH AT_PHDR (PUSH (phdr elf_data) st) in
  let st := PUSH AT_PHENT (PUSH (phent_sz elf_data) st) in
  let st := PUSH AT_PHNUM (PUSH (phent_num elf_data) st) in
  let '(stackptr, m) := PUSH 0 st in
  let stackptr := wrap64 (stackptr - 8 * envc) in
  '(off, m) ← store_pointers (Z.to_nat envc) 0 envp stackptr stack_end_virt 0 m;
  let '(stackptr, m) := PUSH 0 (stackptr, m) in
  let stackptr := wrap64 (stackptr - 8 * argc) in
  '(off, m) ← store_pointers (Z.to_nat argc) 0 argv stackptr stack_end_virt off m;
  let '(temp, m) := PUSH argc (stackptr, m) in
  let '(_, m) := push_guard 100 (wrap64 (temp - 8 * 300), m) in
  Ok (temp, m).

Definition com_sys_elf64_prepare_stack (elf_data : com_elf_data_t) (stack_end_phys stack_end_virt argv envp : Z)
    (m : mem) : outcome (Z * mem) :=
  '(envc, stackptr, m) ← push_strings fuel 0 envp stack_end_virt m;
  '(argc, stackptr, m) ← push_strings fuel 0 argv stackptr m;
  let stackptr := Z.land stackptr (2 ^ 64 - 16) in
  let stackptr := if Z.land (argc + envc + 1) 1 =? 0 then stackptr else wrap64 (stackptr - 8) in
  '(stackptr, m) ← push_vectors elf_data stack_end_virt argc envc argv envp stackptr m;
  Ok (wrap64 (stack_end_virt - (stack_end_virt - stackptr)), m).

(** ** userspace_run_elf *)

(** Addresses the linker fixes, and those of the two empty arrays on the kernel stack. *)
Context (addr_scheduling_started addr_syscall_user_thread_exit : Z) (argv0 envp0 : Z).

(** The five calls of [change_page_map], 4000 bytes apart, over the new stack. *)
Definition share_stack (cr3 user_rsp : Z) (m : mst) : outcome mst :=
  loop 5 (fun i m => Ok (change_page_map hhdm_offset cr3 (wrap64 (user_rsp - THREAD_STACK_SIZE + i * 4000)) 7 m)) m.

(** [jump_to_user] (syscalls.asm): [sysret] with [rflags] 0x202. *)
Definition jump_to_user (entry rsp : Z) (s : sst) : sst :=
  on_sm (set_iflag true) (set_cpu_rsp rsp (emit (EnterUser entry rsp) s)).

(** The thread gets a second stack from the heap.  What [prepare_stack] returns is
    not used: the program starts with the stack pointer above its vectors.  With
    no entry the function returns with interrupts disabled. *)
Definition userspace_run_elf (s : sst) : outcome sst :=
  let '(_, m) := irq_disable_save (sm s) in
  let t := get_current_thread s in
  _ ← c_assert (negb (t =? NULL));
  '(stack, m) ← kmalloc_byte_interruptable THREAD_STACK_SIZE m;
  let user_stack := wrap64 (stack + THREAD_STACK_SIZE) in
  s ← modify_thread t (set_user_rsp user_stack) (set_sm m s);
  th ← get_thread s t;
  m ← share_stack (cr3 th) (user_rsp th) (sm s);
  _ ← nonnull stack;
  let m := set_mm (memset (mm m) (wrap64 (user_rsp th - THREAD_STACK_SIZE)) 0 THREAD_STACK_SIZE) m in
  let m := change_page_map hhdm_offset (cr3 th) addr_scheduling_started 7 m in
  s ← modify_thread t (set_status_i 4 1) (set_sm m s);
  s ← (if elf_file th =? NULL then
         let rsp := wrap64 (user_rsp th - 8) in
         s ← modify_thread t (set_user_rsp rsp) s;
         Ok (on_sm (fun m => set_mm (store64 (mm m) rsp addr_syscall_user_thread_exit) m) s)
       else Ok s);
  th ← get_thread s t;
  '(_, m') ← com_sys_elf64_prepare_stack (ElfData 0 0 0 0) (user_rsp th) (user_rsp th) argv0 envp0 (mm (sm s));
  let s := on_sm (set_mm m') s in
  Ok (if elf_entry th =? NULL then s else jump_to_user (elf_entry th) (user_rsp th) s).

(** ** Vocabulary: words, string vectors and their copies *)

(** Consecutive words from [a] on. *)
Fixpoint words_at (m : mem) (a : Z) (l : list Z) : Prop :=
  match l with
  | [] => True
  | x :: l' => load64 m a = x /\ words_at m (a + 8) l'
  end.

(** A null-terminated array of pointers to strings, as [main] receives it. *)
Fixpoint vec_at (m : mem) (vec : Z) (l : list (Z * list Z)) : Prop :=
  match l with
  | [] => load64 m vec = NULL
  | (p, s) :: l' => load64 m vec = p /\ p <> NULL /\ cstr m p s /\ vec_at m (vec + 8) l'
  end.

(** Neither the array nor its strings meet [lo, hi). *)
Fixpoint clear_of (lo hi vec : Z) (l : list (Z * list Z)) : Prop :=
  match l with
  | [] => apart vec 8 lo (hi - lo)
  | (p, s) :: l' =>
      apart vec 8 lo (hi - lo) /\ apart p (Z.of_nat (length s) + 1) lo (hi - lo) /\ clear_of lo hi (vec + 8) l'
  end.

(** The bytes the strings of [l] take, terminators included. *)
Fixpoint total (l : list (Z * list Z)) : Z :=
  match l with
  | [] => 0
  | (_, s) :: l' => Z.of_nat (length s) + 1 + total l'
  end.

(** The strings of [l] one below the other, from [top] down. *)
Fixpoint copies (m : mem) (top : Z) (l : list (Z * list Z)) : Prop :=
  match l with
  | [] => True
  | (_, s) :: l' => let a := top - (Z.of_nat (length s) + 1) in cstr m a s /\ copies m a l'
  end.

(** The words from [slot] on are the addresses of those copies. *)
Fixpoint pointers (m : mem) (slot top : Z) (l : list (Z * list Z)) : Prop :=
  match l with
  | [] => True
  | (_, s) :: l' =>
      let a := top - (Z.of_nat (length s) + 1) in load64 m slot = a /\ pointers m (slot + 8) a l'
  end.

Definition same_off (m m' : mem) (lo hi : Z) : Prop := forall x, ~ (lo <= x < hi) -> m' x = m x.

Lemma total_nonneg l : 0 <= total l.
Proof. induction l as [|[p s] l IH]; cbn [total]; lia. Qed.

Lemma words_at_ext m m' a l lo hi :
  same_off m m' lo hi -> apart a (8 * Z.of_nat (length l)) lo (hi - lo) -> words_at m a l -> words_at m' a l.
Proof.
  intros Hs. unfold apart. revert a. induction l as [|x l IH]; intros a Ha; cbn [words_at length] in *; [done|].
  intros [<- Hw]. split; [|apply IH; [lia|done]]. apply load64_ext. intros y Hy. apply Hs. lia.
Qed.

Lemma vec_at_ext m m' lo hi vec l : same_off m m' lo hi -> clear_of lo hi vec l -> vec_at m vec l -> vec_at m' vec l.
Proof.
  intros Hs. revert vec. induction l as [|[p s] l IH]; intros vec; cbn [vec_at clear_of]; unfold apart.
  - intros Ha <-. apply load64_ext. intros y Hy. apply Hs. lia.
  - intros (Ha & Hp & Hc) (<- & Hn & Hstr & Hv). split_and!; [|done| |by apply IH].
    + apply load64_ext. intros y Hy. apply Hs. lia.
    + apply (cstr_ext m); [|done]. intros y Hy. apply Hs. lia.
Qed.

Lemma copies_ext m m' top l lo hi :
  same_off m m' lo hi -> apart (top - total l) (total l) lo (hi - lo) -> copies m top l -> copies m' top l.
Proof.
  intros Hs. unfold apart. revert top. induction l as [|[p s] l IH]; intros top; cbn [copies total]; [done|].
  intros Ha [Hc Hr]. pose proof (total_nonneg l). split; [|apply IH; [lia|done]].
  apply (cstr_ext m); [|done]. intros y Hy. apply Hs. lia.
Qed.

Lemma pointers_ext m m' slot top l lo hi :
  same_off m m' lo hi -> apart slot (8 * Z.of_nat (length l)) lo (hi - lo) -> pointers m slot top l ->
  pointers m' slot top l.
Proof.
  intros Hs. unfold apart. revert slot top. induction l as [|[p s] l IH]; intros slot top; cbn [pointers length]; [done|].
  intros Ha [Hp Hr]. split; [|apply IH; [lia|done]]. rewrite <- Hp. apply load64_ext. intros y Hy. apply Hs. lia.
Qed.

Lemma clear_of_weaken lo hi lo' hi' vec l : lo <= lo' <= hi' -> hi' <= hi -> clear_of lo hi vec l -> clear_of lo' hi' vec l.
Proof.
  intros H1 H2. revert vec. induction l as [|[p s] l IH]; intros vec; cbn [clear_of]; unfold apart; [lia|].
  intros (? & ? & ?). split_and!; [lia|lia|by apply IH].
Qed.

(** Writing inside the stack keeps a vector outside it. *)
Lemma vec_at_keep m m' lo hi lo' hi' vec l :
  clear_of lo hi vec l -> same_off m m' lo' hi' -> lo <= lo' <= hi' -> hi' <= hi -> vec_at m vec l -> vec_at m' vec l.
Proof. intros Hc Hs H1 H2. apply (vec_at_ext m m' lo' hi'); [done|]. by apply (clear_of_weaken lo hi). Qed.

(** Copies with pointers to them form a string vector of the same strings. *)
Lemma relocated m slot top l :
  copies m top l -> pointers m slot top l -> load64 m (slot + 8 * Z.of_nat (length l)) = NULL -> 0 < top - total l ->
  exists l', vec_at m slot l' /\ map snd l' = map snd l.
Proof.
  revert slot top. induction l as [|[p s] l IH]; intros slot top; cbn [copies pointers total length map].
  - rewrite Z.add_0_r. intros _ _ Hn _. by exists [].
  - intros [Hc Hcs] [Hp Hps] Hn Ht. pose proof (total_nonneg l).
    destruct (IH (slot + 8) (top - (Z.of_nat (length s) + 1))) as (l' & Hv & Hm); [done|done| |lia|].
    { rewrite <- Hn. f_equal. lia. }
    exists ((top - (Z.of_nat (length s) + 1), s) :: l'). cbn [vec_at map snd]. rewrite Hm. unfold NULL.
    split_and!; [done|lia|done|done|done].
Qed.

(** ** Kernel addresses *)

(** Bytes of the upper half are accessed as they are. *)
Definition upper (a n : Z) : Prop := 2 ^ 63 <= a /\ a + n < 2 ^ 64.

Lemma resolve_upper m sp v : 2 ^ 63 <= v -> resolve m sp v = Ok v.
Proof. intros H. unfold resolve. by destruct (Z.leb_spec (2 ^ 63) v); [|lia]. Qed.

Lemma vread_upper n m sp a : upper a (Z.of_nat n) -> vread n m sp a = Ok (load_le n m a).
Proof.
  revert a. induction n as [|n IH]; intros a [H1 H2]; cbn [vread load_le]; [done|].
  rewrite resolve_upper by done. cbn [mbind outcome_bind]. rewrite wrap64_small, IH; [done|split; lia|lia].
Qed.

(** ** The steps *)

Lemma PUSH_eq x sp m : 8 <= sp < 2 ^ 64 -> PUSH x (sp, m) = (sp - 8, store64 m (sp - 8) x).
Proof. intros H. unfold PUSH. cbn [fst snd]. by rewrite wrap64_small by lia. Qed.

Definition push_all (l : list Z) (st : Z * mem) : Z * mem := fold_left (fun st x => PUSH x st) l st.

Lemma words_at_app m a l l' :
  words_at m a (l ++ l') <-> words_at m a l /\ words_at m (a + 8 * Z.of_nat (length l)) l'.
Proof.
  revert a. induction l as [|x l IH]; intros a; cbn [app words_at length].
  - rewrite Z.add_0_r. tauto.
  - rewrite IH. replace (a + 8 * Z.of_nat (S (length l))) with (a + 8 + 8 * Z.of_nat (length l)) by lia. tauto.
Qed.

(** Lists of 64-bit words, word by word. *)
Ltac forall_u64 := repeat apply List.Forall_cons; try apply List.Forall_nil; first [assumption | by vm_compute].

Lemma push_all_spec l sp m :
  mem_ok m -> Forall is_u64 l -> 8 * Z.of_nat (length l) <= sp < 2 ^ 64 ->
  exists m', push_all l (sp, m) = (sp - 8 * Z.of_nat (length l), m') /\ mem_ok m' /\
    same_off m m' (sp - 8 * Z.of_nat (length l)) sp /\ words_at m' (sp - 8 * Z.of_nat (length l)) (rev l).
Proof.
  revert sp m. induction l as [|x l IH]; intros sp m Hok Hl Hsp; cbn [length] in *.
  - exists m. rewrite Z.sub_0_r. by split_and!.
  - apply Forall_cons_1 in Hl as [Hx Hl]. unfold push_all. cbn [fold_left]. rewrite PUSH_eq by lia.
    destruct (IH (sp - 8) (store64 m (sp - 8) x)) as (m' & He & Hok' & Hs & Hw); [by apply store64_ok|done|lia|].
    exists m'. fold (push_all l (sp - 8, store64 m (sp - 8) x)). rewrite He.
    replace (sp - 8 - 8 * Z.of_nat (length l)) with (sp - 8 * Z.of_nat (S (length l))) in * by lia.
    split_and!; [done|done| |].
    + intros y Hy. rewrite Hs by lia. apply store64_out. lia.
    + cbn [rev]. apply words_at_app. split; [done|]. cbn [words_at]. rewrite length_rev. split; [|done].
      rewrite (load64_ext (store64 m (sp - 8) x)) by (intros y Hy; apply Hs; lia).
      replace (_ + _) with (sp - 8) by lia. by apply load64_store64_eq.
Qed.

Lemma push_guard_all n st : push_guard n st = push_all (repeat 0xDEADBEEFCAFEBABE n) st.
Proof. revert st. induction n as [|n IH]; intros st; [done|]. cbn [push_guard repeat]. apply IH. Qed.

Definition short (l : list (Z * list Z)) : Prop :=
  (length l < fuel)%nat /\ Forall (fun ps => (length (snd ps) < fuel)%nat) l.

Lemma push_strings_spec n i vec sp m l lo hi :
  vec_at m (vec + 8 * i) l -> clear_of lo hi (vec + 8 * i) l -> mem_ok m ->
  0 <= lo <= sp - total l -> sp <= hi -> hi < 2 ^ 64 ->
  (length l < n)%nat -> Forall (fun ps => (length (snd ps) < fuel)%nat) l ->
  exists m', push_strings n i vec sp m = Ok (i + Z.of_nat (length l), sp - total l, m') /\ mem_ok m' /\
    same_off m m' (sp - total l) sp /\ copies m' sp l.
Proof.
  revert i sp m l. induction n as [|n IH]; intros i sp m l Hv Hc Hok Hlo Hhi H64 Hn Hf; [lia|].
  destruct l as [|[p s] l]; cbn [vec_at clear_of length total push_strings copies] in *.
  - rewrite Hv. exists m. rewrite Z.add_0_r, Z.sub_0_r. by split_and!.
  - destruct Hv as (Hp & Hp0 & Hs & Hv), Hc as (_ & Hap & Hc). apply Forall_cons_1 in Hf as [Hfs Hf]. cbn [snd] in Hfs.
    rewrite Hp. destruct (Z.eqb_spec p NULL); [done|]. rewrite (strlen_spec fuel m p s) by done. cbn [mbind outcome_bind].
    pose proof (total_nonneg l) as Hpos. unfold apart in Hap. rewrite wrap64_small by lia.
    set (len := Z.of_nat (length s) + 1) in *. set (m1 := memcpy m (sp - len) p len).
    destruct (memcpy_spec m (sp - len) p len) as [Hin Hout]; [lia|done|lia|]. fold m1 in Hin, Hout.
    assert (same_off m m1 (sp - len) sp) as Hoff by (intros y Hy; apply Hout; lia).
    destruct (IH (i + 1) (sp - len) m1 l) as (m' & He & Hok' & Hs' & Hc'); try done; try lia.
    + replace (vec + 8 * (i + 1)) with (vec + 8 * i + 8) by lia.
      by apply (vec_at_keep m _ lo hi (sp - len) sp); [..|lia|lia|].
    + by replace (vec + 8 * (i + 1)) with (vec + 8 * i + 8) by lia.
    + unfold m1, memcpy. auto with willow.
    + exists m'. rewrite He. split_and!; [do 3 f_equal; lia|done| | |done].
      * intros y Hy. rewrite Hs', Hoff by lia. done.
      * apply (cstr_ext m1); [intros y Hy; apply Hs'; lia|].
        apply (cstr_move m _ p); [|done]. intros j Hj. apply Hin. lia.
Qed.

Lemma store_pointers_spec i vec sp top off m l lo hi :
  vec_at m (vec + 8 * i) l -> clear_of lo hi (vec + 8 * i) l -> mem_ok m ->
  lo <= sp + 8 * i -> sp + 8 * (i + Z.of_nat (length l)) <= hi -> 0 < top - off - total l -> 0 <= off -> top < 2 ^ 64 ->
  Forall (fun ps => (length (snd ps) < fuel)%nat) l ->
  exists m', store_pointers (length l) i vec sp top off m = Ok (off + total l, m') /\ mem_ok m' /\
    same_off m m' (sp + 8 * i) (sp + 8 * (i + Z.of_nat (length l))) /\ pointers m' (sp + 8 * i) (top - off) l.
Proof.
  revert i off m. induction l as [|[p s] l IH]; intros i off m Hv Hc Hok Hlo Hhi Ht Hoff H64 Hf;
    cbn [vec_at clear_of length total store_pointers pointers] in *.
  - exists m. rewrite Z.add_0_r. by split_and!.
  - destruct Hv as (Hp & Hp0 & Hs & Hv), Hc as (_ & Hap & Hc). apply Forall_cons_1 in Hf as [Hfs Hf]. cbn [snd] in Hfs.
    rewrite Hp, (strlen_spec fuel m p s) by done. cbn [mbind outcome_bind]. pose proof (total_nonneg l) as Hpos.
    set (len := Z.of_nat (length s) + 1) in *. rewrite wrap64_small by lia.
    set (m1 := store64 m (sp + 8 * i) (top - (off + len))).
    assert (same_off m m1 (sp + 8 * i) (sp + 8 * i + 8)) as Hm1 by (intros y Hy; apply store64_out; lia).
    replace (vec + 8 * i + 8) with (vec + 8 * (i + 1)) in Hv, Hc by lia.
    destruct (IH (i + 1) (off + len) m1) as (m' & He & Hok' & Hs' & Hp'); try done; try lia.
    + by apply (vec_at_keep m _ lo hi (sp + 8 * i) (sp + 8 * i + 8)); [..|lia|lia|].
    + by apply store64_ok.
    + exists m'. rewrite He. split_and!; [do 2 f_equal; lia|done| | |].
      * intros y Hy. rewrite Hs', Hm1 by lia. done.
      * rewrite (load64_ext m1) by (intros y Hy; apply Hs'; lia). unfold m1. rewrite load64_store64_eq by (unfold is_u64; lia). lia.
      * replace (sp + 8 * i + 8) with (sp + 8 * (i + 1)) by lia.
        by replace (top - off - len) with (top - (off + len)) by lia.
Qed.

Lemma align16 x : is_u64 x -> Z.land x (2 ^ 64 - 16) = x / 16 * 16.
Proof. intros Hx. exact (land_high x 4 Hx ltac:(lia)). Qed.

Definition elf_data_ok (d : com_elf_data_t) : Prop :=
  is_u64 (elf_entry_point d) /\ is_u64 (phdr d) /\ is_u64 (phent_sz d) /\ is_u64 (phent_num d).

(** The auxiliary vector, as the program finds it. *)
Definition auxv (d : com_elf_data_t) : list Z :=
  [AT_PHNUM; phent_num d; AT_PHENT; phent_sz d; AT_PHDR; phdr d; AT_ENTRY; elf_entry_point d; 0; 0].

Lemma same_off_trans m1 m2 m3 lo hi : same_off m1 m2 lo hi -> same_off m2 m3 lo hi -> same_off m1 m3 lo hi.
Proof. intros H1 H2 x Hx. by rewrite H2, H1. Qed.

Lemma same_off_weaken m m' lo hi lo' hi' : lo' <= lo -> hi <= hi' -> same_off m m' lo hi -> same_off m m' lo' hi'.
Proof. intros H1 H2 H x Hx. apply H. lia. Qed.

(** One array of pointers with its terminator, pushed below [sp]. *)
Lemma push_vector_spec vec sp top off m l lo hi :
  let n := Z.of_nat (length l) in
  vec_at m vec l -> clear_of lo hi vec l -> mem_ok m -> 0 <= lo <= sp - 8 - 8 * n -> sp <= hi < 2 ^ 64 ->
  0 < top - off - total l -> 0 <= off -> top < 2 ^ 64 -> Forall (fun ps => (length (snd ps) < fuel)%nat) l ->
  exists m1 m', PUSH 0 (sp, m) = (sp - 8, m1) /\
    store_pointers (length l) 0 vec (sp - 8 - 8 * n) top off m1 = Ok (off + total l, m') /\ mem_ok m' /\
    same_off m m' (sp - 8 - 8 * n) sp /\ pointers m' (sp - 8 - 8 * n) (top - off) l /\ load64 m' (sp - 8) = NULL.
Proof.
  intros n Hv Hc Hok Hlo Hhi Ht Hoff H64 Hf. rewrite PUSH_eq by lia. eexists _. set (m1 := store64 m (sp - 8) 0).
  assert (same_off m m1 (sp - 8) sp) as Hs1 by (intros y Hy; apply store64_out; lia).
  destruct (store_pointers_spec 0 vec (sp - 8 - 8 * n) top off m1 l lo hi) as (m' & He & Hok' & Hs' & Hp');
    rewrite ?Z.mul_0_r, ?Z.add_0_r, ?Z.add_0_l in *; try done; try lia.
  { by apply (vec_at_keep m _ lo hi (sp - 8) sp); [..|lia|lia|]. }
  { by apply store64_ok. }
  exists m'. split_and!; [done|done|done| |done|].
  - eapply (same_off_trans _ m1); (eapply same_off_weaken; [| |eassumption]; lia).
  - rewrite (load64_ext m1) by (intros y Hy; apply Hs'; lia). by apply load64_store64_eq.
Qed.

Lemma push_vectors_spec d top lo argv envp sp m args envs :
  mem_ok m -> elf_data_ok d -> vec_at m argv args -> vec_at m envp envs ->
  clear_of lo top argv args -> clear_of lo top envp envs -> short args -> short envs ->
  copies m top envs -> copies m (top - total envs) args ->
  0 <= lo -> sp <= top - total envs - total args -> top < 2 ^ 64 ->
  let n := Z.of_nat (length args) + Z.of_nat (length envs) in
  lo + 8 * n + 3304 <= sp ->
  let r := sp - 8 * (13 + n) in
  exists m' args' envs',
    push_vectors d top (Z.of_nat (length args)) (Z.of_nat (length envs)) argv envp sp m = Ok (r, m') /\
    same_off m m' (r - 3200) sp /\
    load64 m' r = Z.of_nat (length args) /\
    vec_at m' (r + 8) args' /\ map snd args' = map snd args /\
    vec_at m' (r + 8 * (Z.of_nat (length args) + 2)) envs' /\ map snd envs' = map snd envs /\
    words_at m' (r + 8 * (n + 3)) (auxv d).
Proof.
  intros Hok (Hd1 & Hd2 & Hd3 & Hd4) Ha He Hca Hce [_ Hsa] [_ Hse] Hcpe Hcpa Hlo Hsp Htop n Hroom r.
  pose proof (total_nonneg envs) as Hte. pose proof (total_nonneg args) as Hta. unfold push_vectors.
  destruct (push_all_spec [0; 0; elf_entry_point d; AT_ENTRY; phdr d; AT_PHDR; phent_sz d; AT_PHENT; phent_num d; AT_PHNUM] sp m)
    as (m1 & Hp1 & Hok1 & Hs1 & Hw1); [done|forall_u64|simpl; lia|].
  unfold push_all in Hp1. cbn [fold_left] in Hp1. rewrite Hp1. clear Hp1. cbn [length rev app] in *.
  change (8 * Z.of_nat 10) with 80 in *. rewrite !Nat2Z.id. set (ra := r + 8).
  assert (same_off m m1 (r - 3200) sp) as HS1 by (eapply same_off_weaken; [| |exact Hs1]; lia).
  destruct (push_vector_spec envp (sp - 80) top 0 m1 envs lo sp) as (m1' & m2 & -> & Hst2 & Hok2 & Hs2 & Hp2 & Hz2);
    try done; try lia;
    [by apply (vec_at_keep m _ lo top (r - 3200) sp); [..|lia|lia|]|by apply (clear_of_weaken lo top); [lia|lia|]|].
  rewrite wrap64_small by lia. set (se := sp - 80 - 8 - 8 * Z.of_nat (length envs)) in *. rewrite Hst2. cbn [mbind outcome_bind].
  assert (same_off m m2 (r - 3200) sp) as HS2.
  { eapply same_off_trans; [exact HS1|]. eapply same_off_weaken; [| |exact Hs2]; lia. }
  destruct (push_vector_spec argv se top (0 + total envs) m2 args lo sp) as (m2' & m3 & -> & Hst3 & Hok3 & Hs3 & Hp3 & Hz3);
    try done; try lia;
    [by apply (vec_at_keep m _ lo top (r - 3200) sp); [..|lia|lia|]|by apply (clear_of_weaken lo top); [lia|lia|]|].
  rewrite wrap64_small by lia. replace (se - 8 - 8 * Z.of_nat (length args)) with ra in * by lia. rewrite Hst3. cbn [mbind outcome_bind].
  rewrite PUSH_eq by lia. cbv beta iota. rewrite push_guard_all. replace (ra - 8) with r by lia.
  set (m4 := store64 m3 r (Z.of_nat (length args))). rewrite wrap64_small by lia.
  destruct (push_all_spec (repeat 0xDEADBEEFCAFEBABE 100) (r - 8 * 300) m4) as (m' & -> & _ & Hs5 & _);
    [by apply store64_ok|apply List.Forall_forall; intros ? ->%repeat_spec; by vm_compute|rewrite repeat_length; lia|]. rewrite repeat_length in Hs5.
  assert (same_off m3 m' (r - 3200) ra) as HS5.
  { intros y Hy. rewrite Hs5 by lia. apply store64_out. lia. }
  assert (same_off m2 m' (r - 3200) se) as HS4.
  { eapply (same_off_trans _ m3); (eapply same_off_weaken; [| |eassumption]; lia). }
  assert (same_off m m' (r - 3200) sp) as HS.
  { eapply (same_off_trans _ m2); [done|]. eapply same_off_weaken; [| |exact HS4]; lia. }
  destruct (relocated m' se top envs) as (envs' & Hve & Hme).
  { eapply (copies_ext m); [exact HS| |done]. unfold apart. lia. }
  { eapply (pointers_ext m2); [exact HS4| |by rewrite Z.sub_0_r in Hp2]. unfold apart. lia. }
  { rewrite <- Hz2. replace (se + _) with (sp - 80 - 8) by lia. apply load64_ext. intros y Hy. apply HS4. lia. }
  { lia. }
  destruct (relocated m' ra (top - total envs) args) as (args' & Hva & Hma).
  { eapply (copies_ext m); [exact HS| |done]. unfold apart. lia. }
  { eapply (pointers_ext m3); [exact HS5| |done]. unfold apart. lia. }
  { rewrite <- Hz3. replace (ra + _) with (se - 8) by lia. apply load64_ext. intros y Hy. apply HS5. lia. }
  { lia. }
  exists m', args', envs'. split_and!; try done.
  - rewrite (load64_ext m4) by (intros y Hy; apply Hs5; lia). apply load64_store64_eq. unfold is_u64. lia.
  - by replace (r + _) with se by lia.
  - replace (r + _) with (sp - 80) by lia. eapply (words_at_ext m1); [| |exact Hw1].
    + eapply (same_off_trans _ m2); (eapply (same_off_weaken _ _ _ _ (r - 3200) (sp - 80)); [| |eassumption]; lia).
    + unfold apart. cbn [length]. lia.
Qed.

(** C35: the stack of a new program. For argument and environment strings outside
    the stack area and enough room below [top], [com_sys_elf64_prepare_stack]
    returns a stack pointer that is a multiple of 16 and finds there what the
    ABI asks for: [argc], the null-terminated arrays of the copied arguments and
    environment strings, and the auxiliary vector; only the area from 3200
    bytes below the pointer to [top] is written. *)
Theorem prepare_stack_layout (d : com_elf_data_t) (phys top lo argv envp : Z) (m : mem) (args envs : list (Z * list Z))
    (Hok : mem_ok m) (Hd : elf_data_ok d) (Ha : vec_at m argv args) (He : vec_at m envp envs)
    (Hca : clear_of lo top argv args) (Hce : clear_of lo top envp envs) (Hsa : short args) (Hse : short envs)
    (Hlo : 0 <= lo) (Htop : top < 2 ^ 64)
    (Hroom : lo + total envs + total args + 8 * (Z.of_nat (length args) + Z.of_nat (length envs)) + 3327 <= top) :
  exists r m' args' envs', com_sys_elf64_prepare_stack d phys top argv envp m = Ok (r, m') /\
    r mod 16 = 0 /\ lo <= r - 3200 /\ r < top /\
    load64 m' r = Z.of_nat (length args) /\
    vec_at m' (r + 8) args' /\ map snd args' = map snd args /\
    vec_at m' (r + 8 * (Z.of_nat (length args) + 2)) envs' /\ map snd envs' = map snd envs /\
    words_at m' (r + 8 * (Z.of_nat (length args) + Z.of_nat (length envs) + 3)) (auxv d) /\
    same_off m m' (r - 3200) top.
Proof.
  pose proof (total_nonneg envs) as Hte. pose proof (total_nonneg args) as Hta. unfold com_sys_elf64_prepare_stack.
  destruct (push_strings_spec fuel 0 envp top m envs lo top) as (m1 & -> & Hok1 & Hs1 & Hc1);
    rewrite ?Z.mul_0_r, ?Z.add_0_r; try done; try lia; [apply Hse|apply Hse|]. cbn [mbind outcome_bind].
  destruct (push_strings_spec fuel 0 argv (top - total envs) m1 args lo top) as (m2 & -> & Hok2 & Hs2 & Hc2);
    rewrite ?Z.mul_0_r, ?Z.add_0_r; try done; try lia;
    [by apply (vec_at_keep m _ lo top (top - total envs) top); [..|lia|lia|]|apply Hsa|apply Hsa|]. cbn [mbind outcome_bind].
  assert (same_off m m2 (top - total envs - total args) top) as Hs.
  { eapply (same_off_trans _ m1); (eapply same_off_weaken; [| |eassumption]; lia). }
  rewrite align16 by (unfold is_u64; lia). rewrite !Z.add_0_l, land_1_mod.
  set (n := Z.of_nat (length args) + Z.of_nat (length envs)) in *. set (sp := _ / 16 * 16).
  assert (sp <= top - total envs - total args <= sp + 15) as Hsp by (unfold sp; Z.to_euclidean_division_equations; lia).
  rewrite wrap64_small by lia. set (sp' := if (_ =? 0) then sp else sp - 8).
  assert (sp' <= sp /\ sp - 8 <= sp' /\ (sp' - 8 * (13 + n)) mod 16 = 0) as (Hsp1 & Hsp2 & Hal).
  { unfold sp', sp. destruct (Z.eqb_spec ((n + 1) mod 2) 0); split_and!; Z.to_euclidean_division_equations; lia. }
  destruct (push_vectors_spec d top lo argv envp sp' m2 args envs) as
    (m' & args' & envs' & -> & Hs3 & H1 & H2 & H3 & H4 & H5 & H6); try done; try lia.
  { by apply (vec_at_keep m _ lo top (top - total envs - total args) top); [..|lia|lia|]. }
  { by apply (vec_at_keep m _ lo top (top - total envs - total args) top); [..|lia|lia|]. }
  { eapply (copies_ext m1); [exact Hs2| |done]. unfold apart. lia. }
  cbn [mbind outcome_bind]. fold n in H1, H2, H4, H6, Hs3. fold n.
  exists (sp' - 8 * (13 + n)), m', args', envs'. rewrite wrap64_small by lia.
  split_and!; try done; try lia; [do 2 f_equal; lia|].
  eapply (same_off_trans _ m2); (eapply same_off_weaken; [| |eassumption]; lia).
Qed.

(** C36: the pages [unload_elf] releases against the pages [load_elf] mapped for a
    segment: they are the same when the segment starts on a page boundary;
    otherwise too few pages are released when the segment is shorter than a page
    and crosses a boundary or is a whole number of pages, and one page too many
    when a longer segment ends on a boundary. *)
Theorem unload_pages_match (vaddr memsz : Z)
    (Hv : is_u64 vaddr) (Hm : 0 < memsz) (Hfit : vaddr mod 4096 + memsz < 2 ^ 64) :
  let off := vaddr mod 4096 in
  let loaded := range_pages vaddr memsz in
  let unloaded := 1 + unload_rest vaddr memsz in
  (off = 0 -> unloaded = loaded) /\
  (unloaded < loaded <-> off <> 0 /\ (memsz < 4096 /\ 4096 < off + memsz \/ memsz mod 4096 = 0)) /\
  (loaded < unloaded <-> off <> 0 /\ 4096 < memsz /\ (off + memsz) mod 4096 = 0).
Proof.
  cbv zeta. unfold range_pages, unload_rest, PAGE_SIZE_DEFINED. rewrite land_fff.
  pose proof (Z.mod_pos_bound vaddr 4096 ltac:(lia)). rewrite (Z.add_comm memsz), !(wrap64_small (_ + _)) by lia.
  change 0x1000 with 4096. set (off := vaddr mod 4096) in *. clearbody off.
  destruct (Z.ltb_spec memsz 4096); [|destruct (Z.eqb_spec (memsz mod 4096) 0)].
  all: rewrite ?wrap64_small by (Z.to_euclidean_division_equations; lia).
  all: repeat destr_cmp; split_and!; Z.to_euclidean_division_equations; lia.
Qed.

End Loader.

(** ** Witnesses *)

(** The program [["a"; "bc"]] with the environment [["x"]]. *)
Definition sample_argv : list (Z * list Z) := [(0x200, [97]); (0x210, [98; 99])].
Definition sample_envp : list (Z * list Z) := [(0x220, [120])].
Definition sample_vectors : mem :=
  let m := store64 (store64 (fun _ => 0) 0x100 0x200) 0x108 0x210 in
  let m := store64 m 0x140 0x220 in
  store8 (store8 (store8 (store8 m 0x200 97) 0x210 98) 0x211 99) 0x220 120.

Lemma sample_vectors_ok : mem_ok sample_vectors.
Proof. unfold sample_vectors. repeat (apply store8_ok || apply store64_ok). intros a. lia. Qed.

Lemma prepare_stack_layout_witness :
  exists r m' args' envs',
    com_sys_elf64_prepare_stack 8 (ElfData 1 2 3 4) 0 0x3000 0x100 0x140 sample_vectors = Ok (r, m') /\
    r mod 16 = 0 /\ load64 m' r = 2 /\
    vec_at m' (r + 8) args' /\ map snd args' = [[97]; [98; 99]] /\
    vec_at m' (r + 32) envs' /\ map snd envs' = [[120]] /\
    words_at m' (r + 48) [5; 4; 4; 3; 3; 2; 9; 1; 0; 0].
Proof.
  destruct (prepare_stack_layout 8 (ElfData 1 2 3 4) 0 0x3000 0x1000 0x100 0x140 sample_vectors sample_argv sample_envp)
    as (r & m' & args' & envs' & H1 & H2 & _ & _ & H3 & H4 & H5 & H6 & H7 & H8 & _).
  - exact sample_vectors_ok.
  - by vm_compute.
  - split_and!; by vm_compute.
  - split_and!; by vm_compute.
  - cbn; unfold apart; lia.
  - cbn; unfold apart; lia.
  - split; [cbn; lia|]. repeat apply List.Forall_cons; try apply List.Forall_nil; cbn; lia.
  - split; [cbn; lia|]. repeat apply List.Forall_cons; try apply List.Forall_nil; cbn; lia.
  - lia.
  - lia.
  - cbn; lia.
  - exists r, m', args', envs'. by split_and!.
Defined.

(** A segment of 0x1800 bytes at 0x400800 ends on a page boundary. *)
Lemma unload_pages_match_witness :
  range_pages 0x400800 0x1800 = 2 /\ 1 + unload_rest 0x400800 0x1800 = 3 /\
  (range_pages 0x400800 0x1800 < 1 + unload_rest 0x400800 0x1800).
Proof.
  split_and!; [by vm_compute|by vm_compute|].
  apply (unload_pages_match 0x400800 0x1800); by vm_compute.
Defined.
