(* ===== verification/LoadImage.v ===== *)
(** * Loading a program image

    The correctness of [load_elf] on top of the frame allocator and the page
    tables: every byte of every loadable segment is found through the
    processor's translation at its address, and the rest of the segment is
    zero. *)

From S2P Require Import Prelude Memory Machine Frames Heap Paging Strings Descriptors Loader.

Section LoadImage.
Context (hhdm_offset : Z) (dom : Z -> Prop) (pml4 : Z).
Context (Hh : hhdm_ok hhdm_offset).

Local Abbreviation table_at := (table_at hhdm_offset).
Local Abbreviation next_table := (next_table hhdm_offset).
Local Abbreviation pt_inv := (pt_inv hhdm_offset dom pml4).
Local Abbreviation data_byte := (data_byte hhdm_offset dom pml4).
Local Abbreviation keeps_data := (keeps_data hhdm_offset dom pml4).
Local Abbreviation resolve := (resolve hhdm_offset).

(** ** The processor's translation *)

(** A physical frame. *)
Definition is_frame (f : Z) : Prop := 0 <= f /\ f + 4096 <= PHYS_LIMIT /\ f mod 4096 = 0.

(** Page [v] is mapped to the frame [f] with permissions [perm]. *)
Definition page_frame (m : mem) (v f perm : Z) : Prop :=
  exists t, table_at m pml4 (path_of v) = Some t /\ entry m t (pt_index v) = f + perm.

Lemma frame_mask e : is_u64 e -> e < 2 ^ 52 -> Z.land e FRAME_MASK = e / 4096 * 4096.
Proof.
  intros He Hlt. change FRAME_MASK with (Z.land PAGE_MASK (Z.ones 52)).
  rewrite Z.land_assoc, land_page_mask, Z.land_ones by (done || lia). apply Z.mod_small.
  unfold is_u64 in He. Z.to_euclidean_division_equations. lia.
Qed.

(** Where the kernel's mask finds a frame, the processor's mask does. *)
Lemma mmu_next e f : is_u64 e -> is_frame f -> next_table e = f + hhdm_offset ->
  wrap64 (Z.land e FRAME_MASK + hhdm_offset) = f + hhdm_offset.
Proof.
  intros He (Hf0 & Hf1 & Hf2) Hn. destruct Hh as (H1 & _ & H2). unfold PHYS_LIMIT in *. unfold next_table in Hn.
  rewrite land_page_mask in Hn by done. unfold is_u64 in He.
  assert (0 <= e / 4096 * 4096 < 2 ^ 64) as Hr by (Z.to_euclidean_division_equations; lia).
  set (g := e / 4096 * 4096) in *. assert (g = f) as Hg.
  { unfold wrap64 in Hn. pose proof (Z.div_mod (g + hhdm_offset) (2 ^ 64) ltac:(lia)) as Hd. rewrite Hn in Hd.
    assert (0 <= (g + hhdm_offset) / 2 ^ 64 < 2) by (split; [apply Z.div_pos|apply Z.div_lt_upper_bound]; lia). nia. }
  rewrite frame_mask by (unfold is_u64; subst g; Z.to_euclidean_division_equations; lia). fold g. rewrite Hg.
  apply wrap64_small. lia.
Qed.

Lemma leaf_frame f perm : is_frame f -> 0 <= perm < 4096 -> is_u64 (f + perm) /\ next_table (f + perm) = f + hhdm_offset.
Proof.
  intros (H0 & H1 & H2) Hp. unfold PHYS_LIMIT in *. split; [unfold is_u64; lia|].
  rewrite <- lor_low by lia. by apply next_table_frame.
Qed.

Lemma resolve_page s v f perm :
  pt_inv s -> dom (pml4_index v) -> 0 <= v < 2 ^ 63 -> page_frame (mm s) v f perm -> is_frame f ->
  0 <= perm < 4096 -> perm mod 2 = 1 ->
  resolve (mm s) pml4 v = Ok (f + hhdm_offset + page_offset v).
Proof.
  intros Hinv Hd Hv (t & Ht & He) Hf Hp Hodd. unfold resolve. destruct (Z.leb_spec (2 ^ 63) v); [lia|].
  pose proof (path_of_ok dom v Hd) as Hp3. unfold path_of in *.
  assert (path_ok dom [pml4_index v; pdpt_index v]) as Hp2 by (by apply (path_ok_app _ _ [pd_index v])).
  assert (path_ok dom [pml4_index v]) as Hp1 by (by apply (path_ok_app _ _ [pdpt_index v])).
  pose proof (fun p a Hp Hl => pi_frame _ _ _ _ Hinv p a Hp Hl) as Hfr.
  assert (forall p t0 i, table_at (mm s) pml4 p = Some t0 -> path_ok dom (p ++ [i]) -> (length (p ++ [i]) <= 3)%nat ->
    forall r t1, table_at (mm s) pml4 (p ++ [i] ++ r) = Some t1 ->
    mmu_step hhdm_offset (mm s) t0 i = Some (next_table (entry (mm s) t0 i)) /\
    table_at (mm s) pml4 (p ++ [i]) = Some (next_table (entry (mm s) t0 i))) as Hstep.
  { intros p t0 i Hp0 Hpi Hl r t1 Hr. rewrite app_assoc, table_at_app in Hr.
    destruct (table_at (mm s) pml4 (p ++ [i])) as [t2|] eqn:Ht2; [|done]. clear Hr.
    pose proof Ht2 as Ht2'. rewrite table_at_app, Hp0 in Ht2'. cbn [mbind option_bind Paging.table_at] in Ht2'.
    unfold mmu_step. destruct (Z.land (entry (mm s) t0 i) 1 =? 0); [done|]. injection Ht2' as <-. split; [|done].
    destruct (Hfr _ _ Hpi Hl Ht2) as (g & Hg & ? & ? & ? & _). rewrite Hg. f_equal. apply mmu_next; [|done|done].
    apply load64_range, (pi_mem _ _ _ _ Hinv). }
  destruct (Hstep [] pml4 (pml4_index v) eq_refl Hp1 ltac:(simpl; lia) _ _ Ht) as [-> H1]. cbn [mbind option_bind].
  destruct (Hstep _ _ (pdpt_index v) H1 Hp2 ltac:(simpl; lia) _ _ Ht) as [-> H2]. cbn [mbind option_bind].
  destruct (Hstep _ _ (pd_index v) H2 Hp3 ltac:(simpl; lia) [] t Ht) as [-> H3]. cbn [mbind option_bind].
  cbn [app] in H3. rewrite Ht in H3. injection H3 as <-. unfold mmu_step. rewrite He, land_1_mod.
  destruct (leaf_frame f perm Hf Hp) as [H4 H5]. destruct Hf as (? & ? & Hal).
  replace ((f + perm) mod 2) with 1 by (Z.to_euclidean_division_equations; lia). cbn [Z.eqb Pos.eqb].
  by rewrite (mmu_next (f + perm) f).
Qed.

(** ** Writing data *)

(** [m] differs from the memory of [s] in data bytes only. *)
Definition variant (s : mst) (m : mem) : Prop := mem_ok m /\ forall x, ~ data_byte s x -> m x = mm s x.

Lemma variant_refl s : pt_inv s -> variant s (mm s).
Proof. intros H. split; [apply (pi_mem _ _ _ _ H)|done]. Qed.

Lemma variant_store s m x c : variant s m -> data_byte s x -> variant s (store8 m x c).
Proof.
  intros [Hok Hv] Hx. split; [by apply store8_ok|]. intros y Hy. rewrite store8_ne; [by apply Hv|]. by intros ->.
Qed.

Lemma variant_entry s m q b j :
  variant s m -> path_ok dom q -> (length q <= 3)%nat -> table_at (mm s) pml4 q = Some b -> index_ok j ->
  entry m b j = entry (mm s) b j.
Proof.
  intros [_ Hv] Hq Hl Hb Hj. apply load64_ext. intros x Hx. apply Hv. intros [_ Ht]. unfold index_ok in Hj.
  apply (Ht q b Hq Hl Hb). lia.
Qed.

Lemma variant_tables s m q :
  variant s m -> path_ok dom q -> (length q <= 3)%nat -> table_at m pml4 q = table_at (mm s) pml4 q.
Proof.
  intros Hv Hq Hl. apply table_at_agree. intros q' j b [r ->] Hb. rewrite <- app_assoc in Hq.
  apply (variant_entry s m q'); [done|by eapply path_ok_app|rewrite !length_app in Hl; lia|done|].
  rewrite app_assoc in Hq. by eapply path_ok_snoc, path_ok_app.
Qed.

Lemma variant_inv s m : pt_inv s -> variant s m -> pt_inv (set_mm m s).
Proof.
  intros Hinv Hv. split; cbn [mm set_mm memmap_arr].
  - intros p q a Hp Hq Hlp Hlq. rewrite !(variant_tables s m) by done. by apply (pi_inj _ _ _ _ Hinv).
  - intros p a Hp Hl. rewrite (variant_tables s m) by done. by apply (pi_frame _ _ _ _ Hinv).
  - apply (pi_regions _ _ _ _ Hinv).
  - apply Hv.
Qed.

Lemma variant_data s m x : variant s m -> data_byte (set_mm m s) x <-> data_byte s x.
Proof.
  intros Hv. unfold Paging.data_byte. cbn [mm set_mm memmap_arr].
  split; intros [H1 H2]; (split; [exact H1|]); intros q b Hq Hl.
  - rewrite <- (variant_tables s m) by done. by apply H2.
  - rewrite (variant_tables s m) by done. by apply H2.
Qed.

Lemma variant_page s m v f perm : variant s m -> dom (pml4_index v) -> page_frame (mm s) v f perm -> page_frame m v f perm.
Proof.
  intros Hv Hd (t & Ht & He). pose proof (path_of_ok dom v Hd) as Hp. exists t.
  rewrite (variant_tables s m) by done. split; [done|]. rewrite <- He.
  apply (variant_entry s m (path_of v)); try done. by destruct (index_ok_all v) as (_ & _ & _ & ?).
Qed.

(** ** Copying through the translation *)

(** The addresses of [lo, hi) are mapped to distinct data bytes, [R] says which. *)
Record resolves (s : mst) (R : Z -> Z) (lo hi : Z) : Prop := {
  rs_page : forall v, lo <= v < hi -> dom (pml4_index v) /\ 0 <= v < 2 ^ 63 /\
    exists f, page_frame (mm s) v f 7 /\ is_frame f /\ R v = f + hhdm_offset + page_offset v;
  rs_data : forall v, lo <= v < hi -> data_byte s (R v);
  rs_inj : forall v w, lo <= v < hi -> lo <= w < hi -> R v = R w -> v = w
}.

Lemma resolves_ok s R lo hi m v : pt_inv s -> resolves s R lo hi -> variant s m -> lo <= v < hi -> resolve m pml4 v = Ok (R v).
Proof.
  intros Hinv [Hp _ _] Hv Hr. destruct (Hp v Hr) as (Hd & H0 & f & Hpf & Hf & ->).
  apply (resolve_page (set_mm m s) v f 7); try done; [by apply variant_inv|by apply (variant_page s)].
Qed.

Lemma vmemset_spec s R lo hi m a c n :
  pt_inv s -> resolves s R lo hi -> variant s m -> lo <= a -> 0 <= n -> a + n <= hi ->
  exists m', vmemset hhdm_offset pml4 a c n m = Ok m' /\ variant s m' /\
    (forall v, lo <= v < hi -> m' (R v) = if between a v (a + n) then wrap8 c else m (R v)) /\
    (forall x, (forall v, lo <= v < hi -> x <> R v) -> m' x = m x).
Proof.
  intros Hinv HR Hv Hlo Hn Hhi. unfold vmemset.
  destruct (loop_inv (fun j m' => variant s m' /\
      (forall v, lo <= v < hi -> m' (R v) = if between a v (a + j) then wrap8 c else m (R v)) /\
      (forall x, (forall v, lo <= v < hi -> x <> R v) -> m' x = m x))
    (fun i m => p ← resolve m pml4 (wrap64 (a + i)); Ok (store8 m p c)) n m Hn) as (m' & Hl & Hm'); [| |by exists m'].
  - split_and!; [done| |done]. intros v Hr. by destruct (between_spec a v (a + 0)); [lia|].
  - intros j m1 Hj (Hv1 & H1 & H2). assert (lo <= a + j < hi) as Hr by lia.
    destruct (rs_page _ _ _ _ HR _ Hr) as (_ & H0 & _). rewrite wrap64_small by lia.
    rewrite (resolves_ok s R lo hi m1) by done. cbn [mbind outcome_bind]. eexists. split; [done|]. split_and!.
    + by apply variant_store, (rs_data _ _ _ _ HR).
    + intros v Hrv. destruct (Z.eq_dec v (a + j)) as [->|Hne].
      * rewrite store8_eq. destruct (between_spec a (a + j) (a + (j + 1))); [done|lia].
      * rewrite store8_ne by (intros E; by apply Hne, (rs_inj _ _ _ _ HR)). rewrite H1 by done. repeat destr_cmp; done || lia.
    + intros x Hx. rewrite store8_ne by (by apply Hx). by apply H2.
Qed.

Lemma vmemcpy_spec s R lo hi m dest src n :
  pt_inv s -> resolves s R lo hi -> variant s m -> lo <= dest -> 0 <= n -> dest + n <= hi ->
  2 ^ 63 <= src -> src + n <= 2 ^ 64 -> (forall i v, 0 <= i < n -> lo <= v < hi -> src + i <> R v) ->
  exists m', vmemcpy hhdm_offset pml4 dest src n m = Ok m' /\ variant s m' /\
    (forall v, lo <= v < hi -> m' (R v) = if between dest v (dest + n) then m (src + (v - dest)) else m (R v)) /\
    (forall x, (forall v, lo <= v < hi -> x <> R v) -> m' x = m x).
Proof.
  intros Hinv HR Hv Hlo Hn Hhi Hs1 Hs2 Hap. unfold vmemcpy.
  destruct (loop_inv (fun j m' => variant s m' /\
      (forall v, lo <= v < hi -> m' (R v) = if between dest v (dest + j) then m (src + (v - dest)) else m (R v)) /\
      (forall x, (forall v, lo <= v < hi -> x <> R v) -> m' x = m x))
    (fun i m => p ← resolve m pml4 (wrap64 (src + i)); q ← resolve m pml4 (wrap64 (dest + i)); Ok (store8 m q (m p))) n m Hn)
    as (m' & Hl & Hm'); [| |by exists m'].
  - split_and!; [done| |done]. intros v Hr. by destruct (between_spec dest v (dest + 0)); [lia|].
  - intros j m1 Hj (Hv1 & H1 & H2). assert (lo <= dest + j < hi) as Hr by lia.
    destruct (rs_page _ _ _ _ HR _ Hr) as (_ & H0 & _). rewrite !wrap64_small by lia.
    assert (resolve m1 pml4 (src + j) = Ok (src + j)) as ->.
    { unfold Loader.resolve. by destruct (Z.leb_spec (2 ^ 63) (src + j)); [|lia]. }
    cbn [mbind outcome_bind]. rewrite (resolves_ok s R lo hi m1) by done. cbn [mbind outcome_bind].
    eexists. split; [done|]. split_and!.
    + by apply variant_store, (rs_data _ _ _ _ HR).
    + intros v Hrv. destruct (Z.eq_dec v (dest + j)) as [->|Hne].
      * rewrite store8_eq, wrap8_small by apply Hv1. rewrite H2 by (intros w Hw; by apply Hap).
        destruct (between_spec dest (dest + j) (dest + (j + 1))); [f_equal; lia|lia].
      * rewrite store8_ne by (intros E; by apply Hne, (rs_inj _ _ _ _ HR)). rewrite H1 by done. repeat destr_cmp; done || lia.
    + intros x Hx. rewrite store8_ne by (by apply Hx). by apply H2.
Qed.

(** ** Mapping fresh pages *)

(** The entries of every other page are kept. *)
Definition keeps_pages (s s' : mst) (skip : Z -> Prop) : Prop :=
  forall w f perm, dom (pml4_index w) -> ~ skip (vpage w) -> page_frame (mm s) w f perm -> page_frame (mm s') w f perm.

Lemma data_byte_irq old s x : data_byte (irq_restore old s) x <-> data_byte s x.
Proof. unfold Paging.data_byte. by rewrite irq_restore_mm, irq_restore_memmap. Qed.

(** A frame just allocated holds data. *)
Lemma fresh_frame s n :
  pt_inv s -> enough (S n) (memmap_arr s) ->
  exists f s1, alloc_frame hhdm_offset s = Ok (f, s1) /\ allocated hhdm_offset s f s1 /\ is_frame f /\ pt_inv s1 /\
    enough n (memmap_arr s1) /\ (forall x, f + hhdm_offset <= x < f + hhdm_offset + 4096 -> data_byte s1 x).
Proof.
  intros Hinv Hen.
  destruct (alloc_frame_cases hhdm_offset s Hh (pi_regions _ _ _ _ Hinv)) as (f & s1 & Hf & [[Hal _]|(-> & -> & Hno)]).
  2: { destruct Hen as ([|x l] & _ & Hl & Hfl); [done|]. inv Hfl. by destruct (Hno x). }
  pose proof (frame_free_aligned _ _ (pi_regions _ _ _ _ Hinv) (al_free _ _ _ _ Hal)) as (Hf0 & Hf1 & Hf2).
  exists f, s1. split_and!; [done|done|split_and!; [lia|done|done]|by eapply pt_inv_alloc|by eapply enough_alloc|].
  intros x Hx. split.
  - intros g [Hg Hne]%(al_taken _ _ _ _ Hal) Hxg.
    pose proof (frame_free_aligned _ _ (pi_regions _ _ _ _ Hinv) Hg) as (_ & _ & Hg2).
    apply Hne. Z.to_euclidean_division_equations. lia.
  - intros q b Hq Hl. rewrite (proj2 (table_at_alloc _ dom pml4 s f s1 q Hinv Hh Hal Hq ltac:(lia)) Hl). intros Hb Hxb.
    destruct (pi_frame _ _ _ _ Hinv q b Hq Hl Hb) as (g & -> & _ & _ & Hg2 & Hng).
    apply Hng. replace g with f by (Z.to_euclidean_division_equations; lia). apply (al_free _ _ _ _ Hal).
Qed.

(** No data of [s] is in the frame [f]. *)
Definition avoids (s : mst) (f : Z) : Prop := forall x, data_byte s x -> ~ (f + hhdm_offset <= x < f + hhdm_offset + 4096).

(** [map_page] before the scheduler runs. *)
Lemma map_page_spec s v f perm n :
  pt_inv s -> enough (3 + n) (memmap_arr s) -> dom (pml4_index v) -> is_frame f -> 0 <= perm < 4096 -> perm mod 2 = 1 ->
  exists s', map_page hhdm_offset pml4 f v perm (Pst s None) = Ok (UINT64_MAX, Pst s' None) /\
    pt_inv s' /\ enough n (memmap_arr s') /\ keeps_data s s' /\ keeps_pages s s' (eq (vpage v)) /\ page_frame (mm s') v f perm.
Proof.
  intros Hinv Hen Hd Hf Hperm Hodd. unfold map_page. cbn [irq_disable_save ms cur].
  destruct (map_tables_spec hhdm_offset dom pml4 (set_iflag false s) v f perm n) as
    (s2 & t & -> & Hinv2 & _ & _ & _ & Hen2 & Hdat & Ht & He & Hkeep); try apply Hf; try done; [by destruct Hinv|].
  cbn [mbind outcome_bind]. exists (irq_restore (iflag s) s2). split; [done|].
  rewrite irq_restore_mm, irq_restore_memmap. split_and!; try done.
  - by apply pt_inv_irq.
  - intros x Hx. rewrite data_byte_irq, irq_restore_mm. by apply Hdat.
  - intros w g p Hdw Hne (b & Hb & Hg). rewrite irq_restore_mm. pose proof (path_of_ok dom w Hdw) as Hpw.
    destruct (index_ok_all w) as (_ & _ & _ & Hi). destruct (Hkeep (path_of w) b Hpw ltac:(simpl; lia) Hb) as [Hb2 He2].
    exists b. split; [done|]. by rewrite (He2 eq_refl (pt_index w) Hi) by (intros E; by apply Hne, eq_sym, same_page).
  - by exists t.
Qed.

(** An allocation keeps the pages. *)
Lemma alloc_keeps_pages s f s1 skip : pt_inv s -> allocated hhdm_offset s f s1 -> keeps_pages s s1 skip.
Proof.
  intros Hinv Hal w g p Hdw _ (b & Hb & Hg). pose proof (path_of_ok dom w Hdw) as Hpw.
  destruct (index_ok_all w) as (_ & _ & _ & Hi).
  destruct (table_at_alloc _ dom pml4 s f s1 (path_of w) Hinv Hh Hal Hpw ltac:(simpl; lia)) as [Hent Htab].
  exists b. rewrite Htab by (simpl; lia). split; [done|]. by rewrite (Hent b) by (done || simpl; lia).
Qed.

Lemma map_fresh_spec s v perm flag n :
  pt_inv s -> enough (4 + n) (memmap_arr s) -> dom (pml4_index v) -> 0 <= perm < 4096 -> perm mod 2 = 1 ->
  exists f s', map_fresh hhdm_offset pml4 v perm flag (Pst s None) = Ok (Pst s' None) /\
    pt_inv s' /\ enough n (memmap_arr s') /\ keeps_data s s' /\ keeps_pages s s' (eq (vpage v)) /\
    page_frame (mm s') v f perm /\ is_frame f /\ avoids s f /\
    (forall x, f + hhdm_offset <= x < f + hhdm_offset + 4096 -> data_byte s' x).
Proof.
  intros Hinv Hen Hd Hperm Hodd. unfold map_fresh. cbn [ms cur].
  destruct (fresh_frame s (3 + n) Hinv Hen) as (f & s1 & -> & Hal & Hf & Hinv1 & Hen1 & Hd1). cbn [mbind outcome_bind].
  destruct (map_page_spec s1 v f perm n) as (s2 & -> & Hinv2 & Hen2 & Hk2 & Hp2 & Hpf); try done. cbn [mbind outcome_bind].
  exists f, s2. split; [done|]. split_and!; try done.
  - by eapply keeps_data_trans, Hk2; eapply keeps_data_alloc.
  - intros w g p Hdw Hne Hg. apply Hp2; [done|done|]. by apply (alloc_keeps_pages s f s1 (eq (vpage v))).
  - intros x Hx. apply (proj1 Hx), (al_free _ _ _ _ Hal).
  - intros x Hx. by apply Hk2, Hd1.
Qed.

Lemma vpage_at v i : 0 <= v -> 0 <= i -> v / 4096 + i < 2 ^ 36 -> vpage (v + i * 4096) = v / 4096 + i.
Proof. intros H0 Hi Hlt. unfold vpage. rewrite Z.div_add by lia. apply Z.mod_small. Z.to_euclidean_division_equations. lia. Qed.

(** The pages [v + i * 4096] below [N], mapped to distinct new frames. *)
Record mapped_pages (s0 s : mst) (v N perm : Z) (F : Z -> Z) : Prop := {
  mp_page : forall i, 0 <= i < N -> page_frame (mm s) (v + i * 4096) (F i) perm /\ is_frame (F i) /\ avoids s0 (F i);
  mp_data : forall i x, 0 <= i < N -> F i + hhdm_offset <= x < F i + hhdm_offset + 4096 -> data_byte s x;
  mp_inj : forall i j, 0 <= i < N -> 0 <= j < N -> F i = F j -> i = j
}.

Lemma avoids_keeps s0 s f : keeps_data s0 s -> avoids s f -> avoids s0 f.
Proof. intros Hk Ha x Hx. by apply Ha, Hk. Qed.

(** One more page. *)
Lemma mapped_pages_snoc s0 s s' v N perm F f :
  0 <= v -> 0 <= N -> v / 4096 + N < 2 ^ 36 -> (forall i, 0 <= i < N -> dom (pml4_index (v + i * 4096))) ->
  mapped_pages s0 s v N perm F -> keeps_data s0 s -> keeps_data s s' -> keeps_pages s s' (eq (vpage (v + N * 4096))) ->
  page_frame (mm s') (v + N * 4096) f perm -> is_frame f -> avoids s f ->
  (forall x, f + hhdm_offset <= x < f + hhdm_offset + 4096 -> data_byte s' x) ->
  mapped_pages s0 s' v (N + 1) perm (upd F N f).
Proof.
  intros Hv HN Hlt Hdom [Hp Hd Hi] Hk0 Hk Hkp Hpf Hf Hav Hdat.
  assert (forall i, 0 <= i < N -> F i <> f) as Hne.
  { intros i Hr E. apply (Hav (f + hhdm_offset)); [|lia]. apply (Hd i); [done|rewrite E; lia]. }
  split.
  - intros i Hr. unfold upd. destruct (Z.eqb_spec i N) as [->|]; [split_and!; [done|done|by apply (avoids_keeps _ s)]|].
    destruct (Hp i ltac:(lia)) as (H1 & H2 & H3). split_and!; [|done|done]. apply Hkp; [apply Hdom; lia| |done].
    rewrite !vpage_at by lia. lia.
  - intros i x Hr. unfold upd. destruct (Z.eqb_spec i N) as [->|]; [apply Hdat|]. intros Hx. apply Hk. apply (Hd i); [lia|done].
  - intros i j Hri Hrj. unfold upd. destruct (Z.eqb_spec i N) as [->|], (Z.eqb_spec j N) as [->|]; try done.
    + intros E. by destruct (Hne j ltac:(lia)).
    + intros E. by destruct (Hne i ltac:(lia)).
    + apply Hi; lia.
Qed.

Lemma map_pages_spec s v N perm flag n :
  pt_inv s -> 0 <= v -> 0 <= N -> v / 4096 + N <= 2 ^ 36 -> enough (Z.to_nat (4 * N) + n) (memmap_arr s) ->
  (forall i, 0 <= i < N -> dom (pml4_index (v + i * 4096))) -> 0 <= perm < 4096 -> perm mod 2 = 1 ->
  exists F s', loop N (fun i p => map_fresh hhdm_offset pml4 (wrap64 (v + i * PAGE_SIZE_DEFINED)) perm flag p) (Pst s None)
      = Ok (Pst s' None) /\
    pt_inv s' /\ enough n (memmap_arr s') /\ keeps_data s s' /\
    keeps_pages s s' (fun p => v / 4096 <= p < v / 4096 + N) /\ mapped_pages s s' v N perm F.
Proof.
  intros Hinv Hv HN Hlt Hen Hdom Hperm Hodd.
  destruct (loop_inv (fun j p => exists F s', p = Pst s' None /\ pt_inv s' /\
      enough (Z.to_nat (4 * (N - j)) + n) (memmap_arr s') /\ keeps_data s s' /\
      keeps_pages s s' (fun p => v / 4096 <= p < v / 4096 + j) /\ mapped_pages s s' v j perm F)
    (fun i p => map_fresh hhdm_offset pml4 (wrap64 (v + i * PAGE_SIZE_DEFINED)) perm flag p) N (Pst s None) HN)
    as (p' & Hl & F & s' & -> & H1 & H2 & H3 & H4 & H5).
  - exists (fun _ => 0), s. rewrite Z.sub_0_r. split_and!; try done; [by intros x Hx|split; intros; lia].
  - intros j p Hj (F & s1 & -> & Hinv1 & Hen1 & Hk1 & Hkp1 & Hm1). unfold PAGE_SIZE_DEFINED.
    rewrite wrap64_small by (Z.to_euclidean_division_equations; lia).
    destruct (map_fresh_spec s1 (v + j * 0x1000) perm flag (Z.to_nat (4 * (N - (j + 1))) + n)) as
      (f & s2 & -> & Hinv2 & Hen2 & Hk2 & Hkp2 & Hpf & Hf & Hav & Hdat); try done; [|by apply Hdom|].
    { replace (4 + _)%nat with (Z.to_nat (4 * (N - j)) + n)%nat by lia. done. }
    eexists. split; [done|]. exists (upd F j f), s2. split_and!; try done.
    + by eapply keeps_data_trans.
    + intros w g q Hdw Hw Hpw. apply Hkp2; [done| |].
      * rewrite vpage_at by lia. intros E. apply Hw. lia.
      * apply Hkp1; [done| |done]. intros E. apply Hw. lia.
    + apply (mapped_pages_snoc s s1); try done; try lia. intros i Hi. apply Hdom. lia.
  - exists F, s'. rewrite Z.sub_diag in H2. by split_and!.
Qed.

(** ** From pages to bytes *)

Lemma page_indices v w : v / 4096 = w / 4096 ->
  path_of v = path_of w /\ pt_index v = pt_index w /\ pml4_index v = pml4_index w.
Proof.
  intros E. unfold path_of, pml4_index, pdpt_index, pd_index, pt_index. rewrite !index_div by lia.
  change (2 ^ 12) with 4096. change (2 ^ 21) with (4096 * 2 ^ 9). change (2 ^ 30) with (4096 * 2 ^ 18).
  change (2 ^ 39) with (4096 * 2 ^ 27). rewrite <- !Z.div_div by lia. by rewrite E.
Qed.

Definition page_base (v : Z) : Z := v / 4096 * 4096.

Lemma frame_sum f g x y : f mod 4096 = 0 -> g mod 4096 = 0 -> 0 <= x < 4096 -> 0 <= y < 4096 -> f + x = g + y -> f = g.
Proof. intros. Z.to_euclidean_division_equations. lia. Qed.

(** The byte of address [a] in the pages from [v] on. *)
Definition byte_of (v : Z) (F : Z -> Z) (a : Z) : Z := F ((a - page_base v) / 4096) + hhdm_offset + page_offset a.

Lemma page_offset_mod a : page_offset a = a mod 4096.
Proof. apply land_fff. Qed.

Lemma mapped_pages_resolve s0 s v N F :
  0 <= v -> page_base v + N * 4096 <= 2 ^ 63 -> (forall i, 0 <= i < N -> dom (pml4_index (v + i * 4096))) ->
  mapped_pages s0 s v N 7 F -> resolves s (byte_of v F) (page_base v) (page_base v + N * 4096).
Proof.
  intros Hv HN Hdom [Hp Hd Hi]. unfold byte_of. set (B := page_base v) in *.
  assert (B = v / 4096 * 4096) as HB by done. assert (0 <= B) by (rewrite HB; pose proof (Z.div_pos v 4096); lia).
  assert (forall a, B <= a < B + N * 4096 -> 0 <= (a - B) / 4096 < N /\ a / 4096 = (v + (a - B) / 4096 * 4096) / 4096 /\
    a = B + (a - B) / 4096 * 4096 + page_offset a) as Hidx.
  { intros a Ha. rewrite page_offset_mod, Z.div_add by lia. Z.to_euclidean_division_equations. lia. }
  split.
  - intros a Ha. destruct (Hidx a Ha) as (Hr & Hpg & _). destruct (page_indices _ _ Hpg) as (H1 & H2 & H3).
    destruct (Hp _ Hr) as ((t & Ht & He) & Hf & _). split_and!; [rewrite H3; by apply Hdom|lia|lia|].
    exists (F ((a - B) / 4096)). split_and!; [|done|done]. exists t. by rewrite H1, H2.
  - intros a Ha. destruct (Hidx a Ha) as (Hr & _). pose proof (page_offset_range a). apply (Hd _ _ Hr). lia.
  - intros a b Ha Hb E. destruct (Hidx a Ha) as (Hra & _ & Hea), (Hidx b Hb) as (Hrb & _ & Heb).
    destruct (Hp _ Hra) as (_ & (_ & _ & Hfa) & _), (Hp _ Hrb) as (_ & (_ & _ & Hfb) & _).
    pose proof (page_offset_range a). pose proof (page_offset_range b).
    assert (F ((a - B) / 4096) = F ((b - B) / 4096)) as EF by (eapply frame_sum; [done|done| | |]; [exact (page_offset_range a)|exact (page_offset_range b)|lia]).
    assert (page_offset a = page_offset b) by lia. apply Hi in EF; [|done|done]. rewrite EF in Hea. lia.
Qed.

(** The pages of a segment cover it. *)
Lemma range_pages_cover v n : 0 <= v -> 0 < n -> v + n <= 2 ^ 47 ->
  1 <= range_pages v n /\ v + n <= page_base v + range_pages v n * 4096 /\ v / 4096 + range_pages v n <= 2 ^ 35 /\
  page_base v + range_pages v n * 4096 < v + n + 4096.
Proof.
  intros Hv Hn Hlt. unfold range_pages, PAGE_SIZE_DEFINED, page_base. rewrite land_fff.
  pose proof (Z.mod_pos_bound v 4096 ltac:(lia)). rewrite wrap64_small by lia. change 0x1000 with 4096.
  repeat destr_cmp; Z.to_euclidean_division_equations; lia.
Qed.

(** ** Segments *)

Local Abbreviation read_phdr := (read_phdr hhdm_offset).
Local Abbreviation read_ehdr := (read_ehdr hhdm_offset).

Lemma read_phdr_ext m m' ph : upper ph 48 -> (forall x, ph <= x < ph + 48 -> m' x = m x) -> read_phdr m' pml4 ph = read_phdr m pml4 ph.
Proof.
  intros [H1 H2] E. unfold Loader.read_phdr. rewrite !vread_upper by (split; simpl; lia). cbn [mbind outcome_bind].
  by rewrite !(load_le_ext _ m m') by (intros x Hx; apply E; lia).
Qed.

Lemma read_ehdr_ext m m' a : upper a 64 -> (forall x, a <= x < a + 64 -> m' x = m x) -> read_ehdr m' pml4 a = read_ehdr m pml4 a.
Proof.
  intros [H1 H2] E. unfold Loader.read_ehdr. rewrite !vread_upper by (split; simpl; lia). cbn [mbind outcome_bind].
  by rewrite !(load_le_ext _ m m') by (intros x Hx; apply E; lia).
Qed.

(** A loadable segment: its place in the file and in the address space. *)
Record load_ok (s : mst) (data : Z) (h : Elf64_Phdr) : Prop := {
  lo_memsz : 0 < p_memsz h;
  lo_filesz : 0 <= p_filesz h <= p_memsz h;
  lo_vaddr : 0 <= p_vaddr h /\ p_vaddr h + p_memsz h <= 2 ^ 47;
  lo_file : upper (data + p_offset h) (p_filesz h);
  lo_bytes : forall x, data + p_offset h <= x < data + p_offset h + p_filesz h -> data_byte s x;
  lo_dom : forall i, 0 <= i < range_pages (p_vaddr h) (p_memsz h) -> dom (pml4_index (p_vaddr h + i * 4096))
}.

(** A program header in the kernel's memory. *)
Record segment_ok (s : mst) (data ph : Z) (h : Elf64_Phdr) : Prop := {
  sg_upper : upper ph 48;
  sg_read : read_phdr (mm s) pml4 ph = Ok h;
  sg_bytes : forall x, ph <= x < ph + 48 -> data_byte s x;
  sg_load : p_type h = PT_LOAD -> load_ok s data h
}.

Lemma segment_ok_keeps s s' data ph h : keeps_data s s' -> segment_ok s data ph h -> segment_ok s' data ph h.
Proof.
  intros Hk [H1 H2 H3 H4]. split; [done| |intros x Hx; by apply Hk, H3|].
  - rewrite <- H2. apply read_phdr_ext; [done|]. intros x Hx. by apply Hk, H3.
  - intros Hl. destruct (H4 Hl). split; try done. intros x Hx. by apply Hk, lo_bytes0.
Qed.

(** The byte [c] is at address [v] of the address space. *)
Definition holds (s : mst) (v c : Z) : Prop :=
  dom (pml4_index v) /\ 0 <= v < 2 ^ 63 /\
  exists f, page_frame (mm s) v f 7 /\ is_frame f /\ data_byte s (f + hhdm_offset + page_offset v) /\
    mm s (f + hhdm_offset + page_offset v) = c.

Lemma holds_keeps s s' v c skip : keeps_data s s' -> keeps_pages s s' skip -> ~ skip (vpage v) -> holds s v c -> holds s' v c.
Proof.
  intros Hk Hp Hs (Hd & Hv & f & H1 & H2 & H3 & <-). split_and!; try done; [lia..|]. exists f.
  destruct (Hk _ H3) as [H4 H5]. split_and!; [by apply Hp|done|done|done].
Qed.

Lemma holds_read s v c : pt_inv s -> holds s v c -> exists x, resolve (mm s) pml4 v = Ok x /\ mm s x = c.
Proof.
  intros Hinv (Hd & Hv & f & H1 & H2 & _ & H4). exists (f + hhdm_offset + page_offset v). split; [|done].
  by apply (resolve_page s v f 7).
Qed.

(** The contents of a segment. *)
Definition segment_byte (m : mem) (data : Z) (h : Elf64_Phdr) (i : Z) : Z :=
  if i <? p_filesz h then m (data + p_offset h + i) else 0.

Definition segment_pages (h : Elf64_Phdr) : Z := range_pages (p_vaddr h) (p_memsz h).

Definition in_segment (h : Elf64_Phdr) (p : Z) : Prop := p_vaddr h / 4096 <= p < p_vaddr h / 4096 + segment_pages h.

Lemma fill_segment_spec s R top data ph h :
  pt_inv s -> resolves s R (page_base (p_vaddr h)) top ->
  0 < p_memsz h -> 0 <= p_filesz h <= p_memsz h -> 0 <= p_vaddr h -> p_vaddr h + p_memsz h <= top ->
  p_vaddr h + p_memsz h <= 2 ^ 47 -> upper (data + p_offset h) (p_filesz h) -> upper ph 48 -> read_phdr (mm s) pml4 ph = Ok h ->
  (forall x v, ph <= x < ph + 48 \/ data + p_offset h <= x < data + p_offset h + p_filesz h ->
     page_base (p_vaddr h) <= v < top -> x <> R v) ->
  exists m, fill_segment hhdm_offset pml4 data ph (Pst s None) = Ok (Pst (set_mm m s) None) /\ variant s m /\
    (forall i, 0 <= i < p_memsz h -> m (R (p_vaddr h + i)) = segment_byte (mm s) data h i) /\
    (forall x, (forall v, page_base (p_vaddr h) <= v < top -> x <> R v) -> m x = mm s x).
Proof.
  intros Hinv HR Hm Hfz Hv Htop H47 [Hf1 Hf2] Hup Hrd Hap. set (B := page_base (p_vaddr h)) in *.
  assert (B = p_vaddr h / 4096 * 4096) as HB by done.
  assert (0 <= B <= p_vaddr h /\ p_vaddr h < B + 4096) as HBr by (Z.to_euclidean_division_equations; lia).
  assert (forall m, (forall x, (forall v, B <= v < top -> x <> R v) -> m x = mm s x) -> read_phdr m pml4 ph = Ok h) as Hrd'.
  { intros m Hm'. rewrite <- Hrd. apply read_phdr_ext; [done|]. intros x Hx. apply Hm'. intros v Hv'. apply Hap; [by left|done]. }
  unfold fill_segment, on_pmem, pmem. cbn [ms cur]. rewrite Hrd. cbn [mbind outcome_bind].
  rewrite land_page_mask by (unfold is_u64; lia). rewrite land_fff, <- HB.
  assert (p_vaddr h mod 4096 = p_vaddr h - B) as -> by (rewrite HB; Z.to_euclidean_division_equations; lia).
  rewrite wrap64_small by lia.
  destruct (vmemset_spec s R B top (mm s) B 0 (p_memsz h + (p_vaddr h - B)) Hinv HR (variant_refl s Hinv))
    as (m1 & -> & Hv1 & Hin1 & Hout1); [lia|lia|lia|]. cbn [mbind outcome_bind ms mm set_mm cur].
  rewrite Hrd' by done. cbn [mbind outcome_bind]. rewrite wrap64_small by lia.
  destruct (vmemcpy_spec s R B top m1 (p_vaddr h) (data + p_offset h) (p_filesz h) Hinv HR Hv1)
    as (m2 & -> & Hv2 & Hin2 & Hout2); [lia|lia|lia|lia|lia| |].
  { intros i v Hi Hv'. apply Hap; [right; lia|done]. }
  cbn [mbind outcome_bind ms mm set_mm cur].
  assert (forall x, (forall v, B <= v < top -> x <> R v) -> m2 x = mm s x) as Hout by (intros x Hx; by rewrite Hout2, Hout1).
  assert (forall i, 0 <= i < p_memsz h -> m2 (R (p_vaddr h + i)) = segment_byte (mm s) data h i) as Hin.
  { intros i Hi. rewrite Hin2 by lia. unfold segment_byte.
    destruct (between_spec (p_vaddr h) (p_vaddr h + i) (p_vaddr h + p_filesz h)), (Z.ltb_spec i (p_filesz h)); try lia.
    - rewrite Hout1 by (intros v Hv'; apply Hap; [right; lia|done]). f_equal. lia.
    - rewrite Hin1 by lia. destruct (between_spec B (p_vaddr h + i) (B + (p_memsz h + (p_vaddr h - B)))); [done|lia]. }
  rewrite Hrd' by done. cbn [mbind outcome_bind].
  destruct (Z.ltb_spec (p_filesz h) (p_memsz h)); [|by exists m2]. rewrite wrap64_small by lia.
  destruct (vmemset_spec s R B top m2 (p_vaddr h + p_filesz h) 0 (p_memsz h - p_filesz h) Hinv HR Hv2)
    as (m3 & -> & Hv3 & Hin3 & Hout3); [lia|lia|lia|]. exists m3. split_and!; [done|done| |intros x Hx; by rewrite Hout3, Hout].
  intros i Hi. rewrite Hin3, Hin by lia. unfold segment_byte.
  destruct (between_spec (p_vaddr h + p_filesz h) (p_vaddr h + i) (p_vaddr h + p_filesz h + (p_memsz h - p_filesz h))); [|done].
  by destruct (Z.ltb_spec i (p_filesz h)); [lia|].
Qed.

Lemma load_segment_spec s data ph h n :
  pt_inv s -> segment_ok s data ph h -> p_type h = PT_LOAD -> enough (Z.to_nat (4 * segment_pages h) + n) (memmap_arr s) ->
  exists s', load_segment hhdm_offset pml4 data pml4 ph (Pst s None) = Ok (Pst s' None) /\
    pt_inv s' /\ enough n (memmap_arr s') /\ keeps_data s s' /\ keeps_pages s s' (in_segment h) /\
    forall i, 0 <= i < p_memsz h -> holds s' (p_vaddr h + i) (segment_byte (mm s) data h i).
Proof.
  intros Hinv Hseg Hty Hen. destruct Hseg as [Hup Hrd Hph Hld]. destruct (Hld Hty) as [Hm Hfz [Hv0 Hv1] Hf Hfb Hdom].
  destruct (range_pages_cover (p_vaddr h) (p_memsz h)) as (HN & Hcov & Hpg & Hcov2); [lia|lia|lia|].
  unfold segment_pages in Hen. set (N := range_pages _ _) in *.
  destruct (map_pages_spec s (p_vaddr h) N 7 7 n) as (F & s1 & Hl & Hinv1 & Hen1 & Hk1 & Hkp1 & Hmp); try done; try lia.
  assert (0 <= page_base (p_vaddr h) <= p_vaddr h) as HB0 by (unfold page_base; Z.to_euclidean_division_equations; lia).
  pose proof (mapped_pages_resolve s s1 (p_vaddr h) N F ltac:(lia) ltac:(lia) Hdom Hmp) as HR.
  set (R := byte_of (p_vaddr h) F) in *. set (B := page_base (p_vaddr h)) in *. set (top := B + N * 4096) in *.
  assert (forall x v, data_byte s x -> B <= v < top -> x <> R v) as Hap.
  { intros x v Hx Hv ->. unfold R, byte_of in Hx. fold B in Hx.
    assert (0 <= (v - B) / 4096 < N) as Hr by (unfold top in Hv; Z.to_euclidean_division_equations; lia).
    destruct (mp_page _ _ _ _ _ _ Hmp _ Hr) as (_ & _ & Hav). apply (Hav _ Hx). pose proof (page_offset_range v). lia. }
  assert (read_phdr (mm s1) pml4 ph = Ok h) as Hrd1.
  { rewrite <- Hrd. apply read_phdr_ext; [done|]. intros x Hx. by apply Hk1, Hph. }
  destruct (fill_segment_spec s1 R top data ph h) as (m & Hfill & Hvar & Hin & Hout); try done; try lia.
  { intros x v [Hx|Hx] Hv; apply Hap; [by apply Hph|done|by apply Hfb|done]. }
  exists (set_mm m s1). split_and!.
  - unfold load_segment, pmem. cbn [ms]. rewrite Hrd. cbn [mbind outcome_bind]. rewrite Hty. cbn [Z.eqb Pos.eqb PT_LOAD].
    unfold map_range. destruct (Z.eqb_spec (p_memsz h) 0); [lia|]. fold N. by rewrite Hl.
  - by apply variant_inv.
  - done.
  - intros x Hx. rewrite variant_data by done. destruct (Hk1 x Hx) as [Hx1 <-]. split; [done|].
    apply Hout. intros v Hv. by apply Hap.
  - intros w f p Hd Hs Hpf. apply (variant_page s1); [done|done|]. by apply Hkp1.
  - intros i Hi. destruct (rs_page _ _ _ _ HR (p_vaddr h + i)) as (Hd & Hr & f & Hpf & Hfr & HRv); [lia|].
    split_and!; [done|lia|lia|]. exists f. rewrite <- HRv, variant_data by done. cbn [mm set_mm].
    split_and!; [by apply (variant_page s1)|done|apply (rs_data _ _ _ _ HR); lia|]. rewrite Hin by done.
    unfold segment_byte. destruct (Z.ltb_spec i (p_filesz h)); [|done]. apply Hk1, Hfb. lia.
Qed.

(** ** The whole image *)

Definition loads (h : Elf64_Phdr) : Prop := p_type h = PT_LOAD.
Global Instance loads_dec h : Decision (loads h) := decide (p_type h = PT_LOAD).

(** The pages of the loadable segments among [hs]. *)
Definition in_image (hs : list Elf64_Phdr) (p : Z) : Prop := exists h, h ∈ hs /\ loads h /\ in_segment h p.

(** The frames that loading [hs] takes at most: three tables and a frame for every page. *)
Definition image_frames (hs : list Elf64_Phdr) : Z :=
  foldr (fun h n => (if decide (loads h) then 4 * segment_pages h else 0) + n) 0 hs.

(** No two loadable segments have a page in common. *)
Definition apart_segments (h h' : Elf64_Phdr) : Prop :=
  loads h -> loads h' -> forall p, in_segment h p -> ~ in_segment h' p.

(** [hs] are the program headers of the image at [data], from number [i] on. *)
Record headers_ok (s : mst) (data : Z) (eh : Elf64_Ehdr) (i : Z) (hs : list Elf64_Phdr) : Prop := {
  hd_upper : upper data 64;
  hd_read : read_ehdr (mm s) pml4 data = Ok eh;
  hd_bytes : forall x, data <= x < data + 64 -> data_byte s x;
  hd_count : i + Z.of_nat (length hs) = e_phnum eh;
  hd_segments : forall j h, hs !! j = Some h -> segment_ok s data (phdr_address eh (i + Z.of_nat j) data) h;
  hd_apart : ForallOrdPairs apart_segments hs
}.

Lemma segment_pages_nonneg s data h : load_ok s data h -> 1 <= segment_pages h.
Proof. intros [H1 H2 H3 _ _ _]. apply range_pages_cover; lia. Qed.

Lemma image_frames_nonneg s data eh i hs : headers_ok s data eh i hs -> 0 <= image_frames hs.
Proof.
  intros [_ _ _ _ H _]. cut (Forall (fun h => loads h -> 1 <= segment_pages h) hs).
  - clear H. induction 1 as [|h hs Hh' _ IH]; cbn [image_frames foldr]; [lia|]. fold (image_frames hs) in *. case_decide; [|lia].
    specialize (Hh' ltac:(done)). lia.
  - apply Forall_lookup. intros j h Hj Hl. destruct (H _ _ Hj) as [_ _ _ Hld]. by eapply segment_pages_nonneg, Hld.
Qed.

Lemma headers_ok_tail s s' data eh i h hs :
  keeps_data s s' -> headers_ok s data eh i (h :: hs) -> headers_ok s' data eh (i + 1) hs.
Proof.
  intros Hk [H1 H2 H3 H4 H5 H6]. split; [done| |intros x Hx; by apply Hk, H3|cbn [length] in H4; lia| |by inv H6].
  - rewrite <- H2. apply read_ehdr_ext; [done|]. intros x Hx. by apply Hk, H3.
  - intros j g Hj. replace (i + 1 + Z.of_nat j) with (i + Z.of_nat (S j)) by lia.
    by apply (segment_ok_keeps s), H5.
Qed.

Lemma segment_byte_keeps s s' data h k :
  keeps_data s s' -> load_ok s data h -> 0 <= k -> segment_byte (mm s') data h k = segment_byte (mm s) data h k.
Proof.
  intros Hk Hl Hk0. unfold segment_byte. destruct (Z.ltb_spec k (p_filesz h)); [|done]. apply Hk, Hl. lia.
Qed.

Lemma in_segment_vpage s data h k : load_ok s data h -> 0 <= k < p_memsz h -> in_segment h (vpage (p_vaddr h + k)).
Proof.
  intros [H1 H2 H3 _ _ _] Hk. destruct (range_pages_cover (p_vaddr h) (p_memsz h)) as (Ha & Hb & Hc & Hd); [lia..|].
  unfold in_segment, vpage, segment_pages, page_base in *. rewrite Z.mod_small; Z.to_euclidean_division_equations; lia.
Qed.

(** The state after the headers [hs]: every loadable segment is in place. *)
Definition image_at (s s' : mst) (data : Z) (hs : list Elf64_Phdr) : Prop :=
  forall h k, h ∈ hs -> loads h -> 0 <= k < p_memsz h -> holds s' (p_vaddr h + k) (segment_byte (mm s) data h k).

Lemma image_at_cons s s1 s' data h hs :
  keeps_data s s1 -> keeps_data s1 s' -> keeps_pages s1 s' (in_image hs) -> Forall (apart_segments h) hs ->
  (forall g, g ∈ h :: hs -> loads g -> load_ok s data g) ->
  image_at s s1 data [h] -> image_at s1 s' data hs -> image_at s s' data (h :: hs).
Proof.
  intros Hk Hk' Hp Hap Hok H1 H2 g k Hg Hl Hr. apply elem_of_cons in Hg as [->|Hg].
  - apply (holds_keeps s1 s' _ _ (in_image hs)); [done|done| |apply H1; [by left|done|done]].
    intros (g & Hg & Hlg & Hin). rewrite List.Forall_forall in Hap. rewrite list_elem_of_In in Hg. apply (Hap g Hg Hl Hlg _) in Hin; [done|].
    eapply in_segment_vpage; [apply Hok; [by left|done]|done].
  - rewrite <- (segment_byte_keeps s s1) by (done || lia || (apply Hok; [by right|done])). by apply H2.
Qed.

(** One iteration of the loop. *)
Lemma load_header_spec s data eh i h hs n :
  pt_inv s -> headers_ok s data eh i (h :: hs) -> enough (Z.to_nat (image_frames (h :: hs)) + n) (memmap_arr s) ->
  exists s', load_segment hhdm_offset pml4 data pml4 (phdr_address eh i data) (Pst s None) = Ok (Pst s' None) /\
    pt_inv s' /\ enough (Z.to_nat (image_frames hs) + n) (memmap_arr s') /\ keeps_data s s' /\
    keeps_pages s s' (in_image [h]) /\ image_at s s' data [h].
Proof.
  intros Hinv Hok Hen. pose proof (hd_segments _ _ _ _ _ Hok 0%nat h eq_refl) as Hseg. rewrite Z.add_0_r in Hseg.
  assert (keeps_data s s) as Hid by done.
  pose proof (image_frames_nonneg _ _ _ _ _ (headers_ok_tail _ _ _ _ _ _ _ Hid Hok)) as Hnn.
  cbn [image_frames foldr] in Hen. fold (image_frames hs) in Hen. case_decide as Hl.
  - pose proof (segment_pages_nonneg _ _ _ (sg_load _ _ _ _ Hseg Hl)).
    destruct (load_segment_spec s data (phdr_address eh i data) h (Z.to_nat (image_frames hs) + n))
      as (s' & H1 & H2 & H3 & H4 & H5 & H6); try done.
    { by replace (_ + (_ + _))%nat with (Z.to_nat (4 * segment_pages h + image_frames hs) + n)%nat by lia. }
    exists s'. split_and!; try done.
    + intros w f p Hd Hs. apply H5; [done|]. intros Hi. apply Hs. exists h. split_and!; [by left|done|done].
    + intros g k ->%list_elem_of_singleton _. apply H6.
  - exists s. split_and!; try done.
    + unfold load_segment, pmem. cbn [ms]. rewrite (sg_read _ _ _ _ Hseg). cbn [mbind outcome_bind].
      by destruct (Z.eqb_spec (p_type h) PT_LOAD).
    + by intros w f p _ _.
    + intros g k ->%list_elem_of_singleton Hg. by destruct Hl.
Qed.

Lemma load_headers_spec hs : forall s data eh i fuel n,
  pt_inv s -> headers_ok s data eh i hs -> enough (Z.to_nat (image_frames hs) + n) (memmap_arr s) ->
  (length hs < fuel)%nat ->
  exists s', for_phdrs hhdm_offset fuel pmem (load_segment hhdm_offset pml4 data pml4) pml4 data i (Pst s None) = Ok (Pst s' None) /\
    pt_inv s' /\ enough n (memmap_arr s') /\ keeps_data s s' /\ keeps_pages s s' (in_image hs) /\ image_at s s' data hs.
Proof.
  induction hs as [|h hs IH]; intros s data eh i fuel n Hinv Hok Hen Hf; (destruct fuel as [|fuel]; [lia|]);
    pose proof (hd_read _ _ _ _ _ Hok) as Hrd; pose proof (hd_count _ _ _ _ _ Hok) as Hc; cbn [length] in Hc;
    cbn [for_phdrs]; change (pmem (Pst s None)) with (mm s); rewrite Hrd; cbn [mbind outcome_bind].
  - destruct (Z.ltb_spec i (e_phnum eh)); [lia|]. exists s. split_and!; try done; [by intros w f p _ _|by intros h k ?%elem_of_nil].
  - destruct (Z.ltb_spec i (e_phnum eh)); [|lia].
    destruct (load_header_spec s data eh i h hs n) as (s1 & -> & H1 & H2 & H3 & H4 & H5); try done. cbn [mbind outcome_bind].
    pose proof (headers_ok_tail _ _ _ _ _ _ _ H3 Hok) as Hok1. cbn [length] in Hf.
    destruct (IH s1 data eh (i + 1) fuel n) as (s2 & -> & H6 & H7 & H8 & H9 & H10); try done; [lia|].
    exists s2. split_and!; try done; [by eapply keeps_data_trans| |].
    + intros w f p Hd Hs Hpf. apply H9; [done| |apply H4; [done| |done]].
      * intros (g & Hg & Hr). apply Hs. exists g. split; [by right|done].
      * intros (g & ->%list_elem_of_singleton & Hr). apply Hs. exists h. split; [by left|done].
    + eapply image_at_cons; try done; [pose proof (hd_apart _ _ _ _ _ Hok) as Ha; by inv Ha|].
      intros g [j Hj]%list_elem_of_lookup Hl. by eapply sg_load, Hl; eapply hd_segments, Hj.
Qed.

Lemma phnum_range m data eh : mem_ok m -> upper data 64 -> read_ehdr m pml4 data = Ok eh -> 0 <= e_phnum eh < 2 ^ 16.
Proof.
  intros Hm [H1 H2]. unfold Loader.read_ehdr. rewrite !vread_upper by (split; simpl; lia). cbn [mbind outcome_bind].
  intros [= <-]. cbn [e_phnum]. apply (load_le_range 2 m (data + 56) Hm).
Qed.


(** Whatever lies above the direct map is data. *)
Lemma above_data s x : pt_inv s -> hhdm_offset + PHYS_LIMIT <= x -> data_byte s x.
Proof.
  intros [_ Hf Hr _] Hx. split.
  - intros f (_ & Hlt & _)%(frame_free_aligned _ _ Hr). lia.
  - intros q b Hq Hl (f & -> & _ & Hlt & _)%(Hf _ _ Hq Hl). lia.
Qed.

End LoadImage.

(** ** Witnesses *)

(** An image above the direct map: a note and one segment of three bytes in the file
    and eight in memory. *)
Fixpoint le_bytes (n : nat) (v : Z) : list Z :=
  match n with O => [] | S n => v mod 256 :: le_bytes n (v / 256) end.
Definition sample_header : list Z :=
  le_bytes 8 0x464c457f ++ replicate 16 0 ++ le_bytes 8 0x400080 ++ le_bytes 8 64 ++ replicate 14 0 ++
  le_bytes 2 56 ++ le_bytes 2 2 ++ replicate 6 0.
Definition sample_phdr (type offset vaddr filesz memsz : Z) : list Z :=
  le_bytes 4 type ++ le_bytes 4 5 ++ le_bytes 8 offset ++ le_bytes 8 vaddr ++ le_bytes 8 vaddr ++
  le_bytes 8 filesz ++ le_bytes 8 memsz ++ le_bytes 8 4096.
Definition sample_image : list Z :=
  sample_header ++ sample_phdr 4 0 0 0 0 ++ sample_phdr 1 176 0x400080 3 8 ++ [0x90; 0x90; 0xc3].

Definition image_mem : mem := fun x =>
  if x <? HEAP_START_VIRT_DEFINED then 0 else nth (Z.to_nat (x - HEAP_START_VIRT_DEFINED)) sample_image 0.

Definition image_state : mst := set_mm image_mem empty_tables.
Definition sample_ehdr : Elf64_Ehdr := Ehdr 0x400080 64 56 2.
Definition sample_segments : list Elf64_Phdr := [Phdr 4 0 0 0 0; Phdr 1 176 0x400080 3 8].

Lemma sample_image_bytes : Forall (fun b => 0 <= b < 256) sample_image.
Proof. repeat first [apply List.Forall_nil|apply List.Forall_cons; [vm_compute; by split|]]. Qed.

Lemma image_mem_ok : mem_ok image_mem.
Proof.
  intros x. unfold image_mem. destruct (Z.ltb_spec x HEAP_START_VIRT_DEFINED); [lia|].
  pose proof sample_image_bytes as H'. rewrite List.Forall_forall in H'. destruct (nth_in_or_default (Z.to_nat (x - HEAP_START_VIRT_DEFINED)) sample_image 0)
    as [Hn| ->]; [by apply H'|lia].
Qed.

Lemma image_state_inv : pt_inv sample_hhdm (fun _ => True) sample_pml4 image_state.
Proof.
  apply empty_tables_inv; [|apply image_mem_ok]. intros x Hx. unfold image_mem.
  destruct (Z.ltb_spec x HEAP_START_VIRT_DEFINED); [done|]. unfold sample_hhdm, PHYS_LIMIT, HEAP_START_VIRT_DEFINED in *. lia.
Qed.

Lemma image_data x : HEAP_START_VIRT_DEFINED <= x -> data_byte sample_hhdm (fun _ => True) sample_pml4 image_state x.
Proof. intros Hx. apply above_data; [apply image_state_inv|]. by unfold sample_hhdm, PHYS_LIMIT, HEAP_START_VIRT_DEFINED in *. Qed.

Lemma image_state_enough : enough 4 (memmap_arr image_state).
Proof.
  exists [0x2000; 0x3000; 0x100000; 0x101000]. split_and!; [|done|].
  - repeat constructor; rewrite ?elem_of_cons, ?elem_of_nil; lia.
  - repeat apply List.Forall_cons; [apply sample_frames_free; set_solver..| |done].
    exists (region_of (Entry 0x100000 0x2000 0)), 1. repeat split; try done. right. left.
Qed.

Local Abbreviation image_segment := (segment_ok sample_hhdm (fun _ => True) sample_pml4 image_state HEAP_START_VIRT_DEFINED).

Lemma image_header_bytes k x : 0 <= k -> HEAP_START_VIRT_DEFINED + k <= x -> data_byte sample_hhdm (fun _ => True) sample_pml4 image_state x.
Proof. intros. apply image_data. lia. Qed.

Lemma sample_note_ok : image_segment (phdr_address sample_ehdr 0 HEAP_START_VIRT_DEFINED) (Phdr 4 0 0 0 0).
Proof.
  split.
  - vm_compute. split; [discriminate|reflexivity].
  - vm_compute. reflexivity.
  - assert (phdr_address sample_ehdr 0 HEAP_START_VIRT_DEFINED = HEAP_START_VIRT_DEFINED + 64) as -> by (vm_compute; reflexivity).
    intros x Hx. apply (image_header_bytes 64); lia.
  - discriminate.
Qed.

Lemma sample_load_ok : image_segment (phdr_address sample_ehdr 1 HEAP_START_VIRT_DEFINED) (Phdr 1 176 0x400080 3 8).
Proof.
  split.
  - vm_compute. split; [discriminate|reflexivity].
  - vm_compute. reflexivity.
  - assert (phdr_address sample_ehdr 1 HEAP_START_VIRT_DEFINED = HEAP_START_VIRT_DEFINED + 120) as -> by (vm_compute; reflexivity).
    intros x Hx. apply (image_header_bytes 120); lia.
  - intros _. split; cbn [p_type p_offset p_vaddr p_filesz p_memsz]; [lia|lia|lia|vm_compute; by split| |done].
    intros x Hx. apply (image_header_bytes 176); lia.
Qed.

