(* ===== verification/Threads.v ===== *)
(** * Starting programs and ending threads: scheduler.c

    The two operations of scheduler.c that need the loader: [hot_exec_elf],
    which builds an address space and a thread for an ELF image, and
    [scheduler_return], where every thread ends; and the counter of process
    numbers. *)

From S2P Require Import Prelude Memory Machine Frames Heap Arena Paging OaHash Mutex Scheduler Loader.

(** ** Paging operations of the running thread

    [map_page] and [unmap_page] keep the mappings of [get_current_thread()]
    once scheduling has started. *)

Definition to_pst (s : sst) : outcome pst :=
  if scheduling_started s then
    t ← get_thread s (get_current_thread s); Ok (Pst (sm s) (Some (mappings t)))
  else Ok (Pst (sm s) None).

Definition of_pst (p : pst) (s : sst) : outcome sst :=
  match cur p with
  | Some mp => modify_thread (get_current_thread s) (set_mappings mp) (set_sm (ms p) s)
  | None => Ok (set_sm (ms p) s)
  end.

Definition with_pst {A : Type} (f : pst -> outcome (A * pst)) (s : sst) : outcome (A * sst) :=
  p ← to_pst s;
  '(a, p) ← f p;
  s ← of_pst p s;
  Ok (a, s).

(** An operation on the machine below the scheduler. *)
Definition lift_m (f : mst -> outcome mst) (s : sst) : outcome sst := m ← f (sm s); Ok (set_sm m s).

Section Threads.

Context (hhdm_offset pml4_address_virt_glob : Z).
Context (addr_scheduler_return addr_disable_preemption addr_enable_preemption : Z).
Context (addr_userspace_run_elf addr_root_dir addr_idle_thread : Z).

Local Abbreviation create_thread' := (create_thread addr_scheduler_return addr_disable_preemption addr_enable_preemption addr_root_dir).
Local Abbreviation push_idle := (hot_create_and_push_thread hhdm_offset pml4_address_virt_glob addr_scheduler_return
                   addr_disable_preemption addr_enable_preemption addr_root_dir IDLE_PID addr_idle_thread).

(** ** hot_exec_elf *)

(** The new address space is loaded while the image is copied into it. *)
Definition hot_exec_elf (p file : Z) (s : sst) : outcome sst :=
  let '(irq, m) := irq_disable_save (sm s) in
  let current_cr3 := cpu_cr3 s in
  '(new_cr3, m) ← create_new_userspace_page_table hhdm_offset pml4_address_virt_glob m;
  let s := load_cr3 hhdm_offset new_cr3 (set_sm m s) in
  '(t, s) ← create_thread' p addr_userspace_run_elf s;
  '(entry, s) ← with_pst (load_elf hhdm_offset new_cr3 file new_cr3) s;
  s ← modify_thread t (fun th => set_cr3 new_cr3 (set_elf_file file (set_elf_entry entry th))) s;
  s ← push_thread t s;
  let s := set_cpu_cr3 current_cr3 (set_num_threads (wrap64 (num_threads s + 1)) s) in
  Ok (on_sm (irq_restore irq) s).

(** ** scheduler_return *)

(** [for (i = 0; i < max_mappings; i++) if (array[i].used) unmap_page(cr3, array[i].virt_address);] *)
Fixpoint unmap_slots (n : nat) (i arr cr3 : Z) (p : pst) : pst :=
  match n with
  | O => p
  | S n' =>
      let a := entry_addr arr i in
      let p := if pmem p (a + 16) =? 0 then p else unmap_page hhdm_offset cr3 (load64 (pmem p) a) p in
      unmap_slots n' (i + 1) arr cr3 p
  end.

(** The address space and the descriptors of [temp], with [temp] as the running
    thread; the processor uses the kernel's table. *)
Definition release_space (temp : Z) (s : sst) : outcome sst :=
  let actual_running_thread := running_thread s in
  let s := set_running_thread temp s in
  t ← get_thread s temp;
  s ← (if negb (elf_entry t =? NULL) && negb (elf_file t =? NULL) then
         '(_, s) ← with_pst (fun p => p ← unload_elf hhdm_offset pml4_address_virt_glob (elf_file t) (cr3 t) p; Ok (tt, p)) s;
         Ok s
       else Ok s);
  t ← get_thread s temp;
  '(_, s) ← with_pst (fun p => Ok (tt, unmap_slots (Z.to_nat (max_mappings (mappings t))) 0
                                        (mapped_virt_addresses_array (mappings t)) (cr3 t) p)) s;
  ht ← checked (fd_tables s !! fd_table t) NullDeref;
  s ← lift_m (kfree (fd_table t)) s;
  s ← lift_m (kfree (buckets ht)) s;
  Ok (set_running_thread actual_running_thread s).

(** The thread leaves the ring; its stack, its table and its context are freed. *)
Definition release_thread (temp : Z) (clear_next : bool) (s : sst) : outcome sst :=
  s ← discard_thread temp s;
  let s := set_num_threads (wrap64 (num_threads s - 1)) s in
  t ← get_thread s temp;
  s ← lift_m (kfree_interruptable (wrap64 (stack_base t - THREAD_STACK_SIZE))) s;
  s ← lift_m (free_frame (wrap64 (cr3 t - hhdm_offset))) s;
  s ← (if clear_next then modify_thread temp (set_next_thread NULL) s else Ok s);
  lift_m (kfree_interruptable temp) s.

(** [change_tss], [lapic_oneshot], [mov cr3], [switch_thread(&a, ...)]: the stack
    pointer of the ended thread goes to a local variable. *)
Definition enter_thread (next : Z) (s : sst) : outcome sst :=
  n ← get_thread s next;
  let s := load_cr3 hhdm_offset (cr3 n) (arm_timer (emit (SetRsp0 (stack_base n)) s)) in
  switch_thread None (current_rsp n) s.

(** [kill_and_switch_to_idle] *)
Definition kill_and_switch_to_idle (temp : Z) (s : sst) : outcome sst :=
  s ← release_space temp s;
  s ← release_thread temp false s;
  s ← push_idle s;
  r ← get_thread s (running_thread s);
  n ← get_thread s (next_thread r);
  if negb (pid n =? IDLE_PID) then Err Hang else enter_thread (next_thread r) s.

(** The loop over blocked threads: the first one that is not blocked, or none when
    it comes back to the ended thread. *)
Fixpoint skip_blocked (fuel : nat) (next temp_pid : Z) (s : sst) : outcome (option Z) :=
  match fuel with
  | O => Err OutOfFuel
  | S f =>
      n ← get_thread s next;
      if status n 3 =? 1 then
        let next := next_thread n in
        n ← get_thread s next;
        if temp_pid =? pid n then Ok None
        else _ ← c_assert (negb (next =? NULL)); skip_blocked f next temp_pid s
      else Ok (Some next)
  end.

Definition scheduler_return (fuel : nat) (s : sst) : outcome sst :=
  let s := load_cr3 hhdm_offset pml4_address_virt_glob (on_sm (set_iflag false) s) in
  let temp := running_thread s in
  t ← get_thread s temp;
  let next := next_thread t in
  let s := set_running_thread next s in
  _ ← c_assert (negb (next =? NULL));
  n ← get_thread s next;
  if pid n =? pid t then kill_and_switch_to_idle temp s
  else
    let s := emit Eoi s in
    r ← skip_blocked fuel next (pid t) s;
    match r with
    | None => kill_and_switch_to_idle temp s
    | Some next =>
        n ← get_thread s next;
        if status n 3 =? 0 then
          s ← release_space temp s;
          s ← release_thread temp true s;
          enter_thread next s
        else Ok s
    end.

(** ** get_new_pid *)

(** [new_pid] and its mutex; two attempts are always enough. *)
Definition get_new_pid (st : Z * mutex_t) : outcome (Z * (Z * mutex_t)) :=
  let '(new_pid, mtx) := st in
  mtx ← acquire_mutex 2 mtx;
  let new_pid := wrap64 (new_pid + 1) in
  Ok (new_pid, (new_pid, release_mutex mtx)).

(** ** Frame lemmas *)

(** [m'] is a machine that still has the well-formed heap, the frames and the
    interrupt flag of [m]. *)
Record same_machine (m m' : mst) : Prop := {
  sa_heap : heap_inv (heap_page_head m');
  sa_len : length (heap_page_head m') = length (heap_page_head m);
  sa_map : memmap_arr m' = memmap_arr m;
  sa_if : iflag m' = iflag m
}.

(** The node [kfree] looks at for the address exists. *)
Definition freeable (m : mst) (a : Z) : Prop := (kfree_pos (heap_index a) < length (heap_page_head m))%nat.

Lemma same_machine_trans m1 m2 m3 : same_machine m1 m2 -> same_machine m2 m3 -> same_machine m1 m3.
Proof. intros [] []. split; congruence. Qed.

Lemma kfree_same a m : heap_inv (heap_page_head m) -> freeable m a -> exists m', kfree a m = Ok m' /\ same_machine m m'.
Proof.
  intros Hinv Hf. destruct (lookup_lt_is_Some_2 _ _ Hf) as [n Hn].
  destruct (kfree_cases a m n Hinv Hn) as (m' & Hk & _ & Hmap & Hif & Hr). exists m'. split; [done|].
  split; [by eapply heap_inv_released|by destruct Hr|done|done].
Qed.

(** [unmap_page] writes memory and the mappings only. *)
Lemma unmap_slots_same n i arr table p :
  heap_inv (heap_page_head (ms p)) ->
  same_machine (ms p) (ms (unmap_slots n i arr table p)) /\ (cur (unmap_slots n i arr table p) = None <-> cur p = None).
Proof.
  revert i p. induction n as [|n IH]; intros i p Hinv; cbn [unmap_slots]; [done|].
  destruct (pmem p (entry_addr arr i + 16) =? 0); [by apply IH|].
  set (p1 := unmap_page _ _ _ p).
  assert (same_machine (ms p) (ms p1) /\ (cur p1 = None <-> cur p = None)) as [H1 H2].
  { unfold p1, unmap_page. cbn [irq_disable_save]. destruct (cur p) as [t|].
    - destruct (forget_mapping _ _ _) as [m t']. cbn [ms cur]. split; [|done].
      split; by rewrite ?irq_restore_heap, ?irq_restore_memmap, ?irq_restore_iflag.
    - cbn [ms cur]. split; [|done]. split; by rewrite ?irq_restore_heap, ?irq_restore_memmap, ?irq_restore_iflag. }
  destruct (IH (i + 1) p1 (sa_heap _ _ H1)) as [H3 H4]. split; [by eapply same_machine_trans|by rewrite H4].
Qed.

Lemma set_mappings_id t : set_mappings (mappings t) t = t.
Proof. by destruct t. Qed.

(** The mappings of the running thread, unmapped. *)
Lemma unmap_running s t n arr table :
  threads s !! running_thread s = Some t -> heap_inv (heap_page_head (sm s)) ->
  exists m mp, same_machine (sm s) m /\
    with_pst (fun p => Ok (tt, unmap_slots n 0 arr table p)) s =
      Ok (tt, set_threads (<[running_thread s := set_mappings mp t]> (threads s)) (set_sm m s)).
Proof.
  intros Ht Hinv. unfold with_pst, to_pst, get_current_thread. destruct (scheduling_started s).
  - rewrite (get_thread_ok _ _ _ Ht). cbn [mbind outcome_bind].
    destruct (unmap_slots_same n 0 arr table (Pst (sm s) (Some (mappings t))) Hinv) as [Hs Hc].
    set (p := unmap_slots _ _ _ _ _) in *. unfold of_pst.
    destruct (cur p) as [mp|]; [|by destruct Hc as [Hc _]; specialize (Hc eq_refl)].
    exists (ms p), mp. split; [exact Hs|]. unfold get_current_thread.
    by rewrite (modify_thread_ok _ _ (set_sm (ms p) s) t Ht).
  - cbn [mbind outcome_bind].
    destruct (unmap_slots_same n 0 arr table (Pst (sm s) None) Hinv) as [Hs Hc].
    set (p := unmap_slots _ _ _ _ _) in *. unfold of_pst. rewrite (proj2 Hc eq_refl).
    exists (ms p), (mappings t). split; [exact Hs|]. cbn [mbind outcome_bind].
    rewrite set_mappings_id, insert_id by done. by destruct s.
Qed.

(** A thread without an image: only its mappings and the heap change. *)
Lemma release_space_spec temp s t ht :
  threads s !! temp = Some t -> fd_tables s !! fd_table t = Some ht -> elf_file t = NULL ->
  heap_inv (heap_page_head (sm s)) -> freeable (sm s) (fd_table t) -> freeable (sm s) (buckets ht) ->
  exists m mp, same_machine (sm s) m /\
    release_space temp s = Ok (set_threads (<[temp := set_mappings mp t]> (threads s)) (set_sm m s)).
Proof.
  intros Ht Hht Helf Hinv Hf1 Hf2. unfold release_space. set (s1 := set_running_thread temp s).
  assert (threads s1 !! running_thread s1 = Some t) as Ht1 by done.
  rewrite (get_thread_ok s1 temp t Ht1). cbn [mbind outcome_bind].
  rewrite Helf, andb_false_r. cbn [mbind outcome_bind]. rewrite (get_thread_ok s1 temp t Ht1). cbn [mbind outcome_bind].
  destruct (unmap_running s1 t (Z.to_nat (max_mappings (mappings t))) (mapped_virt_addresses_array (mappings t)) (cr3 t) Ht1 Hinv)
    as (m & mp & Hm & Hw).
  rewrite Hw. cbn [mbind outcome_bind]. cbn [fd_tables set_threads set_sm s1 set_running_thread].
  rewrite Hht. cbn [checked mbind outcome_bind]. unfold lift_m. cbn [sm set_threads set_sm].
  destruct (kfree_same (fd_table t) m (sa_heap _ _ Hm)) as (m1 & -> & Hm1).
  { unfold freeable. by rewrite (sa_len _ _ Hm). }
  cbn [mbind outcome_bind sm set_sm].
  destruct (kfree_same (buckets ht) m1 (sa_heap _ _ Hm1)) as (m2 & -> & Hm2).
  { unfold freeable. by rewrite (sa_len _ _ Hm1), (sa_len _ _ Hm). }
  exists m2, mp. split; [|by destruct s]. do 2 (eapply same_machine_trans; [eassumption|]). done.
Qed.

(** ** Leaving the ring *)

(** What [discard_thread] keeps of a thread: everything but its links. *)
Definition core (t : thread_context) : thread_context := set_next_thread NULL (set_prev_thread NULL t).

Lemma modify_thread_frame a f s s' :
  (forall t, core (f t) = core t) -> modify_thread a f s = Ok s' ->
  s' = set_threads (threads s') s /\ forall b, core <$> threads s' !! b = core <$> threads s !! b.
Proof.
  intros Hf H. unfold modify_thread in H. destruct (get_thread s a) as [t|] eqn:Ht; [|done]. simpl in H.
  injection H as <-. split; [done|]. intros b. cbn [threads set_threads].
  unfold get_thread, checked in Ht. destruct (threads s !! a) as [t'|] eqn:Hl; [|done]. injection Ht as ->.
  destruct (decide (b = a)) as [->|]; [by rewrite lookup_insert_eq, Hl; simpl; rewrite Hf|by rewrite lookup_insert_ne].
Qed.

Lemma discard_thread_frame t s s' :
  discard_thread t s = Ok s' ->
  s' = set_threads (threads s') s /\ forall b, core <$> threads s' !! b = core <$> threads s !! b.
Proof.
  intros H. unfold discard_thread in H. bind_in H. bind_in H. bind_in H.
  destruct (modify_thread_frame _ (set_next_thread _) _ _ (fun t => eq_refl) E0) as [H1 H2].
  destruct (modify_thread_frame _ (set_prev_thread _) _ _ (fun t => eq_refl) H) as [H3 H4]. split.
  - rewrite H3, H1 at 1. done.
  - intros b. by rewrite H4, H2.
Qed.

Lemma core_fields t t' : core t' = core t ->
  stack_base t' = stack_base t /\ cr3 t' = cr3 t /\ current_rsp t' = current_rsp t /\ ssefxsave t' = ssefxsave t /\
  status t' = status t /\ pid t' = pid t.
Proof. destruct t, t'. intros [=]. by subst. Qed.

(** An allocated frame of one of the regions. *)
Definition frame_site (rs : list region) (pre : list region) (r : region) (post : list region) (i a : Z) : Prop :=
  rs = pre ++ r :: post /\ Forall region_ok rs /\ gapped rs /\ 0 <= i < frames_of r /\ frame_bitmap r i <> 0 /\
  a = base r + i * 4096.

Lemma free_frame_at m pre r post i a :
  frame_site (memmap_arr m) pre r post i a ->
  exists m', free_frame a m = Ok m' /\ memmap_arr m' = pre ++ set_bitmap r i 0 :: post /\
    heap_page_head m' = heap_page_head m /\ iflag m' = iflag m.
Proof.
  intros (Hrs & Hok & Hg & Hi & Hb & ->). unfold free_frame. cbn [irq_disable_save].
  assert (region_ok r) as Hr.
  { rewrite Hrs in Hok. apply Forall_app in Hok as [_ Hok]. by apply Forall_cons_1 in Hok as [? _]. }
  rewrite (aligned_land r i Hr). cbn [Z.eqb negb]. change (memmap_arr (set_iflag false m)) with (memmap_arr m).
  rewrite Hrs in *. rewrite free_regions_spec by done. cbn [mbind outcome_bind]. eexists. split; [done|].
  rewrite irq_restore_memmap, irq_restore_heap. split_and!; [done|done|]. by rewrite irq_restore_iflag.
Qed.

(** A thread outside the ring can be changed. *)
Lemma ring_outside s l a t : ring s l -> a ∉ l -> ring (set_threads (<[a := t]> (threads s)) s) l.
Proof.
  intros (H1 & H2 & H3 & H4) Ha. split_and!; [done|done|done|]. cbn [running_thread set_threads threads].
  assert (hd_error l = Some (running_thread s)) as Hhd by done.
  eapply linked_ext; [..|exact H4].
  - intros b Hb. rewrite nx_insert, decide_False; [done|]. by intros ->.
  - intros b Hb. rewrite pv_insert, decide_False; [done|]. intros ->. apply elem_of_app in Hb as [Hb|Hb].
    + apply Ha. destruct l; [done|by right].
    + apply list_elem_of_singleton in Hb as ->. apply Ha. destruct l; [done|]. injection Hhd as ->. left.
Qed.

(** The thread at the end of the ring, seen from the next one, is released. *)
Lemma release_thread_spec s x l temp t pre r post i :
  ring s (x :: l ++ [temp]) -> threads s !! temp = Some t -> heap_inv (heap_page_head (sm s)) ->
  freeable (sm s) (wrap64 (stack_base t - THREAD_STACK_SIZE)) -> freeable (sm s) temp ->
  frame_site (memmap_arr (sm s)) pre r post i (wrap64 (cr3 t - hhdm_offset)) ->
  exists s', release_thread temp true s = Ok s' /\ ring s' (x :: l) /\
    num_threads s' = wrap64 (num_threads s - 1) /\ memmap_arr (sm s') = pre ++ set_bitmap r i 0 :: post /\
    (forall b, b <> temp -> core <$> threads s' !! b = core <$> threads s !! b) /\
    trace s' = trace s /\ running_thread s' = running_thread s /\ cpu_sse s' = cpu_sse s.
Proof.
  intros Hring Ht Hinv Hf1 Hf2 Hsite. unfold release_thread.
  destruct (discard_thread_remove s x l temp [] Hring) as (s1 & Hd & Hring1 & Hn1 & Hsm1). rewrite app_nil_r in Hring1.
  destruct (discard_thread_frame _ _ _ Hd) as [Hs1 Hc1]. rewrite Hd. cbn [mbind outcome_bind].
  assert (exists t1, threads s1 !! temp = Some t1 /\ core t1 = core t) as (t1 & Ht1 & Hct).
  { specialize (Hc1 temp). rewrite Ht in Hc1. destruct (threads s1 !! temp) as [t1|]; [|done].
    exists t1. split; [done|]. by apply (inj Some). }
  destruct (core_fields _ _ Hct) as (Hsb & Hcr & _).
  set (s2 := set_num_threads _ s1). rewrite (get_thread_ok s2 temp t1 Ht1). cbn [mbind outcome_bind]. rewrite Hsb, Hcr.
  unfold lift_m, kfree_interruptable. change (sm s2) with (sm s1). rewrite Hsm1.
  destruct (kfree_same _ _ Hinv Hf1) as (m1 & -> & Hm1). cbn [mbind outcome_bind sm set_sm].
  rewrite <- (sa_map _ _ Hm1) in Hsite. destruct (free_frame_at _ _ _ _ _ _ Hsite) as (m2 & -> & Hmap & Hh2 & Hif2).
  cbn [mbind outcome_bind]. set (s3 := set_sm m2 _). rewrite (modify_thread_ok _ _ s3 t1 Ht1). cbn [mbind outcome_bind sm set_threads].
  change (sm s3) with m2. destruct (kfree_same temp m2) as (m3 & -> & Hm3).
  { rewrite Hh2. apply Hm1. } { unfold freeable. by rewrite Hh2, (sa_len _ _ Hm1). }
  cbn [mbind outcome_bind]. eexists. split; [done|]. split_and!.
  - apply (ring_outside s3); [exact Hring1|]. destruct Hring as (Hnd & _). intros Hin.
    change (x :: l ++ [temp]) with ((x :: l) ++ [temp]) in Hnd. apply list.NoDup_app in Hnd as (_ & Hdis & _).
    apply (Hdis temp Hin). by left.
  - cbn [num_threads set_sm set_threads s3 s2 set_num_threads]. by rewrite Hn1.
  - by rewrite <- Hmap, <- (sa_map _ _ Hm3).
  - intros b Hb. cbn [threads set_sm set_threads]. rewrite lookup_insert_ne by done. apply Hc1.
  - change (trace s1 = trace s). by rewrite Hs1.
  - change (running_thread s1 = running_thread s). by rewrite Hs1.
  - change (cpu_sse s1 = cpu_sse s). by rewrite Hs1.
Qed.

(** The loop over blocked threads stops at the first ready one. *)
Lemma skip_blocked_spec fuel s l n p z :
  linked (threads s) (l ++ [n]) z -> NULL ∉ l ++ [n] ->
  Forall (fun b => exists tb, threads s !! b = Some tb /\ status tb 3 = 1) l ->
  (exists tn, threads s !! n = Some tn /\ status tn 3 = 0) ->
  Forall (fun b => exists tb, threads s !! b = Some tb /\ pid tb <> p) (l ++ [n]) ->
  (length l < fuel)%nat ->
  skip_blocked fuel (hd n l) p s = Ok (Some n).
Proof.
  revert fuel. induction l as [|b l IH]; intros [|fuel] Hl Hnull Hbl (tn & Htn & Hsn) Hp Hf; simpl in Hf; try lia; cbn [hd skip_blocked].
  - rewrite (get_thread_ok _ _ _ Htn). cbn [mbind outcome_bind]. by rewrite Hsn.
  - apply Forall_cons_1 in Hbl as [(tb & Htb & Hsb) Hbl]. rewrite (get_thread_ok _ _ _ Htb). cbn [mbind outcome_bind].
    rewrite Hsb. cbn [Z.eqb Pos.eqb]. cbn [app linked] in Hl. destruct Hl as [[Hnx _] Hl].
    assert (next_thread tb = hd n l) as ->.
    { unfold nx in Hnx. rewrite Htb in Hnx. injection Hnx as ->. by destruct l. }
    cbn [app] in Hp. apply Forall_cons_1 in Hp as [_ Hp].
    assert (hd n l ∈ l ++ [n]) as Hin by (destruct l; left).
    destruct (proj1 (List.Forall_forall _ _) Hp (hd n l)) as (th & Hth & Hpid); [by apply list_elem_of_In|].
    rewrite (get_thread_ok _ _ _ Hth). cbn [mbind outcome_bind].
    destruct (Z.eqb_spec p (pid th)); [congruence|]. cbn [app] in Hnull. apply not_elem_of_cons in Hnull as [_ Hnull].
    unfold c_assert. destruct (Z.eqb_spec (hd n l) NULL) as [E|_]; [rewrite E in Hin; done|]. cbn [negb mbind outcome_bind].
    apply IH; try done; [by exists tn|lia].
Qed.

(** Entering a thread: the running thread's SSE image is saved and loaded. *)
Lemma enter_thread_spec s n tn tr :
  threads s !! n = Some tn -> threads s !! running_thread s = Some tr ->
  exists s', enter_thread n s = Ok s' /\ same_threads s s' /\ running_thread s' = running_thread s /\
    num_threads s' = num_threads s /\ memmap_arr (sm s') = memmap_arr (sm s) /\
    cpu_rsp s' = wrap64 (current_rsp tn + 128) /\ cpu_cr3 s' = wrap64 (cr3 tn - hhdm_offset) /\ iflag (sm s') = true /\
    trace s' = trace s ++ [SetRsp0 (stack_base tn); Oneshot THREAD_QUANTUM 72 3].
Proof.
  intros Hn Hr. unfold enter_thread. rewrite (get_thread_ok _ _ _ Hn). cbn [mbind outcome_bind].
  set (s1 := load_cr3 _ _ _). unfold switch_thread, get_current_thread. set (s2 := set_sm _ s1).
  assert (threads s2 !! running_thread s2 = Some tr) as Hr2 by done.
  rewrite (modify_thread_ok _ _ s2 tr Hr2). cbn [mbind outcome_bind]. set (s3 := set_threads _ s2).
  assert (threads s3 !! running_thread s3 = Some (set_ssefxsave (cpu_sse s2) tr)) as Hr3 by (unfold s3; simpl; by rewrite lookup_insert_eq).
  rewrite (get_thread_ok _ _ _ Hr3). cbn [mbind outcome_bind]. eexists. split; [done|]. split_and!; try done.
  - exact (same_threads_insert s _ tr (set_ssefxsave (cpu_sse s2)) Hr ltac:(by intros ?)).
  - cbn. f_equal. lia.
  - cbn. by rewrite <- app_assoc.
Qed.

(** The two releases of a kernel thread that is last in the ring. *)
Lemma release_exited s x q temp t ht pre r post i :
  ring s (x :: q ++ [temp]) -> threads s !! temp = Some t -> fd_tables s !! fd_table t = Some ht -> elf_file t = NULL ->
  heap_inv (heap_page_head (sm s)) ->
  Forall (freeable (sm s)) [fd_table t; buckets ht; wrap64 (stack_base t - THREAD_STACK_SIZE); temp] ->
  frame_site (memmap_arr (sm s)) pre r post i (wrap64 (cr3 t - hhdm_offset)) ->
  exists s1 s2, release_space temp s = Ok s1 /\ release_thread temp true s1 = Ok s2 /\ ring s2 (x :: q) /\
    num_threads s2 = wrap64 (num_threads s - 1) /\ memmap_arr (sm s2) = pre ++ set_bitmap r i 0 :: post /\
    (forall b, b <> temp -> core <$> threads s2 !! b = core <$> threads s !! b) /\ trace s2 = trace s.
Proof.
  intros Hring Ht Hht Helf Hheap Hfree Hsite. repeat (apply Forall_cons_1 in Hfree as [? Hfree]).
  destruct (release_space_spec temp s t ht) as (m & mp & Hm & Hrs); try done.
  eexists. set (s1 := set_threads _ _) in Hrs. assert (threads s1 !! temp = Some (set_mappings mp t)) as Ht1 by (unfold s1; simpl; by rewrite lookup_insert_eq).
  assert (ring s1 (x :: q ++ [temp])) as Hring1.
  { apply (ring_same_links s); [|done|done]. apply same_threads_links. exact (same_threads_insert s temp t (set_mappings mp) Ht ltac:(by intros ?)). }
  destruct (release_thread_spec s1 x q temp (set_mappings mp t) pre r post i) as
    (s2 & Hrt & Hring2 & Hnum2 & Hmap2 & Hc2 & Htr2 & _); try done.
  { apply Hm. }
  { unfold freeable. change (sm s1) with m. by rewrite (sa_len _ _ Hm). }
  { unfold freeable. change (sm s1) with m. by rewrite (sa_len _ _ Hm). }
  { change (memmap_arr (sm s1)) with (memmap_arr m). by rewrite (sa_map _ _ Hm). }
  exists s2. split_and!; try done. intros b Hb. rewrite (Hc2 b Hb). unfold s1. simpl. by rewrite lookup_insert_ne.
Qed.

(** C40: a thread ends. When the threads [l] after it are blocked and [n] is the
    first ready one, [scheduler_return] of a kernel thread takes it out of the
    ring, frees its page table, counts one thread less and enters [n]: its
    stack pointer, page table, TSS stack and a new quantum, with interrupts
    enabled. [running_thread] is then the head of [l], so it names the thread
    that runs only when [l] is empty. *)
Theorem scheduler_return_exits (fuel : nat) (s : sst) (temp n : Z) (l rest : list Z) (t tn : thread_context) (ht : oa_hash)
    (pre : list region) (r : region) (post : list region) (i : Z)
    (Hring : ring s (temp :: l ++ n :: rest))
    (Ht : threads s !! temp = Some t) (Helf : elf_file t = NULL) (Hht : fd_tables s !! fd_table t = Some ht)
    (Hbl : Forall (fun b => exists tb, threads s !! b = Some tb /\ status tb 3 = 1) l)
    (Hn : threads s !! n = Some tn) (Hrdy : status tn 3 = 0)
    (Hpid : Forall (fun b => exists tb, threads s !! b = Some tb /\ pid tb <> pid t) (l ++ [n]))
    (Hfuel : (length l < fuel)%nat)
    (Hheap : heap_inv (heap_page_head (sm s)))
    (Hfree : Forall (freeable (sm s)) [fd_table t; buckets ht; wrap64 (stack_base t - THREAD_STACK_SIZE); temp])
    (Hsite : frame_site (memmap_arr (sm s)) pre r post i (wrap64 (cr3 t - hhdm_offset))) :
  exists s', scheduler_return fuel s = Ok s' /\ ring s' (l ++ n :: rest) /\ running_thread s' = hd n l /\
    num_threads s' = wrap64 (num_threads s - 1) /\ memmap_arr (sm s') = pre ++ set_bitmap r i 0 :: post /\
    cpu_rsp s' = wrap64 (current_rsp tn + 128) /\ cpu_cr3 s' = wrap64 (cr3 tn - hhdm_offset) /\ iflag (sm s') = true /\
    trace s' = trace s ++ [Eoi; SetRsp0 (stack_base tn); Oneshot THREAD_QUANTUM 72 3].
Proof.
  assert (exists q, l ++ n :: rest = hd n l :: q) as [q Hq] by (destruct l; by eexists).
  set (x := hd n l) in *. assert (x ∈ l ++ [n]) as Hxin by (unfold x; destruct l; left).
  pose proof Hring as (Hnd & Hnull & Hhd & Hl). injection Hhd as Hrun. rewrite Hq in Hring. cbn [linked] in Hl. destruct Hl as [[Hnx _] Hl].
  assert (next_thread t = x) as Hnext by (unfold nx in Hnx; rewrite Ht, Hq in Hnx; by injection Hnx).
  apply not_elem_of_cons in Hnull as [_ Hnull]. apply list.NoDup_cons in Hnd as [Htemp _].
  assert (forall b, b ∈ l ++ [n] -> b ∈ l ++ n :: rest) as Hsub.
  { intros b [Hb|Hb]%elem_of_app; apply elem_of_app; [by left|right].
    apply list_elem_of_singleton in Hb as ->. left. }
  destruct (proj1 (List.Forall_forall _ _) Hpid x) as (tx & Htx & Hpx); [by apply list_elem_of_In|].
  unfold scheduler_return. set (s0 := load_cr3 _ _ _). change (running_thread s0) with (running_thread s). rewrite <- Hrun.
  rewrite (get_thread_ok s0 temp t Ht). cbn [mbind outcome_bind]. rewrite Hnext.
  unfold c_assert. destruct (Z.eqb_spec x NULL) as [E|_]; [by destruct Hnull; rewrite <- E; apply Hsub|]. cbn [negb mbind outcome_bind].
  rewrite (get_thread_ok (set_running_thread x s0) x tx Htx). cbn [mbind outcome_bind].
  destruct (Z.eqb_spec (pid tx) (pid t)); [done|]. set (s1 := emit Eoi _).
  replace (l ++ n :: rest) with ((l ++ [n]) ++ rest) in Hl, Hnull by (by rewrite <- app_assoc). apply linked_app in Hl as [Hl _].
  unfold x at 1. rewrite (skip_blocked_spec fuel s1 l n (pid t) _ Hl);
    [|intros Hin; apply Hnull; by apply elem_of_app; left|done|by exists tn|done|done]. cbn [mbind outcome_bind].
  rewrite (get_thread_ok s1 n tn Hn). cbn [mbind outcome_bind]. rewrite Hrdy. cbn [Z.eqb].
  destruct (release_exited s1 x q temp t ht pre r post i) as (s2 & s3 & -> & Hrt & Hring3 & Hnum3 & Hmap3 & Hc3 & Htr3); try done.
  { by apply (ring_same_links (set_running_thread x s)), ring_rotate. }
  cbn [mbind outcome_bind]. rewrite Hrt. cbn [mbind outcome_bind].
  assert (n <> temp) as Hnt by (intros ->; apply Htemp, Hsub, elem_of_app; right; left).
  assert (exists tn', threads s3 !! n = Some tn' /\ core tn' = core tn) as (tn' & Hn3 & Hcn).
  { specialize (Hc3 n Hnt). change (threads s1) with (threads s) in Hc3. rewrite Hn in Hc3.
    destruct (threads s3 !! n) as [tn'|]; [|done]. exists tn'. split; [done|]. by apply (inj Some). }
  destruct (core_fields _ _ Hcn) as (Hsb & Hcr & Hrsp & _).
  destruct (ring_lookup s3 (x :: q) x Hring3) as [tx3 Hx3]; [left|]. pose proof Hring3 as (_ & _ & Hhd3 & _). injection Hhd3 as Hhd3.
  destruct (enter_thread_spec s3 n tn' tx3 Hn3) as (s' & -> & Hss & Hrun' & Hnum' & Hmap' & Hr' & Hc' & Hif' & Htr'); [by rewrite <- Hhd3|].
  exists s'. rewrite Hrsp in Hr'. rewrite Hcr in Hc'. rewrite Hsb in Htr'. split_and!; try done.
  - rewrite Hq. eapply ring_same_links; [by apply same_threads_links|done|done].
  - by rewrite Hrun', <- Hhd3.
  - by rewrite Hnum', Hnum3.
  - by rewrite Hmap', Hmap3.
  - rewrite Htr', Htr3. unfold s1, emit. cbn. by rewrite <- app_assoc.
Qed.

End Threads.

(** ** Witness *)

(** Three threads in the heap: the first ends, the second is blocked. *)
Definition heap_at (i : Z) : Z := HEAP_START_VIRT_DEFINED + 64 * i.
Definition exit_region : region := set_bitmap (region_of (Entry 0x1000 0x3000 0)) 0 1.
Definition heap_thread (p base frame blocked nxt prv : Z) : thread_context :=
  Thread 0 0 10000000 p 0 (base + THREAD_STACK_SIZE) 0 base (fun i => if i =? 3 then blocked else 0) NULL NULL
    (Mappings (heap_at 400) 0 8) (heap_at 410) (frame + sample_hhdm) 0 nxt prv 0.
Definition exit_state : sst :=
  Sst (Mst (fun _ => 0) true [exit_region] 0 (fresh_heap 512))
    (<[heap_at 300 := heap_thread 1 (heap_at 0) 0x1000 0 (heap_at 320) (heap_at 340)]>
      (<[heap_at 320 := heap_thread 2 (heap_at 0) 0x2000 1 (heap_at 340) (heap_at 300)]>
        (<[heap_at 340 := heap_thread 3 (heap_at 0) 0x3000 0 (heap_at 300) (heap_at 320)]> ∅)))
    {[heap_at 410 := oa_hash_init (heap_at 420) 4]} (heap_at 300) 0 3 true false 1 0 5000 7 [].

Lemma exit_state_ring : ring exit_state [heap_at 300; heap_at 320; heap_at 340].
Proof.
  split_and!; [apply (bool_decide_unpack _); by vm_compute..|done|by vm_compute].
Qed.

Lemma exit_site : frame_site [exit_region] [] exit_region [] 0 0x1000.
Proof.
  split_and!; [done| |by repeat constructor|by vm_compute|by vm_compute|done|done].
  apply List.Forall_cons; [|by apply List.Forall_nil]. apply region_ok_set, region_of_ok, sample_entry_ok. set_solver.
Qed.

(** The processor runs thread 3 while [running_thread] is the blocked thread 2. *)
Lemma scheduler_return_exits_witness :
  exists s', scheduler_return sample_hhdm 0 0 0 0 0 0 4 exit_state = Ok s' /\
    ring s' [heap_at 320; heap_at 340] /\ running_thread s' = heap_at 320 /\
    cpu_cr3 s' = 0x3000 /\ num_threads s' = 2.
Proof.
  destruct (scheduler_return_exits sample_hhdm 0 0 0 0 0 0 4 exit_state (heap_at 300) (heap_at 340) [heap_at 320] []
    (heap_thread 1 (heap_at 0) 0x1000 0 (heap_at 320) (heap_at 340)) (heap_thread 3 (heap_at 0) 0x3000 0 (heap_at 300) (heap_at 320))
    (oa_hash_init (heap_at 420) 4) [] exit_region [] 0) as (s' & H1 & H2 & H3 & H4 & _ & _ & H5 & _).
  - exact exit_state_ring.
  - reflexivity.
  - reflexivity.
  - reflexivity.
  - repeat apply List.Forall_cons; try apply List.Forall_nil. eexists. split; reflexivity.
  - reflexivity.
  - reflexivity.
  - repeat apply List.Forall_cons; try apply List.Forall_nil; eexists; (split; [reflexivity|by vm_compute]).
  - simpl. lia.
  - apply fresh_heap_inv.
  - repeat apply List.Forall_cons; try apply List.Forall_nil; apply Nat.ltb_lt; reflexivity.
  - exact exit_site.
  - exists s'. split_and!; [exact H1|exact H2|exact H3|exact H5|exact H4].
Defined.
