(* ===== verification/Syscalls.v ===== *)
(** * System calls: syscalls.c

    The functions the entry code of syscalls.asm dispatches to, and the user-side
    wrapper [sys_vm_map].  A system call runs with the page tables of the
    thread that made it: pointers it is given are accessed through them.
    Console output is not part of the state. *)

From S2P Require Import Prelude Memory Machine Frames Heap Arena Paging OaHash Mutex Scheduler Strings Vfs Descriptors Loader Threads.

(** ** State *)

(** The scheduler's state, the globals of the futex queues and the model-specific
    registers. *)
Record kst : Type := Kst {
  ks : sst;
  futex_array : Z;
  futex_array_size : Z;
  msr : Z -> Z
}.

Definition set_ks (s : sst) (k : kst) : kst := Kst s (futex_array k) (futex_array_size k) (msr k).
Definition on_ks (f : sst -> outcome sst) (k : kst) : outcome kst := s ← f (ks k); Ok (set_ks s k).
Definition kmem (k : kst) : mem := mm (sm (ks k)).
Definition set_kmem (m : mem) (k : kst) : kst := set_ks (on_sm (set_mm m) (ks k)) k.

Definition wrmsr (r v : Z) (k : kst) : kst := Kst (ks k) (futex_array k) (futex_array_size k) (upd (msr k) r (wrap64 v)).
Definition rdmsr (r : Z) (k : kst) : Z := msr k r.

Definition MSR_LSTAR : Z := 0xC0000082.
Definition MSR_STAR : Z := 0xC0000081.
Definition MSR_SFMASK : Z := 0xC0000084.
Definition MSR_EFER : Z := 0xC0000080.
Definition MSR_FS_BASE : Z := 0xC0000100.
Definition MSR_GS_BASE : Z := 0xC0000101.
Definition MSR_KERNEL_GS_BASE : Z := 0xC0000102.

(** [(int64_t)] of a 32-bit [int], as a 64-bit word. *)
Definition sext32 (x : Z) : Z := wrap64 (sint32 x).

Section Syscalls.

Context (hhdm_offset pml4_address_virt_glob now : Z).
Context (addr_scheduler_return addr_disable_preemption addr_enable_preemption : Z).
Context (addr_root_dir addr_idle_thread addr_ft_ctx_mutex : Z).
Context (addr_syscall_handler addr_test_a addr_test_b addr_syscall_test : Z).
(** [fuel] bounds the number of blocked threads [scheduler_return] passes over, and
    [dec] is the decimal printing of the descriptor layer. *)
Context (fuel : nat) (dec : Z -> list Z).

Local Abbreviation thread_exit := (scheduler_return hhdm_offset pml4_address_virt_glob addr_scheduler_return
  addr_disable_preemption addr_enable_preemption addr_root_dir addr_idle_thread fuel).

(** ** The caller's memory *)

(** The table [cr3] points to. *)
Definition space (k : kst) : Z := wrap64 (cpu_cr3 (ks k) + hhdm_offset).

Fixpoint vwrite (n : nat) (sp a v : Z) (m : mem) : outcome mem :=
  match n with
  | O => Ok m
  | S n' => p ← resolve hhdm_offset m sp a; m ← vwrite n' sp (wrap64 (a + 1)) (v / 256) m; Ok (store8 m p v)
  end.

Definition uread (n : nat) (a : Z) (k : kst) : outcome Z := vread hhdm_offset n (kmem k) (space k) a.
Definition uwrite (n : nat) (a v : Z) (k : kst) : outcome kst := m ← vwrite n (space k) a v (kmem k); Ok (set_kmem m k).
Definition umemset (a c n : Z) (k : kst) : outcome kst := m ← vmemset hhdm_offset (space k) a c n (kmem k); Ok (set_kmem m k).

Definition current (k : kst) : outcome thread_context := get_thread (ks k) (get_current_thread (ks k)).

Definition cli (k : kst) : kst := set_ks (on_sm (set_iflag false) (ks k)) k.
Definition k_irq (k : kst) : bool := iflag (sm (ks k)).
Definition k_restore (irq : bool) (k : kst) : kst := set_ks (on_sm (irq_restore irq) (ks k)) k.

(** ** init_syscalls *)

(** [change_page_map(pml4_address_virt_glob, a, 0b111)] for each address. *)
Definition share_pages (l : list Z) (m : mst) : mst :=
  fold_left (fun m a => change_page_map hhdm_offset pml4_address_virt_glob (wrap64 a) 7 m) l m.

Definition init_syscalls (k : kst) : outcome kst :=
  let k := wrmsr MSR_LSTAR addr_syscall_handler k in
  let k := wrmsr MSR_STAR (Z.lor (wrap64 (Z.shiftl 0x10 48)) (wrap64 (Z.shiftl 0x8 32))) k in
  let k := wrmsr MSR_SFMASK 0x202 k in
  let k := wrmsr MSR_EFER (Z.lor (rdmsr MSR_EFER k) 1) k in
  '(gs_base, m) ← kmalloc_byte 4096 (sm (ks k));
  '(kernel_gs_base, m) ← kmalloc_byte 4096 m;
  let m := share_pages [gs_base; kernel_gs_base] m in
  _ ← nonnull gs_base;
  _ ← nonnull kernel_gs_base;
  let m := set_mm (memset (memset (mm m) gs_base 0 4096) kernel_gs_base 0 4096) m in
  let k := set_ks (set_sm m (ks k)) k in
  let k := wrmsr MSR_KERNEL_GS_BASE kernel_gs_base (wrmsr MSR_GS_BASE gs_base k) in
  let m := share_pages [addr_test_a; addr_test_a + 0x1000; addr_test_a + 0x2000; addr_test_a + 0x3000;
                        addr_syscall_test; addr_syscall_test + 0x1000; addr_syscall_test + 0x2000; addr_test_b]
             (sm (ks k)) in
  Ok (set_ks (set_sm m (ks k)) k).

(** ** Threads *)

(** The numbers that only return 0, and 1, which spins. *)
Definition syscall0 (k : kst) : outcome (Z * kst) := Ok (0, k).
Definition syscall1 (k : kst) : outcome (Z * kst) := Err Hang.

Definition syscall6 (k : kst) : outcome (Z * kst) :=
  k ← on_ks (yield_thread hhdm_offset pml4_address_virt_glob now) k; Ok (0, k).

Definition syscall9 (k : kst) : outcome (Z * kst) := k ← on_ks thread_exit k; Ok (0, k).

Definition syscall16 (thread : Z) (k : kst) : outcome (Z * kst) :=
  k ← uwrite 8 thread (get_current_thread (ks k)) k; Ok (0, k).

Definition syscall18 (pointer : Z) (k : kst) : outcome (Z * kst) := Ok (0, wrmsr MSR_FS_BASE pointer k).

(** ** Mapping *)

(** [struct map_page_bytes_args] *)
Definition MMAP_CR3 : Z := 0.
Definition MMAP_VIRT_ADDRESS : Z := 8.
Definition MMAP_PERMISSIONS : Z := 16.
Definition MMAP_SIZE : Z := 24.
Definition MMAP_FLAG : Z := 32.
Definition MMAP_ERROR : Z := 40.
Definition MMAP_RET : Z := 48.

(** [virt & 0xfff != 0] is [virt & (0xfff != 0)]; that return keeps interrupts
    disabled and leaves [error] as the caller set it. *)
Definition syscall7 (mmap_args : Z) (k : kst) : outcome (Z * kst) :=
  let irq := k_irq k in
  let k := cli k in
  virt ← uread 8 (mmap_args + MMAP_VIRT_ADDRESS) k;
  if negb (Z.land virt 1 =? 0) then Ok (EINVAL, k)
  else
    t ← current k;
    k ← uwrite 8 (mmap_args + MMAP_CR3) (cr3 t) k;
    table ← uread 8 (mmap_args + MMAP_CR3) k;
    perm ← uread 8 (mmap_args + MMAP_PERMISSIONS) k;
    size ← uread 8 (mmap_args + MMAP_SIZE) k;
    flag ← uread 8 (mmap_args + MMAP_FLAG) k;
    '(error, s) ← with_pst (map_range hhdm_offset table virt perm size flag) (ks k);
    k ← uwrite 4 (mmap_args + MMAP_ERROR) error (set_ks s k);
    k ← umemset virt 0 size k;
    w ← uread 8 (wrap64 (virt + 8 * 256)) k;
    _ ← c_assert (w =? 0);
    ret ← uread 4 (mmap_args + MMAP_ERROR) k;
    Ok (sint32 ret, k_restore irq k).

(** The number of pages; the assignment for size 0 is overwritten. *)
Definition unmap_pages (size : Z) : Z :=
  if size <=? 0x1000 then 1
  else if size mod 0x1000 =? 0 then size / 0x1000
  else size / 0x1000 + 1.

Definition syscall8 (pointer size : Z) (k : kst) : outcome (Z * kst) :=
  _ ← c_assert (negb (pointer =? NULL));
  t ← current k;
  _ ← c_assert (negb (cr3 t =? NULL));
  '(_, s) ← with_pst (fun p =>
              p ← loop (unmap_pages size)
                    (fun i p => Ok (unmap_page hhdm_offset (cr3 t) (wrap64 (pointer + i * 0x1000)) p)) p;
              Ok (tt, p)) (ks k);
  Ok (0, set_ks s k).

(** ** Heap *)

(** [size + 4096] bytes are cleared, a page more than was allocated. *)
Definition syscall13 (size pointer : Z) (k : kst) : outcome (Z * kst) :=
  '(a, m) ← kmalloc_byte size (sm (ks k));
  k ← uwrite 8 pointer a (set_ks (set_sm m (ks k)) k);
  a ← uread 8 pointer k;
  _ ← nonnull a;
  let k := set_kmem (memset (kmem k) a 0 (wrap64 (size + 4096))) k in
  t ← current k;
  a ← uread 8 pointer k;
  '(_, m) ← change_page_map_range hhdm_offset (cr3 t) a size 7 (sm (ks k));
  Ok (0, set_ks (set_sm m (ks k)) k).

Definition syscall14 (pointer : Z) (k : kst) : outcome (Z * kst) :=
  k ← on_ks (lift_m (kfree pointer)) k; Ok (0, k).

(** ** Futexes *)

(** The compare-and-swap is on the status word of the thread, not on the futex. *)
Definition syscall11 (pointer expected : Z) (k : kst) : outcome (Z * kst) :=
  let irq := k_irq k in
  let k := cli k in
  let thread := get_current_thread (ks k) in
  t ← current k;
  v ← uread 4 pointer k;
  if negb (status t 3 =? sext32 v) then Ok (11, k_restore irq k)
  else
    k ← on_ks (modify_thread thread (set_status_i 3 (sext32 expected))) k;
    let phys := virt_to_phys hhdm_offset (kmem k) pointer (cr3 t) in
    f ← futex_enqueue phys thread (Futex (sm (ks k)) (futex_array k) (futex_array_size k));
    let k := Kst (set_sm (fm f) (ks k)) (global_futex_array f) (global_futex_array_size f) (msr k) in
    Ok (0, k_restore irq k).

(** The loop over the array runs once, and the inner one wakes [threads[0]] each time;
    the comparison [array[i] == NULL] at the end does nothing. *)
Definition syscall12 (pointer : Z) (k : kst) : outcome (Z * kst) :=
  let irq := k_irq k in
  let k := cli k in
  queue ← deref64 (kmem k) (futex_array k) 0;
  p ← deref64 (kmem k) queue 0;
  if p =? pointer then
    size ← deref64 (kmem k) queue 16;
    k ← on_ks (loop size (fun _ s =>
                 threads ← deref64 (mm (sm s)) queue 8;
                 t ← deref64 (mm (sm s)) threads 0;
                 modify_thread t (set_status_i 3 0) s)) k;
    threads ← deref64 (kmem k) queue 8;
    k ← on_ks (lift_m (kfree_interruptable threads)) k;
    k ← on_ks (lift_m (kfree_interruptable queue)) k;
    Ok (0, k_restore irq k)
  else Ok (0, k_restore irq k).

(** ** Output and descriptors *)

(** [acquire_mutex(&ft_ctx_mutex); flanterm_write(...); release_mutex(&ft_ctx_mutex);] with
    interrupts disabled. *)
Definition syscall17 (k : kst) : outcome (Z * kst) :=
  let irq := k_irq k in
  let k := cli k in
  k ← on_ks (lift_m (acquire_mutex_at addr_ft_ctx_mutex)) k;
  k ← on_ks (lift_m (release_mutex_at addr_ft_ctx_mutex)) k;
  Ok (0, k_restore irq k).

(** As 17; the text is what [npf_vsnprintf] makes of the arguments. *)
Definition syscall15 (k : kst) : outcome (Z * kst) := syscall17 k.

Definition syscall23 (fd : Z) (k : kst) : outcome (Z * kst) := k ← on_ks (vfs_fdclose dec fd) k; Ok (0, k).

(** ** The user side *)

(** The [syscall] instruction and the entry code of syscalls.asm, around a call
    that returns to its caller: the user stack pointer goes to the thread's
    context, the kernel stack gets 23 words and the return address, and
    [sysret] restores the stack pointer and the flags. *)
Definition do_syscall (f : kst -> outcome (Z * kst)) (k : kst) : outcome (Z * kst) :=
  let rsp := cpu_rsp (ks k) in
  let user_if := k_irq k in
  k ← on_ks (modify_thread (get_current_thread (ks k)) (set_user_rsp rsp)) (cli k);
  t ← current k;
  '(ret, k) ← f (set_ks (set_cpu_rsp (wrap64 (stack_base t - 24 * 8)) (ks k)) k);
  Ok (ret, set_ks (on_sm (set_iflag user_if) (set_cpu_rsp rsp (ks k))) k).

Definition PROT_READ : Z := 1.
Definition PROT_WRITE : Z := 2.
Definition PROT_EXEC : Z := 4.
Definition MAP_SHARED : Z := 0x01.
Definition MAP_PRIVATE : Z := 0x02.
Definition MAP_FIXED : Z := 0x10.
Definition MAP_ANON : Z := 0x20.

(** The page permissions for [prot]. *)
Definition vm_map_permissions (prot : Z) : Z :=
  let perm := 0 in
  let perm := if Z.shiftr (Z.land prot (Z.shiftl 1 0)) 0 =? 1 then Z.land perm (Z.shiftl 0 1)
              else Z.lor perm (wrap64 (Z.lnot (Z.shiftl 1 0))) in
  let perm := if Z.shiftr (Z.land prot (Z.shiftl 1 1)) 1 =? 1 then Z.lor perm (Z.shiftl 1 1) else perm in
  let perm := if Z.shiftr (Z.land prot (Z.shiftl 1 2)) 2 =? 0 then Z.lor perm (Z.shiftl 1 63) else perm in
  Z.lor perm 1.

(** [mmap_args.flag], zero when neither type is given. *)
Definition vm_map_flag (flags : Z) : Z :=
  if Z.land flags 0xF =? MAP_SHARED then MAP_SHARED
  else if Z.land flags 0xF =? MAP_PRIVATE then MAP_PRIVATE
  else 0.

(** The initialised argument block, at [mmap_args] on the caller's stack. *)
Definition put_mmap_args (mmap_args hint perm size flag : Z) (k : kst) : outcome kst :=
  k ← uwrite 8 (mmap_args + MMAP_CR3) 0 k;
  k ← uwrite 8 (mmap_args + MMAP_VIRT_ADDRESS) hint k;
  k ← uwrite 8 (mmap_args + MMAP_PERMISSIONS) perm k;
  k ← uwrite 8 (mmap_args + MMAP_SIZE) size k;
  k ← uwrite 8 (mmap_args + MMAP_FLAG) flag k;
  k ← uwrite 4 (mmap_args + MMAP_ERROR) 0 k;
  uwrite 8 (mmap_args + MMAP_RET) NULL k.

(** The branches for [MAP_ANON] and [MAP_FIXED] have the same body; for other
    flags the result is an uninitialised variable. *)
Definition sys_vm_map (mmap_args hint size prot flags window : Z) (k : kst) : outcome (Z * kst) :=
  '(_, k) ← do_syscall syscall15 k;
  let perm := vm_map_permissions prot in
  if (Z.land flags 0xF0 =? MAP_ANON) || (Z.land flags 0xF0 =? MAP_FIXED) then
    k ← put_mmap_args mmap_args hint perm size (vm_map_flag flags) k;
    '(_, k) ← do_syscall (syscall7 mmap_args) k;
    error ← uread 4 (mmap_args + MMAP_ERROR) k;
    if negb (error =? 0) then Ok (sint32 error, k)
    else k ← uwrite 8 window hint k; Ok (0, k)
  else Err BadCall.

(** ** Permissions *)

Lemma bit_test x k : 0 <= k -> Z.shiftr (Z.land x (Z.shiftl 1 k)) k = Z.b2z (Z.testbit x k).
Proof.
  intros Hk. rewrite Z.shiftr_land, Z.shiftr_shiftl_l, Z.sub_diag by lia. rewrite Z.testbit_spec', Z.shiftr_div_pow2 by lia.
  change (Z.shiftl 1 0) with (Z.ones 1). by rewrite Z.land_ones by lia.
Qed.

(** The permissions as a function of three bits. *)
Definition perm_of (r w x : bool) : Z :=
  if r then 1 + 2 * Z_of_bool w + 2 ^ 63 * Z_of_bool (negb x) else UINT64_MAX.

Lemma vm_map_permissions_of prot :
  vm_map_permissions prot = perm_of (Z.testbit prot 0) (Z.testbit prot 1) (Z.testbit prot 2).
Proof.
  unfold vm_map_permissions. rewrite !bit_test by lia.
  by destruct (Z.testbit prot 0), (Z.testbit prot 1), (Z.testbit prot 2).
Qed.

Lemma next_table_nx f low :
  0 <= f < PHYS_LIMIT -> f mod 4096 = 0 -> 0 <= low < 4096 -> hhdm_ok hhdm_offset -> 2 ^ 63 <= hhdm_offset ->
  next_table hhdm_offset (Z.lor f (low + 2 ^ 63)) = f + hhdm_offset - 2 ^ 63.
Proof.
  clear dec. intros Hf Ha Hl (Hh & Hm & Hh') Hhi. unfold PHYS_LIMIT in *. unfold next_table.
  assert (Z.lor low (Z.shiftl 1 63) = low + 2 ^ 63) as <- by (rewrite lor_field by lia; lia).
  rewrite Z.lor_assoc, (lor_low f low) by lia. rewrite lor_field by lia. rewrite land_page_mask by (unfold is_u64; lia).
  unfold wrap64. replace ((f + low + 1 * 2 ^ 63) / 4096 * 4096) with (f + 2 ^ 63) by (Z.to_euclidean_division_equations; lia).
  symmetry. apply (Z.mod_unique _ _ 1); lia.
Qed.

(** the permissions [sys_vm_map] asks for: with [PROT_READ], present, writable
    as asked and no-execute unless [PROT_EXEC] is given, but never the user bit;
    without [PROT_READ], every bit of the entry. With the no-execute bit the
    table a new upper-level entry leads to is not the direct-map address of its
    frame but 2^63 below it. *)
Lemma vm_map_permissions_bits (prot frame : Z)
    (Hf : 0 <= frame < PHYS_LIMIT) (Ha : frame mod 4096 = 0)
    (Hh : hhdm_ok hhdm_offset) (Hhi : 2 ^ 63 <= hhdm_offset) :
  let perm := vm_map_permissions prot in
  (Z.testbit prot 0 = true ->
     perm = 1 + 2 * Z_of_bool (Z.testbit prot 1) + 2 ^ 63 * Z_of_bool (negb (Z.testbit prot 2)) /\
     Z.testbit perm 2 = false) /\
  (Z.testbit prot 0 = false -> perm = UINT64_MAX) /\
  (Z.testbit prot 0 = true -> Z.testbit prot 2 = true -> next_table hhdm_offset (Z.lor frame perm) = frame + hhdm_offset) /\
  (Z.testbit prot 0 = true -> Z.testbit prot 2 = false ->
     next_table hhdm_offset (Z.lor frame perm) = frame + hhdm_offset - 2 ^ 63).
Proof.
  clear dec. cbv zeta. rewrite vm_map_permissions_of. unfold perm_of, PHYS_LIMIT in *. split_and!.
  - intros ->. by destruct (Z.testbit prot 1), (Z.testbit prot 2).
  - by intros ->.
  - intros -> ->. cbn [negb Z_of_bool]. rewrite Z.mul_0_r, Z.add_0_r.
    apply next_table_frame; unfold PHYS_LIMIT; try done; Z.to_euclidean_division_equations; destruct (Z.testbit prot 1); simpl Z_of_bool; lia.
  - intros -> ->. cbn [negb Z_of_bool]. rewrite Z.mul_1_r. apply next_table_nx; try done.
    destruct (Z.testbit prot 1); simpl Z_of_bool; lia.
Qed.

(** ** Kernel addresses *)

Lemma vwrite_upper n m sp a v : upper a (Z.of_nat n) -> vwrite n sp a v m = Ok (store_le n m a v).
Proof.
  revert m a v. induction n as [|n IH]; intros m a v [H1 H2]; cbn [vwrite store_le]; [done|].
  rewrite resolve_upper by done. cbn [mbind outcome_bind]. rewrite wrap64_small, IH; [done|split; lia|lia].
Qed.

Lemma uread_upper n a k : upper a (Z.of_nat n) -> uread n a k = Ok (load_le n (kmem k) a).
Proof. intros H. unfold uread. by apply vread_upper. Qed.

Lemma uwrite_upper n a v k : upper a (Z.of_nat n) -> uwrite n a v k = Ok (set_kmem (store_le n (kmem k) a v) k).
Proof. intros H. unfold uwrite. by rewrite vwrite_upper. Qed.

(** The state a system call of the running thread [t] starts in. *)
Definition entered (k : kst) (t : thread_context) : kst :=
  set_ks (set_cpu_rsp (wrap64 (stack_base t - 24 * 8))
    (set_threads (<[running_thread (ks k) := set_user_rsp (cpu_rsp (ks k)) t]> (threads (ks k))) (ks (cli k)))) k.

(** ... and the one its caller goes on in. *)
Definition resumed (k k1 : kst) : kst := set_ks (on_sm (set_iflag (k_irq k)) (set_cpu_rsp (cpu_rsp (ks k)) (ks k1))) k1.

Lemma do_syscall_ok f k t ret k1 :
  threads (ks k) !! running_thread (ks k) = Some t -> f (entered k t) = Ok (ret, k1) -> do_syscall f k = Ok (ret, resumed k k1).
Proof.
  intros Ht Hf. unfold do_syscall, on_ks. change (get_current_thread (ks k)) with (running_thread (ks k)).
  change (ks (cli k)) with (on_sm (set_iflag false) (ks k)) in *.
  rewrite (modify_thread_ok _ _ (on_sm (set_iflag false) (ks k)) t Ht). cbn [mbind outcome_bind].
  unfold current. set (k0 := set_ks _ (cli k)).
  assert (threads (ks k0) !! get_current_thread (ks k0) = Some (set_user_rsp (cpu_rsp (ks k)) t)) as Ht0.
  { unfold k0. simpl. by rewrite lookup_insert_eq. }
  rewrite (get_thread_ok _ _ _ Ht0). cbn [mbind outcome_bind]. change (stack_base (set_user_rsp _ t)) with (stack_base t).
  change (set_ks _ k0) with (entered k t). by rewrite Hf.
Qed.

(** The log call: the mutex byte is cleared and the flags are restored. *)
Lemma log_ok k t :
  threads (ks k) !! running_thread (ks k) = Some t -> addr_ft_ctx_mutex <> NULL ->
  exists k', do_syscall syscall15 k = Ok (0, k') /\
    kmem k' = store8 (store8 (kmem k) addr_ft_ctx_mutex 1) addr_ft_ctx_mutex 0 /\
    memmap_arr (sm (ks k')) = memmap_arr (sm (ks k)) /\ k_irq k' = k_irq k /\
    threads (ks k') !! running_thread (ks k') = Some (set_user_rsp (cpu_rsp (ks k)) t).
Proof.
  intros Ht Hm. eexists. split.
  - eapply do_syscall_ok; [done|]. unfold syscall15, syscall17, on_ks, lift_m.
    rewrite acquire_mutex_at_ok by done. cbn [mbind outcome_bind ks set_ks sm set_sm].
    rewrite release_mutex_at_ok by done. cbn [mbind outcome_bind]. reflexivity.
  - split_and!; try done. simpl. by rewrite lookup_insert_eq.
Qed.

(** The argument block. *)
Lemma put_mmap_args_ok a hint perm size flag k :
  upper a 56 -> is_u64 hint ->
  exists m, put_mmap_args a hint perm size flag k = Ok (set_kmem m k) /\ same_outside (kmem k) m a 56 /\
    load64 m (a + MMAP_VIRT_ADDRESS) = hint /\ load_le 4 m (a + MMAP_ERROR) = 0.
Proof.
  intros [H1 H2] Hh. unfold put_mmap_args, MMAP_CR3, MMAP_VIRT_ADDRESS, MMAP_PERMISSIONS, MMAP_SIZE, MMAP_FLAG, MMAP_ERROR, MMAP_RET.
  do 6 (rewrite uwrite_upper by (split; simpl; lia); cbn [mbind outcome_bind]).
  rewrite uwrite_upper by (split; simpl; lia). eexists. split; [reflexivity|].
  unfold set_kmem, kmem. cbn [ks set_ks sm on_sm set_sm mm set_mm]. split_and!.
  - intros x Hx. rewrite !store_le_outside by (simpl; lia). done.
  - change (load64 ?m) with (load_le 8 m). rewrite !load_store_le_ne by (simpl; lia).
    rewrite load_store_le_eq. apply Z.mod_small. exact Hh.
  - rewrite load_store_le_ne by (simpl; lia). by rewrite load_store_le_eq.
Qed.

(** An odd address is refused without a trace: [syscall7] returns before it
    records the error, so [sys_vm_map] reports success and hands the address out
    although nothing was mapped; no frame is taken, and only the argument
    block, the window and the console mutex are written. *)
Theorem sys_vm_map_misaligned (mmap_args hint size prot flags window : Z) (k : kst) (t : thread_context)
    (Ht : threads (ks k) !! running_thread (ks k) = Some t) (Hm : addr_ft_ctx_mutex <> NULL)
    (Hargs : upper mmap_args 56) (Hw : upper window 8) (Hh : is_u64 hint) (Hodd : Z.land hint 1 <> 0)
    (Hf : Z.land flags 0xF0 = MAP_ANON \/ Z.land flags 0xF0 = MAP_FIXED) :
  exists k', sys_vm_map mmap_args hint size prot flags window k = Ok (0, k') /\
    load64 (kmem k') window = hint /\ memmap_arr (sm (ks k')) = memmap_arr (sm (ks k)) /\ k_irq k' = k_irq k /\
    forall x, x <> addr_ft_ctx_mutex -> ~ (mmap_args <= x < mmap_args + 56) -> ~ (window <= x < window + 8) ->
      kmem k' x = kmem k x.
Proof.
  unfold sys_vm_map. destruct (log_ok k t Ht Hm) as (k1 & -> & Hm1 & Hmap1 & Hif1 & Ht1). cbn [mbind outcome_bind].
  assert ((Z.land flags 0xF0 =? MAP_ANON) || (Z.land flags 0xF0 =? MAP_FIXED) = true) as ->.
  { destruct Hf as [-> | ->]; done. }
  destruct (put_mmap_args_ok mmap_args hint (vm_map_permissions prot) size (vm_map_flag flags) k1 Hargs Hh)
    as (m & -> & Hout & Hv & He). cbn [mbind outcome_bind].
  set (k2 := set_kmem m k1). assert (threads (ks k2) !! running_thread (ks k2) = Some (set_user_rsp (cpu_rsp (ks k)) t)) as Ht2 by done.
  erewrite (do_syscall_ok _ k2 _ EINVAL); [|exact Ht2|].
  2:{ unfold syscall7. rewrite uread_upper by (destruct Hargs; unfold MMAP_VIRT_ADDRESS; split; simpl; lia). cbn [mbind outcome_bind].
      change (load_le 8 (kmem _)) with (load64 m). rewrite Hv. destruct (Z.eqb_spec (Z.land hint 1) 0); [done|]. reflexivity. }
  cbn [mbind outcome_bind]. set (k3 := resumed _ _).
  rewrite uread_upper by (destruct Hargs; unfold MMAP_ERROR; split; simpl; lia). cbn [mbind outcome_bind].
  change (kmem k3) with m. rewrite He. cbn [Z.eqb negb]. rewrite uwrite_upper by (by destruct Hw).
  cbn [mbind outcome_bind]. eexists. split; [reflexivity|]. change (kmem (set_kmem ?x k3)) with x. split_and!.
  - by apply load64_store64_eq.
  - done.
  - done.
  - intros x Hx1 Hx2 Hx3. rewrite store_le_outside by (simpl; lia). change (kmem k3) with m.
    rewrite Hout by done. rewrite Hm1, !store8_ne by done. done.
Qed.

End Syscalls.

(** ** Witnesses *)

(** Readable and writable memory: the no-execute bit breaks the walk. *)
Lemma vm_map_permissions_bits_witness :
  vm_map_permissions (Z.lor PROT_READ PROT_WRITE) = 2 ^ 63 + 3 /\
  next_table sample_hhdm (Z.lor 0x1000 (vm_map_permissions (Z.lor PROT_READ PROT_WRITE))) = sample_hhdm + 0x1000 - 2 ^ 63.
Proof.
  destruct (vm_map_permissions_bits sample_hhdm (Z.lor PROT_READ PROT_WRITE) 0x1000) as (H1 & _ & _ & H2).
  - by vm_compute.
  - reflexivity.
  - exact sample_hhdm_ok.
  - by vm_compute.
  - destruct (H1 eq_refl) as [-> _]. split; [reflexivity|]. exact (H2 eq_refl eq_refl).
Defined.

Definition sample_kst : kst := Kst exit_state 0 0 (fun _ => 0).

Lemma sys_vm_map_misaligned_witness :
  exists k', sys_vm_map sample_hhdm (heap_at 450) (heap_at 460) 0x400001 4096 (Z.lor PROT_READ PROT_EXEC)
      (Z.lor MAP_ANON MAP_PRIVATE) (heap_at 470) sample_kst = Ok (0, k') /\ load64 (kmem k') (heap_at 470) = 0x400001.
Proof.
  destruct (sys_vm_map_misaligned sample_hhdm (heap_at 450) (heap_at 460) 0x400001 4096 (Z.lor PROT_READ PROT_EXEC)
      (Z.lor MAP_ANON MAP_PRIVATE) (heap_at 470) sample_kst (heap_thread 1 (heap_at 0) 0x1000 0 (heap_at 320) (heap_at 340)))
    as (k' & H1 & H2 & _).
  - reflexivity.
  - discriminate.
  - by vm_compute.
  - by vm_compute.
  - by vm_compute.
  - discriminate.
  - left. reflexivity.
  - exists k'. split; [exact H1|exact H2].
Defined.
