(* ===== verification/HeapInit.v ===== *)
(** * Building the kernel heap: init_heap of vmm.c

    [init_heap] maps the pages of the heap and links one node per 64 bytes of it,
    64 nodes in a frame. [Heap] takes the result, a list of free nodes, as its
    initial state; here the list is built in memory, on top of the frame
    allocator and the page tables, and [init_heap_builds] shows that it is the
    list [Heap] starts from. *)

From S2P Require Import Prelude Memory Machine Frames Heap Paging LoadImage.

Section HeapInit.
Context (hhdm_offset : Z).

(** [new_heap_page->size = HEAP_CHUNK_SIZE_DEFINED; status = 0; alloc_length = 0; next = NULL] *)
Definition write_node (m : mem) (node : Z) : mem :=
  let m := store64 m (node + 8) HEAP_CHUNK_SIZE_DEFINED in
  let m := store8 m node 0 in
  let m := store64 m (node + 16) 0 in
  store64 m (node + 24) NULL.

(** The variables of the loop: [current] and [new_heap_page]. *)
Record building : Type := Building {
  b_pst : pst;
  b_current : Z;
  b_new : Z
}.

Definition on_mem (f : mem -> mem) (p : pst) : pst := Pst (set_mm (f (mm (ms p))) (ms p)) (cur p).

(** The frames and the page for the nodes from [i] on, when a new page of the heap begins; otherwise
    the next node is in the same frame. ([heap_page_phys] is not used again in
    this case.) *)
Definition next_node (pml4 heap_start i : Z) (b : building) : outcome (pst * Z) :=
  if i mod (PAGE_SIZE_DEFINED / HEAP_CHUNK_SIZE_DEFINED) =? 0 then
    '(heap_page_phys, s) ← alloc_frame hhdm_offset (ms (b_pst b));
    '(_, p) ← map_page hhdm_offset pml4 heap_page_phys (wrap64 (heap_start + i * HEAP_CHUNK_SIZE_DEFINED)) 3
                (Pst s (cur (b_pst b)));
    '(f, s) ← alloc_frame hhdm_offset (ms p);
    Ok (Pst s (cur p), wrap64 (f + hhdm_offset))
  else Ok (b_pst b, wrap64 (b_new b + HEAP_CHUNK_SIZE_DEFINED)).

(** An iteration of the loop. *)
Definition init_heap_step (pml4 heap_start i : Z) (b : building) : outcome building :=
  '(p, new_heap_page) ← next_node pml4 heap_start i b;
  let p := on_mem (fun m => store64 (write_node m new_heap_page) (b_current b + 24) new_heap_page) p in
  Ok (Building p (load64 (mm (ms p)) (b_current b + 24)) new_heap_page).

(** [init_heap] for a heap of [nodes] nodes: the start of the heap, [heap_page_head] and the state. *)
Definition init_heap_of (nodes pml4_address_virt_glob : Z) (p : pst) : outcome (Z * Z * pst) :=
  let heap_start := HEAP_START_VIRT_DEFINED in
  '(f, s) ← alloc_frame hhdm_offset (ms p);
  let heap_page_head := wrap64 (f + hhdm_offset) in
  '(_, p) ← map_page hhdm_offset pml4_address_virt_glob (wrap64 (heap_page_head - hhdm_offset)) heap_start 3 (Pst s (cur p));
  let p := on_mem (fun m => write_node m heap_page_head) p in
  '(heap_page_phys, s) ← alloc_frame hhdm_offset (ms p);
  '(_, p) ← map_page hhdm_offset pml4_address_virt_glob heap_page_phys heap_start 3 (Pst s (cur p));
  b ← loop_from (Z.to_nat (nodes - 1)) 1 (init_heap_step pml4_address_virt_glob heap_start)
        (Building p heap_page_head heap_page_head);
  Ok (heap_start, heap_page_head, b_pst b).

Definition HEAP_NODES : Z := HEAP_SIZE_DEFINED / HEAP_CHUNK_SIZE_DEFINED.

Definition init_heap (pml4_address_virt_glob : Z) (p : pst) : outcome (Z * Z * pst) :=
  init_heap_of HEAP_NODES pml4_address_virt_glob p.

(** ** Chains of nodes *)

(** The node at [a] is free and its [next] is [next]. *)
Definition node_at (m : mem) (a next : Z) : Prop :=
  m a = 0 /\ load64 m (a + 8) = HEAP_CHUNK_SIZE_DEFINED /\ load64 m (a + 16) = 0 /\ load64 m (a + 24) = next.

(** The chain of [next] pointers from [a] is the list [l]. *)
Fixpoint chain (m : mem) (a : Z) (l : list heap_page) : Prop :=
  match l with
  | [] => a = NULL
  | n :: l' => a <> NULL /\ m a = status n /\ load64 m (a + 8) = size n /\ load64 m (a + 16) = alloc_length n /\
      chain m (load64 m (a + 24)) l'
  end.

Lemma node_at_ext m m' a next : (forall x, a <= x < a + 32 -> m' x = m x) -> node_at m a next -> node_at m' a next.
Proof.
  intros E (H1 & H2 & H3 & H4). unfold node_at. rewrite E by lia. rewrite !(load64_ext m m') by (intros x Hx; apply E; lia). done.
Qed.

Lemma write_node_at m a : node_at (write_node m a) a NULL.
Proof.
  unfold write_node, node_at. split_and!.
  - rewrite !store64_out, store8_eq by lia. done.
  - rewrite !load64_store64_ne by lia. rewrite (load64_ext (store64 m (a + 8) HEAP_CHUNK_SIZE_DEFINED)) by (intros x Hx; apply store8_ne; lia).
    by apply load64_store64_eq.
  - rewrite load64_store64_ne by lia. by apply load64_store64_eq.
  - by apply load64_store64_eq.
Qed.

Lemma write_node_out m a x : ~ (a <= x < a + 32) -> write_node m a x = m x.
Proof. intros Hx. unfold write_node. rewrite !store64_out, store8_ne, store64_out by lia. done. Qed.

(** ** The loop *)

Context (dom : Z -> Prop) (pml4 : Z) (Hh : hhdm_ok hhdm_offset).
Local Abbreviation pt_inv := (pt_inv hhdm_offset dom pml4).
Local Abbreviation data_byte := (data_byte hhdm_offset dom pml4).
Local Abbreviation keeps_data := (keeps_data hhdm_offset dom pml4).
Local Abbreviation keeps_pages := (keeps_pages hhdm_offset dom pml4).
Local Abbreviation page_frame := (page_frame hhdm_offset pml4).
Local Abbreviation variant := (variant hhdm_offset dom pml4).
Local Abbreviation heap_start := HEAP_START_VIRT_DEFINED.

(** Node [k], when the nodes of page [p] are in frame [F p]. *)
Definition heap_node (F : Z -> Z) (k : Z) : Z := F (k / 64) + hhdm_offset + k mod 64 * 64.

(** The frames of the first [n] pages of nodes hold data and are distinct. *)
Record node_frames (s : mst) (F : Z -> Z) (n : Z) : Prop := {
  nf_frame : forall p, 0 <= p < n -> is_frame (F p) /\ 0 < F p;
  nf_data : forall p x, 0 <= p < n -> F p + hhdm_offset <= x < F p + hhdm_offset + 4096 -> data_byte s x;
  nf_inj : forall p q, 0 <= p < n -> 0 <= q < n -> F p = F q -> p = q
}.

Lemma node_frames_keeps s s' F n : keeps_data s s' -> node_frames s F n -> node_frames s' F n.
Proof. intros Hk [H1 H2 H3]. split; [done| |done]. intros p x Hp Hx. by apply Hk, (H2 p). Qed.

Lemma node_frames_snoc s F n f :
  0 <= n -> node_frames s F n -> is_frame f -> 0 < f -> (forall x, f + hhdm_offset <= x < f + hhdm_offset + 4096 -> data_byte s x) ->
  (forall p, 0 <= p < n -> F p <> f) -> node_frames s (upd F n f) (n + 1).
Proof.
  intros Hn [H1 H2 H3] Hf Hf0 Hd Hne. split.
  - intros p Hp. unfold upd. destruct (Z.eqb_spec p n) as [-> |]; [done|apply H1; lia].
  - intros p x Hp. unfold upd. destruct (Z.eqb_spec p n) as [-> |]; [apply Hd|apply H2; lia].
  - intros p q Hp Hq. unfold upd. destruct (Z.eqb_spec p n) as [-> |], (Z.eqb_spec q n) as [-> |]; [done| | |apply H3; lia].
    + intros E. by destruct (Hne q); [lia|].
    + intros E. by destruct (Hne p); [lia|].
Qed.

(** The page and the place of a node. *)
Lemma node_place i n : 0 <= i < 64 * n -> 0 <= i / 64 < n /\ 0 <= i mod 64 < 64 /\ i = i / 64 * 64 + i mod 64.
Proof. intros H. Z.to_euclidean_division_equations. lia. Qed.

Lemma node_at_range s F n k : node_frames s F n -> 0 <= k < 64 * n ->
  0 < heap_node F k /\ heap_node F k + 64 <= 2 ^ 64 /\ forall x, heap_node F k <= x < heap_node F k + 64 -> data_byte s x.
Proof.
  intros Hf Hk. destruct (node_place k n Hk) as (Hp & Hm & _). destruct (nf_frame _ _ _ Hf _ Hp) as [(H0 & H1 & H2) Hpos].
  destruct Hh as (Hh0 & _ & Hh2). unfold heap_node. split_and!; [lia|lia|]. intros x Hx. apply (nf_data _ _ _ Hf _ _ Hp). lia.
Qed.

(** Two nodes do not meet. *)
Lemma node_addr_apart s F n k j : node_frames s F n -> 0 <= k < 64 * n -> 0 <= j < 64 * n -> k <> j ->
  heap_node F k + 64 <= heap_node F j \/ heap_node F j + 64 <= heap_node F k.
Proof.
  intros Hf Hk Hj Hne. destruct (node_place k n Hk) as (Hpk & Hmk & Ek), (node_place j n Hj) as (Hpj & Hmj & Ej).
  destruct (nf_frame _ _ _ Hf _ Hpk) as [(_ & _ & H1) _], (nf_frame _ _ _ Hf _ Hpj) as [(_ & _ & H2) _]. unfold heap_node.
  destruct (decide (k / 64 = j / 64)) as [E|E]; [rewrite E in *; lia|].
  assert (F (k / 64) <> F (j / 64)) as HF by (intros EF; by apply E, (nf_inj _ _ _ Hf)).
  revert H1 H2 HF Hmk Hmj. generalize (F (k / 64)) (F (j / 64)) (k mod 64) (j mod 64). intros. Z.to_euclidean_division_equations. lia.
Qed.

(** The first [i] nodes are nodes_linked, and the last of them ends the chain. *)
Definition nodes_linked (m : mem) (F : Z -> Z) (i : Z) : Prop :=
  forall k, 0 <= k < i -> node_at m (heap_node F k) (if k =? i - 1 then NULL else heap_node F (k + 1)).

Lemma variant_range s m m' a n : variant s m -> mem_ok m' -> (forall x, ~ (a <= x < a + n) -> m' x = m x) ->
  (forall x, a <= x < a + n -> data_byte s x) -> variant s m'.
Proof.
  intros [_ Hv] Hok Hout Hd. split; [done|]. intros x Hx. rewrite Hout; [by apply Hv|]. intros Hr. by apply Hx, Hd.
Qed.

Lemma write_node_ok m a : mem_ok m -> mem_ok (write_node m a).
Proof. intros H. unfold write_node. auto 10 using store64_ok, store8_ok. Qed.

(** Writing a node and linking it after the last one. *)
Lemma link_node s F n i :
  pt_inv s -> node_frames s F n -> 1 <= i < 64 * n -> nodes_linked (mm s) F i ->
  let m := store64 (write_node (mm s) (heap_node F i)) (heap_node F (i - 1) + 24) (heap_node F i) in
  variant s m /\ nodes_linked m F (i + 1) /\ load64 m (heap_node F (i - 1) + 24) = heap_node F i.
Proof.
  intros Hinv Hf Hi Hl m. destruct (node_at_range s F n i Hf ltac:(lia)) as (H0 & H1 & Hd).
  destruct (node_at_range s F n (i - 1) Hf ltac:(lia)) as (_ & _ & Hd').
  pose proof (node_addr_apart s F n i (i - 1) Hf ltac:(lia) ltac:(lia) ltac:(lia)) as Hap.
  assert (load64 m (heap_node F (i - 1) + 24) = heap_node F i) as Hnext by (apply load64_store64_eq; unfold is_u64; lia).
  split_and!; [| |done].
  - apply (variant_range s (write_node (mm s) (heap_node F i)) _ (heap_node F (i - 1) + 24) 8).
    + apply (variant_range s (mm s) _ (heap_node F i) 32); [by apply variant_refl|apply write_node_ok, (pi_mem _ _ _ _ Hinv)| |].
      * intros x Hx. by apply write_node_out.
      * intros x Hx. apply Hd. lia.
    + apply store64_ok, write_node_ok, (pi_mem _ _ _ _ Hinv).
    + intros x Hx. apply store64_out. lia.
    + intros x Hx. apply Hd'. lia.
  - intros k Hk. destruct (decide (k = i)) as [-> |].
    { destruct (Z.eqb_spec i (i + 1 - 1)); [|lia]. apply (node_at_ext (write_node (mm s) (heap_node F i))); [|apply write_node_at].
      intros x Hx. apply store64_out. lia. }
    destruct (Z.eqb_spec k (i + 1 - 1)); [lia|].
    pose proof (node_addr_apart s F n k i Hf ltac:(lia) ltac:(lia) ltac:(lia)) as Hapk. specialize (Hl k ltac:(lia)).
    destruct (decide (k = i - 1)) as [-> |Hki].
    + rewrite Z.sub_add in *. destruct Hl as (L1 & L2 & L3 & _). split_and!; [| | |done]; unfold m.
      * rewrite store64_out, write_node_out by lia. done.
      * rewrite load64_store64_ne by lia. rewrite <- L2. apply load64_ext. intros x Hx. apply write_node_out. lia.
      * rewrite load64_store64_ne by lia. rewrite <- L3. apply load64_ext. intros x Hx. apply write_node_out. lia.
    + destruct (Z.eqb_spec k (i - 1)); [done|]. apply (node_at_ext (mm s)); [|done]. intros x Hx. unfold m.
      pose proof (node_addr_apart s F n k (i - 1) Hf ltac:(lia) ltac:(lia) ltac:(lia)).
      rewrite store64_out, write_node_out by lia. done.
Qed.

(** Pages of the heap. *)
Lemma heap_page_index p : 0 <= p < 2 ^ 33 -> vpage (heap_start + p * 4096) = vpage heap_start + p.
Proof.
  intros Hp. unfold vpage. rewrite Z.div_add by lia. change (heap_start / 4096) with (0xc00000000 + 0xffff * 2 ^ 36).
  rewrite (Z.add_comm (0xc00000000 + _)), Z.add_assoc, !Z.mod_add by lia. rewrite !Z.mod_small; lia.
Qed.

(** What the loop has built when [i] nodes are nodes_linked and pages up to [q] are mapped: the frames [F] of the nodes and
    [G] of the heap. *)
Record built (s0 : mst) (n : nat) (nodes q i : Z) (F G : Z -> Z) (s : mst) : Prop := {
  bu_inv : pt_inv s;
  bu_enough : enough (Z.to_nat (5 * ((nodes - 1) / 64 - q)) + n) (memmap_arr s);
  bu_keeps : keeps_data s0 s;
  bu_nodes : node_frames s F (q + 1);
  bu_linked : nodes_linked (mm s) F i;
  bu_frames : node_frames s G (q + 1);
  bu_apart : forall p r, 0 <= p <= q -> 0 <= r <= q -> F p <> G r;
  bu_avoids : forall p, 0 <= p <= q -> avoids hhdm_offset dom pml4 s0 (F p);
  bu_pages : forall p, 0 <= p <= q -> page_frame (mm s) (heap_start + p * 4096) (G p) 3
}.

Context (s0 : mst) (n : nat) (nodes : Z) (Hnodes : 1 <= nodes < 2 ^ 39).
Context (Hdom : forall p, 0 <= p <= (nodes - 1) / 64 -> dom (pml4_index (heap_start + p * 4096))).

(** Node [i] is written and nodes_linked. *)
Lemma built_link q i F G s :
  built s0 n nodes q i F G s -> 1 <= i < 64 * (q + 1) -> q <= (nodes - 1) / 64 ->
  let m := store64 (write_node (mm s) (heap_node F i)) (heap_node F (i - 1) + 24) (heap_node F i) in
  built s0 n nodes q (i + 1) F G (set_mm m s) /\ load64 m (heap_node F (i - 1) + 24) = heap_node F i.
Proof.
  intros [H1 H2 H3 H4 H5 H6 H7 H8 H9] Hi Hq m. destruct (link_node s F (q + 1) i H1 H4 Hi H5) as (Hv & Hl & Hnext). fold m in Hv, Hl, Hnext.
  split; [|done]. assert (forall f k, node_frames s f k -> node_frames (set_mm m s) f k) as Hnf.
  { intros f k [N1 N2 N3]. split; [done| |done]. intros p x Hp Hx. apply variant_data; [done|]. by apply (N2 p). }
  assert (forall k x, 0 <= k < 64 * (q + 1) -> data_byte s0 x -> ~ (heap_node F k <= x < heap_node F k + 64)) as Hav.
  { intros k x Hk Hx Hr. destruct (node_place k (q + 1) Hk) as (Hp & Hm & _). apply (H8 (k / 64) ltac:(lia) x Hx). unfold heap_node in Hr. lia. }
  split; try done; [by apply variant_inv| |by apply Hnf|by apply Hnf|].
  - intros x Hx. destruct (H3 x Hx) as [Hx1 <-]. split; [by apply variant_data|]. cbn [mm set_mm]. unfold m.
    pose proof (Hav i x ltac:(lia) Hx). pose proof (Hav (i - 1) x ltac:(lia) Hx). rewrite store64_out, write_node_out by lia. done.
  - intros p Hp. apply (variant_page hhdm_offset dom pml4 s); [done|apply Hdom; lia|by apply H9].
Qed.

Lemma nodes_linked_ext m m' F F' i : (forall p, 0 <= p <= (i - 1) / 64 -> F' p = F p) -> 
  (forall k x, 0 <= k < i -> heap_node F k <= x < heap_node F k + 64 -> m' x = m x) -> nodes_linked m F i -> nodes_linked m' F' i.
Proof.
  intros EF Em Hl k Hk. assert (forall k, 0 <= k < i -> heap_node F' k = heap_node F k) as EA.
  { intros j Hj. unfold heap_node. rewrite EF; [done|]. Z.to_euclidean_division_equations. lia. }
  rewrite EA by done. replace (if k =? i - 1 then NULL else heap_node F' (k + 1)) with (if k =? i - 1 then NULL else heap_node F (k + 1)).
  - apply (node_at_ext m); [|by apply Hl]. intros x Hx. apply (Em k); lia.
  - destruct (Z.eqb_spec k (i - 1)); [done|]. rewrite EA by lia. done.
Qed.

Lemma free_not_data s f h : frame_free (memmap_arr s) f -> data_byte s (h + hhdm_offset) -> h <> f.
Proof. intros Hf [Hd _] ->. apply (Hd f Hf). lia. Qed.

Lemma avoids_free s f : frame_free (memmap_arr s) f -> avoids hhdm_offset dom pml4 s f.
Proof. intros Hf x [Hd _]. by apply Hd. Qed.

(** [alloc_frame], [map_page], [alloc_frame]. *)
Lemma page_and_frame s v k :
  pt_inv s -> enough (5 + k) (memmap_arr s) -> dom (pml4_index v) ->
  exists g s1 s2 f s3, alloc_frame hhdm_offset s = Ok (g, s1) /\
    map_page hhdm_offset pml4 g v 3 (Pst s1 None) = Ok (UINT64_MAX, Pst s2 None) /\ alloc_frame hhdm_offset s2 = Ok (f, s3) /\
    pt_inv s3 /\ enough k (memmap_arr s3) /\ keeps_data s s3 /\ keeps_pages s s3 (eq (vpage v)) /\ page_frame (mm s3) v g 3 /\
    is_frame g /\ 0 < g /\ is_frame f /\ 0 < f /\ f <> g /\ avoids hhdm_offset dom pml4 s g /\ avoids hhdm_offset dom pml4 s f /\
    (forall x, g + hhdm_offset <= x < g + hhdm_offset + 4096 -> data_byte s3 x) /\
    (forall x, f + hhdm_offset <= x < f + hhdm_offset + 4096 -> data_byte s3 x).
Proof.
  intros Hinv Hen Hd.
  destruct (fresh_frame hhdm_offset dom pml4 Hh s (4 + k) Hinv Hen) as (g & s1 & Hg & Hal1 & Hfg & Hinv1 & Hen1 & Hdat1).
  destruct (map_page_spec hhdm_offset dom pml4 Hh s1 v g 3 (1 + k)) as (s2 & Hm & Hinv2 & Hen2 & Hk2 & Hp2 & Hpf); try done.
  destruct (fresh_frame hhdm_offset dom pml4 Hh s2 k Hinv2 Hen2) as (f & s3 & Hf & Hal3 & Hff & Hinv3 & Hen3 & Hdat3).
  pose proof (keeps_data_alloc _ dom pml4 s g s1 Hinv Hh Hal1) as Hk1. pose proof (keeps_data_alloc _ dom pml4 s2 f s3 Hinv2 Hh Hal3) as Hk3.
  pose proof (frame_free_aligned _ _ (pi_regions _ _ _ _ Hinv) (al_free _ _ _ _ Hal1)) as (Hg0 & _).
  pose proof (frame_free_aligned _ _ (pi_regions _ _ _ _ Hinv2) (al_free _ _ _ _ Hal3)) as (Hf0 & _).
  assert (keeps_data s s2) as Hk12 by (by eapply keeps_data_trans).
  assert (forall x, g + hhdm_offset <= x < g + hhdm_offset + 4096 -> data_byte s2 x) as Hdat2 by (intros x Hx; by apply Hk2, Hdat1).
  exists g, s1, s2, f, s3. split_and!; try done; try apply Hfg; try apply Hff.
  - by eapply keeps_data_trans.
  - intros w h p Hdw Hs Hw. apply (alloc_keeps_pages hhdm_offset dom pml4 Hh s2 f s3 (eq (vpage v))); try done. apply Hp2; try done.
    by apply (alloc_keeps_pages hhdm_offset dom pml4 Hh s g s1 (eq (vpage v))).
  - apply (alloc_keeps_pages hhdm_offset dom pml4 Hh s2 f s3 (fun _ => False)); (done || auto).
  - apply not_eq_sym, (free_not_data s2); [apply (al_free _ _ _ _ Hal3)|]. apply Hdat2. lia.
  - apply avoids_free, (al_free _ _ _ _ Hal1).
  - intros x Hx. apply (avoids_free s2 f (al_free _ _ _ _ Hal3)). by apply Hk12.
  - intros x Hx. by apply Hk3, Hdat2.
Qed.

(** A new page of the heap and a new frame for nodes. *)
Lemma next_page_spec q i F G s current new :
  built s0 n nodes q i F G s -> i = 64 * (q + 1) -> 0 <= q < (nodes - 1) / 64 ->
  exists F' G' s', next_node pml4 heap_start i (Building (Pst s None) current new) = Ok (Pst s' None, heap_node F' i) /\
    built s0 n nodes (q + 1) i F' G' s' /\ forall k, 0 <= k < i -> heap_node F' k = heap_node F k.
Proof.
  intros [H1 H2 H3 H4 H5 H6 H7 H8 H9] Ei Hq. set (k := (Z.to_nat (5 * ((nodes - 1) / 64 - (q + 1))) + n)%nat).
  replace (Z.to_nat (5 * ((nodes - 1) / 64 - q)) + n)%nat with (5 + k)%nat in H2 by lia.
  assert (q + 1 < 2 ^ 33) as Hq33 by (Z.to_euclidean_division_equations; lia).
  assert (wrap64 (heap_start + i * HEAP_CHUNK_SIZE_DEFINED) = heap_start + (q + 1) * 4096) as Ev.
  { unfold HEAP_CHUNK_SIZE_DEFINED. rewrite wrap64_small by (unfold HEAP_START_VIRT_DEFINED; lia). lia. }
  destruct (page_and_frame s (heap_start + (q + 1) * 4096) k H1 H2 ltac:(apply Hdom; lia)) as
    (g & s1 & s2 & f & s3 & Eg & Em & Ef & P1 & P2 & P3 & P4 & P5 & Fg & Fg0 & Ff & Ff0 & Hfg & Ag & Af & Dg & Df).
  exists (upd F (q + 1) f), (upd G (q + 1) g), s3.
  assert (i / 64 = q + 1 /\ i mod 64 = 0) as [Ed Em64] by (subst i; Z.to_euclidean_division_equations; lia).
  assert (forall h p, node_frames s h (q + 1) -> 0 <= p < q + 1 -> data_byte s (h p + hhdm_offset)) as Hfd.
  { intros h p [_ Hd _] Hp. apply (Hd p); [done|lia]. }
  split_and!.
  - unfold next_node. change (PAGE_SIZE_DEFINED / HEAP_CHUNK_SIZE_DEFINED) with 64. rewrite Em64. cbn [Z.eqb b_pst ms cur].
    rewrite Eg. cbn [mbind outcome_bind]. rewrite Ev, Em. cbn [mbind outcome_bind ms cur]. rewrite Ef. cbn [mbind outcome_bind].
    unfold heap_node. rewrite Ed, Em64, upd_eq. destruct Ff as (? & ? & _), Hh as (? & _ & ?). rewrite wrap64_small by lia. do 2 f_equal. lia.
  - assert (forall h e, node_frames s h (q + 1) -> is_frame e -> 0 < e -> avoids hhdm_offset dom pml4 s e ->
      (forall x, e + hhdm_offset <= x < e + hhdm_offset + 4096 -> data_byte s3 x) -> node_frames s3 (upd h (q + 1) e) (q + 1 + 1)) as Hsnoc.
    { intros h e Hh' He He0 Hav Hde. apply node_frames_snoc; [lia|by apply (node_frames_keeps s)|done|done|done|].
      intros p Hp E. apply (Hav (e + hhdm_offset)); [|lia]. rewrite <- E. by apply Hfd. }
    split; try done; [by eapply keeps_data_trans|by apply Hsnoc| |by apply Hsnoc| | |].
    + apply (nodes_linked_ext (mm s) _ F); [|intros j x Hj Hx; apply P3|done].
      * intros p Hp. apply upd_ne. subst i. Z.to_euclidean_division_equations. lia.
      * destruct (node_at_range s F (q + 1) j H4 ltac:(lia)) as (_ & _ & Hd). by apply Hd.
    + intros p r Hp Hr. unfold upd. destruct (Z.eqb_spec p (q + 1)), (Z.eqb_spec r (q + 1)); [done| | |apply H7; lia].
      * intros E. apply (Af (f + hhdm_offset)); [|lia]. rewrite E. apply Hfd; [done|lia].
      * intros E. apply (Ag (g + hhdm_offset)); [|lia]. rewrite <- E. apply Hfd; [done|lia].
    + intros p Hp x Hx. unfold upd. destruct (Z.eqb_spec p (q + 1)); [|apply H8; (done || lia)]. apply Af. by apply H3.
    + intros p Hp. unfold upd. destruct (Z.eqb_spec p (q + 1)) as [-> |]; [done|]. apply P4; [apply Hdom; lia| |apply H9; lia].
      rewrite !heap_page_index by lia. lia.
  - intros j Hj. unfold heap_node. rewrite upd_ne; [done|]. subst i. Z.to_euclidean_division_equations. lia.
Qed.

(** The loop invariant and its step. *)
Definition loop_state (head i : Z) (b : building) : Prop :=
  exists F G s, head = heap_node F 0 /\ b = Building (Pst s None) (heap_node F (i - 1)) (heap_node F (i - 1)) /\ built s0 n nodes ((i - 1) / 64) i F G s.

Lemma init_heap_step_spec head i b : 1 <= i < nodes -> loop_state head i b ->
  exists b', init_heap_step pml4 heap_start i b = Ok b' /\ loop_state head (i + 1) b'.
Proof.
  intros Hi (F & G & s & -> & -> & Hb).
  assert (exists F' G' s', next_node pml4 heap_start i (Building (Pst s None) (heap_node F (i - 1)) (heap_node F (i - 1))) =
      Ok (Pst s' None, heap_node F' i) /\ built s0 n nodes (i / 64) i F' G' s' /\ forall k, 0 <= k < i -> heap_node F' k = heap_node F k)
    as (F' & G' & s' & Hn & Hb' & E).
  { destruct (decide (i mod 64 = 0)) as [E0|E0].
    - replace (i / 64) with ((i - 1) / 64 + 1) by (Z.to_euclidean_division_equations; lia).
      apply next_page_spec with G; [done|Z.to_euclidean_division_equations; lia..].
    - assert ((i - 1) / 64 = i / 64 /\ i mod 64 = (i - 1) mod 64 + 1) as [Ed Em] by (Z.to_euclidean_division_equations; lia).
      exists F, G, s. rewrite Ed in Hb. split_and!; [|done|done]. unfold next_node. change (PAGE_SIZE_DEFINED / HEAP_CHUNK_SIZE_DEFINED) with 64.
      destruct (Z.eqb_spec (i mod 64) 0); [done|]. cbn [b_pst b_new].
      destruct (node_at_range s F (i / 64 + 1) i (bu_nodes _ _ _ _ _ _ _ _ Hb)) as (H0 & H1 & _); [Z.to_euclidean_division_equations; lia|].
      assert (heap_node F (i - 1) + HEAP_CHUNK_SIZE_DEFINED = heap_node F i) as ->.
      { unfold heap_node, HEAP_CHUNK_SIZE_DEFINED. rewrite Ed, Em. lia. }
      rewrite wrap64_small by lia. done. }
  unfold init_heap_step. rewrite Hn. cbn [mbind outcome_bind b_current]. rewrite <- (E (i - 1)) by lia.
  destruct (built_link (i / 64) i F' G' s' Hb') as [Hb'' Hnext]; [Z.to_euclidean_division_equations; lia..|].
  eexists. split; [done|]. exists F', G'. eexists. rewrite Z.add_simpl_r. split; [by rewrite E by lia|]. split; [|exact Hb''].
  unfold on_mem. cbn [ms mm set_mm cur]. by rewrite Hnext.
Qed.

Lemma linked_chain m F : (forall k, 0 <= k < nodes -> heap_node F k <> NULL) -> nodes_linked m F nodes ->
  forall k, (k < Z.to_nat nodes)%nat -> chain m (heap_node F (nodes - 1 - Z.of_nat k)) (fresh_heap (S k)).
Proof.
  intros Hnn Hl. induction k as [|k IH]; intros Hk.
  - destruct (Hl (nodes - 1 - Z.of_nat 0) ltac:(lia)) as (H1 & H2 & H3 & H4). split; [apply Hnn; lia|]. split; [done|]. split; [done|]. split; [done|].
    rewrite H4. by destruct (Z.eqb_spec (nodes - 1 - Z.of_nat 0) (nodes - 1)); [|lia].
  - destruct (Hl (nodes - 1 - Z.of_nat (S k)) ltac:(lia)) as (H1 & H2 & H3 & H4). 
    change (fresh_heap (S (S k))) with (fresh_node :: fresh_heap (S k)). cbn [chain].
    split; [apply Hnn; lia|]. split; [done|]. split; [done|]. split; [done|]. rewrite H4. destruct (Z.eqb_spec (nodes - 1 - Z.of_nat (S k)) (nodes - 1)); [lia|].
    replace (nodes - 1 - Z.of_nat (S k) + 1) with (nodes - 1 - Z.of_nat k) by lia. apply IH. lia.
Qed.

(** The part before the loop. *)
Lemma first_node_spec :
  pt_inv s0 -> enough (8 + (Z.to_nat (5 * ((nodes - 1) / 64)) + n)) (memmap_arr s0) ->
  exists f s1 s2 g s4 s5 F G, alloc_frame hhdm_offset s0 = Ok (f, s1) /\
    wrap64 (f + hhdm_offset) = heap_node F 0 /\ wrap64 (heap_node F 0 - hhdm_offset) = f /\
    map_page hhdm_offset pml4 f heap_start 3 (Pst s1 None) = Ok (UINT64_MAX, Pst s2 None) /\
    alloc_frame hhdm_offset (set_mm (write_node (mm s2) (heap_node F 0)) s2) = Ok (g, s4) /\
    map_page hhdm_offset pml4 g heap_start 3 (Pst s4 None) = Ok (UINT64_MAX, Pst s5 None) /\
    built s0 n nodes 0 1 F G s5.
Proof.
  intros Hinv Hen. set (k := (Z.to_nat (5 * ((nodes - 1) / 64)) + n)%nat) in *.
  assert (dom (pml4_index heap_start)) as Hd by (apply (Hdom 0); Z.to_euclidean_division_equations; lia).
  destruct (fresh_frame hhdm_offset dom pml4 Hh s0 (7 + k) Hinv Hen) as (f & s1 & Ef & Hal1 & Hff & Hinv1 & Hen1 & Hdat1).
  destruct (map_page_spec hhdm_offset dom pml4 Hh s1 heap_start f 3 (4 + k)) as (s2 & Em & Hinv2 & Hen2 & Hk2 & _ & _); try done.
  pose proof (keeps_data_alloc _ dom pml4 s0 f s1 Hinv Hh Hal1) as Hk1.
  pose proof (frame_free_aligned _ _ (pi_regions _ _ _ _ Hinv) (al_free _ _ _ _ Hal1)) as (Hf0 & _).
  set (F := fun _ : Z => f). assert (heap_node F 0 = f + hhdm_offset) as EA by (unfold heap_node, F; rewrite Z.mod_0_l by lia; lia).
  set (m := write_node (mm s2) (heap_node F 0)).
  assert (variant s2 m) as Hv.
  { apply (variant_range s2 (mm s2) _ (heap_node F 0) 32); [by apply variant_refl|apply write_node_ok, (pi_mem _ _ _ _ Hinv2)| |].
    - intros x Hx. by apply write_node_out.
    - intros x Hx. apply Hk2, Hdat1. lia. }
  pose proof (variant_inv hhdm_offset dom pml4 s2 m Hinv2 Hv) as Hinv3.
  destruct (fresh_frame hhdm_offset dom pml4 Hh (set_mm m s2) (3 + k) Hinv3 Hen2) as (g & s4 & Eg & Hal4 & Hfg & Hinv4 & Hen4 & Hdat4).
  destruct (map_page_spec hhdm_offset dom pml4 Hh s4 heap_start g 3 k) as (s5 & Em5 & Hinv5 & Hen5 & Hk5 & _ & Hpf); try done.
  pose proof (keeps_data_alloc _ dom pml4 _ g s4 Hinv3 Hh Hal4) as Hk4.
  pose proof (frame_free_aligned _ _ (pi_regions _ _ _ _ Hinv3) (al_free _ _ _ _ Hal4)) as (Hg0 & _).
  assert (keeps_data (set_mm m s2) s5) as Hk35 by (by eapply keeps_data_trans).
  assert (forall x, f + hhdm_offset <= x < f + hhdm_offset + 4096 -> data_byte (set_mm m s2) x) as Hdat3.
  { intros x Hx. apply variant_data; [done|]. by apply Hk2, Hdat1. }
  exists f, s1, s2, g, s4, s5, F, (fun _ => g). rewrite EA. destruct Hh as (? & _ & ?), Hff as (Hf1 & Hf2 & Hf3).
  split; [exact Ef|]. split; [apply wrap64_small; lia|].
  split; [rewrite Z.add_simpl_r; apply wrap64_small; unfold PHYS_LIMIT in *; lia|]. split; [exact Em|].
  split; [by rewrite <- EA|]. split; [exact Em5|].
  split; try done.
  - by replace (Z.to_nat (5 * ((nodes - 1) / 64 - 0)) + n)%nat with k by (unfold k; lia).
  - eapply keeps_data_trans; [|exact Hk35]. intros x Hx. destruct (Hk1 x Hx) as [Hx1 <-]. destruct (Hk2 x Hx1) as [Hx2 <-].
    split; [by apply variant_data|]. apply write_node_out. rewrite EA.
    pose proof (avoids_free s0 f (al_free _ _ _ _ Hal1) x Hx). lia.
  - split; [done| |lia]. intros p x Hp Hx. by apply Hk35, Hdat3.
  - intros j Hj. replace j with 0 by lia. apply (node_at_ext m); [|apply write_node_at].
    intros x Hx. apply Hk35, Hdat3. rewrite EA in Hx. lia.
  - split; [done| |lia]. intros p x Hp Hx. by apply Hk5, Hdat4.
  - intros p r Hp Hr. apply (free_not_data (set_mm m s2)); [apply (al_free _ _ _ _ Hal4)|]. apply Hdat3. unfold F. lia.
  - intros p Hp. apply avoids_free, (al_free _ _ _ _ Hal1).
  - intros p Hp. by replace p with 0 by lia.
Qed.

Lemma init_heap_of_spec :
  pt_inv s0 -> enough (8 + (Z.to_nat (5 * ((nodes - 1) / 64)) + n)) (memmap_arr s0) ->
  exists F G s, init_heap_of nodes pml4 (Pst s0 None) = Ok (heap_start, heap_node F 0, Pst s None) /\
    built s0 n nodes ((nodes - 1) / 64) nodes F G s.
Proof.
  intros Hinv Hen. destruct (first_node_spec Hinv Hen) as (f & s1 & s2 & g & s4 & s5 & F & G & E1 & E2 & E3 & E4 & E5 & E6 & Hb).
  destruct (loop_from_inv (loop_state (heap_node F 0)) (init_heap_step pml4 heap_start) (Z.to_nat (nodes - 1)) 1
    (Building (Pst s5 None) (heap_node F 0) (heap_node F 0))) as (b & Hl & F' & G' & s' & Eh & -> & Hb').
  - by exists F, G, s5.
  - intros j b Hj. apply init_heap_step_spec. lia.
  - replace (1 + Z.of_nat (Z.to_nat (nodes - 1))) with nodes in Hb' by lia.
    exists F', G', s'. split; [|done]. unfold init_heap_of. cbn [ms cur]. rewrite E1. cbn [mbind outcome_bind].
    rewrite E2, E3, E4. cbn [mbind outcome_bind]. unfold on_mem. cbn [ms cur]. rewrite E5. cbn [mbind outcome_bind].
    rewrite E6. cbn [mbind outcome_bind]. rewrite Hl, <- Eh. done.
Qed.

End HeapInit.

Section Whole.
Context (hhdm_offset : Z) (dom : Z -> Prop) (pml4 : Z) (Hh : hhdm_ok hhdm_offset).
Context (Hdom : forall p, 0 <= p < 16384 -> dom (pml4_index (HEAP_START_VIRT_DEFINED + p * 4096))).

Lemma init_heap_built s n :
  pt_inv hhdm_offset dom pml4 s -> enough (Z.to_nat 81923 + n) (memmap_arr s) ->
  exists F G s', init_heap hhdm_offset pml4 (Pst s None) = Ok (HEAP_START_VIRT_DEFINED, heap_node hhdm_offset F 0, Pst s' None) /\
    built hhdm_offset dom pml4 s n HEAP_NODES 16383 HEAP_NODES F G s'.
Proof.
  intros Hinv Hen. assert ((HEAP_NODES - 1) / 64 = 16383) as EQ by reflexivity. assert (HEAP_NODES = 1048576) as EN by reflexivity.
  destruct (init_heap_of_spec hhdm_offset dom pml4 Hh s n HEAP_NODES) as (F & G & s' & Hi & Hb); rewrite ?EQ in *;
    [lia|intros p Hp; apply Hdom; lia|done| |by exists F, G, s'].
  by replace (8 + (Z.to_nat (5 * 16383) + n))%nat with (Z.to_nat 81923 + n)%nat by lia.
Qed.

Lemma built_chain s n F G s' :
  built hhdm_offset dom pml4 s n HEAP_NODES 16383 HEAP_NODES F G s' ->
  chain (mm s') (heap_node hhdm_offset F 0) (fresh_heap (Z.to_nat HEAP_NODES)).
Proof.
  intros Hb. assert (HEAP_NODES = 1048576) as EN by reflexivity.
  pose proof (linked_chain hhdm_offset HEAP_NODES ltac:(lia) (mm s') F) as Hc.
  replace (Z.to_nat HEAP_NODES) with (S (Z.to_nat (HEAP_NODES - 1))) by lia.
  replace 0 with (HEAP_NODES - 1 - Z.of_nat (Z.to_nat (HEAP_NODES - 1))) by lia.
  apply Hc; [|apply (bu_linked _ _ _ _ _ _ _ _ _ _ _ Hb)|lia]. intros k Hk.
  destruct (node_at_range hhdm_offset dom pml4 Hh s' F 16384 k) as (H0 & _);
    [apply (bu_nodes _ _ _ _ _ _ _ _ _ _ _ Hb)|lia|unfold NULL; lia].
Qed.

End Whole.

(** C8: [init_heap] builds the heap. With enough free frames it returns; the pages of the
    64 MiB from [HEAP_START_VIRT_DEFINED] are mapped writable to pairwise distinct frames, the chain of
    [next] pointers from [heap_page_head] is the list of free nodes, one for each
    64 bytes, from which the theorems on [kmalloc] and [kfree] start, the page
    tables stay well formed and no other data changes. *)
Theorem init_heap_builds (hhdm_offset : Z) (dom : Z -> Prop) (pml4 : Z) (s : mst)
    (Hh : hhdm_ok hhdm_offset) (Hinv : pt_inv hhdm_offset dom pml4 s)
    (Hdom : forall p, 0 <= p < 16384 -> dom (pml4_index (HEAP_START_VIRT_DEFINED + p * 4096)))
    (Hen : enough (Z.to_nat 81923) (memmap_arr s)) :
  exists head s' G, init_heap hhdm_offset pml4 (Pst s None) = Ok (HEAP_START_VIRT_DEFINED, head, Pst s' None) /\
    pt_inv hhdm_offset dom pml4 s' /\ keeps_data hhdm_offset dom pml4 s s' /\
    chain (mm s') head (fresh_heap (Z.to_nat (HEAP_SIZE_DEFINED / HEAP_CHUNK_SIZE_DEFINED))) /\
    (forall p, 0 <= p < HEAP_SIZE_DEFINED / 4096 ->
       is_frame (G p) /\ page_frame hhdm_offset pml4 (mm s') (HEAP_START_VIRT_DEFINED + p * 4096) (G p) 3) /\
    (forall p q, 0 <= p < HEAP_SIZE_DEFINED / 4096 -> 0 <= q < HEAP_SIZE_DEFINED / 4096 -> G p = G q -> p = q).
Proof.
  destruct (init_heap_built hhdm_offset dom pml4 Hh Hdom s 0 Hinv) as (F & G & s' & Hi & Hb); [by rewrite Nat.add_0_r|].
  pose proof (built_chain hhdm_offset dom pml4 Hh s 0 F G s' Hb) as Hc. destruct Hb as [H1 _ H3 _ _ H6 _ _ H9].
  exists (heap_node hhdm_offset F 0), s', G. change (HEAP_SIZE_DEFINED / 4096) with 16384.
  split; [exact Hi|]. split; [exact H1|]. split; [exact H3|]. split; [exact Hc|]. split.
  - intros p Hp. split; [apply (nf_frame _ _ _ _ _ _ H6); lia|apply H9; lia].
  - intros p q Hp Hq. apply (nf_inj _ _ _ _ _ _ H6); lia.
Qed.

(** ** Witness *)

(** Memory with 512 MiB of free frames and an empty top-level table outside of it. *)
Definition boot_state : mst := Mst (fun _ => 0) true [region_of (Entry 0x100000 0x20000000 0)] 0 [].

Lemma boot_regions_ok : regions_ok (memmap_arr boot_state).
Proof.
  split.
  - constructor; [|done]. apply region_of_ok. repeat split; vm_compute; congruence.
  - apply (region_of_sorted [Entry 0x100000 0x20000000 0]). repeat constructor.
Qed.

Lemma boot_state_inv : pt_inv sample_hhdm (fun _ => True) sample_pml4 boot_state.
Proof.
  split.
  - intros p q a _ _ _ _ Hp Hq. apply zero_table_at in Hp as [-> _], Hq as [-> _]. done.
  - intros p a _ _ Hp. apply zero_table_at in Hp as [_ ->]. exists 0x1000.
    split_and!; [done|lia|vm_compute; discriminate|done|]. intros (r & i & Hr & _ & Hi & Ha & _).
    apply list_elem_of_singleton in Hr as ->. cbn in Ha. lia.
  - exact boot_regions_ok.
  - intros x. cbn. lia.
Qed.

Lemma boot_state_enough n : (n <= 131072)%Z -> 0 <= n -> enough (Z.to_nat n) (memmap_arr boot_state).
Proof.
  intros Hn H0. exists ((fun i => 0x100000 + i * 4096) <$> seqZ 0 n). split_and!.
  - apply NoDup_fmap_2; [intros i j; lia|apply NoDup_seqZ].
  - by rewrite length_fmap, length_seqZ.
  - apply Forall_fmap, Forall_forall. intros i Hi%list_elem_of_In%elem_of_seqZ. cbv beta.
    exists (region_of (Entry 0x100000 0x20000000 0)), i. split_and!; [left|done|lia| |done|].
    + change (frames_of _) with 131072. lia.
    + cbn [region_of frame_bitmap e_length]. rewrite upd_ne; [done|]. change (0x20000000 / 4096) with 131072. lia.
Qed.

Lemma init_heap_builds_witness :
  exists head s', init_heap sample_hhdm sample_pml4 (Pst boot_state None) = Ok (HEAP_START_VIRT_DEFINED, head, Pst s' None) /\
    chain (mm s') head (fresh_heap (Z.to_nat (HEAP_SIZE_DEFINED / HEAP_CHUNK_SIZE_DEFINED))).
Proof.
  destruct (init_heap_builds sample_hhdm (fun _ => True) sample_pml4 boot_state) as (head & s' & G & H1 & _ & _ & H2 & _).
  - exact sample_hhdm_ok.
  - exact boot_state_inv.
  - intros p Hp. exact I.
  - apply boot_state_enough; lia.
  - exists head, s'. split; [exact H1|exact H2].
Defined.
