(* ===== verification/Devices.v ===== *)
(** * Timers and interrupt controllers: tsc.c, hpet.c, apic.c, ioapic.c

    The device registers are not memory: what a read returns is decided by the
    hardware, from the accesses made so far. [hw] is that function, a
    parameter; the state keeps the accesses and the variables of the
    drivers. The ACPI tables are found by the uACPI library, so the addresses
    in them ([ACPI_MADT->lapic_addr], [ACPI_HPET->address.address]) are
    parameters too. The interrupts that arrive while [kpass] waits are a
    parameter of [kpass]. *)

From S2P Require Import Prelude Memory Machine Frames Paging.

(** ** Accesses *)

Inductive access : Type :=
| Read32 (a : Z)
| Write32 (a v : Z)
| Read64 (a : Z)
| Write64 (a v : Z)
| In8 (port : Z)
| Out8 (port v : Z)
| Rdmsr (r : Z)
| Wrmsr (r v : Z)
| Rdtsc.

Record dev : Type := Dev {
  accesses : list access;
  lapic_timer_converted : Z -> Z;
  sleep_locks : Z -> Z;
  tsc_freq : Z;
  hpet_regs : Z
}.

Definition push (x : access) (d : dev) : dev :=
  Dev (x :: accesses d) (lapic_timer_converted d) (sleep_locks d) (tsc_freq d) (hpet_regs d).
Definition set_converted (i v : Z) (d : dev) : dev :=
  Dev (accesses d) (upd (lapic_timer_converted d) i v) (sleep_locks d) (tsc_freq d) (hpet_regs d).
Definition set_lock (i v : Z) (d : dev) : dev :=
  Dev (accesses d) (lapic_timer_converted d) (upd (sleep_locks d) i v) (tsc_freq d) (hpet_regs d).
Definition set_freq (f : Z) (d : dev) : dev :=
  Dev (accesses d) (lapic_timer_converted d) (sleep_locks d) f (hpet_regs d).
Definition set_hpet (a : Z) (d : dev) : dev :=
  Dev (accesses d) (lapic_timer_converted d) (sleep_locks d) (tsc_freq d) a.

Definition NUM_CORES : Z := 64.
Definition ONE_SECOND : Z := 1000000000.

Section Devices.
Context (hw : list access -> access -> Z) (hhdm_offset : Z).

Definition read32 (a : Z) (d : dev) : Z * dev := (wrap32 (hw (accesses d) (Read32 a)), push (Read32 a) d).
Definition read64 (a : Z) (d : dev) : Z * dev := (wrap64 (hw (accesses d) (Read64 a)), push (Read64 a) d).
Definition write32 (a v : Z) (d : dev) : dev := push (Write32 a (wrap32 v)) d.
Definition write64 (a v : Z) (d : dev) : dev := push (Write64 a (wrap64 v)) d.

Definition outb (port val : Z) (d : dev) : dev := push (Out8 port (wrap8 val)) d.
Definition inb (port : Z) (d : dev) : Z * dev := (wrap8 (hw (accesses d) (In8 port)), push (In8 port) d).

(** [outb(PIC1_DATA, 0xff); outb(PIC2_DATA, 0xff);] *)
Definition pic_disable (d : dev) : dev := outb 0xa1 0xff (outb 0x21 0xff d).

(** ** The time stamp counter *)

Definition rdtsc (d : dev) : Z * dev := (wrap64 (hw (accesses d) Rdtsc), push Rdtsc d).
Definition tsc_read (d : dev) : Z * dev := rdtsc d.

Definition tsc_ns_to_ticks (freq time : Z) : Z := wrap64 (freq * time) / ONE_SECOND.

Definition tsc_ticks_to_ns (freq ticks : Z) : outcome Z :=
  if freq =? 0 then Err DivByZero
  else
    let quot := ticks / freq in
    let rem := ticks mod freq in
    Ok (wrap64 (quot * ONE_SECOND + wrap64 (rem * ONE_SECOND) / freq)).

Definition tsc_read_ns (d : dev) : outcome (Z * dev) :=
  let '(t, d) := tsc_read d in ns ← tsc_ticks_to_ns (tsc_freq d) t; Ok (ns, d).
Definition tsc_read_ms (d : dev) : outcome (Z * dev) := '(ns, d) ← tsc_read_ns d; Ok (ns / 1000000, d).
Definition tsc_read_s (d : dev) : outcome (Z * dev) := '(ms, d) ← tsc_read_ms d; Ok (ms / 1000, d).

(** ** The HPET: capabilities at 0, configuration at 0x10, the main counter at 0xf0 *)

Definition hpet_get_elapsed_ns (d : dev) : Z * dev :=
  let '(main_counter, d) := read64 (hpet_regs d + 0xf0) d in
  let '(capabilities, d) := read64 (hpet_regs d) d in
  (wrap64 (main_counter * (Z.shiftr capabilities 32 / 1000000)), d).

Definition hpet_reset (d : dev) : dev := write64 (hpet_regs d + 0xf0) 0 d.

Definition hpet_setup (pml4 addr : Z) (p : pst) (d : dev) : outcome (pst * dev) :=
  '(_, p) ← map_page hhdm_offset pml4 addr addr 3 p;
  let d := set_hpet addr d in
  Ok (p, write64 (hpet_regs d + 0x10) 1 d).

Definition hpet_init (hpet_address pml4 : Z) (p : pst) (d : dev) : outcome (pst * dev) := hpet_setup pml4 hpet_address p d.

(** ** The local APIC *)

Context (lapic_addr : Z).

(** The register at an offset: [ACPI_MADT->lapic_addr + offset], a 32-bit sum. *)
Definition lapic (offset : Z) : Z := wrap32 (lapic_addr + offset).

(** [lapic_timer_converted[( *lapic_id) >> 24]] *)
Definition lapic_core (d : dev) : outcome (Z * dev) :=
  let '(id, d) := read32 (lapic 0x20) d in
  let core := Z.shiftr id 24 in
  if core <? NUM_CORES then Ok (core, d) else Err OutOfBounds.

Definition timer_count (ms converted : Z) : Z := wrap64 (ms * converted) / 1000.

(** [lapic_oneshot] and [lapic_periodic]; the mode is bit 17 of the timer register. *)
Definition lapic_timer (mode ms vector divider : Z) (ms_or_ticks : bool) (d : dev) : outcome dev :=
  let d := write32 (lapic 0x3e0) divider d in
  let d := write32 (lapic 0x320) (Z.lor mode vector) d in
  if ms_or_ticks then Ok (write32 (lapic 0x380) ms d)
  else
    '(core, d) ← lapic_core d;
    Ok (write32 (lapic 0x380) (timer_count ms (lapic_timer_converted d core)) d).

Definition lapic_oneshot (ms vector divider : Z) (ms_or_ticks : bool) (d : dev) : outcome dev :=
  lapic_timer 0 ms vector divider ms_or_ticks d.
Definition lapic_periodic (ms vector divider : Z) (ms_or_ticks : bool) (d : dev) : outcome dev :=
  lapic_timer 0x20000 ms vector divider ms_or_ticks d.

(** [sleep_handler] of idt.c, the handler of vector 66. *)
Definition sleep_handler (d : dev) : outcome dev :=
  '(core, d) ← lapic_core d;
  Ok (write32 (lapic 0xb0) 0 (set_lock core 0 d)).

(** The handlers of vectors 64, 65 and 67 only end the interrupt. *)
Definition interrupt_handler_custom (d : dev) : dev := write32 (lapic 0xb0) 0 d.
Definition apic_tick_handler (d : dev) : dev := write32 (lapic 0xb0) 0 d.
Definition thread_handler (d : dev) : dev := write32 (lapic 0xb0) 0 d.

(** The handler of vector 80 also reads the clock; its loop over the sleeping threads begins with
    [break]. *)
Definition thread_sleep_handler (d : dev) : outcome dev :=
  let d := write32 (lapic 0xb0) 0 d in
  '(_, d) ← tsc_read_ns d;
  Ok d.

(** The handler runs when the timer interrupt arrives. *)
Definition on_irq (arrives : bool) (d : dev) : outcome dev := if arrives then sleep_handler d else Ok d.

(** [while (sleep_locks[( *lapic_id)>>24]) nop]; [irqs k] tells whether the interrupt arrives before
    the [k]-th test. *)
Fixpoint kpass_wait (fuel : nat) (irqs : nat -> bool) (k : nat) (d : dev) : outcome dev :=
  match fuel with
  | O => Err OutOfFuel
  | S f =>
      d ← on_irq (irqs k) d;
      '(core, d) ← lapic_core d;
      if sleep_locks d core =? 0 then Ok d else kpass_wait f irqs (S k) d
  end.

(** [early]: the interrupt arrives after the counter is started and before the lock is set. *)
Definition kpass (fuel : nat) (early : bool) (irqs : nat -> bool) (ms : Z) (d : dev) : outcome dev :=
  let d := write32 (lapic 0x3e0) 3 d in
  let d := write32 (lapic 0x320) 66 d in
  '(core, d) ← lapic_core d;
  let d := write32 (lapic 0x380) (timer_count ms (lapic_timer_converted d core)) d in
  d ← on_irq early d;
  '(core, d) ← lapic_core d;
  let d := set_lock core 1 d in
  kpass_wait fuel irqs 0 d.

Definition tsc_init (fuel : nat) (early : bool) (irqs : nat -> bool) (d : dev) : outcome dev :=
  let '(tsc_start, d) := tsc_read d in
  d ← kpass fuel early irqs 10 d;
  let '(tsc_end, d) := tsc_read d in
  Ok (set_freq (wrap64 (wrap64 (tsc_end - tsc_start) * 100)) d).

(** ** Calibration of the timer *)

(** [(1000000000000000 / hpet_count_difference) * lapic_count_difference / 1000000] *)
Definition ticks_per_second (lapic_count_difference hpet_count_difference : Z) : outcome Z :=
  if hpet_count_difference =? 0 then Err DivByZero
  else Ok (wrap64 (1000000000000000 / hpet_count_difference * lapic_count_difference) / 1000000).

(** The measurement: both counters before and after a busy loop. *)
Definition calibrate (d : dev) : outcome dev :=
  let d := hpet_reset d in
  let d := write32 (lapic 0xb0) 0 d in
  let d := write32 (lapic 0x3e0) 3 d in
  let d := write32 (lapic 0x320) 64 d in
  let d := write32 (lapic 0x380) UINT32_MAX d in
  let '(hpet_count_before, d) := hpet_get_elapsed_ns d in
  let '(lapic_count_before, d) := read32 (lapic 0x390) d in
  let '(lapic_count_after, d) := read32 (lapic 0x390) d in
  let '(hpet_count_after, d) := hpet_get_elapsed_ns d in
  let d := write32 (lapic 0x380) 0 d in
  let d := write32 (lapic 0xb0) 0 d in
  v ← ticks_per_second (wrap64 (lapic_count_before - lapic_count_after)) (wrap64 (hpet_count_after - hpet_count_before));
  '(core, d) ← lapic_core d;
  let d := set_converted core v d in
  '(_, d) ← lapic_core d;
  Ok (write32 (lapic 0x380) 0 d).

(** The enable bits: bit 11 of the APIC base register, bit 8 of the spurious interrupt register. *)
Definition enable_lapic (pml4 : Z) (p : pst) (d : dev) : outcome (pst * dev) :=
  let msr := wrap64 (hw (accesses d) (Rdmsr 0x1b)) in
  let d := push (Rdmsr 0x1b) d in
  let d := push (Wrmsr 0x1b (Z.lor msr 0x800)) d in
  '(_, p) ← map_page hhdm_offset pml4 lapic_addr lapic_addr 3 p;
  let '(svr, d) := read32 (lapic 0xf0) d in
  let d := write32 (lapic 0xf0) (Z.lor svr 0x100) d in
  let '(_, d) := read32 (lapic 0xf0) d in
  Ok (p, d).

Definition init_bsp_lapic (hpet_address pml4 : Z) (p : pst) (d : dev) : outcome (pst * dev) :=
  '(p, d) ← enable_lapic pml4 p d;
  let d := write32 (lapic 0x3e0) 3 d in
  '(p, d) ← hpet_init hpet_address pml4 p d;
  d ← calibrate d;
  Ok (p, d).

Definition init_ap_lapic (pml4 : Z) (p : pst) (d : dev) : outcome (pst * dev) :=
  '(p, d) ← enable_lapic pml4 p d;
  d ← calibrate d;
  Ok (p, d).

(** ** The I/O APIC *)

Record ioapic_reg_t : Type := IoapicReg {
  vector : Z;
  delivery_mode : Z;
  destination_mode : Z;
  delivery_status : Z;
  pin_polarity : Z;
  remote_irr : Z;
  trigger_mode : Z;
  mask : Z;
  destination : Z
}.

(** The two words of the redirection entry. *)
Definition redtbl_low (r : ioapic_reg_t) : Z :=
  wrap32 (Z.lor (Z.land (vector r) 0xff) (Z.lor (Z.shiftl (delivery_mode r) 8) (Z.lor (Z.shiftl (destination_mode r) 11)
    (Z.lor (Z.shiftl (destination r) 12) (Z.lor (Z.shiftl (delivery_status r) 13) (Z.lor (Z.shiftl (pin_polarity r) 14)
    (Z.lor (Z.shiftl (trigger_mode r) 15) (Z.shiftl (mask r) 16)))))))).
Definition redtbl_high (r : ioapic_reg_t) : Z := wrap32 (Z.shiftl (destination r) 24).

Definition keyboard_redtbl : ioapic_reg_t := IoapicReg 224 0 0 0 0 0 0 0 0.

Definition init_ioapic (pml4 : Z) (p : pst) (d : dev) : outcome (pst * dev) :=
  let ioapic_base := 0xfec00000 in
  '(_, p) ← map_page hhdm_offset pml4 ioapic_base ioapic_base 3 p;
  let irq := 1 in
  let d := write32 ioapic_base (0x10 + irq * 2) d in
  let d := write32 (ioapic_base + 16) (redtbl_low keyboard_redtbl) d in
  let d := write32 ioapic_base (0x10 + irq * 2 + 1) d in
  let d := write32 (ioapic_base + 16) (redtbl_high keyboard_redtbl) d in
  let '(_, d) := inb 0x64 d in
  Ok (p, d).

Definition find_ioapic : Z := NULL.

(** ** Waiting *)

Context (core : Z) (Hcore : 0 <= core < NUM_CORES).
Context (Hid : forall tr, Z.shiftr (wrap32 (hw tr (Read32 (lapic 0x20)))) 24 = core).

Lemma lapic_core_ok d : lapic_core d = Ok (core, push (Read32 (lapic 0x20)) d).
Proof. unfold lapic_core, read32. rewrite Hid. by destruct (Z.ltb_spec core NUM_CORES); [|lia]. Qed.

Lemma sleep_handler_ok d : exists d', sleep_handler d = Ok d' /\ sleep_locks d' core = 0.
Proof. unfold sleep_handler. rewrite lapic_core_ok. cbn [mbind outcome_bind]. eexists. split; [done|]. cbn. apply upd_eq. Qed.

Lemma kpass_wait_returns irqs j : irqs j = true -> forall fuel k d, (k <= j < k + fuel)%nat ->
  exists d', kpass_wait fuel irqs k d = Ok d' /\ sleep_locks d' core = 0.
Proof.
  intros Hj. induction fuel as [|fuel IH]; intros k d Hk; [lia|]. cbn [kpass_wait]. destruct (irqs k) eqn:Ek; cbn [on_irq].
  - destruct (sleep_handler_ok d) as (d1 & -> & H1). cbn [mbind outcome_bind]. rewrite lapic_core_ok. cbn [mbind outcome_bind].
    cbn [push sleep_locks]. rewrite H1. eexists. by split.
  - cbn [mbind outcome_bind]. rewrite lapic_core_ok. cbn [mbind outcome_bind push sleep_locks].
    destruct (Z.eqb_spec (sleep_locks d core) 0); [eexists; by split|]. apply IH. assert (k <> j) by congruence. lia.
Qed.

Lemma kpass_wait_stuck irqs : (forall k, irqs k = false) -> forall fuel k d, sleep_locks d core <> 0 ->
  kpass_wait fuel irqs k d = Err OutOfFuel.
Proof.
  intros Hno. induction fuel as [|fuel IH]; intros k d Hd; [done|]. cbn [kpass_wait]. rewrite Hno. cbn [on_irq mbind outcome_bind].
  rewrite lapic_core_ok. cbn [mbind outcome_bind push sleep_locks]. destruct (Z.eqb_spec (sleep_locks d core) 0); [done|]. by apply IH.
Qed.

(** The state of [kpass] when it begins to wait. *)
Lemma kpass_start fuel early irqs ms d :
  exists d', sleep_locks d' core = 1 /\ kpass fuel early irqs ms d = kpass_wait fuel irqs 0 d'.
Proof.
  unfold kpass. rewrite lapic_core_ok. cbn [mbind outcome_bind]. destruct early; cbn [on_irq].
  - destruct (sleep_handler_ok (write32 (lapic 0x380) (timer_count ms (lapic_timer_converted
      (push (Read32 (lapic 32)) (write32 (lapic 800) 66 (write32 (lapic 992) 3 d))) core))
      (push (Read32 (lapic 32)) (write32 (lapic 800) 66 (write32 (lapic 992) 3 d))))) as (d1 & -> & _).
    cbn [mbind outcome_bind]. rewrite lapic_core_ok. cbn [mbind outcome_bind]. eexists. split; [|done]. cbn. apply upd_eq.
  - cbn [mbind outcome_bind]. rewrite lapic_core_ok. cbn [mbind outcome_bind]. eexists. split; [|done]. cbn. apply upd_eq.
Qed.

(** C38: [kpass] returns exactly when the timer interrupt arrives after it has set
    the lock: then it returns with the lock clear after at most one more test than there were
    before the interrupt. An interrupt between the start of the counter and
    the store to the lock is lost, and without another one [kpass] never returns. *)
Theorem kpass_waits (fuel : nat) (early : bool) (irqs : nat -> bool) (ms : Z) (d : dev) :
  (forall j, irqs j = true -> (j < fuel)%nat ->
     exists d', kpass fuel early irqs ms d = Ok d' /\ sleep_locks d' core = 0) /\
  ((forall k, irqs k = false) -> kpass fuel early irqs ms d = Err OutOfFuel).
Proof.
  destruct (kpass_start fuel early irqs ms d) as (d' & Hl & ->). split.
  - intros j Hj Hlt. apply (kpass_wait_returns irqs j Hj). lia.
  - intros Hno. apply (kpass_wait_stuck irqs Hno). lia.
Qed.

End Devices.

(** ** Conversions *)

Lemma tsc_ticks_to_ns_exact freq ticks :
  0 < freq -> freq * ONE_SECOND <= 2 ^ 64 -> 0 <= ticks -> ticks * ONE_SECOND / freq < 2 ^ 64 ->
  tsc_ticks_to_ns freq ticks = Ok (ticks * ONE_SECOND / freq).
Proof.
  unfold ONE_SECOND. intros Hf Hb Ht Hlt. unfold tsc_ticks_to_ns, ONE_SECOND. destruct (Z.eqb_spec freq 0); [lia|]. f_equal.
  pose proof (Z.mod_pos_bound ticks freq ltac:(lia)). rewrite (wrap64_small (ticks mod freq * _)) by nia.
  assert (ticks / freq * 1000000000 + ticks mod freq * 1000000000 / freq = ticks * 1000000000 / freq) as ->.
  { rewrite (Z.div_mod ticks freq) at 3 by lia. rewrite Z.mul_add_distr_r.
    replace (freq * (ticks / freq) * 1000000000) with (ticks / freq * 1000000000 * freq) by ring.
    by rewrite Z.div_add_l by lia. }
  apply wrap64_small. split; [|done]. apply Z.div_pos; lia.
Qed.

Lemma tsc_roundtrip freq ns r :
  0 < freq -> 0 <= ns -> r = freq * ns / ONE_SECOND * ONE_SECOND / freq -> r <= ns /\ (ns - r) * freq < ONE_SECOND + freq.
Proof.
  unfold ONE_SECOND. intros Hf Hn ->. set (t := freq * ns / 1000000000).
  pose proof (Z.div_mod (freq * ns) 1000000000 ltac:(lia)) as E1. pose proof (Z.mod_pos_bound (freq * ns) 1000000000 ltac:(lia)) as B1.
  fold t in E1. set (a := (freq * ns) mod 1000000000) in *.
  pose proof (Z.div_mod (t * 1000000000) freq ltac:(lia)) as E2. pose proof (Z.mod_pos_bound (t * 1000000000) freq ltac:(lia)) as B2.
  set (r := t * 1000000000 / freq) in *. set (b := (t * 1000000000) mod freq) in *. split; nia.
Qed.

Lemma ticks_per_second_error L D c :
  0 < D -> 0 <= L -> 1000000000000000 / D * L < 2 ^ 64 -> ticks_per_second L D = Ok c ->
  c <= 1000000000 * L / D <= c + L / 1000000 + 1.
Proof.
  intros HD HL Hlt. unfold ticks_per_second. destruct (Z.eqb_spec D 0); [lia|]. intros [= <-].
  pose proof (Z.div_mod 1000000000000000 D ltac:(lia)) as E1. pose proof (Z.mod_pos_bound 1000000000000000 D ltac:(lia)) as B1.
  assert (0 <= 1000000000000000 / D) by (apply Z.div_pos; lia).
  set (M := 1000000000000000 / D) in *. set (e := 1000000000000000 mod D) in *. rewrite wrap64_small by nia.
  pose proof (Z.div_mod (M * L) 1000000 ltac:(lia)) as E2. pose proof (Z.mod_pos_bound (M * L) 1000000 ltac:(lia)) as B2.
  set (c := M * L / 1000000) in *. set (f := (M * L) mod 1000000) in *.
  pose proof (Z.div_mod L 1000000 ltac:(lia)) as E3. pose proof (Z.mod_pos_bound L 1000000 ltac:(lia)) as B3.
  set (l := L / 1000000) in *. set (g := L mod 1000000) in *. split.
  - apply Z.div_le_lower_bound; [done|]. nia.
  - apply Z.lt_succ_r, Z.div_lt_upper_bound; [done|]. nia.
Qed.


(** ** Witnesses *)


Definition idle_hw : list access -> access -> Z := fun _ _ => 0.
Definition idle_dev : dev := Dev [] (fun _ => 0) (fun _ => 0) 0 0.

Lemma kpass_waits_witness :
  (exists d', kpass idle_hw 0xfee00000 5 false (fun k => Nat.eqb k 3) 10 idle_dev = Ok d' /\ sleep_locks d' 0 = 0) /\
  kpass idle_hw 0xfee00000 5 true (fun _ => false) 10 idle_dev = Err OutOfFuel.
Proof.
  split.
  - apply (kpass_waits idle_hw 0xfee00000 0 ltac:(unfold NUM_CORES; lia) (fun _ => eq_refl) 5 false (fun k => Nat.eqb k 3) 10 idle_dev)
      with 3%nat; [reflexivity|lia].
  - apply (kpass_waits idle_hw 0xfee00000 0 ltac:(unfold NUM_CORES; lia) (fun _ => eq_refl) 5 true (fun _ => false) 10 idle_dev).
    intros k. reflexivity.
Defined.
