(* ===== verification/Boot.v ===== *)
(** * Start-up of the boot processor: kmain of main.c

    [kmain] builds the frame map from the loader's memory map, copies the
    loader's top-level page table, sets up the descriptor tables, allocates the TSS,
    builds the heap and tests it. Here the components are composed in this
    order, on one memory; [kmain_boots] shows that what each of them
    promises holds when the heap test is done, and which blocks the first
    allocations return. *)

From S2P Require Import Prelude Memory Machine Frames Heap Paging Descriptors LoadImage HeapInit.

(** ** test_memory *)

(** [for (int i = 0; i < 10; i++) x[i] = i;] *)
Fixpoint fill_words (n : nat) (i : Z) (m : mem) (x : Z) : mem :=
  match n with
  | O => m
  | S n' => fill_words n' (i + 1) (store64 m (x + 8 * i) i) x
  end.

(** Whether the test passed; a null result of [kmalloc] is dereferenced. *)
Definition test_memory (s : mst) : outcome (bool * mst) :=
  '(x, s) ← kmalloc 10 s;
  if x =? NULL then Err NullDeref
  else
    let s := set_mm (fill_words 10 0 (mm s) x) s in
    head ← checked (heap_page_head s !! 0%nat) NullDeref;
    if negb ((load64 (mm s) x =? 0) && (load64 (mm s) (x + 40) =? 5)) && (status head =? 1) && (alloc_length head =? 10)
    then Ok (false, s)
    else
      s ← kfree x s;
      head ← checked (heap_page_head s !! 0%nat) NullDeref;
      Ok ((status head =? 0) && (alloc_length head =? 0), s).

(** The allocations of [kmain] after the timers: [a], [b] and the block of 4097 bytes. *)
Definition heap_trial (s : mst) : outcome (Z * Z * Z * mst) :=
  '(a, s) ← kmalloc_byte 4096 s;
  '(b, s) ← kmalloc_byte 4096 s;
  s ← kfree a s;
  '(c, s) ← kmalloc_byte 4097 s;
  s ← kfree b s;
  Ok (a, b, c, s).

(** The head of the heap after the test and after the trial. *)
Definition tested : list heap_page := fresh_heap 9 ++ [HeapPage 1 64 0].
Definition used_block (n : nat) (len : Z) : list heap_page := HeapPage 1 64 len :: replicate (n - 1) (HeapPage 1 64 0).

Lemma fill_words_test m : 
  load64 (fill_words 10 0 m HEAP_START_VIRT_DEFINED) HEAP_START_VIRT_DEFINED = 0 /\
  load64 (fill_words 10 0 m HEAP_START_VIRT_DEFINED) (HEAP_START_VIRT_DEFINED + 40) = 5.
Proof.
  set (h := HEAP_START_VIRT_DEFINED). cbn [fill_words]. split.
  - rewrite !load64_store64_ne by lia. replace (h + 8 * 0) with h by lia. by apply load64_store64_eq.
  - rewrite !load64_store64_ne by lia. by apply load64_store64_eq.
Qed.

Lemma test_memory_passes m i rs l r :
  test_memory (Mst m i rs l (fresh_heap 10 ++ r)) =
    Ok (true, Mst (fill_words 10 0 m HEAP_START_VIRT_DEFINED) i rs l (tested ++ r)).
Proof.
  destruct (fill_words_test m) as [E0 E5]. unfold test_memory.
  assert (kmalloc 10 (Mst m i rs l (fresh_heap 10 ++ r)) =
    Ok (HEAP_START_VIRT_DEFINED, Mst m i rs l (used_block 10 10 ++ r))) as -> by by destruct i.
  cbn [mbind outcome_bind]. change (HEAP_START_VIRT_DEFINED =? NULL) with false. cbn iota.
  cbn [mm set_mm heap_page_head]. cbn [checked lookup list_lookup app used_block mbind outcome_bind]. rewrite E0, E5. cbn [Z.eqb andb negb].
  set (m' := fill_words _ _ _ _). by destruct i.
Qed.

Lemma heap_trial_blocks m i rs l r :
  heap_trial (Mst m i rs l (tested ++ fresh_heap 193 ++ r)) =
    Ok (HEAP_START_VIRT_DEFINED + 64 * 1, HEAP_START_VIRT_DEFINED + 64 * 65, HEAP_START_VIRT_DEFINED + 64 * 129,
      Mst m i rs l (tested ++ used_block 64 64 ++ used_block 64 64 ++ used_block 65 65 ++ r)).
Proof. by destruct i; vm_compute. Qed.

Lemma heap_trial_spec s r :
  heap_page_head s = tested ++ fresh_heap 193 ++ r ->
  heap_trial s = Ok (HEAP_START_VIRT_DEFINED + 64 * 1, HEAP_START_VIRT_DEFINED + 64 * 65, HEAP_START_VIRT_DEFINED + 64 * 129,
    set_heap (tested ++ used_block 64 64 ++ used_block 64 64 ++ used_block 65 65 ++ r) s).
Proof. destruct s as [m i rs l h]. cbn [heap_page_head]. intros ->. apply heap_trial_blocks. Qed.

(** ** kmain *)

(** The list of nodes behind [heap_page_head]: what a walk along [next] reads. *)
Fixpoint heap_list (fuel : nat) (m : mem) (a : Z) : list heap_page :=
  match fuel with
  | O => []
  | S f => if a =? NULL then [] else HeapPage (m a) (load64 m (a + 8)) (load64 m (a + 16)) :: heap_list f m (load64 m (a + 24))
  end.

Lemma chain_heap_list l : forall m a, chain m a l -> heap_list (length l) m a = l.
Proof.
  induction l as [|n l IH]; intros m a; [done|]. intros (Ha & E1 & E2 & E3 & Hc). cbn [length heap_list].
  destruct (Z.eqb_spec a NULL); [done|]. rewrite E1, E2, E3, (IH _ _ Hc). by destruct n.
Qed.

Lemma chain_fresh n m a : chain m a (fresh_heap n) -> heap_list n m a = fresh_heap n.
Proof. intros H%chain_heap_list. unfold fresh_heap in *. by rewrite length_replicate in H. Qed.

Section Boot.
Context (hhdm_offset : Z).

(** The addresses of [gdt_table], of the local [gdtr] and of [idt], and the stubs of idt.asm. *)
Context (gdt_table gdtr idt : Z) (isr_stub_table : Z -> Z).

(** [init_memmaps(); init_physical_memory(); init_paging();]: [hhdm_offset] is what
    [init_physical_memory] stores. *)
Definition setup_memory (es : list limine_memmap_entry) (cr3 : Z) (s : mst) : outcome (Z * mst) :=
  '(rs, _) ← init_memmaps es;
  init_paging hhdm_offset cr3 (set_memmap rs s).

(** [setup_gdt(gdt_table); load_gdt(&gdtr, gdt_table); idt_init();] *)
Definition setup_tables (s : mst) (c : cpu) : mst * cpu :=
  let '(m, c) := load_gdt gdtr gdt_table (setup_gdt gdt_table (mm s)) c in
  let '(m, c) := idt_init idt isr_stub_table m c in
  (set_iflag (cpu_if c) (set_mm m s), c).

(** [tss = alloc_frame() + hhdm_offset; setup_tss(tss, gdt_table); load_tss();] *)
Definition setup_task (s : mst) (c : cpu) : outcome (Z * mst * cpu) :=
  '(frame, s) ← alloc_frame hhdm_offset s;
  let tss := wrap64 (frame + hhdm_offset) in
  Ok (tss, set_mm (setup_tss tss gdt_table (mm s)) s, load_tss c).

(** [kmain] from [init_memmaps] to [test_memory]: the top-level table, the TSS, whether the test
    passed, and the state. *)
Definition kmain_memory (es : list limine_memmap_entry) (cr3 : Z) (s : mst) (c : cpu) : outcome (Z * Z * bool * mst * cpu) :=
  '(pml4, s) ← setup_memory es cr3 s;
  let '(s, c) := setup_tables s c in
  '(tss, s, c) ← setup_task s c;
  '(_, heap_page_head, p) ← init_heap hhdm_offset pml4 (Pst s None);
  let s := set_heap (heap_list (Z.to_nat HEAP_NODES) (mm (ms p)) heap_page_head) (ms p) in
  '(passed, s) ← test_memory s;
  Ok (pml4, tss, passed, s, c).

(** ** The state the loader leaves *)

(** [x] is in no frame the loader says is usable. *)
Definition kernel_byte (es : list limine_memmap_entry) (x : Z) : Prop :=
  forall f, usable_frame es f -> ~ (f + hhdm_offset <= x < f + hhdm_offset + 4096).

(** The tables do not meet and are outside of the usable frames. *)
Record globals_ok (es : list limine_memmap_entry) : Prop := {
  gl_gdt : forall x, gdt_table <= x < gdt_table + 56 -> kernel_byte es x;
  gl_gdtr : forall x, gdtr <= x < gdtr + 10 -> kernel_byte es x;
  gl_idt : forall x, idt <= x < idt + 4096 -> kernel_byte es x;
  gl_gdt_gdtr : gdt_table + 56 <= gdtr \/ gdtr + 10 <= gdt_table;
  gl_gdt_idt : gdt_table + 56 <= idt \/ idt + 4096 <= gdt_table;
  gl_idt_gdtr : idt + 4096 <= gdtr \/ gdtr + 10 <= idt;
  gl_below : gdt_table + 56 <= HEAP_START_VIRT_DEFINED \/ HEAP_START_VIRT_DEFINED + 80 <= gdt_table;
  gl_idt_below : idt + 4096 <= HEAP_START_VIRT_DEFINED \/ HEAP_START_VIRT_DEFINED + 80 <= idt;
  gl_gdt_u64 : is_u64 gdt_table;
  gl_stubs : forall v, is_u64 (isr_stub_table v)
}.

(** The indices of the loader's top-level table that map nothing. *)
Definition unmapped_index (m : mem) (cr3 i : Z) : Prop := Z.land (entry m (cr3 + hhdm_offset) i) 1 = 0.

Record loader_ok (es : list limine_memmap_entry) (cr3 : Z) (m : mem) : Prop := {
  lo_count : (1 <= length es <= 32)%nat;
  lo_entries : Forall entry_ok es;
  lo_sorted : entries_sorted es;
  lo_frames : exists l, NoDup l /\ length l = S (S (Z.to_nat 81923)) /\ Forall (usable_frame es) l;
  lo_mem : mem_ok m;
  lo_cr3 : is_frame cr3;
  lo_table : ~ usable_frame es cr3;
  lo_heap : unmapped_index m cr3 384
}.

(** ** Copying the loader's table *)

Lemma copy_entries_spec n : forall i m dst src,
  mem_ok m -> 0 <= i -> i + Z.of_nat n <= 512 -> dst + 4096 <= src \/ src + 4096 <= dst ->
  let m' := copy_entries n i m dst src in
  mem_ok m' /\ same_outside m m' dst 4096 /\
  forall j, 0 <= j < 512 -> entry m' dst j = entry m (if (i <=? j) && (j <? i + Z.of_nat n) then src else dst) j.
Proof.
  induction n as [|n IH]; intros i m dst src Hok Hi Hn Hap; cbn [copy_entries].
  { split_and!; [done|done|]. intros j Hj. destruct (Z.leb_spec i j), (Z.ltb_spec j (i + Z.of_nat 0)); cbn; (done || lia). }
  set (m1 := store64 m (dst + 8 * i) (entry m src i)).
  destruct (IH (i + 1) m1 dst src) as (H1 & H2 & H3); [by apply store64_ok|lia|lia|done|]. split_and!; [done| |].
  - intros x Hx. rewrite H2 by done. apply store64_out. lia.
  - intros j Hj. rewrite H3 by done.
    assert (forall t k, 0 <= k < 512 -> t + 8 * k <> dst + 8 * i -> (t = dst \/ t = src) -> entry m1 t k = entry m t k) as Hne.
    { intros t k Hk Hne Ht. apply load64_store64_ne. lia. }
    destruct (Z.leb_spec (i + 1) j), (Z.ltb_spec j (i + 1 + Z.of_nat n)), (Z.leb_spec i j), (Z.ltb_spec j (i + Z.of_nat (S n)));
      cbn [andb]; try lia; try (apply Hne; lia).
    replace j with i by lia. apply load64_store64_eq. apply load64_range. done.
Qed.

Context (Hh : hhdm_ok hhdm_offset).

(** The state after [init_paging]: [m0] is the memory the loader left. *)
Record paged (es : list limine_memmap_entry) (cr3 : Z) (m0 : mem) (pml4 : Z) (n : nat) (s : mst) : Prop := {
  pg_inv : pt_inv hhdm_offset (unmapped_index m0 cr3) pml4 s;
  pg_enough : enough n (memmap_arr s);
  pg_data : forall x, kernel_byte es x -> data_byte hhdm_offset (unmapped_index m0 cr3) pml4 s x
}.

Lemma init_paging_copies cr3 s f s1 :
  allocated hhdm_offset s f s1 -> alloc_frame hhdm_offset s = Ok (f, s1) -> mem_ok (mm s) -> is_frame f -> is_frame cr3 -> f <> cr3 ->
  exists m, init_paging hhdm_offset cr3 s = Ok (f + hhdm_offset, set_mm m s1) /\ mem_ok m /\
    same_outside (mm s) m (f + hhdm_offset) 4096 /\
    forall i, 0 <= i < 512 -> entry m (f + hhdm_offset) i = entry (mm s) (cr3 + hhdm_offset) i.
Proof.
  intros Hal E Hm (Hf1 & Hf2 & Hf3) (Hc1 & Hc2 & Hc3) Hne. destruct Hh as (Hh0 & _ & Hh2).
  assert (f + hhdm_offset + 4096 <= cr3 + hhdm_offset \/ cr3 + hhdm_offset + 4096 <= f + hhdm_offset) as Hap
    by (Z.to_euclidean_division_equations; lia).
  destruct (copy_entries_spec 512 0 (mm s1) (f + hhdm_offset) (cr3 + hhdm_offset)) as (C1 & C2 & C3);
    [by apply (al_mem_ok _ _ _ _ Hal)|lia|lia|done|].
  eexists. split_and!; [|exact C1| |].
  - unfold init_paging. rewrite E. cbn [mbind outcome_bind]. by rewrite !wrap64_small by lia.
  - intros x Hx. rewrite C2 by done. by apply (al_frame _ _ _ _ Hal).
  - intros i Hi. rewrite C3 by done. destruct (Z.leb_spec 0 i), (Z.ltb_spec i (0 + Z.of_nat 512)); try lia.
    apply load64_ext. intros x Hx. apply (al_frame _ _ _ _ Hal). lia.
Qed.

Lemma setup_memory_spec es cr3 s :
  loader_ok es cr3 (mm s) ->
  exists pml4 s', setup_memory es cr3 s = Ok (pml4, s') /\ paged es cr3 (mm s) pml4 (S (Z.to_nat 81923)) s' /\
    (forall i, 0 <= i < 512 -> entry (mm s') pml4 i = entry (mm s) (cr3 + hhdm_offset) i) /\
    (forall x, kernel_byte es x -> mm s' x = mm s x).
Proof.
  intros [Hn Hok Hs (l & Hnd & Hll & Hfl) Hm Hc Ht _]. unfold setup_memory. rewrite init_memmaps_regions by done.
  cbn [mbind outcome_bind]. set (s0 := set_memmap (map region_of es) s).
  pose proof (regions_of_ok es Hok Hs) as Hr. pose proof (fun a => regions_of_free es a Hok) as Hfree.
  assert (enough (S (S (Z.to_nat 81923))) (memmap_arr s0)) as Hen.
  { exists l. split_and!; [done|exact Hll|]. eapply List.Forall_impl; [|exact Hfl]. intros a. apply Hfree. }
  destruct (alloc_frame_cases hhdm_offset s0 Hh Hr) as (f & s1 & Ef & [[Hal Hf0]|(_ & _ & Hno)]).
  2: { destruct l as [|a l]; [done|]. inv Hfl. by destruct (Hno a); apply Hfree. }
  pose proof (frame_free_aligned _ _ Hr (al_free _ _ _ _ Hal)) as (Hf1 & Hf2 & Hf3).
  assert (usable_frame es f) as Hfu by apply Hfree, (al_free _ _ _ _ Hal).
  destruct (init_paging_copies cr3 s0 f s1 Hal Ef Hm) as (m & Em & C1 & C2 & Hent); [by split_and!; [lia|..]|done|by intros -> |].
  change (mm s0) with (mm s) in C2, Hent.
  assert (forall p a, path_ok (unmapped_index (mm s) cr3) p -> table_at hhdm_offset m (f + hhdm_offset) p = Some a ->
    p = [] /\ a = f + hhdm_offset) as Htab.
  { intros [|i p] a [Hix Hp]; cbn [table_at]; [intros [= <-]; done|]. inv Hix. rewrite Hent by done.
    unfold unmapped_index in Hp. by rewrite Hp. }
  exists (f + hhdm_offset), (set_mm m s1). split; [exact Em|]. split; [split|split; [exact Hent|]].
  - split.
    + intros p q a Hp Hq _ _ Hpa Hqa. destruct (Htab _ _ Hp Hpa), (Htab _ _ Hq Hqa). congruence.
    + intros p a Hp _ Hpa. destruct (Htab _ _ Hp Hpa) as [_ ->]. exists f. split_and!; [done|lia|done|done|].
      intros [_ Hx]%(al_taken _ _ _ _ Hal). done.
    + apply (al_regions _ _ _ _ Hal).
    + done.
  - apply (enough_alloc _ _ _ _ _ Hal Hen).
  - intros x Hx. split.
    + intros g [Hg _]%(al_taken _ _ _ _ Hal). by apply Hx, Hfree.
    + intros q b Hq _ Hb. destruct (Htab _ _ Hq Hb) as [_ ->]. by apply Hx.
  - intros x Hx. cbn [mm set_mm]. apply C2. by apply Hx.
Qed.

Lemma paged_write es cr3 m0 pml4 n s m :
  paged es cr3 m0 pml4 n s -> mem_ok m -> (forall x, ~ data_byte hhdm_offset (unmapped_index m0 cr3) pml4 s x -> m x = mm s x) ->
  paged es cr3 m0 pml4 n (set_mm m s).
Proof.
  intros [H1 H2 H3] Hok Hx. assert (variant hhdm_offset (unmapped_index m0 cr3) pml4 s m) as Hv by done.
  split; [by apply variant_inv|done|]. intros x Hk. by apply variant_data, H3.
Qed.

Lemma paged_same es cr3 m0 pml4 n s s' :
  mm s' = mm s -> memmap_arr s' = memmap_arr s -> paged es cr3 m0 pml4 n s -> paged es cr3 m0 pml4 n s'.
Proof.
  intros E1 E2 [[I1 I2 I3 I4] H2 H3]. split; [split| |]; rewrite ?E1, ?E2; try done. intros x Hk. unfold data_byte. rewrite E1, E2. by apply H3.
Qed.

(** ** The descriptor tables *)

Definition gdt_entries : list Z :=
  [0; create_descriptor 0 0xFFFFF 0x9a 0x0a; create_descriptor 0 0xFFFFF 0x92 0x0c;
   create_descriptor 0 0xFFFFF 0xf2 0x0c; create_descriptor 0 0xFFFFF 0xfa 0x0a].

Record tables_at (m : mem) : Prop := {
  ta_gdt : forall k v, gdt_entries !! k = Some v -> load64 m (gdt_table + 8 * Z.of_nat k) = v;
  ta_idt : forall v, 0 <= v < 256 ->
    gate_offset m (idt + 16 * v) = isr_stub_table v /\ gate_selector m (idt + 16 * v) = 0x08 /\ gate_attributes m (idt + 16 * v) = 0x8E
}.

Lemma tables_at_ext m m' :
  (forall x, gdt_table <= x < gdt_table + 40 \/ idt <= x < idt + 4096 -> m' x = m x) -> tables_at m -> tables_at m'.
Proof.
  intros E [H1 H2]. split.
  - intros k v Hk. rewrite <- (H1 k v Hk). apply lookup_lt_Some in Hk. cbn in Hk. apply load64_ext. intros x Hx. apply E. lia.
  - intros v Hv. destruct (gate_ext m m' (idt + 16 * v)) as (-> & -> & ->); [|by apply H2]. intros x Hx. apply E. lia.
Qed.

Lemma setup_gdt_entries m k v : gdt_entries !! k = Some v -> load64 (setup_gdt gdt_table m) (gdt_table + 8 * Z.of_nat k) = v.
Proof.
  unfold gdt_entries, setup_gdt. intros Hk.
  do 5 (destruct k as [|k]; [injection Hk as <-; cbn [Z.of_nat]; rewrite ?Z.mul_0_r, ?Z.add_0_r, ?load64_store64_ne by lia;
    apply load64_store64_eq; split; vm_compute; congruence|]). done.
Qed.

Lemma setup_gdt_out m x : ~ (gdt_table <= x < gdt_table + 40) -> setup_gdt gdt_table m x = m x.
Proof. intros Hx. unfold setup_gdt. by rewrite !store64_out by lia. Qed.

Lemma idt_fill_ok n : forall v m, mem_ok m -> mem_ok (idt_fill n v idt isr_stub_table m).
Proof.
  induction n as [|n IH]; intros v m Hm; [done|]. cbn [idt_fill]. apply IH. unfold idt_set_descriptor.
  auto 10 using store16_ok, store32_ok, store8_ok.
Qed.

Lemma setup_tables_spec es s c :
  globals_ok es -> mem_ok (mm s) ->
  exists m, setup_tables s c = (set_iflag true (set_mm m s), Cpu gdt_table 55 idt 4095 0x08 0x10 0x10 (reg_tr c) true) /\
    mem_ok m /\ tables_at m /\
    forall x, ~ (gdt_table <= x < gdt_table + 40) -> ~ (gdtr <= x < gdtr + 10) -> ~ (idt <= x < idt + 4096) -> m x = mm s x.
Proof.
  intros G Hm. pose proof (gl_gdt_gdtr _ G). pose proof (gl_gdt_idt _ G). pose proof (gl_idt_gdtr _ G).
  set (m1 := store64 (store16 (setup_gdt gdt_table (mm s)) gdtr (8 * 7 - 1)) (gdtr + 2) gdt_table).
  assert (forall x, ~ (gdtr <= x < gdtr + 10) -> m1 x = setup_gdt gdt_table (mm s) x) as E1.
  { intros x Hx. unfold m1, store16. rewrite store64_out, store_le_outside by lia. done. }
  destruct (idt_fill_spec 256 0 idt isr_stub_table m1) as [Hout Hin]; [lia|lia|apply (gl_stubs _ G)|].
  rewrite Z.mul_0_r, Z.add_0_r in Hout. exists (idt_fill 256 0 idt isr_stub_table m1). split_and!.
  - unfold setup_tables, load_gdt. fold m1. unfold idt_init. f_equal. f_equal.
    + unfold m1. apply load64_store64_eq, (gl_gdt_u64 _ G).
    + unfold m1, load16, store16, store64. rewrite load_store_le_ne by lia. by rewrite load_le_store_eq by (cbn; lia).
  - apply idt_fill_ok. unfold m1, setup_gdt. auto 10 using store64_ok, store16_ok.
  - split; [|done]. intros k v Hk. rewrite <- (setup_gdt_entries (mm s) k v Hk). apply lookup_lt_Some in Hk. cbn in Hk.
    apply load64_ext. intros x Hx. rewrite Hout by lia. apply E1. lia.
  - intros x X1 X2 X3. rewrite Hout, E1 by lia. by apply setup_gdt_out.
Qed.

(** ** The task state segment *)

Record task_at (m : mem) (tss : Z) : Prop := {
  tk_base : tss_base (load64 m (gdt_table + 8 * 5)) (load64 m (gdt_table + 8 * 6)) = tss;
  tk_limit : seg_limit (load64 m (gdt_table + 8 * 5)) = SIZEOF_TSS;
  tk_access : seg_access (load64 m (gdt_table + 8 * 5)) = 0x89;
  tk_rsp0 : load64 m (tss + TSS_RSP0) = 0x1000000;
  tk_ist1 : load64 m (tss + TSS_IST1) = 0x11000000
}.

Lemma task_at_ext m m' tss :
  (forall x, gdt_table + 40 <= x < gdt_table + 56 \/ tss <= x < tss + 104 -> m' x = m x) -> task_at m tss -> task_at m' tss.
Proof.
  intros E [H1 H2 H3 H4 H5]. unfold TSS_RSP0, TSS_IST1 in *.
  split; rewrite ?(load64_ext m m') by (intros x Hx; apply E; unfold TSS_RSP0, TSS_IST1 in *; lia); done.
Qed.

Lemma setup_tss_spec m tss :
  is_u64 tss -> tss + 104 <= gdt_table \/ gdt_table + 56 <= tss -> mem_ok m ->
  let m' := setup_tss tss gdt_table m in
  mem_ok m' /\ task_at m' tss /\
  forall x, ~ (gdt_table + 40 <= x < gdt_table + 56) -> ~ (tss <= x < tss + 104) -> m' x = m x.
Proof.
  intros Ht Hap Hm m'. set (m1 := store16 (store64 (store64 (memset m tss 0 8) (tss + TSS_RSP0) 0x1000000) (tss + TSS_IST1) 0x11000000)
    (tss + TSS_IOMAP_BASE) 8).
  assert (m' = create_tss_descriptor tss SIZEOF_TSS gdt_table 5 m1) as -> by done.
  assert (forall x, ~ (gdt_table + 40 <= x < gdt_table + 56) -> create_tss_descriptor tss SIZEOF_TSS gdt_table 5 m1 x = m1 x) as E.
  { intros x Hx. unfold create_tss_descriptor. by rewrite !store64_out by lia. }
  destruct (tss_descriptor_decodes tss SIZEOF_TSS gdt_table 5 m1 Ht ltac:(unfold SIZEOF_TSS; lia)) as (D1 & D2 & D3 & _).
  unfold TSS_RSP0, TSS_IST1, TSS_IOMAP_BASE in *. split_and!.
  - unfold create_tss_descriptor, m1. auto 10 using store64_ok, store16_ok, memset_ok.
  - split; try done; rewrite (load64_ext m1) by (intros x Hx; apply E; unfold TSS_RSP0, TSS_IST1 in *; lia); unfold m1, store16, TSS_RSP0, TSS_IST1.
    + rewrite (load64_ext (store64 (store64 (memset m tss 0 8) (tss + 4) 0x1000000) (tss + 44) 0x11000000))
        by (intros x Hx; apply store_le_outside; cbn; lia).
      rewrite load64_store64_ne by lia. by apply load64_store64_eq.
    + rewrite (load64_ext (store64 (store64 (memset m tss 0 8) (tss + 4) 0x1000000) (tss + 44) 0x11000000))
        by (intros x Hx; apply store_le_outside; cbn; lia).
      by apply load64_store64_eq.
  - intros x H1 H2. rewrite E by done. unfold m1, store16. rewrite store_le_outside, !store64_out, memset_out by (cbn; lia). done.
Qed.

Lemma setup_task_spec es cr3 m0 pml4 n s c :
  globals_ok es -> paged es cr3 m0 pml4 (S n) s ->
  exists tss s', setup_task s c = Ok (tss, s', load_tss c) /\ paged es cr3 m0 pml4 n s' /\ task_at (mm s') tss /\ tss + 104 <= hhdm_offset + PHYS_LIMIT /\
    (forall x, tss <= x < tss + 104 -> data_byte hhdm_offset (unmapped_index m0 cr3) pml4 s' x) /\
    (forall x, kernel_byte es x -> ~ (gdt_table + 40 <= x < gdt_table + 56) -> mm s' x = mm s x).
Proof.
  intros G [H1 H2 H3]. destruct (fresh_frame hhdm_offset _ pml4 Hh s n H1 H2) as (f & s1 & Ef & Hal & (F1 & F2 & F3) & I1 & N1 & D1).
  pose proof (keeps_data_alloc hhdm_offset _ pml4 s f s1 H1 Hh Hal) as Hk. destruct Hh as (Hh0 & _ & Hh2).
  assert (forall x, data_byte hhdm_offset (unmapped_index m0 cr3) pml4 s x -> ~ (f + hhdm_offset <= x < f + hhdm_offset + 4096)) as Hav.
  { intros x [Hx _]. apply Hx, (al_free _ _ _ _ Hal). }
  destruct (setup_tss_spec (mm s1) (f + hhdm_offset)) as (M1 & M2 & M3); [unfold is_u64; lia| |apply (pi_mem _ _ _ _ I1)|].
  { pose proof (Hav (Z.max gdt_table (f + hhdm_offset))) as Hx. destruct (Z.le_gt_cases (f + hhdm_offset + 104) gdt_table); [by left|].
    destruct (Z.le_gt_cases (gdt_table + 56) (f + hhdm_offset)); [by right|]. exfalso. apply Hx; [|lia]. apply H3, (gl_gdt _ G). lia. }
  set (m := setup_tss (f + hhdm_offset) gdt_table (mm s1)) in *.
  assert (variant hhdm_offset (unmapped_index m0 cr3) pml4 s1 m) as Hv.
  { split; [done|]. intros x Hx. apply M3; intros Hr; apply Hx; [|apply D1; lia]. apply Hk, H3, (gl_gdt _ G). lia. }
  exists (f + hhdm_offset), (set_mm m s1). split_and!.
  - unfold setup_task. rewrite Ef. cbn [mbind outcome_bind]. by rewrite wrap64_small by lia.
  - split; [by apply variant_inv|done|]. intros x Hx. by apply variant_data, Hk, H3.
  - done.
  - lia.
  - intros x Hx. apply variant_data; [done|]. apply D1. lia.
  - intros x Hx Hg. cbn [mm set_mm]. rewrite M3; [by apply Hk, H3|done|]. intros Hr. apply (Hav x); [by apply H3|lia].
Qed.

(** ** The heap *)

Lemma heap_index_384 p : 0 <= p < 16384 -> pml4_index (HEAP_START_VIRT_DEFINED + p * 4096) = 384.
Proof.
  intros Hp. unfold pml4_index. rewrite index_div by lia. unfold HEAP_START_VIRT_DEFINED.
  replace ((0xffffc00000000000 + p * 4096) / 2 ^ 39) with 0x1ffff80; [done|].
  apply (Z.div_unique_pos _ _ _ (p * 4096)); lia.
Qed.

Lemma fill_words_out n : forall i m x y, 0 <= i -> ~ (x <= y < x + 8 * (i + Z.of_nat n)) -> fill_words n i m x y = m y.
Proof. induction n as [|n IH]; intros i m x y Hi Hy; [done|]. cbn [fill_words]. rewrite IH by lia. apply store64_out. lia. Qed.

Lemma fill_words_ok n : forall i m x, mem_ok m -> mem_ok (fill_words n i m x).
Proof. induction n as [|n IH]; intros i m x Hm; [done|]. by apply IH, store64_ok. Qed.

Lemma heap_nodes_many : (203 <= Z.to_nat HEAP_NODES)%nat.
Proof. assert (203 <= HEAP_NODES) by (vm_compute; congruence). lia. Qed.

Lemma fresh_heap_split k n : (k <= n)%nat -> fresh_heap n = fresh_heap k ++ fresh_heap (n - k).
Proof. intros Hn. unfold fresh_heap. rewrite <- replicate_add. f_equal. lia. Qed.

Lemma heap_head : fresh_heap (Z.to_nat HEAP_NODES) = fresh_heap 10 ++ fresh_heap (Z.to_nat HEAP_NODES - 10).
Proof. pose proof heap_nodes_many as Hn. revert Hn. generalize (Z.to_nat HEAP_NODES). intros n Hn. apply fresh_heap_split. lia. Qed.

Lemma heap_rest : fresh_heap (Z.to_nat HEAP_NODES - 10) = fresh_heap 193 ++ fresh_heap (Z.to_nat HEAP_NODES - 203).
Proof.
  pose proof heap_nodes_many as Hn. revert Hn. generalize (Z.to_nat HEAP_NODES). intros n Hn. rewrite (fresh_heap_split 193) by lia.
  by replace (n - 10 - 193)%nat with (n - 203)%nat by lia.
Qed.

Record booted (es : list limine_memmap_entry) (cr3 : Z) (m0 : mem) (pml4 tss : Z) (s : mst) (c : cpu) : Prop := {
  bt_inv : pt_inv hhdm_offset (unmapped_index m0 cr3) pml4 s;
  bt_tables : tables_at (mm s);
  bt_task : task_at (mm s) tss;
  bt_cpu : c = Cpu gdt_table 55 idt 4095 0x08 0x10 0x10 0x28 true;
  bt_pages : forall p, 0 <= p < 16384 -> exists f, is_frame f /\ page_frame hhdm_offset pml4 (mm s) (HEAP_START_VIRT_DEFINED + p * 4096) f 3;
  bt_heap : heap_page_head s = tested ++ fresh_heap (Z.to_nat HEAP_NODES - 10);
  bt_kernel : forall x, kernel_byte es x -> ~ (gdt_table <= x < gdt_table + 56) -> ~ (gdtr <= x < gdtr + 10) ->
    ~ (idt <= x < idt + 4096) -> ~ (HEAP_START_VIRT_DEFINED <= x < HEAP_START_VIRT_DEFINED + 80) -> mm s x = m0 x
}.

Context (Hlow : hhdm_offset + PHYS_LIMIT <= HEAP_START_VIRT_DEFINED).

(** The heap and its test, from the state after [load_tss]. *)
Lemma heap_tested es cr3 m0 pml4 s :
  unmapped_index m0 cr3 384 -> paged es cr3 m0 pml4 (Z.to_nat 81923) s ->
  exists head p s', init_heap hhdm_offset pml4 (Pst s None) = Ok (HEAP_START_VIRT_DEFINED, head, p) /\
    test_memory (set_heap (heap_list (Z.to_nat HEAP_NODES) (mm (ms p)) head) (ms p)) = Ok (true, s') /\
    pt_inv hhdm_offset (unmapped_index m0 cr3) pml4 s' /\
    (forall q, 0 <= q < 16384 -> exists f, is_frame f /\ page_frame hhdm_offset pml4 (mm s') (HEAP_START_VIRT_DEFINED + q * 4096) f 3) /\
    heap_page_head s' = tested ++ fresh_heap (Z.to_nat HEAP_NODES - 10) /\
    (forall x, data_byte hhdm_offset (unmapped_index m0 cr3) pml4 s x -> ~ (HEAP_START_VIRT_DEFINED <= x < HEAP_START_VIRT_DEFINED + 80) ->
       mm s' x = mm s x).
Proof.
  intros H384 [H1 H2 H3].
  assert (forall p, 0 <= p < 16384 -> unmapped_index m0 cr3 (pml4_index (HEAP_START_VIRT_DEFINED + p * 4096))) as Hdom
    by (intros p Hp; by rewrite heap_index_384).
  destruct (init_heap_built hhdm_offset _ pml4 Hh Hdom s 0 H1) as (F & G & s1 & Hi & Hb); [by rewrite Nat.add_0_r|].
  pose proof (built_chain hhdm_offset _ pml4 Hh s 0 F G s1 Hb) as Hc. destruct Hb as [B1 _ B3 _ _ B6 _ _ B9].
  apply chain_fresh in Hc. rewrite heap_head in Hc.
  set (m := fill_words 10 0 (mm s1) HEAP_START_VIRT_DEFINED).
  assert (variant hhdm_offset (unmapped_index m0 cr3) pml4 s1 m) as Hv.
  { split; [apply fill_words_ok, (pi_mem _ _ _ _ B1)|]. intros x Hx. apply fill_words_out; [lia|]. intros Hr.
    apply Hx, above_data; [done|lia]. }
  eexists _, _, _. split; [exact Hi|]. cbn [ms]. rewrite Hc. unfold set_heap. rewrite test_memory_passes. fold m.
  split; [done|]. split_and!.
  - pose proof (variant_inv hhdm_offset _ pml4 s1 m B1 Hv) as [I1 I2 I3 I4]. by split.
  - intros q Hq. exists (G q). split; [apply (nf_frame _ _ _ _ _ _ B6); lia|].
    apply (variant_page hhdm_offset (unmapped_index m0 cr3) pml4 s1); [done|by apply Hdom|apply B9; lia].
  - done.
  - intros x Hx Hr. cbn [mm]. unfold m. rewrite fill_words_out by lia. by apply B3.
Qed.

Lemma kmain_memory_steps es cr3 s c pml4 s1 s2 c2 tss s3 c3 start head p s4 :
  setup_memory es cr3 s = Ok (pml4, s1) -> setup_tables s1 c = (s2, c2) -> setup_task s2 c2 = Ok (tss, s3, c3) ->
  init_heap hhdm_offset pml4 (Pst s3 None) = Ok (start, head, p) ->
  test_memory (set_heap (heap_list (Z.to_nat HEAP_NODES) (mm (ms p)) head) (ms p)) = Ok (true, s4) ->
  kmain_memory es cr3 s c = Ok (pml4, tss, true, s4, c3).
Proof.
  intros E1 E2 E3 E4 E5. unfold kmain_memory. rewrite E1, bind_step, E2, E3, bind_step, E4, bind_step, E5, bind_step. reflexivity.
Qed.

(** C5: start-up composes. From a loader map with enough usable frames and a
    top-level table that maps nothing at the heap's index, [kmain] returns from [test_memory], which
    passes: the tables below the loader's free indices are a tree, the GDT, the TSS descriptor
    and the 256 gates of the IDT hold what they were given and the registers point to them, every
    page of the heap is mapped writable, and of the bytes outside of the usable
    frames only the tables, the GDTR and the ten words of the test have changed. But [kfree] of the test
    has left the tenth node used, so the blocks of 4096, 4096 and 4097 bytes that
    [kmain] allocates next start at nodes 10, 74 and 138 while their addresses are those of nodes
    1, 65 and 129, and neither of the two calls of [kfree] frees a node. *)
Theorem kmain_boots (es : list limine_memmap_entry) (cr3 : Z) (s : mst) (c : cpu)
    (G : globals_ok es) (L : loader_ok es cr3 (mm s)) :
  exists pml4 tss s' c' s2, kmain_memory es cr3 s c = Ok (pml4, tss, true, s', c') /\
    booted es cr3 (mm s) pml4 tss s' c' /\
    heap_trial s' = Ok (HEAP_START_VIRT_DEFINED + 64 * 1, HEAP_START_VIRT_DEFINED + 64 * 65, HEAP_START_VIRT_DEFINED + 64 * 129, s2) /\
    heap_page_head s2 = tested ++ used_block 64 64 ++ used_block 64 64 ++ used_block 65 65 ++ fresh_heap (Z.to_nat HEAP_NODES - 203).
Proof.
  destruct (setup_memory_spec es cr3 s L) as (pml4 & s1 & E1 & P1 & _ & K1).
  destruct (setup_tables_spec es s1 c G (pi_mem _ _ _ _ (pg_inv _ _ _ _ _ _ P1))) as (m & E2 & M2 & T2 & K2).
  set (s2 := set_iflag true (set_mm m s1)) in *. set (c2 := Cpu gdt_table 55 idt 4095 0x08 0x10 0x10 (reg_tr c) true) in *.
  assert (paged es cr3 (mm s) pml4 (S (Z.to_nat 81923)) s2) as P2.
  { apply (paged_same es cr3 (mm s) pml4 _ (set_mm m s1)); [done|done|]. apply paged_write; [done|done|]. intros x Hx.
    apply K2; intros Hr; apply Hx, (pg_data _ _ _ _ _ _ P1);
      [apply (gl_gdt _ G); lia|by apply (gl_gdtr _ G)|by apply (gl_idt _ G)]. }
  destruct (setup_task_spec es cr3 (mm s) pml4 _ s2 c2 G P2) as (tss & s3 & E3 & P3 & T3 & B3 & D3 & K3).
  destruct (heap_tested es cr3 (mm s) pml4 s3 (lo_heap _ _ _ L) P3) as (head & p & s4 & E4 & E5 & I4 & Pg & H4 & K4).
  pose proof (gl_gdt_gdtr _ G). pose proof (gl_gdt_idt _ G). pose proof (gl_below _ G). pose proof (gl_idt_below _ G).
  exists pml4, tss, s4, (load_tss c2),
    (set_heap (tested ++ used_block 64 64 ++ used_block 64 64 ++ used_block 65 65 ++ fresh_heap (Z.to_nat HEAP_NODES - 203)) s4).
  split; [|split; [|split]].
  - exact (kmain_memory_steps es cr3 s c pml4 s1 s2 c2 tss s3 (load_tss c2) _ head p s4 E1 E2 E3 E4 E5).
  - split; [exact I4| | |reflexivity|exact Pg|exact H4|].
    + apply (tables_at_ext m); [|done]. intros x Hx. change m with (mm s2). assert (kernel_byte es x) as Hk.
      { destruct Hx; [apply (gl_gdt _ G); lia|by apply (gl_idt _ G)]. }
      rewrite K4; [apply K3; [done|lia]|by apply (pg_data _ _ _ _ _ _ P3)|lia].
    + apply (task_at_ext (mm s3)); [|done]. intros x [Hx|Hx].
      * apply K4; [|lia]. apply (pg_data _ _ _ _ _ _ P3), (gl_gdt _ G). lia.
      * apply K4; [by apply D3|lia].
    + intros x Hk N1 N2 N3 N4. rewrite K4, K3; [|done|lia|by apply (pg_data _ _ _ _ _ _ P3)|done].
      change (mm s2) with m. rewrite K2 by lia. by apply K1.
  - apply heap_trial_spec. rewrite H4, heap_rest. reflexivity.
  - reflexivity.
Qed.

End Boot.

(** ** Witness *)

Definition boot_map : list limine_memmap_entry := [Entry 0x100000 0x20000000 0].

Lemma boot_frames n : (0 <= n <= 131072)%Z -> exists l, NoDup l /\ length l = Z.to_nat n /\ Forall (usable_frame boot_map) l.
Proof.
  intros Hn. exists ((fun i => 0x100000 + i * 4096) <$> seqZ 0 n). split_and!.
  - apply NoDup_fmap_2; [intros i j; lia|apply NoDup_seqZ].
  - by rewrite length_fmap, length_seqZ.
  - apply Forall_fmap, Forall_forall. intros i Hi%list_elem_of_In%elem_of_seqZ.
    exists (Entry 0x100000 0x20000000 0), i. split_and!; [left|done|lia| |done]. change (e_length _ / 4096) with 131072. lia.
Qed.

Lemma boot_loader_ok : loader_ok sample_hhdm boot_map 0x1000 (fun _ => 0).
Proof.
  split.
  - cbn. lia.
  - repeat constructor; vm_compute; congruence.
  - repeat constructor.
  - destruct (boot_frames 81925) as (l & H1 & H2 & H3); [lia|]. exists l. split_and!; [done| |done]. rewrite H2. rewrite <- !Z2Nat.inj_succ by lia. done.
  - intros x. lia.
  - repeat split; vm_compute; congruence.
  - intros (e & i & He%list_elem_of_singleton & _ & Hi & E). subst e. cbn in E. lia.
  - done.
Qed.

Lemma boot_high_byte x : 0xffffffff80000000 <= x -> kernel_byte sample_hhdm boot_map x.
Proof.
  intros Hx f (e & i & He%list_elem_of_singleton & _ & Hi & ->). subst e. cbn in Hi |- *. change (0x20000000 / 4096) with 131072 in Hi.
  unfold sample_hhdm. lia.
Qed.

Definition boot_gdt : Z := 0xffffffff80010000.
Definition boot_gdtr : Z := 0xffffffff80020000.
Definition boot_idt : Z := 0xffffffff80030000.

Lemma boot_globals_ok : globals_ok sample_hhdm boot_gdt boot_gdtr boot_idt sample_stubs boot_map.
Proof.
  unfold boot_gdt, boot_gdtr, boot_idt. split; try (intros x Hx; apply boot_high_byte; lia); unfold HEAP_START_VIRT_DEFINED, is_u64; try lia.
  intros v. unfold sample_stubs. pose proof (Z.mod_pos_bound v 256 ltac:(lia)). lia.
Qed.

Lemma kmain_boots_witness :
  exists pml4 tss s' c', kmain_memory sample_hhdm boot_gdt boot_gdtr boot_idt sample_stubs boot_map 0x1000 boot_state sample_cpu =
      Ok (pml4, tss, true, s', c') /\
    heap_page_head s' = tested ++ fresh_heap (Z.to_nat HEAP_NODES - 10).
Proof.
  destruct (kmain_boots sample_hhdm boot_gdt boot_gdtr boot_idt sample_stubs sample_hhdm_ok) with boot_map 0x1000 boot_state sample_cpu
    as (pml4 & tss & s' & c' & s2 & H1 & H2 & _).
  - vm_compute. discriminate.
  - exact boot_globals_ok.
  - exact boot_loader_ok.
  - exists pml4, tss, s', c'. split; [exact H1|]. exact (bt_heap _ _ _ _ _ _ _ _ _ _ _ _ H2).
Defined.
