(* ===== verification/KernelApi.v ===== *)
(** * The callbacks of the uACPI library: kernel_api.c

    The uACPI library asks the kernel for memory and for mappings;
    [uacpi_kernel_map_identity] shows that a range it maps can be read and
    written at its physical address. *)

From S2P Require Import Prelude Memory Machine Frames Heap Paging Loader LoadImage HeapInit.

(** ** kernel_api.c *)

Definition uacpi_kernel_alloc (size : Z) (s : mst) : outcome (Z * mst) := kmalloc_byte size s.
Definition uacpi_kernel_free (ptr : Z) (s : mst) : outcome mst := kfree ptr s.

(** uacpi/status.h *)
Inductive uacpi_status : Type :=
| UACPI_STATUS_OK
| UACPI_STATUS_MAPPING_FAILED
| UACPI_STATUS_OUT_OF_MEMORY
| UACPI_STATUS_BAD_CHECKSUM
| UACPI_STATUS_INVALID_SIGNATURE
| UACPI_STATUS_INVALID_TABLE_LENGTH
| UACPI_STATUS_NOT_FOUND
| UACPI_STATUS_INVALID_ARGUMENT
| UACPI_STATUS_UNIMPLEMENTED
| UACPI_STATUS_ALREADY_EXISTS
| UACPI_STATUS_INTERNAL_ERROR
| UACPI_STATUS_TYPE_MISMATCH
| UACPI_STATUS_INIT_LEVEL_MISMATCH
| UACPI_STATUS_NAMESPACE_NODE_DANGLING
| UACPI_STATUS_NO_HANDLER
| UACPI_STATUS_NO_RESOURCE_END_TAG
| UACPI_STATUS_COMPILED_OUT
| UACPI_STATUS_HARDWARE_TIMEOUT
| UACPI_STATUS_TIMEOUT
| UACPI_STATUS_OVERRIDDEN
| UACPI_STATUS_DENIED.

#[export] Instance uacpi_status_eq_dec : EqDecision uacpi_status.
Proof. solve_decision. Defined.

(** The status and the address stored to [out_rsdp_address]. *)
Definition uacpi_kernel_get_rsdp (rsdp_address : Z) : uacpi_status * Z := (UACPI_STATUS_OK, rsdp_address).

Definition uacpi_kernel_unmap (addr len : Z) : outcome unit :=
  if addr =? NULL then Err AssertFailed else Ok tt.

Section KernelApi.
Context (hhdm_offset : Z).

(** The first page and the number of pages of a range. *)
Definition map_down (addr : Z) : Z := Z.land addr PAGE_MASK.
Definition map_up (addr len : Z) : Z :=
  if Z.land (wrap64 (addr + len)) 0xfff =? 0 then wrap64 (addr + len)
  else wrap64 (Z.land (wrap64 (addr + len)) PAGE_MASK + 4096).

Definition uacpi_kernel_map (pml4_address_virt_glob addr len : Z) (p : pst) : outcome (Z * pst) :=
  let down := map_down addr in
  let size := wrap64 (map_up addr len - down) / 4096 in
  p ← loop size (fun i p =>
        '(_, p) ← map_page hhdm_offset pml4_address_virt_glob (wrap64 (down + i * 4096)) (wrap64 (down + i * 4096)) 3 p; Ok p) p;
  Ok (addr, p).

(** ** Mapping a range *)

Lemma map_down_page addr : is_u64 addr -> map_down addr = addr / 4096 * 4096.
Proof. apply land_page_mask. Qed.

(** The pages from [addr] to [addr + len]. *)
Definition map_size (addr len : Z) : Z := (addr + len + 4095) / 4096 - addr / 4096.

Lemma map_up_page addr len :
  0 <= addr -> 0 <= len -> addr + len <= PHYS_LIMIT -> map_up addr len = (addr + len + 4095) / 4096 * 4096.
Proof.
  unfold PHYS_LIMIT. intros Ha Hl Hlt. unfold map_up. rewrite (wrap64_small (addr + len)) by lia. rewrite land_fff.
  rewrite land_page_mask by (unfold is_u64; lia). destruct (Z.eqb_spec ((addr + len) mod 4096) 0).
  - Z.to_euclidean_division_equations. lia.
  - rewrite wrap64_small; Z.to_euclidean_division_equations; lia.
Qed.

Context (dom : Z -> Prop) (pml4 : Z) (Hh : hhdm_ok hhdm_offset).
Local Abbreviation pt_inv := (pt_inv hhdm_offset dom pml4).
Local Abbreviation keeps_data := (keeps_data hhdm_offset dom pml4).
Local Abbreviation keeps_pages := (keeps_pages hhdm_offset dom pml4).
Local Abbreviation page_frame := (page_frame hhdm_offset pml4).

(** [N] pages from page [q] mapped to themselves. *)
Lemma map_identity_spec s q N n :
  pt_inv s -> 0 <= q -> 0 <= N -> (q + N) * 4096 <= PHYS_LIMIT -> enough (Z.to_nat (3 * N) + n) (memmap_arr s) ->
  (forall i, 0 <= i < N -> dom (pml4_index ((q + i) * 4096))) ->
  exists s', loop N (fun i p => '(_, p) ← map_page hhdm_offset pml4 (wrap64 (q * 4096 + i * 4096)) (wrap64 (q * 4096 + i * 4096)) 3 p; Ok p)
      (Pst s None) = Ok (Pst s' None) /\
    pt_inv s' /\ enough n (memmap_arr s') /\ keeps_data s s' /\ keeps_pages s s' (fun p => q <= p < q + N) /\
    forall i, 0 <= i < N -> page_frame (mm s') ((q + i) * 4096) ((q + i) * 4096) 3.
Proof.
  intros Hinv Hq HN Hlim Hen Hdom. unfold PHYS_LIMIT in Hlim.
  destruct (loop_inv (fun j p => exists s', p = Pst s' None /\ pt_inv s' /\ enough (Z.to_nat (3 * (N - j)) + n) (memmap_arr s') /\
      keeps_data s s' /\ keeps_pages s s' (fun p => q <= p < q + j) /\
      forall i, 0 <= i < j -> page_frame (mm s') ((q + i) * 4096) ((q + i) * 4096) 3)
    (fun i p => '(_, p) ← map_page hhdm_offset pml4 (wrap64 (q * 4096 + i * 4096)) (wrap64 (q * 4096 + i * 4096)) 3 p; Ok p)
    N (Pst s None) HN) as (p' & Hl & s' & -> & H1 & H2 & H3 & H4 & H5).
  - exists s. rewrite Z.sub_0_r. split_and!; try done; [by intros x Hx|intros; lia].
  - intros j p Hj (s1 & -> & I1 & N1 & K1 & P1 & F1). rewrite wrap64_small by lia.
    replace (q * 4096 + j * 4096) with ((q + j) * 4096) by lia.
    destruct (map_page_spec hhdm_offset dom pml4 Hh s1 ((q + j) * 4096) ((q + j) * 4096) 3 (Z.to_nat (3 * (N - (j + 1))) + n))
      as (s2 & -> & I2 & N2 & K2 & P2 & F2); try done; try (by apply Hdom).
    { by replace (3 + _)%nat with (Z.to_nat (3 * (N - j)) + n)%nat by lia. }
    { split_and!; [lia|unfold PHYS_LIMIT; lia|]. by rewrite Z.mod_mul. }
    assert (forall i, 0 <= i -> q + i < 2 ^ 36 -> vpage ((q + i) * 4096) = q + i) as Hvp.
    { intros i Hi Hlt. unfold vpage. rewrite Z.div_mul by done. apply Z.mod_small. lia. }
    cbn [mbind outcome_bind]. eexists. split; [done|]. exists s2. split_and!; try done.
    + by eapply keeps_data_trans.
    + intros w f perm Hdw Hw Hf. apply P2; [done| |apply P1; [done| |done]].
      * rewrite Hvp by lia. intros E. apply Hw. lia.
      * intros Hr. apply Hw. lia.
    + intros i Hi. destruct (decide (i = j)) as [-> |]; [done|]. apply P2; [apply Hdom; lia| |apply F1; lia].
      rewrite !Hvp by lia. lia.
  - exists s'. rewrite Z.sub_diag in H2. by split_and!.
Qed.

(** [v] is mapped to itself. *)
Definition ident (m : mem) (v : Z) : Prop := page_frame m (v / 4096 * 4096) (v / 4096 * 4096) 3.

Lemma ident_resolve s v : pt_inv s -> dom (pml4_index v) -> 0 <= v < PHYS_LIMIT -> ident (mm s) v ->
  resolve hhdm_offset (mm s) pml4 v = Ok (v + hhdm_offset).
Proof.
  intros Hinv Hd Hv (t & Ht & He). destruct (page_indices v (v / 4096 * 4096)) as (E1 & E2 & E3); [by rewrite Z.div_mul|].
  rewrite (resolve_page hhdm_offset dom pml4 Hh s v (v / 4096 * 4096) 3); try done.
  - f_equal. rewrite page_offset_mod. pose proof (Z.div_mod v 4096 ltac:(done)). lia.
  - unfold PHYS_LIMIT in *. lia.
  - exists t. by rewrite E1, E2.
  - unfold is_frame, PHYS_LIMIT in *. rewrite Z.mod_mul by done. Z.to_euclidean_division_equations. lia.
Qed.

(** What is mapped to itself stays so. *)
Lemma uacpi_kernel_map_spec s addr len n :
  pt_inv s -> 0 <= addr -> 0 <= len -> addr + len <= PHYS_LIMIT -> enough (Z.to_nat (3 * map_size addr len) + n) (memmap_arr s) ->
  (forall i, 0 <= i < map_size addr len -> dom (pml4_index ((addr / 4096 + i) * 4096))) ->
  exists s', uacpi_kernel_map pml4 addr len (Pst s None) = Ok (addr, Pst s' None) /\
    pt_inv s' /\ enough n (memmap_arr s') /\ keeps_data s s' /\
    keeps_pages s s' (fun p => addr / 4096 <= p < addr / 4096 + map_size addr len) /\
    (forall v, addr <= v < addr + len -> ident (mm s') v) /\
    (forall v, 0 <= v < PHYS_LIMIT -> dom (pml4_index v) -> ident (mm s) v -> ident (mm s') v).
Proof.
  intros Hinv Ha Hl Hlim Hen Hdom. unfold uacpi_kernel_map.
  rewrite map_up_page, map_down_page by (done || unfold is_u64, PHYS_LIMIT in *; lia).
  set (q := addr / 4096) in *. assert (0 <= q) as Hq by (apply Z.div_pos; lia).
  assert (0 <= map_size addr len /\ (q + map_size addr len) * 4096 <= PHYS_LIMIT) as [HN Hlim'].
  { unfold map_size, q, PHYS_LIMIT in *. Z.to_euclidean_division_equations. lia. }
  replace (wrap64 ((addr + len + 4095) / 4096 * 4096 - q * 4096) / 4096) with (map_size addr len).
  2: { unfold map_size. fold q. rewrite <- Z.mul_sub_distr_r. fold q in HN. unfold map_size in HN, Hlim'. fold q in HN, Hlim'.
       unfold PHYS_LIMIT in *. rewrite wrap64_small by lia. by rewrite Z.div_mul. }
  destruct (map_identity_spec s q (map_size addr len) n) as (s' & -> & H1 & H2 & H3 & H4 & H5); try done.
  cbn [mbind outcome_bind]. exists s'. split_and!; try done.
  - intros v Hv. set (i := v / 4096 - q). assert (0 <= i < map_size addr len) as Hi.
    { unfold i, map_size, q. Z.to_euclidean_division_equations. lia. }
    unfold ident. replace (v / 4096) with (q + i) by (unfold i; lia). by apply H5.
  - intros v Hv Hd Hid. unfold ident in *.
    assert (vpage (v / 4096 * 4096) = v / 4096) as Ev.
    { unfold vpage. rewrite Z.div_mul by done. apply Z.mod_small. unfold PHYS_LIMIT in Hv. Z.to_euclidean_division_equations. lia. }
    destruct (decide (q <= v / 4096 < q + map_size addr len)) as [Hin|Hout].
    + replace (v / 4096) with (q + (v / 4096 - q)) by lia. apply H5. lia.
    + apply H4; [|by rewrite Ev|done]. by rewrite (proj2 (proj2 (page_indices (v / 4096 * 4096) v ltac:(by rewrite Z.div_mul)))).
Qed.

(** [uacpi_kernel_map] makes a range of physical memory accessible at its own addresses: with
    enough free frames it returns the address it was given, and the processor
    translates every address of the range to the byte of physical memory at this address, whether or
    not the ends are on page boundaries; the page tables stay well formed, no data changes and the
    pages outside the range keep their mapping. *)
Theorem uacpi_kernel_map_identity (s : mst) (addr len : Z)
    (Hinv : pt_inv s) (Ha : 0 <= addr) (Hl : 0 <= len) (Hlim : addr + len <= PHYS_LIMIT)
    (Hen : enough (Z.to_nat (3 * map_size addr len)) (memmap_arr s))
    (Hdom : forall i, 0 <= i < map_size addr len -> dom (pml4_index ((addr / 4096 + i) * 4096))) :
  exists s', uacpi_kernel_map pml4 addr len (Pst s None) = Ok (addr, Pst s' None) /\
    pt_inv s' /\ keeps_data s s' /\
    keeps_pages s s' (fun p => addr / 4096 <= p < addr / 4096 + map_size addr len) /\
    forall v, addr <= v < addr + len -> resolve hhdm_offset (mm s') pml4 v = Ok (v + hhdm_offset).
Proof.
  destruct (uacpi_kernel_map_spec s addr len 0) as (s' & -> & H1 & _ & H2 & H3 & H4 & _); try done; [by rewrite Nat.add_0_r|].
  exists s'. split_and!; try done. intros v Hv. apply ident_resolve; [done| |lia|by apply H4].
  set (i := v / 4096 - addr / 4096). assert (0 <= i < map_size addr len) as Hi.
  { unfold i, map_size. Z.to_euclidean_division_equations. lia. }
  destruct (page_indices v ((addr / 4096 + i) * 4096)) as (_ & _ & ->); [rewrite Z.div_mul by done; unfold i; lia|]. by apply Hdom.
Qed.

End KernelApi.

(** ** Witness *)

Lemma uacpi_kernel_map_identity_witness :
  exists s', uacpi_kernel_map sample_hhdm sample_pml4 0xe0ffa 0x24 (Pst boot_state None) = Ok (0xe0ffa, Pst s' None) /\
    resolve sample_hhdm (mm s') sample_pml4 0xe1010 = Ok (0xe1010 + sample_hhdm).
Proof.
  destruct (uacpi_kernel_map_identity sample_hhdm (fun _ => True) sample_pml4 sample_hhdm_ok boot_state 0xe0ffa 0x24)
    as (s' & H1 & _ & _ & _ & H2).
  - exact boot_state_inv.
  - lia.
  - lia.
  - vm_compute. discriminate.
  - apply (boot_state_enough 6); lia.
  - intros i Hi. exact I.
  - exists s'. split; [exact H1|]. apply H2. lia.
Defined.
