(* ===== verification/Acpi.v ===== *)
(** * The search of the ACPI tables (K/apic.c)

    [acpi_parse_rsdp] and its helpers: the root pointer leads to the table of tables, of 64-bit or
    32-bit addresses, and the globals [ACPI_MADT] and [ACPI_HPET] get the tables with the
    signatures APIC and HPET.  Everything is read through the processor's translation. *)

From S2P Require Import Prelude Memory Machine Frames Heap Paging Loader LoadImage HeapInit.

Local Open Scope list_scope.

(** The globals. *)
Record acpi : Type := Acpi {
  ACPI_MADT : Z;
  ACPI_HPET : Z
}.

(** Offsets of [struct SDTHeader], [struct RSDP] and [struct XSDP]. *)
Definition SDT_LENGTH : Z := 4.
Definition SIZEOF_SDT : Z := 36.
Definition RSDP_REVISION : Z := 15.
Definition RSDP_RSDT : Z := 16.
Definition SIZEOF_RSDP : nat := 20.
Definition XSDP_XSDT : Z := 24.
Definition SIZEOF_XSDP : nat := 36.
Definition MADT_LAPIC_ADDR : Z := 36.
Definition HPET_ADDRESS : Z := 44.

Definition sig_apic : list Z := [65; 80; 73; 67].
Definition sig_hpet : list Z := [72; 80; 69; 84].

Section Acpi.
Context (hhdm_offset pml4_address_virt_glob : Z).

Definition rd (n : nat) (m : mem) (a : Z) : outcome Z := vread hhdm_offset n m pml4_address_virt_glob a.

(** [for (i = 0; i < n; ++i) checksum += ((const uint8_t * ) p)[i];] *)
Fixpoint checksum (n : nat) (m : mem) (p sum : Z) : outcome Z :=
  match n with
  | O => Ok sum
  | S n' => b ← rd 1 m p; checksum n' m (wrap64 (p + 1)) (wrap8 (sum + b))
  end.

(** The checksums; a sum other than 0 is printed and otherwise ignored. *)
Definition validate_sdt (m : mem) (pSDT : Z) : outcome Z :=
  length ← rd 4 m (wrap64 (pSDT + SDT_LENGTH)); checksum (Z.to_nat length) m pSDT 0.
Definition validate_rsdp (m : mem) (pRSDP : Z) : outcome Z := checksum SIZEOF_RSDP m pRSDP 0.
Definition validate_xsdp (m : mem) (pXSDP : Z) : outcome Z := checksum SIZEOF_XSDP m pXSDP 0.

(** [match]: all four characters are compared. *)
Fixpoint signature_is (sig : list Z) (m : mem) (p : Z) : outcome bool :=
  match sig with
  | [] => Ok true
  | c :: sig' => b ← rd 1 m p; rest ← signature_is sig' m (wrap64 (p + 1)); Ok ((b =? c) && rest)
  end.

(** The addresses in the two tables are read to be printed. *)
Definition parse_sdt (m : mem) (pSDT : Z) (g : acpi) : outcome acpi :=
  _ ← validate_sdt m pSDT;
  is_apic ← signature_is sig_apic m pSDT;
  g ← (if (is_apic : bool) then _ ← rd 4 m (wrap64 (pSDT + MADT_LAPIC_ADDR)); Ok (Acpi pSDT (ACPI_HPET g)) else Ok g);
  is_hpet ← signature_is sig_hpet m pSDT;
  if (is_hpet : bool) then _ ← rd 8 m (wrap64 (pSDT + HPET_ADDRESS)); Ok (Acpi (ACPI_MADT g) pSDT) else Ok g.

(** The loop over the [num_sdts] addresses of [w] bytes each after the header of the table [root]. *)
Definition parse_sdts (w : nat) (m : mem) (root num_sdts : Z) (g : acpi) : outcome acpi :=
  loop num_sdts (fun i g =>
    sdt ← rd w m (wrap64 (root + SIZEOF_SDT + Z.of_nat w * i)); parse_sdt m sdt g) g.

(** The table of tables: mapped to its own address, checked, and its entries parsed. *)
Definition parse_root (w : nat) (root_field pRSDP : Z) (p : pst) (g : acpi) : outcome (acpi * pst) :=
  root ← rd w (pmem p) (wrap64 (pRSDP + root_field));
  '(_, p) ← map_page hhdm_offset pml4_address_virt_glob root root 3 p;
  root ← rd w (pmem p) (wrap64 (pRSDP + root_field));
  _ ← validate_sdt (pmem p) root;
  length ← rd 4 (pmem p) (wrap64 (root + SDT_LENGTH));
  g ← parse_sdts w (pmem p) root (wrap64 (length - SIZEOF_SDT) / Z.of_nat w) g;
  Ok (g, p).

(** The six characters of [OEMID] are among the bytes [validate_rsdp] reads. *)
Definition acpi_parse_rsdp (pRSDP : Z) (p : pst) (g : acpi) : outcome (acpi * pst) :=
  _ ← validate_rsdp (pmem p) pRSDP;
  revision ← rd 1 (pmem p) (wrap64 (pRSDP + RSDP_REVISION));
  if 0 <? revision then
    _ ← validate_xsdp (pmem p) pRSDP;
    parse_root 8 XSDP_XSDT pRSDP p g
  else parse_root 4 RSDP_RSDT pRSDP p g.

(** ** What is read *)

(** The [n] addresses from [a] on are mapped, and show the bytes of [view]. *)
Definition shows (m view : mem) (a n : Z) : Prop :=
  0 <= a /\ a + n <= 2 ^ 64 /\
  forall v, a <= v < a + n -> exists x, resolve hhdm_offset m pml4_address_virt_glob v = Ok x /\ m x = view v.

Lemma shows_sub m view a n b k : shows m view a n -> a <= b -> b + k <= a + n -> shows m view b k.
Proof. intros (H1 & H2 & H3) Hb Hk. split_and!; [lia|lia|]. intros v Hv. apply H3. lia. Qed.

Lemma rd_shows n : forall m view a, shows m view a (Z.of_nat n) -> rd n m a = Ok (load_le n view a).
Proof.
  unfold rd. induction n as [|n IH]; intros m view a (H1 & H2 & H3); [done|]. cbn [vread load_le].
  destruct (H3 a) as (x & -> & Hx); [lia|]. cbn [mbind outcome_bind].
  destruct n as [|n]; [cbn; by rewrite Hx|]. rewrite wrap64_small by lia. rewrite (IH m view (a + 1)); [cbn [mbind outcome_bind]; by rewrite Hx|].
  apply (shows_sub m view a (Z.of_nat (S (S n)))); [done|lia|lia].
Qed.

Lemma checksum_shows n : forall m view a sum, shows m view a (Z.of_nat n) -> exists c, checksum n m a sum = Ok c.
Proof.
  induction n as [|n IH]; intros m view a sum Hs; cbn [checksum]; [by eexists|].
  rewrite (rd_shows 1 m view) by (apply (shows_sub _ _ _ _ _ _ Hs); lia). cbn [mbind outcome_bind].
  destruct n as [|n]; [by eexists|]. pose proof Hs as (H1 & H2 & _). rewrite wrap64_small by lia.
  apply (IH m view). apply (shows_sub _ _ _ _ _ _ Hs); lia.
Qed.

Definition has_signature (view : mem) (t : Z) (sig : list Z) : bool := bool_decide (bytes_at view t (length sig) = sig).

Lemma signature_shows sig : forall m view a, shows m view a (Z.of_nat (length sig)) ->
  signature_is sig m a = Ok (has_signature view a sig).
Proof.
  unfold has_signature. induction sig as [|c sig IH]; intros m view a Hs; cbn [signature_is length bytes_at]; [done|].
  cbn [length] in Hs. rewrite (rd_shows 1 m view) by (apply (shows_sub _ _ _ _ _ _ Hs); lia). cbn [mbind outcome_bind load_le].
  rewrite Z.mul_0_r, Z.add_0_r.
  assert (signature_is sig m (wrap64 (a + 1)) = Ok (bool_decide (bytes_at view (a + 1) (length sig) = sig))) as ->.
  { destruct sig as [|c' sig]; [done|]. pose proof Hs as (H1 & H2 & _). cbn [length] in H2. rewrite wrap64_small by lia.
    apply IH. apply (shows_sub _ _ _ _ _ _ Hs); lia. }
  cbn [mbind outcome_bind]. f_equal. destruct (Z.eqb_spec (view a) c) as [-> |Hne]; cbn [andb].
  - apply bool_decide_ext. split; [by intros ->|by intros [= ->]].
  - symmetry. apply bool_decide_eq_false. by intros [= ? _].
Qed.

(** The part of a table that is read. *)
Definition table_shows (m view : mem) (t : Z) : Prop := shows m view t 52 /\ shows m view t (load32 view (t + SDT_LENGTH)).

Definition found (view : mem) (g : acpi) (t : Z) : acpi :=
  Acpi (if has_signature view t sig_apic then t else ACPI_MADT g) (if has_signature view t sig_hpet then t else ACPI_HPET g).

Lemma validate_shows m view t n : shows m view t n -> 8 <= n -> shows m view t (load32 view (t + SDT_LENGTH)) -> mem_ok view ->
  exists c, validate_sdt m t = Ok c.
Proof.
  intros Hs Hn Hl Hv. pose proof Hs as (H1 & H2 & _). unfold validate_sdt, SDT_LENGTH in *. rewrite wrap64_small by lia.
  rewrite (rd_shows 4 m view) by (apply (shows_sub _ _ _ _ _ _ Hs); lia). cbn [mbind outcome_bind].
  apply (checksum_shows _ m view). rewrite Z2Nat.id; [done|]. by apply load_le_range.
Qed.

Lemma parse_sdt_shows m view t g : mem_ok view -> table_shows m view t -> parse_sdt m t g = Ok (found view g t).
Proof.
  intros Hv [Hs Hl]. pose proof Hs as (H1 & H2 & _). unfold parse_sdt.
  destruct (validate_shows m view t 52 Hs ltac:(lia) Hl Hv) as [c ->]. cbn [mbind outcome_bind].
  rewrite !(signature_shows _ m view) by (apply (shows_sub _ _ _ _ _ _ Hs); cbn; lia). cbn [mbind outcome_bind].
  unfold MADT_LAPIC_ADDR, HPET_ADDRESS. rewrite !wrap64_small by lia.
  rewrite (rd_shows 4 m view), (rd_shows 8 m view) by (apply (shows_sub _ _ _ _ _ _ Hs); lia). unfold found.
  destruct g. by destruct (has_signature view t sig_apic), (has_signature view t sig_hpet).
Qed.

Lemma parse_sdts_shows w m view root tables g : mem_ok view ->
  shows m view root (SIZEOF_SDT + Z.of_nat w * Z.of_nat (length tables)) ->
  (forall i t, tables !! i = Some t -> load_le w view (root + SIZEOF_SDT + Z.of_nat w * Z.of_nat i) = t) ->
  Forall (table_shows m view) tables -> (0 < w)%nat ->
  parse_sdts w m root (Z.of_nat (length tables)) g = Ok (fold_left (found view) tables g).
Proof.
  intros Hv Hs He Ht Hw. pose proof Hs as (H1 & H2 & _). unfold SIZEOF_SDT in *. unfold parse_sdts.
  destruct (loop_inv (fun j g' => g' = fold_left (found view) (take (Z.to_nat j) tables) g)
    (fun i g => sdt ← rd w m (wrap64 (root + SIZEOF_SDT + Z.of_nat w * i)); parse_sdt m sdt g) (Z.of_nat (length tables)) g)
    as (g' & -> & ->); [lia|done| |by rewrite Nat2Z.id, firstn_all].
  intros j g' Hj ->. destruct (lookup_lt_is_Some_2 tables (Z.to_nat j) ltac:(lia)) as [t Hlt].
  unfold SIZEOF_SDT. rewrite wrap64_small by nia. rewrite (rd_shows w m view) by (apply (shows_sub _ _ _ _ _ _ Hs); nia).
  cbn [mbind outcome_bind]. specialize (He _ _ Hlt). rewrite Z2Nat.id in He by lia. rewrite He.
  rewrite (parse_sdt_shows m view) by (done || exact (Forall_lookup_1 _ _ _ _ Ht Hlt)). eexists. split; [done|].
  replace (Z.to_nat (j + 1)) with (S (Z.to_nat j)) by lia. by rewrite (take_S_r _ _ _ Hlt), fold_left_app.
Qed.

(** The root table [root] with entries of [w] bytes: its length counts the header and the entries, and all the
    tables are mapped. *)
Record root_shows (m view : mem) (w : nat) (root : Z) (tables : list Z) : Prop := {
  rs_header : shows m view root (SIZEOF_SDT + Z.of_nat w * Z.of_nat (length tables));
  rs_length : load32 view (root + SDT_LENGTH) = SIZEOF_SDT + Z.of_nat w * Z.of_nat (length tables);
  rs_entries : forall i t, tables !! i = Some t -> load_le w view (root + SIZEOF_SDT + Z.of_nat w * Z.of_nat i) = t;
  rs_tables : Forall (table_shows m view) tables
}.

Lemma parse_root_shows w field pRSDP p p1 i view tables g : (0 < w)%nat -> 0 <= field -> mem_ok view ->
  let root := load_le w view (pRSDP + field) in
  shows (pmem p) view (pRSDP + field) (Z.of_nat w) -> shows (pmem p1) view (pRSDP + field) (Z.of_nat w) ->
  map_page hhdm_offset pml4_address_virt_glob root root 3 p = Ok (i, p1) -> root_shows (pmem p1) view w root tables ->
  parse_root w field pRSDP p g = Ok (fold_left (found view) tables g, p1).
Proof.
  intros Hw Hf Hv root Hs0 Hs1 Hmap [Hh Hl He Ht]. pose proof Hs0 as (A1 & A2 & _). pose proof Hh as (B1 & B2 & _).
  unfold parse_root. rewrite wrap64_small by lia. rewrite (rd_shows w _ view) by done. cbn [mbind outcome_bind]. fold root.
  rewrite Hmap. cbn [mbind outcome_bind]. rewrite (rd_shows w _ view) by done. cbn [mbind outcome_bind]. fold root.
  unfold SIZEOF_SDT in *.
  destruct (validate_shows (pmem p1) view root _ Hh ltac:(lia) ltac:(by rewrite Hl) Hv) as [c ->]. cbn [mbind outcome_bind].
  unfold SDT_LENGTH in *. rewrite wrap64_small by lia. rewrite (rd_shows 4 _ view) by (apply (shows_sub _ _ _ _ _ _ Hh); lia).
  cbn [mbind outcome_bind]. change (load_le 4 view) with (load32 view). rewrite Hl.
  replace (wrap64 _ / Z.of_nat w) with (Z.of_nat (length tables)).
  2: { rewrite wrap64_small by lia. rewrite Z.add_simpl_l, Z.mul_comm. symmetry. apply Z.div_mul. lia. }
  rewrite (parse_sdts_shows w _ view) by done. reflexivity.
Qed.

(** The last of the tables with the signature, or [old]. *)
Definition last_table (view : mem) (sig : list Z) (tables : list Z) (old : Z) : Z :=
  fold_left (fun a t => if has_signature view t sig then t else a) tables old.

Lemma found_last view tables : forall g, fold_left (found view) tables g =
  Acpi (last_table view sig_apic tables (ACPI_MADT g)) (last_table view sig_hpet tables (ACPI_HPET g)).
Proof. induction tables as [|t l IH]; intros g; [by destruct g|]. cbn [fold_left]. rewrite IH. done. Qed.

(** Whether the root pointer has the 64-bit address, and where. *)
Definition root_width (view : mem) (pRSDP : Z) : nat := if 0 <? view (pRSDP + RSDP_REVISION) then 8 else 4.
Definition root_field (view : mem) (pRSDP : Z) : Z := if 0 <? view (pRSDP + RSDP_REVISION) then XSDP_XSDT else RSDP_RSDT.

(** The search of the ACPI tables finds them. When the root pointer is readable before and after the
    page of the root table is mapped, and the root table and every table of its list are
    readable then, [acpi_parse_rsdp] returns, with 64-bit and with 32-bit addresses, and [ACPI_MADT] and
    [ACPI_HPET] are the last tables of the list with the signatures APIC and HPET, or what they were
    before; checksums have no influence. A table of the list that is not mapped is a page
    fault, since only the first page of the root table is mapped. *)
Theorem acpi_parse_rsdp_finds (view : mem) (pRSDP : Z) (p p1 : pst) (i : Z) (g : acpi) (tables : list Z)
    (Hview : mem_ok view)
    (Hbefore : shows (pmem p) view pRSDP 36) (Hafter : shows (pmem p1) view pRSDP 36)
    (Hmap : let root := load_le (root_width view pRSDP) view (pRSDP + root_field view pRSDP) in
      map_page hhdm_offset pml4_address_virt_glob root root 3 p = Ok (i, p1))
    (Hroot : root_shows (pmem p1) view (root_width view pRSDP)
       (load_le (root_width view pRSDP) view (pRSDP + root_field view pRSDP)) tables) :
  acpi_parse_rsdp pRSDP p g =
    Ok (Acpi (last_table view sig_apic tables (ACPI_MADT g)) (last_table view sig_hpet tables (ACPI_HPET g)), p1) /\
  (forall m t, resolve hhdm_offset m pml4_address_virt_glob (wrap64 (t + SDT_LENGTH)) = Err PageFault -> parse_sdt m t g = Err PageFault).
Proof.
  pose proof Hbefore as (A1 & A2 & _). split.
  2: { intros m t E. unfold parse_sdt, validate_sdt, rd. cbn [vread]. by rewrite E. }
  unfold acpi_parse_rsdp, validate_rsdp, validate_xsdp.
  destruct (checksum_shows SIZEOF_RSDP (pmem p) view pRSDP 0) as [c ->]; [apply (shows_sub _ _ _ _ _ _ Hbefore); unfold SIZEOF_RSDP; lia|].
  destruct (checksum_shows SIZEOF_XSDP (pmem p) view pRSDP 0) as [d ->]; [exact Hbefore|].
  cbn [mbind outcome_bind]. unfold root_width, root_field, RSDP_REVISION, XSDP_XSDT, RSDP_RSDT in *. rewrite wrap64_small by lia.
  rewrite (rd_shows 1 _ view) by (apply (shows_sub _ _ _ _ _ _ Hbefore); lia). cbn [mbind outcome_bind load_le].
  rewrite Z.mul_0_r, Z.add_0_r. destruct (0 <? view (pRSDP + 15)); cbn [mbind outcome_bind];
    rewrite (parse_root_shows _ _ pRSDP p p1 i view tables g); try done; try lia; try (by rewrite found_last);
    first [apply (shows_sub _ _ _ _ _ _ Hbefore); cbn; lia|apply (shows_sub _ _ _ _ _ _ Hafter); cbn; lia].
Qed.

End Acpi.

(** ** Witness *)

(** A root pointer of revision 2 in the direct map; the root table and the two tables of its list share
    the page that gets mapped. *)
Definition acpi_root : Z := 0x30000000.
Definition acpi_rsdp : Z := sample_hhdm + 0xe0000.
Definition sample_sdt (sig : list Z) (len : Z) : list Z := sig ++ le_bytes 4 len ++ replicate 28 0.
Definition acpi_bytes : list Z :=
  sample_sdt [88; 83; 68; 84] 52 ++ le_bytes 8 (acpi_root + 52) ++ le_bytes 8 (acpi_root + 104) ++
  sample_sdt sig_hpet 52 ++ replicate 16 0 ++ sample_sdt sig_apic 44 ++ replicate 16 0.
Definition acpi_mem : mem := fun a =>
  if (0 <=? a - acpi_rsdp) && (a - acpi_rsdp <? 36) then
    nth (Z.to_nat (a - acpi_rsdp)) (replicate 15 0 ++ [2] ++ replicate 8 0 ++ le_bytes 8 acpi_root) 0
  else if (0 <=? a - (acpi_root + sample_hhdm)) && (a - (acpi_root + sample_hhdm) <? 4096) then
    nth (Z.to_nat (a - (acpi_root + sample_hhdm))) acpi_bytes 0
  else 0.
Definition acpi_view : mem := fun v => if v <? 2 ^ 63 then acpi_mem (v + sample_hhdm) else acpi_mem v.
Definition acpi_state : pst := Pst (set_mm acpi_mem boot_state) None.

Definition shows_check (m view : mem) (a : Z) (n : nat) : bool :=
  forallb (fun i => match resolve sample_hhdm m sample_pml4 (a + i) with Ok x => m x =? view (a + i) | Err _ => false end)
    (seqZ 0 (Z.of_nat n)).
Definition mapped_check (r : outcome (Z * pst)) : bool :=
  match r with
  | Ok (_, p1) => shows_check (pmem p1) acpi_view acpi_rsdp 36 && shows_check (pmem p1) acpi_view acpi_root 156
  | Err _ => false
  end.

Lemma shows_check_ok m view a n : 0 <= a -> a + Z.of_nat n <= 2 ^ 64 -> shows_check m view a n = true ->
  shows sample_hhdm sample_pml4 m view a (Z.of_nat n).
Proof.
  intros H1 H2 Hc. split_and!; [done|done|]. intros v Hv. unfold shows_check in Hc. rewrite forallb_forall in Hc.
  specialize (Hc (v - a)). rewrite Z.add_sub_assoc, Z.add_simpl_l in Hc.
  assert (In (v - a) (seqZ 0 (Z.of_nat n))) as Hin by (apply list_elem_of_In, elem_of_seqZ; lia). specialize (Hc Hin).
  destruct (resolve _ _ _ _) as [x|]; [|done]. exists x. split; [done|]. by apply Z.eqb_eq.
Qed.

Lemma acpi_view_ok : mem_ok acpi_view.
Proof.
  assert (mem_ok acpi_mem) as H.
  { intros a. unfold acpi_mem.
    assert (forall n l, Forall (fun b => 0 <= b < 256) l -> 0 <= nth n l 0 < 256) as Hn.
    { intros n l Hl. destruct (nth_in_or_default n l 0) as [Hin| ->]; [|lia]. rewrite List.Forall_forall in Hl. by apply Hl. }
    destruct (_ && _); [|destruct (_ && _); [|lia]]; apply Hn;
      repeat first [apply List.Forall_nil|apply List.Forall_cons; [vm_compute; by split|]]. }
  intros v. unfold acpi_view. destruct (_ <? _); apply H.
Qed.

Lemma mapped_check_ok r : mapped_check r = true -> exists i p1, r = Ok (i, p1) /\
  shows sample_hhdm sample_pml4 (pmem p1) acpi_view acpi_rsdp 36 /\ shows sample_hhdm sample_pml4 (pmem p1) acpi_view acpi_root 156.
Proof.
  destruct r as [[i p1]|]; [|done]. intros [F1 F2]%andb_prop. exists i, p1.
  split; [done|]. split; [apply (shows_check_ok _ _ _ 36)|apply (shows_check_ok _ _ _ 156)]; first [done|vm_compute; congruence].
Qed.

Lemma acpi_mapped_ok : mapped_check (map_page sample_hhdm sample_pml4 acpi_root acpi_root 3 acpi_state) = true.
Proof. by vm_compute. Qed.

(** The HPET table is the first of the list and the MADT the second. *)
Lemma acpi_parse_rsdp_finds_witness :
  exists p1, acpi_parse_rsdp sample_hhdm sample_pml4 acpi_rsdp acpi_state (Acpi 0 0) = Ok (Acpi (acpi_root + 104) (acpi_root + 52), p1).
Proof.
  assert (load_le (root_width acpi_view acpi_rsdp) acpi_view (acpi_rsdp + root_field acpi_view acpi_rsdp) = acpi_root) as Er by by vm_compute.
  destruct (mapped_check_ok _ acpi_mapped_ok) as (i & p1 & E & F1 & F2).
  exists p1. destruct (acpi_parse_rsdp_finds sample_hhdm sample_pml4 acpi_view acpi_rsdp acpi_state p1 i (Acpi 0 0)
    [acpi_root + 52; acpi_root + 104]) as [H _].
  - exact acpi_view_ok.
  - apply (shows_check_ok _ _ _ 36); by vm_compute.
  - exact F1.
  - cbv zeta. rewrite Er. exact E.
  - rewrite Er. assert (root_width acpi_view acpi_rsdp = 8%nat) as -> by by vm_compute. split.
    + apply (shows_sub _ _ _ _ _ _ _ _ F2); vm_compute; congruence.
    + by vm_compute.
    + intros [|[|j]] t Ht; [injection Ht as <-; by vm_compute..|done].
    + repeat apply List.Forall_cons; [..|by apply List.Forall_nil]; split; apply (shows_sub _ _ _ _ _ _ _ _ F2); vm_compute; congruence.
  - exact H.
Defined.
