(* ===== verification/UacpiTables.v ===== *)
(** * The tables of uACPI (K/uacpi/uacpi_src/tables.c)

    config.h defines UACPI_BAREBONES_MODE, so of uACPI only the table subsystem is compiled: an array of
    installed tables, filled from the table of tables of the firmware, with reference
    counts that say whether a table is mapped.  The mutex is compiled out and the log is left
    out.  Tables are read through the processor's translation, at the addresses [uacpi_kernel_map]
    returns. *)

From S2P Require Import Prelude Memory Machine Frames Heap Paging Loader LoadImage HeapInit KernelApi Acpi.

Local Open Scope list_scope.

(** ** Data *)

(** internal/tables.h, without the origin this mode does not have. *)
Inductive uacpi_table_origin : Type :=
| UACPI_TABLE_ORIGIN_FIRMWARE_PHYSICAL
| UACPI_TABLE_ORIGIN_HOST_VIRTUAL
| UACPI_TABLE_ORIGIN_HOST_PHYSICAL.

Definition is_physical (o : uacpi_table_origin) : bool :=
  match o with UACPI_TABLE_ORIGIN_HOST_VIRTUAL => false | _ => true end.

Definition UACPI_TABLE_LOADED : Z := 1.
Definition UACPI_TABLE_CSUM_VERIFIED : Z := 2.
Definition UACPI_TABLE_INVALID : Z := 4.

(** A header is its 36 bytes; the fields of [struct acpi_sdt_hdr]. *)
Definition le (l : list Z) : Z := foldr (fun b v => b + 256 * v) 0 l.
Definition h_signature (h : list Z) : list Z := take 4 h.
Definition h_length (h : list Z) : Z := le (take 4 (drop 4 h)).
Definition h_revision (h : list Z) : Z := le (take 1 (drop 8 h)).
Definition h_oemid (h : list Z) : list Z := take 6 (drop 10 h).
Definition h_oem_table_id (h : list Z) : list Z := take 8 (drop 16 h).

Record uacpi_installed_table : Type := Installed {
  phys_addr : Z;
  hdr : list Z;
  ptr : Z;
  reference_count : Z;
  flags : Z;
  origin : uacpi_table_origin
}.

Definition set_ptr (x : Z) (t : uacpi_installed_table) : uacpi_installed_table :=
  Installed (phys_addr t) (hdr t) x (reference_count t) (flags t) (origin t).
Definition set_count (x : Z) (t : uacpi_installed_table) : uacpi_installed_table :=
  Installed (phys_addr t) (hdr t) (ptr t) x (flags t) (origin t).
Definition set_flags (x : Z) (t : uacpi_installed_table) : uacpi_installed_table :=
  Installed (phys_addr t) (hdr t) (ptr t) (reference_count t) x (origin t).

(** [tbl->flags & flag] *)
Definition has (t : uacpi_installed_table) (flag : Z) : bool := negb (Z.land (flags t) flag =? 0).

Definition valid (t : uacpi_installed_table) : bool := negb (has t UACPI_TABLE_INVALID).

(** What a client gets: the address of a table and its index. *)
Record uacpi_table : Type := Table {
  tb_ptr : Z;
  tb_index : Z
}.

(** The globals of tables.c and the fields of [g_uacpi_rt_ctx] this mode uses.  [tables] has the
    [size_including_inline] descriptors, the first 16 in the inline storage.  The copy of the FADT
    is bytes by offset; the handler is the address of a function of the host. *)
Record uacpi : Type := Uacpi {
  tables : list uacpi_installed_table;
  dynamic_storage : Z;
  dynamic_capacity : Z;
  early_table_access : bool;
  installation_handler : Z;
  fadt : mem;
  rt_flags : Z;
  is_hardware_reduced : bool;
  is_rev1 : bool
}.

(** [g_uacpi_rt_ctx = { 0 }] and the static variables, at the start. *)
Definition uacpi_zero : uacpi := Uacpi [] NULL 0 false NULL (fun _ => 0) 0 false false.

Definition set_tables (x : list uacpi_installed_table) (u : uacpi) : uacpi :=
  Uacpi x (dynamic_storage u) (dynamic_capacity u) (early_table_access u) (installation_handler u) (fadt u) (rt_flags u)
    (is_hardware_reduced u) (is_rev1 u).
Definition set_handler (x : Z) (u : uacpi) : uacpi :=
  Uacpi (tables u) (dynamic_storage u) (dynamic_capacity u) (early_table_access u) x (fadt u) (rt_flags u) (is_hardware_reduced u) (is_rev1 u).
Definition set_fadt (x : mem) (u : uacpi) : uacpi :=
  Uacpi (tables u) (dynamic_storage u) (dynamic_capacity u) (early_table_access u) (installation_handler u) x (rt_flags u)
    (is_hardware_reduced u) (is_rev1 u).
Definition set_is_rev1 (x : bool) (u : uacpi) : uacpi :=
  Uacpi (tables u) (dynamic_storage u) (dynamic_capacity u) (early_table_access u) (installation_handler u) (fadt u) (rt_flags u)
    (is_hardware_reduced u) x.
Definition set_storage (storage capacity : Z) (early : bool) (u : uacpi) : uacpi :=
  Uacpi (tables u) storage capacity early (installation_handler u) (fadt u) (rt_flags u) (is_hardware_reduced u) (is_rev1 u).

(** uACPI and the kernel below it. *)
Record ust : Type := Ust {
  uc : uacpi;
  up : pst
}.

Definition on_uc (f : uacpi -> uacpi) (s : ust) : ust := Ust (f (uc s)) (up s).
Definition umem (s : ust) : mem := pmem (up s).

Definition is_ok (r : uacpi_status) : bool := bool_decide (r = UACPI_STATUS_OK).

(** ** The array of tables (internal/dynamic_array.h) *)

Definition UACPI_STATIC_TABLE_ARRAY_LEN : Z := 16.
Definition SIZEOF_INSTALLED_TABLE : Z := 64.

Definition table_array_size (u : uacpi) : Z := Z.of_nat (length (tables u)).
Definition table_array_capacity (u : uacpi) : Z := wrap64 (UACPI_STATIC_TABLE_ARRAY_LEN + dynamic_capacity u).

(** What a new slot holds until it is written. *)
Definition blank : uacpi_installed_table := Installed 0 [] NULL 0 0 UACPI_TABLE_ORIGIN_FIRMWARE_PHYSICAL.

Definition table_array_alloc (u : uacpi) : option (nat * uacpi) :=
  let size := table_array_size u in
  if (UACPI_STATIC_TABLE_ARRAY_LEN <=? size) && (wrap64 (size - UACPI_STATIC_TABLE_ARRAY_LEN) =? dynamic_capacity u) then None
  else Some (length (tables u), set_tables (tables u ++ [blank]) u).

Definition table_array_clear (u : uacpi) : uacpi := set_storage NULL 0 (early_table_access u) (set_tables [] u).

(** The index, or UACPI_STATUS_OUT_OF_MEMORY. *)
Definition table_alloc (u : uacpi) : option (nat * uacpi) :=
  if early_table_access u && (table_array_size u =? table_array_capacity u) then None else table_array_alloc u.

Definition store_table (i : nat) (t : uacpi_installed_table) (s : ust) : ust := on_uc (fun u => set_tables (<[i := t]> (tables u)) u) s.

(** ** Flags and signatures *)

Definition UACPI_FLAG_BAD_CSUM_FATAL : Z := 1.
Definition UACPI_FLAG_BAD_TBL_SIGNATURE_FATAL : Z := 2.
Definition UACPI_FLAG_BAD_XSDT : Z := 4.
Definition UACPI_FLAG_PROACTIVE_TBL_CSUM : Z := 32.

Definition uacpi_check_flag (flag : Z) (u : uacpi) : bool := Z.land (rt_flags u) flag =? flag.

Definition uacpi_context_set_proactive_table_checksum (setting : bool) (u : uacpi) : uacpi :=
  Uacpi (tables u) (dynamic_storage u) (dynamic_capacity u) (early_table_access u) (installation_handler u) (fadt u)
    (if setting then Z.lor (rt_flags u) UACPI_FLAG_PROACTIVE_TBL_CSUM else Z.land (rt_flags u) (wrap64 (Z.lnot UACPI_FLAG_PROACTIVE_TBL_CSUM)))
    (is_hardware_reduced u) (is_rev1 u).

Definition sig_xsdt : list Z := [88; 83; 68; 84].
Definition sig_rsdt : list Z := [82; 83; 68; 84].
Definition sig_facp : list Z := [70; 65; 67; 80].
Definition sig_facs : list Z := [70; 65; 67; 83].
Definition sig_dsdt : list Z := [68; 83; 68; 84].

Definition uacpi_signatures_match (lhs rhs : list Z) : bool := bool_decide (take 4 lhs = take 4 rhs).

(** A wrong signature is only logged, unless the flag is set. *)
Definition uacpi_check_table_signature (table expect : list Z) (u : uacpi) : uacpi_status :=
  if uacpi_signatures_match table expect then UACPI_STATUS_OK
  else if uacpi_check_flag UACPI_FLAG_BAD_TBL_SIGNATURE_FATAL u then UACPI_STATUS_INVALID_SIGNATURE
  else UACPI_STATUS_OK.

(** ** The copy of the FADT *)

(** Offsets of [struct acpi_fadt]. *)
Definition SIZEOF_FADT : Z := 276.
Definition FADT_LENGTH : Z := 4.
Definition FADT_REVISION : Z := 8.
Definition FADT_FIRMWARE_CTRL : Z := 36.
Definition FADT_DSDT : Z := 40.
Definition FADT_PREFERRED_PM_PROFILE : Z := 45.
Definition FADT_PSTATE_CNT : Z := 55.
Definition FADT_CST_CNT : Z := 95.
Definition FADT_IAPC_BOOT_ARCH : Z := 109.
Definition FADT_X_FIRMWARE_CTRL : Z := 132.
Definition FADT_X_DSDT : Z := 140.

(** The registers: the offsets of the legacy address, of the [struct acpi_gas] and of the length. *)
Record register_description : Type := Register {
  r_offset : Z;
  r_xoffset : Z;
  r_length_offset : Z
}.

Definition fadt_registers : list register_description :=
  [Register 56 148 88; Register 60 160 88; Register 64 172 89; Register 68 184 89;
   Register 72 196 90; Register 76 208 91; Register 80 220 92; Register 84 232 93].

Definition GAS_ADDRESS : Z := 4.

(** [gas] is the offset of the structure. *)
Definition gas_init_system_io (gas address byte_size : Z) (f : mem) : mem :=
  let f := store64 f (gas + GAS_ADDRESS) address in
  let f := store8 f gas 1 in
  let f := store8 f (gas + 1) (Z.min 255 (byte_size * 8)) in
  let f := store8 f (gas + 2) 0 in
  store8 f (gas + 3) 0.

Definition convert_register (f : mem) (desc : register_description) : mem :=
  let legacy_addr := load32 f (r_offset desc) in
  let length := f (r_length_offset desc) in
  if load64 f (r_xoffset desc + GAS_ADDRESS) =? 0 then gas_init_system_io (r_xoffset desc) legacy_addr length f else f.

Definition convert_registers_to_gas (f : mem) : mem := fold_left convert_register fadt_registers f.

Definition fadt_version_sizes : list Z := [116; 132; 244; 244; 268; 276].

(** The number of sizes below the length. *)
Fixpoint find_revision (sizes : list Z) (length rev : Z) : Z :=
  match sizes with
  | [] => rev
  | x :: rest => if length <=? x then rev else find_revision rest length (rev + 1)
  end.

Definition fadt_ensure_correct_revision (f : mem) : mem :=
  let current_rev := f FADT_REVISION in
  let rev := find_revision fadt_version_sizes (load32 f FADT_LENGTH) 0 in
  if rev =? 6 then store8 f FADT_REVISION rev
  else
    let rev := rev + 1 in
    if negb (current_rev =? rev) && negb ((rev =? 3) && (current_rev =? 4)) then store8 f FADT_REVISION rev else f.

(** Before the DSDT is installed, and after. *)
Definition fadt_prepare (f : mem) : mem :=
  let f := fadt_ensure_correct_revision f in
  let f := if f FADT_REVISION <=? 2
           then store16 (store8 (store8 (store8 f FADT_PREFERRED_PM_PROFILE 0) FADT_PSTATE_CNT 0) FADT_CST_CNT 0) FADT_IAPC_BOOT_ARCH 0
           else f in
  if load64 f FADT_X_DSDT =? 0 then store64 f FADT_X_DSDT (load32 f FADT_DSDT) else f.

Definition fadt_finish (hardware_reduced : bool) (f : mem) : mem :=
  let f := if load32 f FADT_FIRMWARE_CTRL =? 0 then f else store64 f FADT_X_FIRMWARE_CTRL (load32 f FADT_FIRMWARE_CTRL) in
  if hardware_reduced then f else convert_registers_to_gas f.

(** ** Operations *)

Section Tables.
Context (hhdm_offset pml4_address_virt_glob rsdp_address : Z).
(** The host's installation handler at an address: what it makes of the table at an address, and its
    second result. *)
Context (call_handler : Z -> Z -> pst -> outcome (Z * Z * pst)).
(** The depth of nested installations: the DSDT of a FADT, and overrides. *)
Context (depth : nat).

Local Abbreviation rd := (rd hhdm_offset pml4_address_virt_glob).
Local Abbreviation checksum := (checksum hhdm_offset pml4_address_virt_glob).

Definition kernel_map (addr len : Z) (s : ust) : outcome (Z * ust) :=
  '(v, p) ← uacpi_kernel_map hhdm_offset pml4_address_virt_glob addr len (up s); Ok (v, Ust (uc s) p).
Definition kernel_unmap (addr len : Z) (s : ust) : outcome ust := _ ← uacpi_kernel_unmap addr len; Ok s.

Fixpoint rd_bytes (n : nat) (m : mem) (a : Z) : outcome (list Z) :=
  match n with
  | O => Ok []
  | S n' => b ← rd 1 m a; l ← rd_bytes n' m (wrap64 (a + 1)); Ok (b :: l)
  end.

(** [uacpi_memcpy(fadt, hdr, n)] *)
Definition copy_to_fadt (virt n : Z) (m f : mem) : outcome mem :=
  loop n (fun i f => b ← rd 1 m (wrap64 (virt + i)); Ok (store8 f i b)) f.

(** [table_checksum] is [checksum] of [Acpi]; a wrong sum is only logged, unless the flag is set. *)
Definition uacpi_verify_table_checksum (table size : Z) (s : ust) : outcome uacpi_status :=
  csum ← checksum (Z.to_nat size) (umem s) table 0;
  Ok (if negb (csum =? 0) && uacpi_check_flag UACPI_FLAG_BAD_CSUM_FATAL (uc s) then UACPI_STATUS_BAD_CHECKSUM else UACPI_STATUS_OK).

Definition get_external_table_header (phys : Z) (s : ust) : outcome (uacpi_status * list Z * ust) :=
  '(virt, s) ← kernel_map phys SIZEOF_SDT s;
  if virt =? NULL then Ok (UACPI_STATUS_MAPPING_FAILED, [], s)
  else
    h ← rd_bytes (Z.to_nat SIZEOF_SDT) (umem s) virt;
    s ← kernel_unmap virt SIZEOF_SDT s;
    Ok (UACPI_STATUS_OK, h, s).

(** *** References *)

(** The first reference of a physical table maps and checks it: the status and the table. *)
Definition map_table (t : uacpi_installed_table) (s : ust) : outcome (uacpi_status * uacpi_installed_table * ust) :=
  '(v, s) ← kernel_map (phys_addr t) (h_length (hdr t)) s;
  let t := set_ptr v t in
  if v =? NULL then Ok (UACPI_STATUS_MAPPING_FAILED, t, s)
  else if has t UACPI_TABLE_CSUM_VERIFIED then Ok (UACPI_STATUS_OK, t, s)
  else
    ret ← uacpi_verify_table_checksum v (h_length (hdr t)) s;
    if is_ok ret then Ok (UACPI_STATUS_OK, set_flags (Z.lor (flags t) UACPI_TABLE_CSUM_VERIFIED) t, s)
    else
      s ← kernel_unmap v (h_length (hdr t)) s;
      Ok (ret, set_ptr NULL (set_flags (Z.lor (flags t) UACPI_TABLE_INVALID) t), s).

Definition first_reference (t : uacpi_installed_table) (s : ust) : outcome (uacpi_status * uacpi_installed_table * ust) :=
  if has t UACPI_TABLE_INVALID then Ok (UACPI_STATUS_INVALID_ARGUMENT, t, s)
  else if is_physical (origin t) then map_table t s
  else Ok (UACPI_STATUS_OK, t, s).

Definition table_ref_unlocked (i : nat) (s : ust) : outcome (uacpi_status * ust) :=
  t ← checked (tables (uc s) !! i) OutOfBounds;
  '(ret, t, s) ← (if reference_count t =? 0 then first_reference t s else Ok (UACPI_STATUS_OK, t, s));
  if is_ok ret then
    let t := if reference_count t =? 0xFFFF then t else set_count (wrap16 (reference_count t + 1)) t in
    Ok (UACPI_STATUS_OK, store_table i t s)
  else Ok (ret, store_table i t s).

Definition table_unref_unlocked (i : nat) (s : ust) : outcome (uacpi_status * ust) :=
  t ← checked (tables (uc s) !! i) OutOfBounds;
  if reference_count t =? 0 then Ok (UACPI_STATUS_INVALID_ARGUMENT, s)
  else if reference_count t =? 0xFFFF then Ok (UACPI_STATUS_OK, s)
  else
    '(t, s) ← (if (reference_count t =? 1) && is_physical (origin t)
               then s ← kernel_unmap (ptr t) (h_length (hdr t)) s; Ok (set_ptr NULL t, s)
               else Ok (t, s));
    Ok (UACPI_STATUS_OK, store_table i (set_count (wrap16 (reference_count t - 1)) t) s).

(** *** Installation *)

(** [initialize_fadt], with [install], the installation of the DSDT at a physical address. *)
Definition initialize_fadt (install : Z -> ust -> outcome (uacpi_status * ust)) (virt : Z) (s : ust) : outcome (uacpi_status * ust) :=
  length ← rd 4 (umem s) (wrap64 (virt + SDT_LENGTH));
  f ← copy_to_fadt virt (Z.min SIZEOF_FADT length) (umem s) (fadt (uc s));
  let s := on_uc (set_fadt (fadt_prepare f)) s in
  '(ret, s) ← (if load64 (fadt (uc s)) FADT_X_DSDT =? 0 then Ok (UACPI_STATUS_OK, s) else install (load64 (fadt (uc s)) FADT_X_DSDT) s);
  if is_ok ret || bool_decide (ret = UACPI_STATUS_OVERRIDDEN)
  then Ok (UACPI_STATUS_OK, on_uc (fun u => set_fadt (fadt_finish (is_hardware_reduced u) (fadt u)) u) s)
  else Ok (ret, s).

(** The checks before a table gets its slot: the status, its flags and the state. *)
Definition verify_table (init : Z -> ust -> outcome (uacpi_status * ust)) (h : list Z) (phys virt : Z) (want : bool) (s : ust) :
    outcome (uacpi_status * Z * ust) :=
  let is_fadt := uacpi_signatures_match h sig_facp in
  if uacpi_signatures_match h sig_facs then Ok (UACPI_STATUS_OK, UACPI_TABLE_CSUM_VERIFIED, s)
  else if uacpi_check_flag UACPI_FLAG_PROACTIVE_TBL_CSUM (uc s) || is_fadt || want then
    '(mapping, s) ← (if virt =? NULL then kernel_map phys (h_length h) s else Ok (virt, s));
    if mapping =? NULL then Ok (UACPI_STATUS_MAPPING_FAILED, 0, s)
    else
      ret ← uacpi_verify_table_checksum mapping (h_length h) s;
      '(ret, fl, s) ← (if is_ok ret
                       then '(ret, s) ← (if is_fadt then init mapping s else Ok (ret, s)); Ok (ret, UACPI_TABLE_CSUM_VERIFIED, s)
                       else Ok (ret, 0, s));
      s ← (if virt =? NULL then kernel_unmap mapping (h_length h) s else Ok s);
      Ok (ret, fl, s)
  else Ok (UACPI_STATUS_OK, 0, s).

(** [want]: whether [out_table] is not NULL; the second result is what is stored there. *)
Definition verify_and_install_table (init : Z -> ust -> outcome (uacpi_status * ust)) (h : list Z) (phys virt : Z)
    (o : uacpi_table_origin) (want : bool) (s : ust) : outcome (uacpi_status * option uacpi_table * ust) :=
  '(ret, fl, s) ← verify_table init h phys virt want s;
  if is_ok ret then
    let s := if uacpi_signatures_match h sig_dsdt then on_uc (set_is_rev1 (h_revision h <? 2)) s else s in
    match table_alloc (uc s) with
    | None => Ok (UACPI_STATUS_OUT_OF_MEMORY, None, s)
    | Some (i, u) =>
        let s := store_table i (Installed phys h virt (if want then 1 else 0) fl o) (Ust u (up s)) in
        Ok (UACPI_STATUS_OK, if want then Some (Table virt (Z.of_nat i)) else None, s)
    end
  else Ok (ret, None, s).

Definition ALLOW : Z := 0.
Definition DENY : Z := 1.
Definition VIRTUAL_OVERRIDE : Z := 2.
Definition PHYSICAL_OVERRIDE : Z := 3.

(** The header is read where the table is; the handler is asked only for the origin this mode does not
    have. *)
Definition table_install_with_origin (init : Z -> ust -> outcome (uacpi_status * ust)) (virt : Z) (o : uacpi_table_origin)
    (want : bool) (s : ust) : outcome (uacpi_status * option uacpi_table * ust) :=
  h ← rd_bytes (Z.to_nat SIZEOF_SDT) (umem s) virt;
  if h_length h <? SIZEOF_SDT then Ok (UACPI_STATUS_INVALID_TABLE_LENGTH, None, s)
  else verify_and_install_table init h 0 virt o want s.

Definition override_status (r : uacpi_status * option uacpi_table * ust) : uacpi_status * option uacpi_table * ust :=
  let '(ret, t, s) := r in (if is_ok ret then UACPI_STATUS_OVERRIDDEN else ret, t, s).

(** What the handler decides about the table [virt]; without a handler, and for tables of the host, it is
    installed. *)
Definition dispose (install : ust -> outcome (uacpi_status * option uacpi_table * ust))
    (override : Z -> Z -> ust -> outcome (uacpi_status * option uacpi_table * ust)) (virt : Z) (o : uacpi_table_origin) (s : ust) :
    outcome (uacpi_status * option uacpi_table * ust) :=
  match o with
  | UACPI_TABLE_ORIGIN_FIRMWARE_PHYSICAL =>
      if installation_handler (uc s) =? NULL then install s
      else
        '(disposition, address, p) ← call_handler (installation_handler (uc s)) virt (up s);
        let s := Ust (uc s) p in
        if disposition =? ALLOW then install s
        else if disposition =? DENY then Ok (UACPI_STATUS_DENIED, None, s)
        else r ← override disposition address s; Ok (override_status r)
  | _ => install s
  end.

(** The end of an installation: every status becomes UACPI_STATUS_OK. *)
Definition install_end (virt len : Z) (want : bool) (r : uacpi_status * option uacpi_table * ust) :
    outcome (uacpi_status * option uacpi_table * ust) :=
  let '(ret, t, s) := r in
  if is_ok ret && want then Ok (ret, t, s)
  else s ← (if virt =? NULL then Ok s else kernel_unmap virt len s); Ok (UACPI_STATUS_OK, t, s).

Fixpoint table_install_physical (d : nat) (phys : Z) (o : uacpi_table_origin) (expected : option (list Z)) (want : bool) (s : ust) :
    outcome (uacpi_status * option uacpi_table * ust) :=
  match d with
  | O => Err OutOfFuel
  | S d =>
      let init := initialize_fadt (fun a s =>
        '(ret, _, s) ← table_install_physical d a UACPI_TABLE_ORIGIN_FIRMWARE_PHYSICAL (Some sig_dsdt) false s; Ok (ret, s)) in
      let override disposition address s :=
        if disposition =? VIRTUAL_OVERRIDE then table_install_with_origin init address UACPI_TABLE_ORIGIN_HOST_VIRTUAL want s
        else if disposition =? PHYSICAL_OVERRIDE then table_install_physical d address UACPI_TABLE_ORIGIN_HOST_PHYSICAL None want s
        else Ok (UACPI_STATUS_INTERNAL_ERROR, None, s) in
      '(ret, h, s) ← get_external_table_header phys s;
      if negb (is_ok ret) then Ok (ret, None, s)
      else if h_length h <? SIZEOF_SDT then Ok (UACPI_STATUS_INVALID_TABLE_LENGTH, None, s)
      else
        let ret := match expected with Some e => uacpi_check_table_signature h e (uc s) | None => UACPI_STATUS_OK end in
        if negb (is_ok ret) then Ok (ret, None, s)
        else
          let mapped := negb (installation_handler (uc s) =? NULL) || want in
          '(virt, s) ← (if mapped then kernel_map phys (h_length h) s else Ok (NULL, s));
          if mapped && (virt =? NULL) then Ok (UACPI_STATUS_MAPPING_FAILED, None, s)
          else
            r ← dispose (verify_and_install_table init h phys virt o want) override virt o s;
            install_end virt (h_length h) want r
  end.

(** *** Setting up *)

(** One entry of the table of tables, of [entry_size] bytes; a status other than UACPI_STATUS_OK ends the loop. *)
Fixpoint install_entries (n : nat) (rxsdt entry_size i : Z) (s : ust) : outcome (uacpi_status * ust) :=
  match n with
  | O => Ok (UACPI_STATUS_OK, s)
  | S n' =>
      entry ← rd (Z.to_nat entry_size) (umem s) (wrap64 (rxsdt + SIZEOF_SDT + i));
      if entry =? 0 then install_entries n' rxsdt entry_size (i + entry_size) s
      else
        '(ret, _, s) ← table_install_physical depth entry UACPI_TABLE_ORIGIN_FIRMWARE_PHYSICAL None false s;
        if is_ok ret || bool_decide (ret = UACPI_STATUS_OVERRIDDEN) then install_entries n' rxsdt entry_size (i + entry_size) s
        else Ok (ret, s)
  end.

(** [goto error_out] *)
Definition error_out (rxsdt map_len : Z) (r : uacpi_status * ust) : outcome (uacpi_status * ust) :=
  s ← kernel_unmap rxsdt map_len r.2; Ok (r.1, s).

Definition initialize_from_rxsdt (rxsdt_addr entry_size : Z) (s : ust) : outcome (uacpi_status * ust) :=
  '(rxsdt, s) ← kernel_map rxsdt_addr SIZEOF_SDT s;
  if rxsdt =? NULL then Ok (UACPI_STATUS_MAPPING_FAILED, s)
  else
    signature ← rd_bytes 4 (umem s) rxsdt;
    let ret := uacpi_check_table_signature signature (if entry_size =? 8 then sig_xsdt else sig_rsdt) (uc s) in
    if negb (is_ok ret) then error_out rxsdt SIZEOF_SDT (ret, s)
    else
      map_len ← rd 4 (umem s) (wrap64 (rxsdt + SDT_LENGTH));
      s ← kernel_unmap rxsdt SIZEOF_SDT s;
      if map_len <? SIZEOF_SDT + entry_size then Ok (UACPI_STATUS_INVALID_TABLE_LENGTH, s)
      else
        let entry_bytes := Z.land (map_len - SIZEOF_SDT) (wrap64 (Z.lnot (entry_size - 1))) in
        '(rxsdt, s) ← kernel_map rxsdt_addr map_len s;
        if rxsdt =? NULL then Ok (UACPI_STATUS_MAPPING_FAILED, s)
        else
          ret ← uacpi_verify_table_checksum rxsdt map_len s;
          r ← (if is_ok ret then install_entries (Z.to_nat (entry_bytes / entry_size)) rxsdt entry_size 0 s else Ok (ret, s));
          error_out rxsdt map_len r.

Definition initialize_from_rsdp (s : ust) : outcome (uacpi_status * ust) :=
  let s := on_uc (set_is_rev1 true) s in
  let '(ret, rsdp_phys) := uacpi_kernel_get_rsdp rsdp_address in
  if negb (is_ok ret) then Ok (ret, s)
  else
    '(rsdp, s) ← kernel_map rsdp_phys (Z.of_nat SIZEOF_XSDP) s;
    if rsdp =? NULL then Ok (UACPI_STATUS_MAPPING_FAILED, s)
    else
      revision ← rd 1 (umem s) (wrap64 (rsdp + RSDP_REVISION));
      xsdt_addr ← rd 8 (umem s) (wrap64 (rsdp + XSDP_XSDT));
      rsdt_addr ← rd 4 (umem s) (wrap64 (rsdp + RSDP_RSDT));
      let '(rxsdt, entry_size) :=
        if (1 <? revision) && negb (xsdt_addr =? 0) && negb (uacpi_check_flag UACPI_FLAG_BAD_XSDT (uc s)) then (xsdt_addr, 8)
        else (rsdt_addr, 4) in
      s ← kernel_unmap rsdp (Z.of_nat SIZEOF_XSDP) s;
      if rxsdt =? 0 then Ok (UACPI_STATUS_INVALID_ARGUMENT, s) else initialize_from_rxsdt rxsdt entry_size s.

(** The tables that are referenced and physical are unmapped. *)
Fixpoint unmap_tables (l : list uacpi_installed_table) (s : ust) : outcome ust :=
  match l with
  | [] => Ok s
  | t :: l =>
      s ← (if is_physical (origin t) && negb (reference_count t =? 0) then kernel_unmap (ptr t) (h_length (hdr t)) s else Ok s);
      unmap_tables l s
  end.

Definition uacpi_deinitialize_tables (s : ust) : outcome ust :=
  s ← unmap_tables (tables (uc s)) s;
  Ok (on_uc (fun u => set_handler NULL (if early_table_access u then set_storage NULL 0 false (set_tables [] u) else table_array_clear u)) s).

Definition uacpi_setup_early_table_access (temporary_buffer buffer_size : Z) (s : ust) : outcome (uacpi_status * ust) :=
  if early_table_access (uc s) then Ok (UACPI_STATUS_INIT_LEVEL_MISMATCH, s)
  else if buffer_size <? SIZEOF_INSTALLED_TABLE then Ok (UACPI_STATUS_INVALID_ARGUMENT, s)
  else
    let s := on_uc (set_storage temporary_buffer (buffer_size / SIZEOF_INSTALLED_TABLE) true) s in
    '(ret, s) ← initialize_from_rsdp s;
    if is_ok ret then Ok (ret, s) else s ← uacpi_deinitialize_tables s; Ok (ret, s).

(** uacpi.c *)
Definition uacpi_state_reset (s : ust) : outcome ust :=
  s ← uacpi_deinitialize_tables s;
  Ok (on_uc (fun u => Uacpi (tables u) (dynamic_storage u) (dynamic_capacity u) (early_table_access u) (installation_handler u)
    (fun _ => 0) 0 false false) s).

(** A second handler is ignored. *)
Definition uacpi_set_table_installation_handler (handler : Z) (s : ust) : uacpi_status * ust :=
  (UACPI_STATUS_OK,
   if negb (installation_handler (uc s) =? NULL) && negb (handler =? NULL) then s else on_uc (set_handler handler) s).

(** [ENSURE_TABLES_ONLINE()] *)
Definition online {A : Type} (none : A) (f : ust -> outcome (uacpi_status * A * ust)) (s : ust) : outcome (uacpi_status * A * ust) :=
  if early_table_access (uc s) then f s else Ok (UACPI_STATUS_INIT_LEVEL_MISMATCH, none, s).

(** [depth] bounds the nested installations; [pred depth] is left for the DSDT of a table in memory. *)
Definition install_dsdt (a : Z) (s : ust) : outcome (uacpi_status * ust) :=
  '(ret, _, s) ← table_install_physical (Nat.pred depth) a UACPI_TABLE_ORIGIN_FIRMWARE_PHYSICAL (Some sig_dsdt) false s; Ok (ret, s).

Definition uacpi_table_install (virt : Z) (want : bool) : ust -> outcome (uacpi_status * option uacpi_table * ust) :=
  online None (table_install_with_origin (initialize_fadt install_dsdt) virt UACPI_TABLE_ORIGIN_HOST_VIRTUAL want).
Definition uacpi_table_install_physical (addr : Z) (want : bool) : ust -> outcome (uacpi_status * option uacpi_table * ust) :=
  online None (table_install_physical depth addr UACPI_TABLE_ORIGIN_HOST_PHYSICAL None want).

(** *** Searching *)

(** [uacpi_table_identifiers]: a signature, and an OEM id and table id that are ignored when they start
    with 0. *)
Record uacpi_table_identifiers : Type := Identifiers {
  id_signature : list Z;
  id_oemid : list Z;
  id_oem_table_id : list Z
}.

Definition ignored (l : list Z) : bool := bool_decide (take 1 l = [0]).

Definition id_matches (id : uacpi_table_identifiers) (h : list Z) : bool :=
  uacpi_signatures_match (id_signature id) (h_signature h) &&
  (ignored (id_oemid id) || bool_decide (id_oemid id = h_oemid h)) &&
  (ignored (id_oem_table_id id) || bool_decide (id_oem_table_id id = h_oem_table_id h)).

(** [do_search_tables] for the table [i]: [Some] status and table when the iteration ends. *)
Definition do_search_tables (id : uacpi_table_identifiers) (i : nat) (t : uacpi_installed_table) (s : ust) :
    outcome (option (uacpi_status * option uacpi_table) * ust) :=
  if id_matches id (hdr t) then
    '(ret, s) ← table_ref_unlocked i s;
    if is_ok ret then
      t ← checked (tables (uc s) !! i) OutOfBounds;
      Ok (Some (ret, Some (Table (ptr t) (Z.of_nat i))), s)
    else if bool_decide (ret = UACPI_STATUS_BAD_CHECKSUM) then Ok (None, s)
    else Ok (Some (ret, None), s)
  else Ok (None, s).

(** [uacpi_for_each_table] with this callback, which leaves the number of tables as it is, over the next
    [n] tables from [i] on. *)
Fixpoint for_each_table (id : uacpi_table_identifiers) (n i : nat) (s : ust) : outcome (uacpi_status * option uacpi_table * ust) :=
  match n with
  | O => Ok (UACPI_STATUS_NOT_FOUND, None, s)
  | S n' =>
      t ← checked (tables (uc s) !! i) OutOfBounds;
      if has t UACPI_TABLE_INVALID then for_each_table id n' (S i) s
      else
        '(r, s) ← do_search_tables id i t s;
        match r with
        | Some (ret, t) => Ok (ret, t, s)
        | None => for_each_table id n' (S i) s
        end
  end.

Definition find_table (base_idx : nat) (id : uacpi_table_identifiers) : ust -> outcome (uacpi_status * option uacpi_table * ust) :=
  online None (fun s => for_each_table id (length (tables (uc s)) - base_idx) base_idx s).

Definition no_oemid : list Z := replicate 6 0.
Definition no_oem_table_id : list Z := replicate 8 0.

Definition uacpi_table_find_by_signature (signature : list Z) : ust -> outcome (uacpi_status * option uacpi_table * ust) :=
  online None (find_table 0 (Identifiers (take 4 signature) no_oemid no_oem_table_id)).

Definition uacpi_table_find (id : uacpi_table_identifiers) : ust -> outcome (uacpi_status * option uacpi_table * ust) :=
  online None (find_table 0 id).

(** *** References by index *)

Definition TABLE_CTL_SET_FLAGS : Z := 1.
Definition TABLE_CTL_CLEAR_FLAGS : Z := 2.
Definition TABLE_CTL_VALIDATE_SET_FLAGS : Z := 4.
Definition TABLE_CTL_VALIDATE_CLEAR_FLAGS : Z := 8.
Definition TABLE_CTL_GET : Z := 16.
Definition TABLE_CTL_PUT : Z := 32.

Record table_ctl_request : Type := Request {
  rq_type : Z;
  expect_set : Z;
  expect_clear : Z;
  rq_set : Z;
  rq_clear : Z
}.

Definition asks (req : table_ctl_request) (x : Z) : bool := negb (Z.land (rq_type req) x =? 0).

Definition store_flags (req : table_ctl_request) (t : uacpi_installed_table) : uacpi_installed_table :=
  let t := if asks req TABLE_CTL_SET_FLAGS then set_flags (Z.lor (flags t) (rq_set req)) t else t in
  if asks req TABLE_CTL_CLEAR_FLAGS then set_flags (Z.land (flags t) (wrap8 (Z.lnot (rq_clear req)))) t else t.

(** The status, [out_tbl] and the state. *)
Definition table_ctl (idx : Z) (req : table_ctl_request) : ust -> outcome (uacpi_status * Z * ust) :=
  online NULL (fun s =>
    match tables (uc s) !! Z.to_nat idx with
    | None => Ok (UACPI_STATUS_INVALID_ARGUMENT, NULL, s)
    | Some t =>
        if has t UACPI_TABLE_INVALID then Ok (UACPI_STATUS_INVALID_ARGUMENT, NULL, s)
        else if asks req TABLE_CTL_VALIDATE_SET_FLAGS && negb (Z.land (flags t) (expect_set req) =? expect_set req)
        then Ok (UACPI_STATUS_INVALID_ARGUMENT, NULL, s)
        else if asks req TABLE_CTL_VALIDATE_CLEAR_FLAGS && negb (Z.land (flags t) (expect_clear req) =? 0)
        then Ok (UACPI_STATUS_ALREADY_EXISTS, NULL, s)
        else
          let i := Z.to_nat idx in
          '(ret, s) ← (if asks req TABLE_CTL_GET then table_ref_unlocked i s else Ok (UACPI_STATUS_OK, s));
          if negb (is_ok ret) then Ok (ret, NULL, s)
          else
            t ← checked (tables (uc s) !! i) OutOfBounds;
            let out := if asks req TABLE_CTL_GET then ptr t else NULL in
            '(ret, s) ← (if asks req TABLE_CTL_PUT then table_unref_unlocked i s else Ok (UACPI_STATUS_OK, s));
            if negb (is_ok ret) then Ok (ret, out, s)
            else
              t ← checked (tables (uc s) !! i) OutOfBounds;
              Ok (UACPI_STATUS_OK, out, store_table i (store_flags req t) s)
    end).

Definition uacpi_table_ref (tbl : uacpi_table) (s : ust) : outcome (uacpi_status * ust) :=
  '(ret, _, s) ← table_ctl (tb_index tbl) (Request TABLE_CTL_GET 0 0 0 0) s; Ok (ret, s).
Definition uacpi_table_unref (tbl : uacpi_table) (s : ust) : outcome (uacpi_status * ust) :=
  '(ret, _, s) ← table_ctl (tb_index tbl) (Request TABLE_CTL_PUT 0 0 0 0) s; Ok (ret, s).

Definition uacpi_table_find_next_with_same_signature (tbl : uacpi_table) : ust -> outcome (uacpi_status * option uacpi_table * ust) :=
  online None (fun s =>
    if tb_ptr tbl =? NULL then Ok (UACPI_STATUS_INVALID_ARGUMENT, None, s)
    else
      signature ← rd_bytes 4 (umem s) (tb_ptr tbl);
      '(_, s) ← uacpi_table_unref tbl s;
      find_table (Z.to_nat (wrap64 (tb_index tbl + 1))) (Identifiers signature no_oemid no_oem_table_id) s).

(** The status and the copy of the FADT. *)
Definition uacpi_table_fadt : ust -> outcome (uacpi_status * mem * ust) :=
  online (fun _ => 0) (fun s => Ok (UACPI_STATUS_OK, fadt (uc s), s)).

(** ** uacpi_init (K/apic.c)

    [ts] is the buffer; a table that is not found leaves the pointer as the stack has it, [junk].  The
    result is the globals [ACPI_MADT] and [ACPI_HPET] and the addresses read from the two tables. *)
Definition uacpi_init (ts junk_madt junk_hpet : Z) (s : ust) : outcome (acpi * Z * Z * ust) :=
  '(_, s) ← uacpi_setup_early_table_access ts 4096 s;
  '(_, madt, s) ← uacpi_table_find_by_signature sig_apic s;
  let ACPI_MADT := from_option tb_ptr junk_madt madt in
  lapic_addr ← rd 4 (umem s) (wrap64 (ACPI_MADT + MADT_LAPIC_ADDR));
  '(_, hpet, s) ← uacpi_table_find_by_signature sig_hpet s;
  let ACPI_HPET := from_option tb_ptr junk_hpet hpet in
  address ← rd 8 (umem s) (wrap64 (ACPI_HPET + HPET_ADDRESS));
  Ok (Acpi ACPI_MADT ACPI_HPET, lapic_addr, address, s).

End Tables.
