(* ===== verification/UacpiRefs.v ===== *)
(** * References to ACPI tables

    The invariant of the array of tables of [UacpiTables] over every sequence of calls of a client: the
    array is within its capacity, a referenced table is mapped, and no assertion of the kernel's
    callbacks fails.  References against a counter, and the search by signature. *)

From S2P Require Import Prelude Memory Machine Frames Heap Paging Loader LoadImage HeapInit KernelApi Acpi UacpiTables.

Local Open Scope list_scope.

(** ** Results without a failed assertion *)

Definition safe {A : Type} (Q : A -> Prop) (o : outcome A) : Prop :=
  match o with Ok a => Q a | Err e => e <> AssertFailed end.

Lemma safe_bind {A B} (P : A -> Prop) (Q : B -> Prop) (m : outcome A) (f : A -> outcome B) :
  safe P m -> (forall a, P a -> safe Q (f a)) -> safe Q (m ≫= f).
Proof. destruct m; cbn; auto. Qed.

Lemma safe_weaken {A} (P Q : A -> Prop) o : (forall a, P a -> Q a) -> safe P o -> safe Q o.
Proof. destruct o; cbn; auto. Qed.

Lemma safe_loop {S} (P : S -> Prop) (f : Z -> S -> outcome S) n s :
  (forall i s, P s -> safe P (f i s)) -> P s -> safe P (loop n f s).
Proof.
  intros Hf. unfold loop. generalize 0. induction (Z.to_nat n) as [|k IH] in s |- *; intros i Hs; cbn [loop_from]; [done|].
  apply (safe_bind P); [by apply Hf|]. intros a Ha. by apply IH.
Qed.

Lemma safe_checked {A} (o : option A) e : e <> AssertFailed -> safe (fun a => o = Some a) (checked o e).
Proof. intros. by destruct o. Qed.

Definition any {A : Type} (_ : A) : Prop := True.

(** ** The kernel's callbacks *)

(** Follows the code; what a step returns is forgotten. *)
Ltac safe_step :=
  match goal with
  | |- safe _ (Ok _) => cbn [safe]
  | |- safe _ (Err _) => discriminate
  | |- safe _ (mbind _ _) => apply (safe_bind any); [|intros ? _]
  | |- safe any (loop _ _ _) => apply (safe_loop any); [intros ? ? _|exact I]
  | |- safe _ (let '(_, _) := ?x in _) => destruct x
  | |- safe _ (match ?x with _ => _ end) => destruct x
  | |- any _ => exact I
  | |- safe any (checked ?o _) => destruct o; [exact I|discriminate]
  end.
Create HintDb safe discriminated.
#[local] Hint Constants Opaque : safe.
Ltac safes := repeat (first [solve [eauto with safe] | safe_step]).

Lemma scan_bitmap_safe n : forall i r, safe any (scan_bitmap n i r).
Proof. induction n as [|n IH]; intros i r; cbn [scan_bitmap]; safes. Qed.

#[local] Hint Resolve scan_bitmap_safe : safe.

Lemma alloc_regions_safe rs : safe any (alloc_regions rs).
Proof. induction rs as [|r rs IH]; cbn [alloc_regions]; safes. Qed.

#[local] Hint Resolve alloc_regions_safe : safe.

Lemma set_status_safe k : forall v l, safe any (set_status k v l).
Proof. induction k as [|k IH]; intros v [|n l]; cbn [set_status]; safes. Qed.

#[local] Hint Resolve set_status_safe : safe.

Lemma kmalloc_safe n s : safe any (kmalloc n s).
Proof. unfold kmalloc, set_status_at. cbn [irq_disable_save]. safes. Qed.

Lemma kfree_safe a s : safe any (kfree a s).
Proof. unfold kfree, set_status_at. cbn [irq_disable_save]. safes. Qed.

#[local] Hint Resolve kmalloc_safe kfree_safe : safe.

Lemma krealloc_byte_safe a n s : safe any (krealloc_byte a n s).
Proof. unfold krealloc_byte, kmalloc_byte_interruptable. cbn [irq_disable_save]. safes. Qed.

#[local] Hint Resolve krealloc_byte_safe : safe.

Lemma map_page_safe hhdm pml4 a v perm p : safe any (map_page hhdm pml4 a v perm p).
Proof. unfold map_page, map_tables, level_step, record_mapping, alloc_frame. cbn [irq_disable_save]. safes. Qed.

#[local] Hint Resolve map_page_safe : safe.

(** ** The invariant *)

(** A table has at least its header; a physical table that is referenced is mapped, at its own address; an invalid
    table is not referenced. *)
Record table_ok (t : uacpi_installed_table) : Prop := {
  to_length : SIZEOF_SDT <= h_length (hdr t);
  to_count : 0 <= reference_count t <= 0xFFFF;
  to_mapped : is_physical (origin t) = true -> reference_count t <> 0 -> ptr t = phys_addr t /\ ptr t <> NULL;
  to_invalid : valid t = false -> reference_count t = 0
}.

Record uacpi_ok (u : uacpi) : Prop := {
  uo_capacity : 0 <= dynamic_capacity u < 2 ^ 63;
  uo_size : table_array_size u <= UACPI_STATIC_TABLE_ARRAY_LEN + dynamic_capacity u;
  uo_tables : Forall table_ok (tables u);
  uo_offline : early_table_access u = false -> tables u = [] /\ dynamic_capacity u = 0
}.

(** The states in which the array can be used. *)
Definition on (s : ust) : Prop := uacpi_ok (uc s) /\ early_table_access (uc s) = true.

Lemma on_uc_eq s s' : uc s' = uc s -> on s -> on s'.
Proof. intros E. unfold on. by rewrite E. Qed.

Lemma on_store i t s : table_ok t -> on s -> on (store_table i t s).
Proof.
  intros Ht [[H1 H2 H3 H4] H5]. split; [|done]. unfold store_table, on_uc. cbn [uc]. unfold table_array_size in *.
  split; cbn; [done| |by apply Forall_insert|]; [unfold table_array_size; cbn; by rewrite length_insert|by rewrite H5].
Qed.

Lemma on_fadt f s : on s -> on (on_uc (set_fadt f) s).
Proof. by intros [[] ?]. Qed.

Lemma on_rev1 b s : on s -> on (on_uc (set_is_rev1 b) s).
Proof. by intros [[] ?]. Qed.

Lemma on_lookup s i t : on s -> tables (uc s) !! i = Some t -> table_ok t.
Proof. intros [[_ _ H _] _]. by apply Forall_lookup_1. Qed.

Lemma is_ok_spec r : BoolSpec (r = UACPI_STATUS_OK) (r <> UACPI_STATUS_OK) (is_ok r).
Proof. unfold is_ok. case_bool_decide; by constructor. Qed.

Lemma has_invalid t : has t UACPI_TABLE_INVALID = negb (valid t).
Proof. unfold valid. by rewrite negb_involutive. Qed.

Lemma table_ok_count x t : SIZEOF_SDT <= h_length (hdr t) -> 0 <= x <= 0xFFFF ->
  (x <> 0 -> (is_physical (origin t) = true -> ptr t = phys_addr t /\ ptr t <> NULL) /\ valid t = true) -> table_ok (set_count x t).
Proof.
  intros H1 H2 H3. split; [done|done|intros Hp Hx; by apply H3|]. intros V. change (valid t = false) in V. cbn.
  destruct (decide (x = 0)) as [|Hx]; [done|]. destruct (H3 Hx) as [_ V']. congruence.
Qed.

Lemma wrap16_small x : 0 <= x < 2 ^ 16 -> wrap16 x = x.
Proof. apply Z.mod_small. Qed.

Section Invariant.
Context (hhdm_offset pml4_address_virt_glob rsdp_address : Z).
Context (call_handler : Z -> Z -> pst -> outcome (Z * Z * pst)) (depth : nat).
Context (Hhandler : forall f a p, safe any (call_handler f a p)).

Local Abbreviation kernel_map := (kernel_map hhdm_offset pml4_address_virt_glob).
Local Abbreviation table_ref_unlocked := (table_ref_unlocked hhdm_offset pml4_address_virt_glob).
Local Abbreviation rd := (rd hhdm_offset pml4_address_virt_glob).
Local Abbreviation checksum := (checksum hhdm_offset pml4_address_virt_glob).

Lemma kernel_map_on addr len s : on s -> safe (fun r => r.1 = addr /\ uc r.2 = uc s /\ on r.2) (kernel_map addr len s).
Proof.
  intros Hs. unfold UacpiTables.kernel_map, uacpi_kernel_map. apply (safe_bind (fun r => r.1 = addr)).
  - safes.
  - intros [v p] E. cbn in *. by split_and!.
Qed.

Lemma kernel_unmap_on addr len s : addr <> NULL -> on s -> safe (fun s' => s' = s /\ on s') (kernel_unmap addr len s).
Proof. intros Ha Hs. unfold kernel_unmap, uacpi_kernel_unmap. destruct (Z.eqb_spec addr NULL); [done|]. cbn. done. Qed.

Lemma vread_safe n : forall m a, safe any (rd n m a).
Proof.
  unfold Acpi.rd. induction n as [|n IH]; intros m a; cbn [vread]; [done|]. apply (safe_bind any); [|intros; safes].
  unfold resolve. destruct (2 ^ 63 <=? a); [done|]. destruct (mmu_step _ _ _ _ ≫= _); [exact I|discriminate].
Qed.

Hint Resolve vread_safe : safe.

Lemma checksum_safe n : forall m p c, safe any (checksum n m p c).
Proof. induction n as [|n IH]; intros m p c; cbn [Acpi.checksum]; safes. Qed.

Hint Resolve checksum_safe : safe.

Lemma verify_checksum_safe t n s : safe any (uacpi_verify_table_checksum hhdm_offset pml4_address_virt_glob t n s).
Proof. unfold uacpi_verify_table_checksum. safes. Qed.

Lemma rd_bytes_safe n : forall m a, safe any (rd_bytes hhdm_offset pml4_address_virt_glob n m a).
Proof. induction n as [|n IH]; intros m a; cbn [rd_bytes]; safes. Qed.

Hint Resolve verify_checksum_safe rd_bytes_safe : safe.

(** *** References *)

(** The result of the first reference: a failure leaves a table without references. *)
Lemma map_table_on t s : on s -> table_ok t -> reference_count t = 0 -> valid t = true -> is_physical (origin t) = true ->
  safe (fun '(ret, t', s') => on s' /\ uc s' = uc s /\ hdr t' = hdr t /\ reference_count t' = 0 /\
    (ret = UACPI_STATUS_OK -> ptr t' = phys_addr t' /\ ptr t' <> NULL /\ valid t' = true))
    (map_table hhdm_offset pml4_address_virt_glob t s).
Proof.
  intros Hs Ht Hc Hv Hp. unfold map_table. eapply safe_bind; [by apply kernel_map_on|]. intros [v s1] (Hv1 & Hu & Hs1). cbn [fst snd] in *. subst v.
  destruct (Z.eqb_spec (phys_addr t) NULL) as [E|E]; [cbn; by split_and!|].
  destruct (has (set_ptr _ t) UACPI_TABLE_CSUM_VERIFIED); [cbn; by split_and!|].
  eapply safe_bind; [apply verify_checksum_safe|]. intros ret _. destruct (is_ok_spec ret) as [-> |Hne].
  - cbn. split_and!; try done. intros _. split_and!; [done|done|].
    unfold valid, has in *. cbn [flags set_flags set_ptr]. unfold UACPI_TABLE_CSUM_VERIFIED, UACPI_TABLE_INVALID in *.
    by rewrite Z.land_lor_distr_l, Z.lor_0_r.
  - eapply safe_bind; [by apply kernel_unmap_on|]. intros s2 [-> Hs2]. cbn. by split_and!.
Qed.

Lemma first_reference_on t s : on s -> table_ok t -> reference_count t = 0 ->
  safe (fun '(ret, t', s') => on s' /\ hdr t' = hdr t /\ reference_count t' = 0 /\
    (ret = UACPI_STATUS_OK -> (is_physical (origin t') = true -> ptr t' = phys_addr t' /\ ptr t' <> NULL) /\ valid t' = true))
    (first_reference hhdm_offset pml4_address_virt_glob t s).
Proof.
  intros Hs Ht Hc. unfold first_reference. rewrite has_invalid. destruct (valid t) eqn:Hv; cbn [negb]; [|cbn; by split_and!].
  destruct (is_physical (origin t)) eqn:Hp; [|cbn; split_and!; try done; intros _; split; [congruence|done]].
  eapply safe_weaken; [|by apply map_table_on]. intros [[ret t'] s'] (H1 & _ & H2 & H3 & H4). split_and!; try done.
  intros E. destruct (H4 E) as (? & ? & ?). done.
Qed.

Lemma table_ref_on i s : on s -> safe (fun r => on r.2) (table_ref_unlocked i s).
Proof.
  intros Hs. unfold UacpiTables.table_ref_unlocked. eapply safe_bind; [by apply safe_checked|]. intros t Hi.
  pose proof (on_lookup _ _ _ Hs Hi) as [T1 T2 T3 T4].
  eapply (safe_bind (fun '(ret, t', s') => on s' /\ hdr t' = hdr t /\ reference_count t' = reference_count t /\
    (ret <> UACPI_STATUS_OK -> reference_count t = 0) /\
    (ret = UACPI_STATUS_OK -> (is_physical (origin t') = true -> ptr t' = phys_addr t' /\ ptr t' <> NULL) /\ valid t' = true))).
  - destruct (Z.eqb_spec (reference_count t) 0) as [E|E].
    + eapply safe_weaken; [|by apply first_reference_on]. intros [[ret t'] s'] (? & ? & ? & ?). split_and!; try done. congruence.
    + cbn. split_and!; try done. intros _. split; [intros; by apply T3|]. destruct (valid t) eqn:V; [done|]. by rewrite T4 in E.
  - intros [[ret t'] s'] (H1 & H2 & H3 & H4 & H5). destruct (is_ok_spec ret) as [-> |Hne]; cbn [safe snd].
    + apply on_store; [|done]. destruct (H5 eq_refl) as [H6 H7].
      destruct (Z.eqb_spec (reference_count t') 0xFFFF) as [E|E].
      * replace t' with (set_count 0xFFFF t') by (rewrite <- E; by destruct t'). apply table_ok_count; [by rewrite H2|lia|done].
      * rewrite wrap16_small by lia. apply table_ok_count; [by rewrite H2|lia|done].
    + apply on_store; [|done]. specialize (H4 Hne). split; [congruence|lia|intros _ E; congruence|congruence].
Qed.

Lemma table_unref_on i s : on s -> safe (fun r => on r.2) (table_unref_unlocked i s).
Proof.
  intros Hs. unfold table_unref_unlocked. eapply safe_bind; [by apply safe_checked|]. intros t Hi.
  pose proof (on_lookup _ _ _ Hs Hi) as [T1 T2 T3 T4]. destruct (Z.eqb_spec (reference_count t) 0) as [E0|E0]; [done|].
  destruct (Z.eqb_spec (reference_count t) 0xFFFF) as [E1|E1]; [done|].
  assert (valid t = true) as V by (destruct (valid t); [done|by rewrite T4 in E0]).
  destruct (Z.eqb_spec (reference_count t) 1) as [E2|E2]; cbn [andb].
  - destruct (is_physical (origin t)) eqn:Hp.
    + eapply (safe_bind (fun r => r = (set_ptr NULL t, s))).
      * destruct (T3 eq_refl E0) as [E3 E4]. eapply safe_bind; [by apply kernel_unmap_on|]. intros s' [-> _]. done.
      * intros ? ->. cbn [safe snd]. apply on_store; [|done]. change (reference_count (set_ptr NULL t)) with (reference_count t).
        rewrite wrap16_small by lia. apply table_ok_count; [done|lia|intros; lia].
    + cbn [mbind outcome_bind safe snd]. apply on_store; [|done]. rewrite wrap16_small by lia. apply table_ok_count; [done|lia|intros; lia].
  - cbn [mbind outcome_bind safe snd]. apply on_store; [|done]. rewrite wrap16_small by lia.
    apply table_ok_count; [done|lia|]. intros _. split; [intros Hp; by apply T3|done].
Qed.

(** *** Installation *)

Lemma table_alloc_spec s i u : on s -> table_alloc (uc s) = Some (i, u) ->
  i = length (tables (uc s)) /\ u = set_tables (tables (uc s) ++ [blank]) (uc s) /\
  table_array_size (uc s) < UACPI_STATIC_TABLE_ARRAY_LEN + dynamic_capacity (uc s).
Proof.
  intros [[H1 H2 _ _] H3]. unfold table_alloc, table_array_alloc. rewrite H3. cbn [andb].
  unfold table_array_capacity, table_array_size, UACPI_STATIC_TABLE_ARRAY_LEN in *. rewrite wrap64_small by lia.
  destruct (Z.eqb_spec (Z.of_nat (length (tables (uc s)))) (16 + dynamic_capacity (uc s))); [done|]. destruct (_ && _); [done|].
  intros [= <- <-]. split_and!; [done|done|lia].
Qed.

(** A table in the slot [table_alloc] returns. *)
Lemma on_install s i u t : on s -> table_alloc (uc s) = Some (i, u) -> table_ok t -> on (store_table i t (Ust u (up s))).
Proof.
  intros Hs E Ht. destruct (table_alloc_spec s i u Hs E) as (-> & -> & Hsize). destruct Hs as [[H1 H2 H3 H4] H5].
  unfold store_table, on_uc, table_array_size in *. cbn [uc tables set_tables].
  rewrite insert_app_r_alt, Nat.sub_diag by done. cbn. split; [|done].
  split; cbn; [done|unfold table_array_size; cbn; rewrite length_app; cbn; lia|apply Forall_app; split; [done|by apply Forall_singleton]|by rewrite H5].
Qed.

Local Abbreviation keeps_on f := (forall s, on s -> safe (fun r => on r.2) (f s)).

Lemma initialize_fadt_on install virt :
  (forall a, keeps_on (install a)) -> keeps_on (initialize_fadt hhdm_offset pml4_address_virt_glob install virt).
Proof.
  intros Hi s Hs. unfold initialize_fadt. eapply safe_bind; [apply vread_safe|]. intros n _.
  eapply (safe_bind any); [unfold copy_to_fadt; safes|]. intros f _. apply (safe_bind (fun r => on r.2)).
  - destruct (_ =? 0); [by apply on_fadt|]. by apply Hi, on_fadt.
  - intros [ret s'] Hs'. destruct (_ || _); [|done]. cbn [safe snd] in *. by apply (on_fadt _ s').
Qed.

Lemma verify_table_on init h phys virt want s : (forall a, keeps_on (init a)) -> on s ->
  safe (fun '(ret, fl, s') => on s' /\ (fl = 0 \/ fl = UACPI_TABLE_CSUM_VERIFIED))
    (verify_table hhdm_offset pml4_address_virt_glob init h phys virt want s).
Proof.
  intros Hi Hs. unfold verify_table. destruct (uacpi_signatures_match h sig_facs); [cbn; auto|].
  destruct (_ || _); [|cbn; auto]. apply (safe_bind (fun r => on r.2)).
  - destruct (Z.eqb_spec virt NULL); [|done]. eapply safe_weaken; [|by apply kernel_map_on]. by intros a (_ & _ & ?).
  - intros [mapping s1] Hs1. cbn [snd] in Hs1. destruct (Z.eqb_spec mapping NULL) as [E|E]; [cbn; auto|].
    eapply safe_bind; [apply verify_checksum_safe|]. intros ret _.
    apply (safe_bind (fun '(ret, fl, s') => on s' /\ (fl = 0 \/ fl = UACPI_TABLE_CSUM_VERIFIED))).
    + destruct (is_ok ret); [|cbn; auto]. apply (safe_bind (fun r => on r.2)); [destruct (uacpi_signatures_match h sig_facp); [by apply Hi|done]|].
      intros [ret' s2] Hs2. cbn in *. auto.
    + intros [[ret' fl] s2] [Hs2 Hf]. apply (safe_bind on); [|by intros s3 Hs3].
      destruct (virt =? NULL); [|done]. eapply safe_weaken; [|by apply kernel_unmap_on]. by intros ? [_ ?].
Qed.

Lemma verify_and_install_on init h phys virt o want s : (forall a, keeps_on (init a)) -> on s -> SIZEOF_SDT <= h_length h ->
  (want = true -> is_physical o = true -> virt = phys /\ virt <> NULL) ->
  safe (fun r => on r.2) (verify_and_install_table hhdm_offset pml4_address_virt_glob init h phys virt o want s).
Proof.
  intros Hi Hs Hh Hw. unfold verify_and_install_table. eapply safe_bind; [by apply verify_table_on|]. intros [[ret fl] s1] [Hs1 Hf].
  destruct (is_ok ret); [|done].
  set (s2 := if uacpi_signatures_match h sig_dsdt then _ else s1).
  assert (on s2) as Hs2 by (unfold s2; destruct (uacpi_signatures_match _ _); [by apply on_rev1|done]).
  destruct (table_alloc (uc s2)) as [[i u]|] eqn:E; [|done]. cbn [safe snd]. apply on_install; [done|done|].
  split; cbn [hdr reference_count origin ptr phys_addr]; [done|destruct want; lia| |].
  - intros Hp. destruct want; [intros _; by apply Hw|done].
  - unfold valid, has. cbn [flags]. by destruct Hf as [-> | ->].
Qed.

Lemma table_install_with_origin_on init virt o want : (forall a, keeps_on (init a)) -> is_physical o = false ->
  keeps_on (table_install_with_origin hhdm_offset pml4_address_virt_glob init virt o want).
Proof.
  intros Hi Ho s Hs. unfold table_install_with_origin. eapply safe_bind; [apply rd_bytes_safe|]. intros h _.
  destruct (Z.ltb_spec (h_length h) SIZEOF_SDT); [done|]. apply verify_and_install_on; [done|done|done|congruence].
Qed.

Lemma get_header_on phys s : on s -> safe (fun r => on r.2) (get_external_table_header hhdm_offset pml4_address_virt_glob phys s).
Proof.
  intros Hs. unfold get_external_table_header. eapply safe_bind; [by apply kernel_map_on|]. intros [v s1] (Hv & _ & Hs1). cbn [fst snd] in *.
  destruct (Z.eqb_spec v NULL); [done|]. eapply safe_bind; [apply rd_bytes_safe|]. intros h _.
  eapply safe_bind; [by apply kernel_unmap_on|]. by intros s2 [_ ?].
Qed.

Lemma dispose_on install override virt o : keeps_on install -> (forall x a, keeps_on (override x a)) ->
  keeps_on (dispose call_handler install override virt o).
Proof.
  intros Hi Ho s Hs. unfold dispose. destruct o; [|by apply Hi|by apply Hi]. destruct (_ =? NULL); [by apply Hi|].
  eapply safe_bind; [apply Hhandler|]. intros [[x a] p] _. destruct (_ =? ALLOW); [by apply Hi|]. destruct (_ =? DENY); [done|].
  eapply safe_bind; [by apply Ho|]. intros [[ret t] s'] Hs'. done.
Qed.

Lemma install_end_on virt len want r : on r.2 -> safe (fun r => on r.2) (install_end virt len want r).
Proof.
  destruct r as [[ret t] s]. cbn [snd]. intros Hs. unfold install_end. destruct (_ && _); [done|]. apply (safe_bind on); [|done].
  destruct (Z.eqb_spec virt NULL); [done|]. eapply safe_weaken; [|by apply kernel_unmap_on]. by intros ? [_ ?].
Qed.

Lemma table_install_physical_on d : forall phys o expected want,
  keeps_on (table_install_physical hhdm_offset pml4_address_virt_glob call_handler d phys o expected want).
Proof.
  induction d as [|d IH]; intros phys o expected want s Hs; cbn [table_install_physical]; [done|].
  eapply safe_bind; [by apply get_header_on|]. intros [[ret h] s1] Hs1. cbn [snd] in Hs1. destruct (negb _); [done|].
  destruct (Z.ltb_spec (h_length h) SIZEOF_SDT) as [|Hh]; [done|]. destruct (negb _); [done|].
  set (mapped := negb _ || want). apply (safe_bind (fun r => on r.2 /\ (mapped = true -> r.1 = phys))).
  { destruct mapped; [|done]. eapply safe_weaken; [|by apply kernel_map_on]. by intros a (-> & _ & ?). }
  intros [virt s2] [Hs2 Hv]. cbn [fst snd] in *. destruct (mapped && (virt =? NULL)) eqn:E; [done|].
  assert (forall a, keeps_on (initialize_fadt hhdm_offset pml4_address_virt_glob (fun a s =>
    '(ret, _, s) ← table_install_physical hhdm_offset pml4_address_virt_glob call_handler d a UACPI_TABLE_ORIGIN_FIRMWARE_PHYSICAL (Some sig_dsdt) false s;
    Ok (ret, s)) a)) as Hinit.
  { intros a. apply initialize_fadt_on. intros b s3 Hs3. eapply safe_bind; [by apply IH|]. by intros [[? ?] ?]. }
  eapply safe_bind; [apply dispose_on; [| |exact Hs2]|intros r Hr; by apply install_end_on].
  - intros s3 Hs3. apply verify_and_install_on; [done|done|done|]. intros -> _. unfold mapped in *. rewrite orb_true_r in *.
    cbn [andb] in E. apply Z.eqb_neq in E. by split; [apply Hv|].
  - intros x a s3 Hs3. destruct (_ =? VIRTUAL_OVERRIDE); [by apply table_install_with_origin_on|].
    destruct (_ =? PHYSICAL_OVERRIDE); [by apply IH|done].
Qed.

(** *** Setting up and resetting *)

Lemma install_entries_on n : forall rxsdt size i,
  keeps_on (install_entries hhdm_offset pml4_address_virt_glob call_handler depth n rxsdt size i).
Proof.
  induction n as [|n IH]; intros rxsdt size i s Hs; cbn [install_entries]; [done|]. eapply safe_bind; [apply vread_safe|]. intros e _.
  destruct (_ =? 0); [by apply IH|]. eapply safe_bind; [by apply table_install_physical_on|]. intros [[ret t] s1] Hs1.
  destruct (_ || _); [by apply IH|done].
Qed.

Lemma error_out_on rxsdt len r : rxsdt <> NULL -> on r.2 -> safe (fun r => on r.2) (error_out rxsdt len r).
Proof. intros Hn Hr. unfold error_out. eapply safe_bind; [by apply kernel_unmap_on|]. by intros s [_ ?]. Qed.

Lemma initialize_from_rxsdt_on a size :
  keeps_on (initialize_from_rxsdt hhdm_offset pml4_address_virt_glob call_handler depth a size).
Proof.
  intros s Hs. unfold initialize_from_rxsdt. eapply safe_bind; [by apply kernel_map_on|]. intros [x s1] (_ & _ & Hs1). cbn [fst snd] in *.
  destruct (Z.eqb_spec x NULL); [done|]. eapply safe_bind; [apply rd_bytes_safe|]. intros g _.
  destruct (negb _); [by apply error_out_on|]. eapply safe_bind; [apply vread_safe|]. intros len _.
  eapply safe_bind; [by apply kernel_unmap_on|]. intros s2 [_ Hs2]. destruct (_ <? _); [done|].
  eapply safe_bind; [by apply kernel_map_on|]. intros [y s3] (_ & _ & Hs3). cbn [fst snd] in *. destruct (Z.eqb_spec y NULL); [done|].
  eapply safe_bind; [apply verify_checksum_safe|]. intros ret _. apply (safe_bind (fun r => on r.2)).
  - destruct (is_ok ret); [by apply install_entries_on|done].
  - intros r Hr. by apply error_out_on.
Qed.

Lemma initialize_from_rsdp_on : keeps_on (initialize_from_rsdp hhdm_offset pml4_address_virt_glob rsdp_address call_handler depth).
Proof.
  intros s Hs. unfold initialize_from_rsdp. cbn [uacpi_kernel_get_rsdp is_ok negb]. apply (on_rev1 true) in Hs.
  eapply safe_bind; [by apply kernel_map_on|]. intros [x s1] (_ & _ & Hs1). cbn [fst snd] in *. destruct (Z.eqb_spec x NULL); [done|].
  do 3 (eapply safe_bind; [apply vread_safe|]; intros ? _). destruct (if _ && _ then _ else _) as [rx size].
  eapply safe_bind; [by apply kernel_unmap_on|]. intros s2 [_ Hs2]. destruct (_ =? 0); [done|]. by apply initialize_from_rxsdt_on.
Qed.

Lemma unmap_tables_safe l : Forall table_ok l -> forall s, safe (eq s) (unmap_tables l s).
Proof.
  induction 1 as [|t l Ht _ IH]; intros s; cbn [unmap_tables]; [done|]. apply (safe_bind (eq s)); [|intros ? <-; apply IH].
  destruct (is_physical (origin t)) eqn:Hp; [|done]. destruct (Z.eqb_spec (reference_count t) 0) as [|Hc]; [done|]. cbn [andb negb].
  destruct (to_mapped _ Ht Hp Hc) as [_ Hn]. unfold kernel_unmap, uacpi_kernel_unmap. by destruct (Z.eqb_spec (ptr t) NULL).
Qed.

Definition offline (s : ust) : Prop := uacpi_ok (uc s) /\ early_table_access (uc s) = false.

Lemma deinitialize_offline s : uacpi_ok (uc s) -> safe offline (uacpi_deinitialize_tables s).
Proof.
  intros Hs. unfold uacpi_deinitialize_tables. eapply safe_bind; [by apply unmap_tables_safe, uo_tables|]. intros ? <-.
  cbn [safe]. unfold offline, on_uc. cbn [uc].
  destruct (early_table_access (uc s)) eqn:E;
    (split; [|by unfold set_handler, set_storage, table_array_clear; cbn [early_table_access set_storage set_tables]]);
    (split; [split; [discriminate|reflexivity]|discriminate|constructor|split; reflexivity]).
Qed.

Lemma setup_ok buffer size s : 0 <= size < 2 ^ 64 -> uacpi_ok (uc s) ->
  safe (fun r => uacpi_ok (uc r.2)) (uacpi_setup_early_table_access hhdm_offset pml4_address_virt_glob rsdp_address call_handler depth buffer size s).
Proof.
  intros Hsize Hs. unfold uacpi_setup_early_table_access. destruct (early_table_access (uc s)) eqn:E; [done|].
  destruct (Z.ltb_spec size SIZEOF_INSTALLED_TABLE); [done|]. destruct (uo_offline _ Hs E) as [Ht _].
  eapply safe_bind; [apply initialize_from_rsdp_on|].
  - split; [|done]. unfold SIZEOF_INSTALLED_TABLE in *.
    assert (0 <= size / 64 < 2 ^ 63) as Hc by (Z.to_euclidean_division_equations; lia).
    split; cbn; [done|unfold table_array_size; cbn; rewrite Ht; cbn; unfold UACPI_STATIC_TABLE_ARRAY_LEN; lia|by rewrite Ht|done].
  - intros [ret s1] [Hs1 _]. cbn [snd] in Hs1. destruct (is_ok ret); [done|].
    eapply safe_bind; [by apply deinitialize_offline|]. by intros s2 [? _].
Qed.

(** *** Searching *)

Lemma for_each_table_on id n : forall i, keeps_on (for_each_table hhdm_offset pml4_address_virt_glob id n i).
Proof.
  induction n as [|n IH]; intros i s Hs; cbn [for_each_table]; [done|]. eapply safe_bind; [by apply safe_checked|]. intros t _.
  destruct (has t UACPI_TABLE_INVALID); [by apply IH|]. apply (safe_bind (fun r => on r.2)).
  - unfold do_search_tables. destruct (id_matches id (hdr t)); [|done]. eapply safe_bind; [by apply table_ref_on|].
    intros [ret s1] Hs1. destruct (is_ok ret); [eapply safe_bind; [by apply safe_checked|]; by intros|]. by destruct (bool_decide _).
  - intros [[[ret o]|] s1] Hs1; [done|]. by apply IH.
Qed.

Lemma table_ctl_on idx req : (rq_type req = TABLE_CTL_GET \/ rq_type req = TABLE_CTL_PUT) ->
  forall s, uacpi_ok (uc s) -> safe (fun r => uacpi_ok (uc r.2)) (table_ctl hhdm_offset pml4_address_virt_glob idx req s).
Proof.
  intros Hreq s Hs. unfold table_ctl, online. destruct (early_table_access (uc s)) eqn:E; [|done].
  assert (on s) as Hon by done. destruct (tables (uc s) !! Z.to_nat idx) as [t|]; [|done]. destruct (has _ _); [done|].
  do 2 (destruct (asks _ _ && _); [done|]). apply (safe_bind (fun r => on r.2)); [destruct (asks _ _); [by apply table_ref_on|done]|].
  intros [ret s1] Hs1. destruct (negb _); [by destruct Hs1|]. eapply safe_bind; [by apply safe_checked|]. intros t1 Ht1.
  apply (safe_bind (fun r => on r.2)); [destruct (asks _ _); [by apply table_unref_on|done]|]. intros [ret2 s2] Hs2.
  destruct (negb _); [by destruct Hs2|]. eapply safe_bind; [by apply safe_checked|]. intros t2 Ht2. cbn [safe snd].
  apply (on_store _ _ s2); [|done]. unfold store_flags, asks. destruct Hreq as [-> | ->]; by apply (on_lookup s2 (Z.to_nat idx)).
Qed.

(** *** The calls of a client *)

Inductive api_call : Type :=
| Setup (temporary_buffer buffer_size : Z)
| Install (virt : Z) (want : bool)
| InstallPhysical (addr : Z) (want : bool)
| FindBySignature (signature : list Z)
| Find (id : uacpi_table_identifiers)
| FindNext (tbl : uacpi_table)
| Ref (tbl : uacpi_table)
| Unref (tbl : uacpi_table)
| SetHandler (handler : Z)
| SetProactive (setting : bool)
| Reset.

Definition run_call (c : api_call) (s : ust) : outcome ust :=
  match c with
  | Setup b n => '(_, s) ← uacpi_setup_early_table_access hhdm_offset pml4_address_virt_glob rsdp_address call_handler depth b n s; Ok s
  | Install a w => '(_, _, s) ← uacpi_table_install hhdm_offset pml4_address_virt_glob call_handler depth a w s; Ok s
  | InstallPhysical a w => '(_, _, s) ← uacpi_table_install_physical hhdm_offset pml4_address_virt_glob call_handler depth a w s; Ok s
  | FindBySignature g => '(_, _, s) ← uacpi_table_find_by_signature hhdm_offset pml4_address_virt_glob g s; Ok s
  | Find id => '(_, _, s) ← uacpi_table_find hhdm_offset pml4_address_virt_glob id s; Ok s
  | FindNext t => '(_, _, s) ← uacpi_table_find_next_with_same_signature hhdm_offset pml4_address_virt_glob t s; Ok s
  | Ref t => '(_, s) ← uacpi_table_ref hhdm_offset pml4_address_virt_glob t s; Ok s
  | Unref t => '(_, s) ← uacpi_table_unref hhdm_offset pml4_address_virt_glob t s; Ok s
  | SetHandler h => Ok (uacpi_set_table_installation_handler h s).2
  | SetProactive b => Ok (on_uc (uacpi_context_set_proactive_table_checksum b) s)
  | Reset => uacpi_state_reset s
  end.

Fixpoint run_calls (cs : list api_call) (s : ust) : outcome ust :=
  match cs with
  | [] => Ok s
  | c :: cs => s ← run_call c s; run_calls cs s
  end.

(** The size of a buffer has 64 bits. *)
Definition call_ok (c : api_call) : Prop := match c with Setup _ n => is_u64 n | _ => True end.

Lemma online_ok {A} (none : A) f s : keeps_on f -> uacpi_ok (uc s) -> safe (fun r => uacpi_ok (uc r.2)) (online none f s).
Proof.
  intros Hf Hs. unfold online. destruct (early_table_access (uc s)) eqn:E; [|done]. eapply safe_weaken; [|by apply Hf]. by intros r [? _].
Qed.

Lemma find_table_ok i id s : uacpi_ok (uc s) -> safe (fun r => uacpi_ok (uc r.2)) (find_table hhdm_offset pml4_address_virt_glob i id s).
Proof. apply online_ok. intros s' Hs'. by apply for_each_table_on. Qed.

Lemma find_ok id s : uacpi_ok (uc s) -> safe (fun r => uacpi_ok (uc r.2)) (online None (find_table hhdm_offset pml4_address_virt_glob 0 id) s).
Proof.
  intros Hs. unfold online. destruct (early_table_access (uc s)); [by apply find_table_ok|done].
Qed.

Lemma unref_ok t s : uacpi_ok (uc s) -> safe (fun r => uacpi_ok (uc r.2)) (uacpi_table_unref hhdm_offset pml4_address_virt_glob t s).
Proof. intros Hs. unfold uacpi_table_unref. eapply safe_bind; [apply table_ctl_on; [by right|done]|]. by intros [[? ?] ?]. Qed.

Lemma run_call_ok c s : call_ok c -> uacpi_ok (uc s) -> safe (fun s' => uacpi_ok (uc s')) (run_call c s).
Proof.
  intros Hc Hs. destruct c; cbn [run_call].
  - eapply safe_bind; [by apply setup_ok|]. by intros [? ?].
  - eapply safe_bind; [apply online_ok; [|done]|by intros [[? ?] ?]]. intros s' Hs'. apply table_install_with_origin_on; [|done|done].
    intros a. apply initialize_fadt_on. intros b s2 Hs2. unfold install_dsdt. eapply safe_bind; [by apply table_install_physical_on|].
    by intros [[? ?] ?].
  - eapply safe_bind; [apply online_ok; [|done]|by intros [[? ?] ?]]. intros s' Hs'. by apply table_install_physical_on.
  - eapply safe_bind; [by apply find_ok|]. by intros [[? ?] ?].
  - eapply safe_bind; [by apply find_ok|]. by intros [[? ?] ?].
  - apply (safe_bind (fun r => uacpi_ok (uc r.2))); [|by intros [[? ?] ?]]. unfold uacpi_table_find_next_with_same_signature, online.
    destruct (early_table_access (uc s)); [|done]. destruct (_ =? NULL); [done|]. eapply safe_bind; [apply rd_bytes_safe|]. intros g _.
    eapply safe_bind; [by apply unref_ok|]. intros [ret s1] Hs1. by apply find_table_ok.
  - apply (safe_bind (fun r => uacpi_ok (uc r.2))); [|by intros [? ?]]. unfold uacpi_table_ref.
    eapply (safe_bind (fun r => uacpi_ok (uc r.2))); [apply table_ctl_on; [by left|done]|]. by intros [[? ?] ?].
  - eapply safe_bind; [by apply unref_ok|]. by intros [? ?].
  - cbn. destruct (_ && _); [done|]. by destruct Hs.
  - by destruct Hs.
  - unfold uacpi_state_reset. eapply safe_bind; [by apply deinitialize_offline|]. intros s' [[] _]. done.
Qed.

Lemma run_calls_ok cs : forall s, Forall call_ok cs -> uacpi_ok (uc s) -> safe (fun s' => uacpi_ok (uc s')) (run_calls cs s).
Proof.
  induction cs as [|c cs IH]; intros s Hc Hs; cbn [run_calls]; [done|]. inv Hc.
  eapply safe_bind; [by apply run_call_ok|]. intros s' Hs'. by apply IH.
Qed.

Lemma uacpi_zero_ok : uacpi_ok uacpi_zero.
Proof. split; [split; [discriminate|reflexivity]|discriminate|constructor|done]. Qed.


End Invariant.

(** ** References against a counter *)

Section References.
Context (hhdm_offset pml4_address_virt_glob : Z).

Local Abbreviation table_ref_unlocked := (table_ref_unlocked hhdm_offset pml4_address_virt_glob).

(** A sequence of references (true) and releases (false) of a table; the statuses and the state. *)
Fixpoint run_refs (tbl : uacpi_table) (ops : list bool) (s : ust) : outcome (list uacpi_status * ust) :=
  match ops with
  | [] => Ok ([], s)
  | op :: ops =>
      '(r, s) ← (if op then uacpi_table_ref hhdm_offset pml4_address_virt_glob tbl s
                 else uacpi_table_unref hhdm_offset pml4_address_virt_glob tbl s);
      '(rs, s) ← run_refs tbl ops s;
      Ok (r :: rs, s)
  end.

(** The counter: it stays at 0xFFFF once it is there. *)
Definition count_step (c : Z) (op : bool) : Z := if c =? 0xFFFF then c else if op then c + 1 else c - 1.

(** With [n] references, no release of the sequence takes the last one. *)
Fixpoint held (n : Z) (ops : list bool) : Prop :=
  match ops with
  | [] => True
  | true :: ops => held (n + 1) ops
  | false :: ops => 2 <= n /\ held (n - 1) ops
  end.

Lemma count_stuck ops : fold_left count_step ops 0xFFFF = 0xFFFF.
Proof. by induction ops. Qed.

Lemma held_positive ops : forall n, 1 <= n <= 0xFFFF -> held n ops -> 1 <= fold_left count_step ops n <= 0xFFFF.
Proof.
  induction ops as [|op ops IH]; intros n Hn H; cbn [fold_left]; [done|]. unfold count_step at 2 4.
  destruct (Z.eqb_spec n 0xFFFF) as [-> |]; [by rewrite count_stuck|].
  destruct op; cbn in H; (apply IH; [lia|]); [done|by destruct H].
Qed.

Lemma is_ok_true : is_ok UACPI_STATUS_OK = true.
Proof. done. Qed.

Lemma store_store i t t' s : store_table i t (store_table i t' s) = store_table i t s.
Proof. destruct s. unfold store_table, on_uc. cbn. unfold set_tables. cbn. by rewrite list_insert_insert_eq. Qed.

Lemma store_same i t s : tables (uc s) !! i = Some t -> store_table i t s = s.
Proof. intros H. destruct s as [[] p]. unfold store_table, on_uc, set_tables. cbn in *. by rewrite list_insert_id. Qed.

Lemma store_lookup i t t' s : tables (uc s) !! i = Some t -> tables (uc (store_table i t' s)) !! i = Some t'.
Proof. intros H. unfold store_table, on_uc, set_tables. cbn. apply list_lookup_insert_eq. by eapply lookup_lt_Some. Qed.

(** Another reference, or a release that is not the last, changes the count only. *)
Lemma table_ref_counted i s t : on s -> tables (uc s) !! i = Some t -> 1 <= reference_count t ->
  table_ref_unlocked i s = Ok (UACPI_STATUS_OK, store_table i (set_count (count_step (reference_count t) true) t) s).
Proof.
  intros Hs Ht Hn. pose proof (to_count _ (on_lookup _ _ _ Hs Ht)). unfold UacpiTables.table_ref_unlocked. rewrite Ht. cbn [checked mbind outcome_bind].
  destruct (Z.eqb_spec (reference_count t) 0); [lia|]. cbn [mbind outcome_bind]. rewrite is_ok_true. unfold count_step.
  destruct (Z.eqb_spec (reference_count t) 0xFFFF) as [E|]; [do 3 f_equal; by destruct t|]. by rewrite wrap16_small by lia.
Qed.

Lemma table_unref_counted i s t : on s -> tables (uc s) !! i = Some t -> 2 <= reference_count t ->
  table_unref_unlocked i s = Ok (UACPI_STATUS_OK, store_table i (set_count (count_step (reference_count t) false) t) s).
Proof.
  intros Hs Ht Hn. pose proof (to_count _ (on_lookup _ _ _ Hs Ht)). unfold table_unref_unlocked. rewrite Ht. cbn [checked mbind outcome_bind].
  destruct (Z.eqb_spec (reference_count t) 0); [lia|]. unfold count_step. destruct (Z.eqb_spec (reference_count t) 0xFFFF) as [E|].
  - do 2 f_equal. symmetry. apply store_same. rewrite Ht. f_equal. by destruct t.
  - destruct (Z.eqb_spec (reference_count t) 1); [lia|]. cbn [andb mbind outcome_bind]. by rewrite wrap16_small by lia.
Qed.

(** The calls of a client, whose requests are constants. *)
Ltac requests :=
  repeat match goal with
  | |- context [asks ?r ?x] => let b := eval vm_compute in (asks r x) in change (asks r x) with b
  end; cbn [andb negb mbind outcome_bind].

Lemma table_ctl_get tbl s t s' : let i := Z.to_nat (tb_index tbl) in on s -> tables (uc s) !! i = Some t -> valid t = true ->
  table_ref_unlocked i s = Ok (UACPI_STATUS_OK, s') -> is_Some (tables (uc s') !! i) ->
  uacpi_table_ref hhdm_offset pml4_address_virt_glob tbl s = Ok (UACPI_STATUS_OK, s').
Proof.
  intros i [_ Hs] Ht Hv Hr [t' Ht']. unfold uacpi_table_ref, table_ctl, online. fold i. rewrite Hs, Ht, has_invalid, Hv. requests.
  rewrite Hr. cbn [mbind outcome_bind]. rewrite is_ok_true. cbn [negb]. rewrite Ht'. cbn [mbind outcome_bind checked].
  do 2 f_equal. by apply store_same.
Qed.

Lemma table_ctl_put tbl s t r s' : let i := Z.to_nat (tb_index tbl) in on s -> tables (uc s) !! i = Some t -> valid t = true ->
  table_unref_unlocked i s = Ok (r, s') -> is_Some (tables (uc s') !! i) ->
  uacpi_table_unref hhdm_offset pml4_address_virt_glob tbl s = Ok (r, s').
Proof.
  intros i [_ Hs] Ht Hv Hr [t' Ht']. unfold uacpi_table_unref, table_ctl, online. fold i. rewrite Hs, Ht, has_invalid, Hv. requests.
  rewrite is_ok_true. cbn [negb]. rewrite Ht. cbn [mbind outcome_bind checked]. rewrite Hr. cbn [mbind outcome_bind].
  destruct (is_ok_spec r) as [-> |]; cbn [negb]; [|done]. rewrite Ht'. cbn [mbind outcome_bind checked]. do 2 f_equal. by apply store_same.
Qed.

Lemma run_refs_held tbl ops : forall s t, let i := Z.to_nat (tb_index tbl) in on s -> tables (uc s) !! i = Some t ->
  1 <= reference_count t -> reference_count t = 0xFFFF \/ held (reference_count t) ops ->
  run_refs tbl ops s = Ok (replicate (length ops) UACPI_STATUS_OK, store_table i (set_count (fold_left count_step ops (reference_count t)) t) s).
Proof.
  induction ops as [|op ops IH]; intros s t i Hs Ht Hn Hh; cbn [run_refs length replicate fold_left].
  - do 2 f_equal. symmetry. apply store_same. rewrite Ht. by destruct t.
  - pose proof (on_lookup _ _ _ Hs Ht) as [T1 T2 T3 T4].
    assert (valid t = true) as V by (destruct (valid t); [done|rewrite T4 in Hn; [lia|done]]).
    set (c := count_step (reference_count t) op).
    assert (1 <= c <= 0xFFFF /\ (c = 0xFFFF \/ held c ops) /\ (op = false -> 2 <= reference_count t)) as (Hc & Hh' & H2).
    { unfold c, count_step. destruct (Z.eqb_spec (reference_count t) 0xFFFF) as [E|]; [split_and!; try lia; by left|].
      destruct Hh as [|Hh]; [done|]. destruct op; cbn in Hh; destruct_and?; split_and!; try lia; try done; by right. }
    set (s1 := store_table i (set_count c t) s).
    assert (on s1) as Hs1.
    { apply on_store; [|done]. apply table_ok_count; [done|lia|]. intros _. split; [|done]. intros Hp. apply T3; [done|lia]. }
    assert ((if op then uacpi_table_ref hhdm_offset pml4_address_virt_glob tbl s
             else uacpi_table_unref hhdm_offset pml4_address_virt_glob tbl s) = Ok (UACPI_STATUS_OK, s1)) as ->.
    { assert (is_Some (tables (uc s1) !! i)) by (eexists; by eapply store_lookup).
      destruct op; [by eapply table_ctl_get; [| | |apply table_ref_counted|]|].
      eapply table_ctl_put; try done. by apply table_unref_counted; [| |apply H2]. }
    cbn [mbind outcome_bind]. rewrite (IH s1 (set_count c t)); [|done|by eapply store_lookup|cbn; lia|done]. cbn [mbind outcome_bind].
    do 2 f_equal. unfold s1. by rewrite store_store.
Qed.

(** C24: references are counted, and a table stays mapped while it is held. For a table with references, a sequence of
    [uacpi_table_ref] and [uacpi_table_unref] in which every release but the last has a matching reference always
    succeeds, touches nothing but the count of this table, in particular not its address, and leaves it
    positive; the count is a counter that stays at 0xFFFF once it is there, so that a table referenced
    too often is never unmapped. The last release unmaps a physical table, and a release without a
    reference is refused and changes nothing. *)
Theorem references_counted (tbl : uacpi_table) (ops : list bool) (s : ust) (t : uacpi_installed_table)
    (Hok : uacpi_ok (uc s)) (Hon : early_table_access (uc s) = true) (Ht : tables (uc s) !! Z.to_nat (tb_index tbl) = Some t)
    (Hvalid : valid t = true) :
  (1 <= reference_count t -> held (reference_count t) ops ->
     run_refs tbl ops s = Ok (replicate (length ops) UACPI_STATUS_OK,
       store_table (Z.to_nat (tb_index tbl)) (set_count (fold_left count_step ops (reference_count t)) t) s) /\
     1 <= fold_left count_step ops (reference_count t) <= 0xFFFF) /\
  (reference_count t = 1 -> is_physical (origin t) = true ->
     uacpi_table_unref hhdm_offset pml4_address_virt_glob tbl s =
       Ok (UACPI_STATUS_OK, store_table (Z.to_nat (tb_index tbl)) (set_count 0 (set_ptr NULL t)) s)) /\
  (reference_count t = 0 -> uacpi_table_unref hhdm_offset pml4_address_virt_glob tbl s = Ok (UACPI_STATUS_INVALID_ARGUMENT, s)).
Proof.
  assert (on s) as Hs by done. pose proof (on_lookup _ _ _ Hs Ht) as [T1 T2 T3 T4]. split_and!.
  - intros Hn Hh. split; [|apply held_positive; [lia|done]]. apply run_refs_held; [done|done|done|by right].
  - intros E Hp. eapply table_ctl_put; [done|done|done| |eexists; by eapply store_lookup].
    unfold table_unref_unlocked. rewrite Ht. cbn [checked mbind outcome_bind]. rewrite E, Hp. cbn [Z.eqb Pos.eqb andb].
    destruct (T3 Hp ltac:(lia)) as [_ Hnull]. unfold kernel_unmap, uacpi_kernel_unmap. destruct (Z.eqb_spec (ptr t) NULL); [done|].
    cbn [mbind outcome_bind]. do 3 f_equal. cbn. by rewrite E.
  - intros E. eapply table_ctl_put; [done|done|done| |by eexists]. unfold table_unref_unlocked. rewrite Ht. cbn [checked mbind outcome_bind].
    by rewrite E.
Qed.

(** ** The search *)

Definition matches (id : uacpi_table_identifiers) (t : uacpi_installed_table) : bool := valid t && id_matches id (hdr t).

(** A reference to a table that has one already, or whose pages can be mapped and read; the bytes are not
    checked further when a wrong checksum is not fatal. *)
Definition can_map (t : uacpi_installed_table) (s : ust) (p : pst) : Prop :=
  if (reference_count t =? 0) && is_physical (origin t) then
    phys_addr t <> NULL /\
    uacpi_kernel_map hhdm_offset pml4_address_virt_glob (phys_addr t) (h_length (hdr t)) (up s) = Ok (phys_addr t, p) /\
    exists c, checksum hhdm_offset pml4_address_virt_glob (Z.to_nat (h_length (hdr t))) (pmem p) (phys_addr t) 0 = Ok c
  else p = up s.

(** The table after a reference. *)
Definition referenced (t : uacpi_installed_table) : uacpi_installed_table :=
  let t := if (reference_count t =? 0) && is_physical (origin t)
           then set_flags (Z.lor (flags t) UACPI_TABLE_CSUM_VERIFIED) (set_ptr (phys_addr t) t) else t in
  set_count (count_step (reference_count t) true) t.

Lemma verified_again t : has t UACPI_TABLE_CSUM_VERIFIED = true -> Z.lor (flags t) UACPI_TABLE_CSUM_VERIFIED = flags t.
Proof.
  unfold has, UACPI_TABLE_CSUM_VERIFIED. intros H%negb_true_iff%Z.eqb_neq.
  apply Z.bits_inj'. intros n Hn. rewrite Z.lor_spec. destruct (Z.testbit 2 n) eqn:E; [|by rewrite orb_false_r].
  assert (n = 1) as ->.
  { destruct (decide (n = 0)) as [-> |]; [done|]. destruct (decide (n = 1)); [done|]. rewrite Z.testbit_eqb in E by lia.
    apply Z.eqb_eq in E. rewrite Z.div_small in E; [done|]. split; [lia|]. apply (Z.lt_le_trans _ (2 ^ 2)); [done|]. apply Z.pow_le_mono_r; lia. }
  rewrite orb_true_r. destruct (Z.testbit (flags t) 1) eqn:E1; [done|]. destruct H.
  apply Z.bits_inj'. intros k Hk. rewrite Z.land_spec, Z.bits_0. destruct (decide (k = 1)) as [-> |Hne]; [by rewrite E1|].
  destruct (Z.testbit 2 k) eqn:E2; [|by rewrite andb_false_r]. change 2 with (2 ^ 1) in E2. rewrite Z.pow2_bits_eqb in E2 by lia.
  apply Z.eqb_eq in E2. lia.
Qed.

Lemma table_ref_mapped i s t p : on s -> tables (uc s) !! i = Some t -> valid t = true ->
  uacpi_check_flag UACPI_FLAG_BAD_CSUM_FATAL (uc s) = false -> can_map t s p ->
  table_ref_unlocked i s = Ok (UACPI_STATUS_OK, store_table i (referenced t) (Ust (uc s) p)).
Proof.
  intros Hs Ht Hv Hf Hm. pose proof (to_count _ (on_lookup _ _ _ Hs Ht)) as Hc. unfold can_map, referenced in *.
  destruct (Z.eqb_spec (reference_count t) 0) as [E|E]; cbn [andb] in *.
  2: { subst p. rewrite (table_ref_counted i s t) by (done || lia). by destruct s. }
  unfold UacpiTables.table_ref_unlocked. rewrite Ht. cbn [checked mbind outcome_bind]. rewrite E. cbn [Z.eqb].
  unfold first_reference. rewrite has_invalid, Hv. cbn [negb]. destruct (is_physical (origin t)); cbn [andb].
  2: { subst p. cbn [mbind outcome_bind]. rewrite is_ok_true, E. by destruct s. }
  destruct Hm as (Hn & Hm & c & Hcs). unfold map_table, kernel_map. rewrite Hm. cbn [mbind outcome_bind].
  destruct (Z.eqb_spec (phys_addr t) NULL); [done|]. destruct (has (set_ptr _ t) _) eqn:Hver.
  - cbn [mbind outcome_bind]. rewrite is_ok_true. cbn [reference_count set_ptr set_flags]. rewrite E. cbn [Z.eqb].
    apply (verified_again (set_ptr _ t)) in Hver. cbn [flags set_ptr] in Hver. by rewrite Hver.
  - unfold uacpi_verify_table_checksum, umem. cbn [up uc hdr set_ptr]. rewrite Hcs. cbn [mbind outcome_bind]. rewrite Hf, andb_false_r, is_ok_true.
    cbn [mbind outcome_bind]. rewrite is_ok_true. cbn [reference_count set_ptr set_flags]. by rewrite E.
Qed.

Lemma for_each_skips id n : forall i s, (i + n)%nat = length (tables (uc s)) ->
  (forall j t, (i <= j)%nat -> tables (uc s) !! j = Some t -> matches id t = false) ->
  for_each_table hhdm_offset pml4_address_virt_glob id n i s = Ok (UACPI_STATUS_NOT_FOUND, None, s).
Proof.
  induction n as [|n IH]; intros i s Hl Hno; cbn [for_each_table]; [done|].
  destruct (lookup_lt_is_Some_2 (tables (uc s)) i ltac:(lia)) as [t Ht]. rewrite Ht. cbn [checked mbind outcome_bind].
  pose proof (Hno i t ltac:(lia) Ht) as Hm. unfold matches in Hm. rewrite has_invalid. destruct (valid t); cbn [negb andb] in *.
  - unfold do_search_tables. rewrite Hm. cbn [mbind outcome_bind]. apply IH; [lia|]. intros j t' Hj. apply Hno. lia.
  - apply IH; [lia|]. intros j t' Hj. apply Hno. lia.
Qed.

Lemma for_each_finds id n k t p : forall i s, on s -> uacpi_check_flag UACPI_FLAG_BAD_CSUM_FATAL (uc s) = false ->
  (i + n)%nat = length (tables (uc s)) -> (i <= k)%nat -> tables (uc s) !! k = Some t -> matches id t = true -> can_map t s p ->
  (forall j t, (i <= j < k)%nat -> tables (uc s) !! j = Some t -> matches id t = false) ->
  for_each_table hhdm_offset pml4_address_virt_glob id n i s =
    Ok (UACPI_STATUS_OK, Some (Table (ptr (referenced t)) (Z.of_nat k)), store_table k (referenced t) (Ust (uc s) p)).
Proof.
  intros i s Hs Hf. revert i. induction n as [|n IH]; intros i Hl Hk Ht Hm Hp Hno; cbn [for_each_table].
  { apply lookup_lt_Some in Ht. lia. }
  destruct (decide (i = k)) as [-> |Hne].
  - rewrite Ht. cbn [checked mbind outcome_bind]. apply andb_true_iff in Hm as [Hv Hm]. rewrite has_invalid, Hv. cbn [negb].
    unfold do_search_tables. rewrite Hm, (table_ref_mapped k s t p) by done. cbn [mbind outcome_bind]. rewrite is_ok_true.
    rewrite (store_lookup k t) by done. done.
  - destruct (lookup_lt_is_Some_2 (tables (uc s)) i ltac:(lia)) as [t' Ht']. rewrite Ht'. cbn [checked mbind outcome_bind].
    pose proof (Hno i t' ltac:(lia) Ht') as Hm'. unfold matches in Hm'. rewrite has_invalid. destruct (valid t'); cbn [negb andb] in *.
    + unfold do_search_tables. rewrite Hm'. cbn [mbind outcome_bind]. apply IH; try done; [lia|lia|]. intros j u Hj. apply Hno. lia.
    + apply IH; try done; [lia|lia|]. intros j u Hj. apply Hno. lia.
Qed.

(** The table a search by signature looks for. *)
Definition by_signature (signature : list Z) : uacpi_table_identifiers := Identifiers (take 4 signature) no_oemid no_oem_table_id.

Lemma by_signature_matches g t : matches (by_signature g) t = valid t && uacpi_signatures_match g (hdr t).
Proof.
  unfold matches, id_matches. change (ignored (id_oemid (by_signature g))) with true. change (ignored (id_oem_table_id (by_signature g))) with true.
  cbn [orb id_signature by_signature]. rewrite !andb_true_r. unfold uacpi_signatures_match, h_signature. by rewrite !take_take.
Qed.

(** C26: [uacpi_table_find_by_signature] returns the first table with the signature. After set-up, and when wrong
    checksums are not fatal, as in this kernel: if a valid table has the four characters and the first such table
    is referenced already or can be mapped and read, the status is UACPI_STATUS_OK, the result is its index and
    address, at the physical address for a table of the firmware, and it has one more reference; if there is no such
    table, the status is UACPI_STATUS_NOT_FOUND, nothing is stored to the result and nothing changes. Before
    set-up the status is UACPI_STATUS_INIT_LEVEL_MISMATCH. *)
Theorem find_by_signature_first (signature : list Z) (s : ust) (Hok : uacpi_ok (uc s))
    (Hflag : uacpi_check_flag UACPI_FLAG_BAD_CSUM_FATAL (uc s) = false) :
  (early_table_access (uc s) = false ->
     uacpi_table_find_by_signature hhdm_offset pml4_address_virt_glob signature s = Ok (UACPI_STATUS_INIT_LEVEL_MISMATCH, None, s)) /\
  (early_table_access (uc s) = true ->
     (forall j t, tables (uc s) !! j = Some t -> valid t && uacpi_signatures_match signature (hdr t) = false) ->
     uacpi_table_find_by_signature hhdm_offset pml4_address_virt_glob signature s = Ok (UACPI_STATUS_NOT_FOUND, None, s)) /\
  (forall k t p, early_table_access (uc s) = true -> tables (uc s) !! k = Some t ->
     valid t && uacpi_signatures_match signature (hdr t) = true ->
     (forall j t, (j < k)%nat -> tables (uc s) !! j = Some t -> valid t && uacpi_signatures_match signature (hdr t) = false) ->
     can_map t s p ->
     uacpi_table_find_by_signature hhdm_offset pml4_address_virt_glob signature s =
       Ok (UACPI_STATUS_OK, Some (Table (ptr (referenced t)) (Z.of_nat k)), store_table k (referenced t) (Ust (uc s) p)) /\
     (is_physical (origin t) = true -> ptr (referenced t) = phys_addr t)).
Proof.
  unfold uacpi_table_find_by_signature, find_table, online. fold (by_signature signature). split_and!.
  - by intros ->.
  - intros E Hno. rewrite E. rewrite Nat.sub_0_r. apply for_each_skips; [done|]. intros j t _ Hj. rewrite by_signature_matches. by eapply Hno.
  - intros k t p E Hk Hm Hno Hp. split.
    + rewrite E, Nat.sub_0_r. rewrite (for_each_finds _ _ k t p); try done; [lia|by rewrite by_signature_matches|].
      intros j u [_ Hj] Hu. rewrite by_signature_matches. by eapply Hno.
    + intros Hph. unfold referenced. rewrite Hph, andb_true_r. destruct (Z.eqb_spec (reference_count t) 0); [done|].
      pose proof (to_mapped _ (on_lookup s k t ltac:(done) Hk) Hph ltac:(done)). by destruct_and?.
Qed.

End References.

(** ** Witnesses *)

(** A header of 36 bytes with a signature, and a table that is only a header. *)
Definition plain_header (signature : list Z) : list Z := signature ++ [36; 0; 0; 0] ++ replicate 28 0.
Definition sample_table (signature : list Z) (a count : Z) : uacpi_installed_table :=
  Installed a (plain_header signature) (if count =? 0 then NULL else a) count 0 UACPI_TABLE_ORIGIN_FIRMWARE_PHYSICAL.

(** Set-up has found two tables, and the second is referenced. *)
Definition sample_tables : ust :=
  Ust (set_storage 0x7000 64 true (set_tables [sample_table sig_facs 0x5000 0; sample_table sig_apic 0x6000 2] uacpi_zero)) (Pst boot_state None).

Lemma sample_tables_ok : uacpi_ok (uc sample_tables).
Proof.
  split; [split; [discriminate|reflexivity]|discriminate| |discriminate].
  repeat constructor; (discriminate || done || (intros _ H; by destruct H) || (vm_compute; congruence)).
Qed.


Lemma references_counted_witness :
  exists s', run_refs sample_hhdm sample_pml4 (Table 0x6000 1) [true; false; false] sample_tables = Ok (replicate 3 UACPI_STATUS_OK, s') /\
    (reference_count <$> tables (uc s') !! 1%nat) = Some 1.
Proof.
  destruct (references_counted sample_hhdm sample_pml4 (Table 0x6000 1) [true; false; false] sample_tables (sample_table sig_apic 0x6000 2)) as [H _].
  - exact sample_tables_ok.
  - reflexivity.
  - reflexivity.
  - reflexivity.
  - destruct H as [H _]; [vm_compute; congruence|vm_compute; intuition congruence|]. eexists. split; [exact H|reflexivity].
Defined.

Lemma find_by_signature_first_witness :
  exists s', uacpi_table_find_by_signature sample_hhdm sample_pml4 sig_apic sample_tables = Ok (UACPI_STATUS_OK, Some (Table 0x6000 1), s') /\
    (reference_count <$> tables (uc s') !! 1%nat) = Some 3.
Proof.
  destruct (find_by_signature_first sample_hhdm sample_pml4 sig_apic sample_tables) as (_ & _ & H).
  - exact sample_tables_ok.
  - reflexivity.
  - destruct (H 1%nat (sample_table sig_apic 0x6000 2) (Pst boot_state None)) as [E _].
    + reflexivity.
    + reflexivity.
    + reflexivity.
    + intros j t Hj Ht. assert (j = 0%nat) as -> by lia. injection Ht as <-. reflexivity.
    + reflexivity.
    + eexists. split; [exact E|reflexivity].
Defined.
