(* ===== verification/UacpiSetup.v ===== *)
(** * Setting up the tables of uACPI

    [uacpi_setup_early_table_access] on the page tables of the kernel: the tables the firmware lists are
    mapped, read and installed in order, a FADT after the DSDT it points to.  The result is a
    fold over the entries of the table of tables, whatever checksums and signatures say; and what
    [initialize_fadt] makes of the FADT. *)

From S2P Require Import Prelude Memory Machine Frames Heap Paging Loader LoadImage Tmpfs HeapInit KernelApi Acpi UacpiTables UacpiRefs.

Local Open Scope list_scope.

(** ** What set-up installs *)

Definition full (u : uacpi) : bool := table_array_size u =? UACPI_STATIC_TABLE_ARRAY_LEN + dynamic_capacity u.

(** When the array is full the table is dropped. *)
Definition add_table (t : uacpi_installed_table) (u : uacpi) : uacpi := if full u then u else set_tables (tables u ++ [t]) u.

Section Spec.
(** The bytes of physical memory. *)
Context (view : mem).

Definition header (e : Z) : list Z := bytes_at view e 36.
Definition table_length (e : Z) : Z := load32 view (e + SDT_LENGTH).
Definition firmware_table (e fl : Z) : uacpi_installed_table :=
  Installed e (header e) NULL 0 fl UACPI_TABLE_ORIGIN_FIRMWARE_PHYSICAL.

Definition add_plain (e : Z) (u : uacpi) : uacpi :=
  add_table (firmware_table e (if uacpi_signatures_match (header e) sig_facs then UACPI_TABLE_CSUM_VERIFIED else 0))
    (if uacpi_signatures_match (header e) sig_dsdt then set_is_rev1 (h_revision (header e) <? 2) u else u).

(** The copy of the FADT at [e] over the copy of before. *)
Definition copied (e : Z) (f : mem) : mem := put_bytes f 0 (bytes_at view e (Z.to_nat (Z.min SIZEOF_FADT (table_length e)))).
Definition dsdt_of (e : Z) (u : uacpi) : Z := load64 (fadt_prepare (copied e (fadt u))) FADT_X_DSDT.

Definition add_entry (u : uacpi) (e : Z) : uacpi :=
  if e =? 0 then u
  else if uacpi_signatures_match (header e) sig_facp then
    let d := dsdt_of e u in
    let u := set_fadt (fadt_prepare (copied e (fadt u))) u in
    let u := if d =? 0 then u else add_plain d u in
    add_table (firmware_table e UACPI_TABLE_CSUM_VERIFIED) (set_fadt (fadt_finish (is_hardware_reduced u) (fadt u)) u)
  else add_plain e u.

Lemma le_bytes_at n : forall a, le (bytes_at view a n) = load_le n view a.
Proof. induction n as [|n IH]; intros a; [done|]. cbn [bytes_at load_le]. rewrite <- IH. done. Qed.

Lemma h_length_header e : h_length (header e) = table_length e.
Proof.
  unfold h_length, header, table_length, load32, SDT_LENGTH. rewrite <- le_bytes_at. cbn [bytes_at drop take].
  by replace (e + 1 + 1 + 1 + 1) with (e + 4) by lia.
Qed.

End Spec.

Definition room (u : uacpi) : Prop :=
  0 <= dynamic_capacity u < 2 ^ 63 /\ table_array_size u <= UACPI_STATIC_TABLE_ARRAY_LEN + dynamic_capacity u /\
  early_table_access u = true /\ installation_handler u = NULL /\ rt_flags u = 0.

Lemma room_fadt f u : room u -> room (set_fadt f u).
Proof. done. Qed.

Lemma room_rev1 b u : room u -> room (set_is_rev1 b u).
Proof. done. Qed.

Lemma room_add t u : room u -> room (add_table t u).
Proof.
  intros (H1 & H2 & H3 & H4 & H5). unfold add_table, full. destruct (Z.eqb_spec (table_array_size u) (UACPI_STATIC_TABLE_ARRAY_LEN + dynamic_capacity u)); [done|].
  split; [done|]. split; [|done]. unfold table_array_size in *. cbn. rewrite length_app. cbn. lia.
Qed.

Lemma room_plain view e u : room u -> room (add_plain view e u).
Proof. intros Hu. unfold add_plain. apply room_add. by destruct (uacpi_signatures_match _ _); [apply room_rev1|]. Qed.

Lemma room_entry view e u : room u -> room (add_entry view u e).
Proof.
  intros Hu. unfold add_entry. destruct (_ =? 0); [done|]. destruct (uacpi_signatures_match _ _); [|by apply room_plain].
  cbv zeta. apply room_add, room_fadt. destruct (_ =? 0); [by apply room_fadt|by apply room_plain, room_fadt].
Qed.

Lemma room_alloc t u : room u ->
  match table_alloc u with Some (i, u') => set_tables (<[i := t]> (tables u')) u' = add_table t u | None => add_table t u = u end.
Proof.
  intros (H1 & H2 & H3 & _ & _). unfold table_alloc, table_array_alloc, add_table, full. rewrite H3. cbn [andb].
  unfold table_array_capacity, table_array_size, UACPI_STATIC_TABLE_ARRAY_LEN in *. rewrite !wrap64_small by lia.
  destruct (Z.eqb_spec (Z.of_nat (length (tables u))) (16 + dynamic_capacity u)) as [E|E]; [done|].
  destruct (Z.leb_spec 16 (Z.of_nat (length (tables u)))); cbn [andb].
  - rewrite wrap64_small by lia. destruct (Z.eqb_spec (Z.of_nat (length (tables u)) - 16) (dynamic_capacity u)); [lia|].
    cbn. by rewrite insert_app_r_alt, Nat.sub_diag by done.
  - cbn. by rewrite insert_app_r_alt, Nat.sub_diag by done.
Qed.

(** ** The firmware in memory *)

Section Setup.
Context (hhdm_offset pml4 rsdp_address : Z) (dom : Z -> Prop).
Context (Hh : hhdm_ok hhdm_offset) (Hdom : forall a, 0 <= a < PHYS_LIMIT -> dom (pml4_index a)).
Context (call_handler : Z -> Z -> pst -> outcome (Z * Z * pst)).
(** The bytes of physical memory, and the addresses the tables occupy. *)
Context (view : mem) (area : Z -> Prop) (Hview : mem_ok view) (Harea : forall v, area v -> 0 <= v < PHYS_LIMIT).

Local Abbreviation pt_inv := (pt_inv hhdm_offset dom pml4).
Local Abbreviation data_byte := (data_byte hhdm_offset dom pml4).
Local Abbreviation keeps_data := (keeps_data hhdm_offset dom pml4).
Local Abbreviation ident := (ident hhdm_offset pml4).
Local Abbreviation shows := (shows hhdm_offset pml4).
Local Abbreviation kernel_map := (kernel_map hhdm_offset pml4).
Local Abbreviation rd := (rd hhdm_offset pml4).
Local Abbreviation install := (table_install_physical hhdm_offset pml4 call_handler).

(** The page tables are in order, and the tables of the firmware are data with these bytes. *)
Record fw (m : mst) : Prop := {
  fw_inv : pt_inv m;
  fw_bytes : forall v, area v -> data_byte m (v + hhdm_offset) /\ mm m (v + hhdm_offset) = view v
}.

(** What mapping changes. *)
Record later (m m' : mst) : Prop := {
  la_fw : fw m';
  la_ident : forall v, area v -> ident (mm m) v -> ident (mm m') v;
  la_data : keeps_data m m'
}.

Lemma later_refl m : fw m -> later m m.
Proof. intros. split; [done|done|]. by intros x Hx. Qed.

Lemma later_trans m1 m2 m3 : later m1 m2 -> later m2 m3 -> later m1 m3.
Proof.
  intros [_ H2 H3] [H4 H5 H6]. split; [done|intros v Hv Hi; apply H5; [done|]; by apply H2|by eapply keeps_data_trans].
Qed.

Definition within (a n : Z) : Prop := 0 < a /\ a + n <= PHYS_LIMIT /\ forall v, a <= v < a + n -> area v.
Definition mapped (m : mst) (a n : Z) : Prop := forall v, a <= v < a + n -> ident (mm m) v.

(** The frames a mapping can take. *)
Definition frames_for (a n : Z) : nat := Z.to_nat (3 * map_size a n).

Lemma within_sub a n k : within a n -> k <= n -> within a k.
Proof. intros (H1 & H2 & H3) Hk. split_and!; [done|lia|]. intros v Hv. apply H3. lia. Qed.

Lemma mapped_later m m' a n k : later m m' -> within a n -> mapped m a k -> k <= n -> mapped m' a k.
Proof. intros Hl (_ & _ & Ha) Hm Hk v Hv. apply (la_ident _ _ Hl); [apply Ha; lia|by apply Hm]. Qed.

Lemma kernel_map_fw u m a n k : fw m -> within a n -> 0 <= n -> enough (frames_for a n + k) (memmap_arr m) ->
  exists m', kernel_map a n (Ust u (Pst m None)) = Ok (a, Ust u (Pst m' None)) /\ later m m' /\ enough k (memmap_arr m') /\ mapped m' a n.
Proof.
  intros [Hinv Hb] (Ha & Hlim & Hin) Hn Hen.
  destruct (uacpi_kernel_map_spec hhdm_offset dom pml4 Hh m a n k) as (m' & E & H1 & H2 & H3 & _ & H4 & H5); try done; [lia| |].
  { intros i Hi. apply Hdom. unfold map_size, PHYS_LIMIT in *. Z.to_euclidean_division_equations. lia. }
  exists m'. unfold UacpiTables.kernel_map. cbn [up uc]. rewrite E. cbn [mbind outcome_bind]. split_and!; try done.
  split; [|intros v Hv; apply H5; [by apply Harea|by apply Hdom, Harea]|done]. split; [done|].
  intros v Hv. destruct (Hb v Hv) as [Hd Hm]. destruct (H3 _ Hd) as [? ->]. done.
Qed.

Lemma fw_shows m a n : fw m -> within a n -> mapped m a n -> shows (mm m) view a n.
Proof.
  intros [Hinv Hb] (Ha & Hlim & Hin) Hm. split_and!; [lia|unfold PHYS_LIMIT in *; lia|]. intros v Hv.
  exists (v + hhdm_offset). split; [|by apply Hb, Hin]. apply (ident_resolve hhdm_offset dom pml4 Hh); [done| | |by apply Hm].
  - by apply Hdom, Harea, Hin.
  - by apply Harea, Hin.
Qed.

Lemma rd_bytes_shows n : forall m a, shows m view a (Z.of_nat n) -> rd_bytes hhdm_offset pml4 n m a = Ok (bytes_at view a n).
Proof.
  induction n as [|n IH]; intros m a Hs; [done|]. cbn [rd_bytes bytes_at]. rewrite (rd_shows _ _ 1 m view).
  2: { eapply shows_sub; [exact Hs|lia|lia]. }
  cbn [mbind outcome_bind load_le]. rewrite Z.mul_0_r, Z.add_0_r. pose proof Hs as (H1 & H2 & _). destruct n as [|n]; [done|].
  rewrite wrap64_small by lia. rewrite IH; [done|]. eapply shows_sub; [exact Hs|lia|lia].
Qed.

(** A table with at least a header. *)
Definition readable (e : Z) : Prop := within e (table_length view e) /\ SIZEOF_SDT <= table_length view e.

Lemma readable_nonzero e : readable e -> e <> NULL.
Proof. intros [[H _] _]. unfold NULL. lia. Qed.

Lemma kernel_unmap_ok a n s : a <> NULL -> kernel_unmap a n s = Ok s.
Proof. intros H. unfold kernel_unmap, uacpi_kernel_unmap. by destruct (Z.eqb_spec a NULL). Qed.

Lemma get_header_fw u m e k : fw m -> readable e -> enough (frames_for e SIZEOF_SDT + k) (memmap_arr m) ->
  exists m', get_external_table_header hhdm_offset pml4 e (Ust u (Pst m None)) = Ok (UACPI_STATUS_OK, header view e, Ust u (Pst m' None)) /\
    later m m' /\ enough k (memmap_arr m').
Proof.
  intros Hf He Hen. pose proof (readable_nonzero _ He) as Hn. destruct He as [Hw Hl]. pose proof (within_sub _ _ _ Hw Hl) as Hw'.
  destruct (kernel_map_fw u m e SIZEOF_SDT k) as (m' & E & Hlat & Hen' & Hm); try done.
  exists m'. unfold get_external_table_header. rewrite E. cbn [mbind outcome_bind]. destruct (Z.eqb_spec e NULL); [done|].
  unfold umem, pmem. cbn [up ms]. rewrite (rd_bytes_shows (Z.to_nat SIZEOF_SDT)); [|by apply fw_shows; [apply Hlat| |]].
  cbn [mbind outcome_bind]. by rewrite kernel_unmap_ok.
Qed.

(** ** One table *)

Lemma no_flag u f : rt_flags u = 0 -> f <> 0 -> uacpi_check_flag f u = false.
Proof. intros E Hf. unfold uacpi_check_flag. rewrite E, Z.land_0_l. apply Z.eqb_neq. congruence. Qed.

Lemma check_signature_ok h e u : room u -> uacpi_check_table_signature h e u = UACPI_STATUS_OK.
Proof.
  intros (_ & _ & _ & _ & Hf). unfold uacpi_check_table_signature. rewrite no_flag by done. by destruct (uacpi_signatures_match _ _).
Qed.

(** The end of every installation of a table of the firmware. *)
Lemma verify_and_install_fw init e u1 u2 m1 m2 fl : room u2 ->
  verify_table hhdm_offset pml4 init (header view e) e NULL false (Ust u1 (Pst m1 None)) = Ok (UACPI_STATUS_OK, fl, Ust u2 (Pst m2 None)) ->
  exists ret, verify_and_install_table hhdm_offset pml4 init (header view e) e NULL UACPI_TABLE_ORIGIN_FIRMWARE_PHYSICAL false (Ust u1 (Pst m1 None)) =
    Ok (ret, None, Ust (add_table (firmware_table view e fl)
      (if uacpi_signatures_match (header view e) sig_dsdt then set_is_rev1 (h_revision (header view e) <? 2) u2 else u2)) (Pst m2 None)).
Proof.
  intros Hu E. unfold verify_and_install_table. rewrite E. cbn [mbind outcome_bind]. rewrite is_ok_true.
  set (u3 := if uacpi_signatures_match _ _ then set_is_rev1 _ u2 else u2).
  assert (room u3) as Hu3 by (unfold u3; by destruct (uacpi_signatures_match _ _); [apply room_rev1|]).
  assert ((if uacpi_signatures_match (header view e) sig_dsdt then on_uc (set_is_rev1 (h_revision (header view e) <? 2)) (Ust u2 (Pst m2 None))
           else Ust u2 (Pst m2 None)) = Ust u3 (Pst m2 None)) as -> by (unfold u3; by destruct (uacpi_signatures_match _ _)).
  cbn [uc up]. pose proof (room_alloc (firmware_table view e fl) u3 Hu3) as Ha.
  destruct (table_alloc u3) as [[i u4]|].
  - eexists. unfold store_table, on_uc. cbn [uc up]. unfold firmware_table in Ha. rewrite Ha. done.
  - eexists. by rewrite Ha.
Qed.

(** The parts of an installation before and after [verify_and_install_table]. *)
Lemma install_fw d e expected u m k : room u -> fw m -> readable e -> enough (frames_for e SIZEOF_SDT + k) (memmap_arr m) ->
  exists m', later m m' /\ enough k (memmap_arr m') /\ forall ret s',
    verify_and_install_table hhdm_offset pml4 (initialize_fadt hhdm_offset pml4 (fun a s =>
        '(ret, _, s) ← install d a UACPI_TABLE_ORIGIN_FIRMWARE_PHYSICAL (Some sig_dsdt) false s; Ok (ret, s)))
      (header view e) e NULL UACPI_TABLE_ORIGIN_FIRMWARE_PHYSICAL false (Ust u (Pst m' None)) = Ok (ret, None, s') ->
    install (S d) e UACPI_TABLE_ORIGIN_FIRMWARE_PHYSICAL expected false (Ust u (Pst m None)) = Ok (UACPI_STATUS_OK, None, s').
Proof.
  intros Hu Hf He Hen. destruct (get_header_fw u m e k Hf He Hen) as (m' & E & Hl & Hen'). exists m'. split; [done|]. split; [done|].
  intros ret s' Hv'. cbn [table_install_physical]. rewrite E. cbn [mbind outcome_bind]. rewrite is_ok_true. cbn [negb uc].
  rewrite h_length_header. destruct He as [_ He]. destruct (Z.ltb_spec (table_length view e) SIZEOF_SDT); [lia|].
  assert (match expected with Some x => uacpi_check_table_signature (header view e) x u | None => UACPI_STATUS_OK end = UACPI_STATUS_OK) as ->
    by (destruct expected; [by apply check_signature_ok|done]).
  rewrite is_ok_true. cbn [negb]. pose proof Hu as (_ & _ & _ & Hhn & _). rewrite Hhn.
  change (negb (NULL =? NULL) || false) with false. cbn [andb mbind outcome_bind dispose uc]. rewrite Hhn. cbn [Z.eqb NULL].
  rewrite Hv'. cbn [mbind outcome_bind]. unfold install_end. rewrite andb_false_r. done.
Qed.

Lemma install_plain_fw d e expected u m k : room u -> fw m -> readable e -> uacpi_signatures_match (header view e) sig_facp = false ->
  enough (frames_for e SIZEOF_SDT + k) (memmap_arr m) ->
  exists m', install (S d) e UACPI_TABLE_ORIGIN_FIRMWARE_PHYSICAL expected false (Ust u (Pst m None)) =
      Ok (UACPI_STATUS_OK, None, Ust (add_plain view e u) (Pst m' None)) /\ later m m' /\ enough k (memmap_arr m').
Proof.
  intros Hu Hf He Hs Hen.
  destruct (install_fw d e expected u m k Hu Hf He Hen) as (m' & Hl & Hen' & Hi). exists m'. split; [|done].
  edestruct (verify_and_install_fw) as [ret Hv]; [exact Hu| |exact (Hi _ _ Hv)]. unfold verify_table. rewrite Hs.
  cbn [uc]. rewrite no_flag by (done || apply Hu). by destruct (uacpi_signatures_match (header view e) sig_facs).
Qed.

Lemma copy_to_fadt_shows m virt n f : shows m view virt n -> 0 <= n ->
  copy_to_fadt hhdm_offset pml4 virt n m f = Ok (put_bytes f 0 (bytes_at view virt (Z.to_nat n))).
Proof.
  intros Hs Hn. pose proof Hs as (H1 & H2 & _).
  assert (forall j i f, 0 <= i -> i + Z.of_nat j <= n ->
    loop_from j i (fun i f => b ← rd 1 m (wrap64 (virt + i)); Ok (store8 f i b)) f = Ok (put_bytes f i (bytes_at view (virt + i) j))) as H.
  { induction j as [|j IH]; intros i g Hi Hle; cbn [loop_from bytes_at put_bytes]; [done|].
    rewrite wrap64_small by lia. rewrite (rd_shows _ _ 1 m view) by (eapply shows_sub; [exact Hs|lia|lia]).
    cbn [mbind outcome_bind load_le]. rewrite Z.mul_0_r, Z.add_0_r, IH by lia. by rewrite Z.add_assoc. }
  unfold copy_to_fadt, loop. rewrite H by lia. by rewrite Z.add_0_r.
Qed.

Lemma copied_shows m e f : shows m view e (Z.min SIZEOF_FADT (table_length view e)) ->
  copy_to_fadt hhdm_offset pml4 e (Z.min SIZEOF_FADT (table_length view e)) m f = Ok (copied view e f).
Proof.
  intros Hs. apply copy_to_fadt_shows; [exact Hs|]. pose proof (load_le_range 4 view (e + SDT_LENGTH) Hview).
  unfold SIZEOF_FADT, table_length, load32. lia.
Qed.

(** The state after [initialize_fadt]. *)
Definition after_fadt (e : Z) (u : uacpi) : uacpi :=
  let d := dsdt_of view e u in
  let u := set_fadt (fadt_prepare (copied view e (fadt u))) u in
  let u := if d =? 0 then u else add_plain view d u in
  set_fadt (fadt_finish (is_hardware_reduced u) (fadt u)) u.

Lemma add_plain_fadt e u : fadt (add_plain view e u) = fadt u /\ is_hardware_reduced (add_plain view e u) = is_hardware_reduced u.
Proof. unfold add_plain, add_table. by destruct (uacpi_signatures_match _ sig_dsdt), (full _). Qed.

(** The frames for the DSDT, and what is asked of it. *)
Definition dsdt_frames (e : Z) (u : uacpi) : nat := if dsdt_of view e u =? 0 then 0 else frames_for (dsdt_of view e u) SIZEOF_SDT.
Definition dsdt_ok (e : Z) (u : uacpi) : Prop :=
  dsdt_of view e u = 0 \/ readable (dsdt_of view e u) /\ uacpi_signatures_match (header view (dsdt_of view e u)) sig_facp = false.

#[local] Opaque fadt_prepare fadt_finish put_bytes load64.

Lemma initialize_fadt_fw d e u m k : room u -> fw m -> readable e -> mapped m e (table_length view e) -> dsdt_ok e u ->
  enough (dsdt_frames e u + k) (memmap_arr m) ->
  exists m', initialize_fadt hhdm_offset pml4 (fun a s =>
        '(ret, _, s) ← install (S d) a UACPI_TABLE_ORIGIN_FIRMWARE_PHYSICAL (Some sig_dsdt) false s; Ok (ret, s)) e (Ust u (Pst m None)) =
      Ok (UACPI_STATUS_OK, Ust (after_fadt e u) (Pst m' None)) /\ later m m' /\ enough k (memmap_arr m').
Proof.
  intros Hu Hf [Hw Hlen] Hm Hd Hen. pose proof (fw_shows _ _ _ Hf Hw Hm) as Hs. unfold initialize_fadt, umem, pmem. cbn [up ms uc].
  pose proof Hs as (H1 & H2 & _). unfold SIZEOF_SDT, SDT_LENGTH in *. rewrite wrap64_small by lia.
  rewrite (rd_shows _ _ 4 (mm m) view) by (eapply shows_sub; [exact Hs|lia|simpl; lia]). cbn [mbind outcome_bind].
  change (load_le 4 view (e + 4)) with (table_length view e).
  assert (0 <= Z.min SIZEOF_FADT (table_length view e) <= table_length view e) as [Hmin0 Hmin] by (unfold SIZEOF_FADT; lia).
  rewrite (copied_shows (mm m) e (fadt u)) by (eapply shows_sub; [exact Hs|lia|lia]). rewrite bind_step.
  unfold on_uc. cbn [uc up]. unfold after_fadt. cbv zeta.
  assert (load64 (fadt_prepare (copied view e (fadt u))) FADT_X_DSDT = dsdt_of view e u) as Ed by reflexivity.
  revert Ed. generalize (fadt_prepare (copied view e (fadt u))). intros f Ed. cbn [fadt set_fadt]. rewrite !Ed. unfold dsdt_frames in *.
  destruct (Z.eqb_spec (dsdt_of view e u) 0) as [E|E].
  - exists m. cbn [mbind outcome_bind]. rewrite is_ok_true. cbn [orb]. split; [done|]. split; [by apply later_refl|done].
  - destruct Hd as [|[Hd Hsig]]; [done|].
    destruct (install_plain_fw d (dsdt_of view e u) (Some sig_dsdt) (set_fadt f u) m k) as (m' & E' & Hl & Hen'); try done.
    exists m'. rewrite E'. cbn [mbind outcome_bind]. rewrite is_ok_true. cbn [orb]. by split_and!.
Qed.

Lemma install_fadt_fw d e expected u m k : room u -> fw m -> readable e -> uacpi_signatures_match (header view e) sig_facp = true ->
  dsdt_ok e u -> enough (frames_for e SIZEOF_SDT + (frames_for e (table_length view e) + (dsdt_frames e u + k))) (memmap_arr m) ->
  exists m', install (S (S d)) e UACPI_TABLE_ORIGIN_FIRMWARE_PHYSICAL expected false (Ust u (Pst m None)) =
      Ok (UACPI_STATUS_OK, None, Ust (add_table (firmware_table view e UACPI_TABLE_CSUM_VERIFIED) (after_fadt e u)) (Pst m' None)) /\
    later m m' /\ enough k (memmap_arr m').
Proof.
  intros Hu Hf He Hs Hd Hen. pose proof (readable_nonzero _ He) as Hn.
  destruct (install_fw (S d) e expected u m _ Hu Hf He Hen) as (m1 & Hl1 & Hen1 & Hi). pose proof He as [Hw Hlen].
  destruct (kernel_map_fw u m1 e (table_length view e) _ (la_fw _ _ Hl1) Hw ltac:(unfold SIZEOF_SDT in *; lia) Hen1) as (m2 & E2 & Hl2 & Hen2 & Hm2).
  destruct (initialize_fadt_fw d e u m2 k Hu (la_fw _ _ Hl2) He Hm2 Hd Hen2) as (m3 & E3 & Hl3 & Hen3).
  exists m3. split; [|split; [by eapply later_trans; [|eapply later_trans]|done]].
  assert (room (after_fadt e u)) as Hu'.
  { unfold after_fadt. cbv zeta. apply room_fadt. destruct (_ =? 0); [by apply room_fadt|by apply room_plain, room_fadt]. }
  assert (uacpi_signatures_match (header view e) sig_facs = false /\ uacpi_signatures_match (header view e) sig_dsdt = false) as [Hs1 Hs2].
  { unfold uacpi_signatures_match in *. apply bool_decide_eq_true in Hs. rewrite Hs. by vm_compute. }
  edestruct (verify_and_install_fw (initialize_fadt hhdm_offset pml4 (fun a s =>
      '(ret, _, s) ← install (S d) a UACPI_TABLE_ORIGIN_FIRMWARE_PHYSICAL (Some sig_dsdt) false s; Ok (ret, s))) e u (after_fadt e u) m1 m3
      UACPI_TABLE_CSUM_VERIFIED Hu') as [ret Hv]; [|rewrite Hs2 in Hv; exact (Hi _ _ Hv)].
  unfold verify_table. rewrite Hs, Hs1. rewrite orb_true_r. cbn [orb]. change (NULL =? NULL) with true. cbv iota.
  rewrite h_length_header, E2. cbn [mbind outcome_bind]. destruct (Z.eqb_spec e NULL); [done|].
  unfold uacpi_verify_table_checksum, umem, pmem. cbn [up ms uc].
  destruct (checksum_shows hhdm_offset pml4 (Z.to_nat (table_length view e)) (mm m2) view e 0) as [c ->].
  { rewrite Z2Nat.id by (unfold SIZEOF_SDT in *; lia). by apply fw_shows; [apply Hl2| |]. }
  cbn [mbind outcome_bind]. rewrite no_flag by (done || apply Hu). rewrite andb_false_r, is_ok_true, E3. cbn [mbind outcome_bind].
  rewrite kernel_unmap_ok by done. done.
Qed.

(** ** The table of tables *)

Definition entry_ok (u : uacpi) (e : Z) : Prop :=
  e = 0 \/ readable e /\ (uacpi_signatures_match (header view e) sig_facp = true -> dsdt_ok e u).
Definition entry_frames (u : uacpi) (e : Z) : nat :=
  if e =? 0 then 0
  else if uacpi_signatures_match (header view e) sig_facp
  then (frames_for e SIZEOF_SDT + (frames_for e (table_length view e) + dsdt_frames e u))%nat
  else frames_for e SIZEOF_SDT.

Fixpoint entries_ok (u : uacpi) (es : list Z) : Prop :=
  match es with [] => True | e :: es => entry_ok u e /\ entries_ok (add_entry view u e) es end.
Fixpoint entries_frames (u : uacpi) (es : list Z) : nat :=
  match es with [] => 0 | e :: es => (entry_frames u e + entries_frames (add_entry view u e) es)%nat end.

Lemma install_entry_fw d e u m k : e <> 0 -> room u -> fw m -> entry_ok u e -> enough (entry_frames u e + k) (memmap_arr m) ->
  exists m', install (S (S d)) e UACPI_TABLE_ORIGIN_FIRMWARE_PHYSICAL None false (Ust u (Pst m None)) =
      Ok (UACPI_STATUS_OK, None, Ust (add_entry view u e) (Pst m' None)) /\ later m m' /\ enough k (memmap_arr m').
Proof.
  intros Hz Hu Hf Hok Hen. unfold add_entry, entry_frames in *. destruct (Z.eqb_spec e 0); [done|]. destruct Hok as [|[He Hd]]; [done|].
  destruct (uacpi_signatures_match (header view e) sig_facp) eqn:Hs.
  - rewrite <- !Nat.add_assoc in Hen. by apply install_fadt_fw; try done; apply Hd.
  - by apply install_plain_fw.
Qed.

Lemma install_entries_fw d root w n es : (0 < w)%nat -> within root n ->
  forall i u m k, 0 <= i -> room u -> fw m -> mapped m root n -> SIZEOF_SDT + i + Z.of_nat w * Z.of_nat (length es) <= n ->
  (forall j e, es !! j = Some e -> load_le w view (root + SIZEOF_SDT + i + Z.of_nat w * Z.of_nat j) = e) ->
  entries_ok u es -> enough (entries_frames u es + k) (memmap_arr m) ->
  exists m', install_entries hhdm_offset pml4 call_handler (S (S d)) (length es) root (Z.of_nat w) i (Ust u (Pst m None)) =
      Ok (UACPI_STATUS_OK, Ust (fold_left (add_entry view) es u) (Pst m' None)) /\ later m m' /\ enough k (memmap_arr m').
Proof.
  intros Hw Hr. induction es as [|e es IH]; intros i u m k Hi Hu Hf Hm Hn He Hok Hen; cbn [length install_entries fold_left].
  { exists m. split; [done|]. split; [by apply later_refl|done]. }
  cbn [length] in Hn. pose proof (fw_shows _ _ _ Hf Hr Hm) as Hs. pose proof Hs as (H1 & H2 & _). unfold umem, pmem. cbn [up ms].
  unfold SIZEOF_SDT in *. rewrite wrap64_small by lia. rewrite Nat2Z.id.
  rewrite (rd_shows _ _ w (mm m) view) by (eapply shows_sub; [exact Hs|lia|lia]). cbn [mbind outcome_bind].
  pose proof (He 0%nat e eq_refl) as He0. rewrite Z.mul_0_r, Z.add_0_r in He0. rewrite He0. cbn [entries_ok entries_frames] in *.
  destruct Hok as [Hoke Hok]. rewrite <- Nat.add_assoc in Hen.
  assert (forall j x, es !! j = Some x -> load_le w view (root + 36 + (i + Z.of_nat w) + Z.of_nat w * Z.of_nat j) = x) as He'.
  { intros j x Hj. rewrite <- (He (S j) x Hj). f_equal. lia. }
  destruct (Z.eqb_spec e 0) as [-> |Hz].
  - change (add_entry view u 0) with u in *. change (entry_frames u 0) with 0%nat in Hen. by apply IH; try done; lia.
  - destruct (install_entry_fw d e u m _ Hz Hu Hf Hoke Hen) as (m1 & -> & Hl1 & Hen1). cbn [mbind outcome_bind]. rewrite is_ok_true. cbn [orb].
    destruct (IH (i + Z.of_nat w) (add_entry view u e) m1 k) as (m2 & -> & Hl2 & Hen2); try done; [lia|by apply room_entry|apply Hl1| |lia|].
    + eapply mapped_later; [done|exact Hr|done|lia].
    + exists m2. split; [done|]. split; [by eapply later_trans|done].
Qed.

(** The bytes of the entries: [entry_bytes &= ~(entry_size - 1)]. *)
Lemma entry_bytes_div x w : is_u64 x -> w = 4 \/ w = 8 -> Z.land x (wrap64 (Z.lnot (w - 1))) / w = x / w.
Proof.
  intros Hx [-> | ->]; [change (wrap64 _) with (2 ^ 64 - 2 ^ 2)|change (wrap64 _) with (2 ^ 64 - 2 ^ 3)];
    rewrite land_high by (done || lia); by apply Z.div_mul.
Qed.

(** The table of tables at [root], with entries of [w] bytes. *)
Record root_ok (w : nat) (root : Z) (es : list Z) : Prop := {
  ro_width : w = 4%nat \/ w = 8%nat;
  ro_readable : readable root;
  ro_some : SIZEOF_SDT + Z.of_nat w <= table_length view root;
  ro_count : Z.of_nat (length es) = (table_length view root - SIZEOF_SDT) / Z.of_nat w;
  ro_entries : forall j e, es !! j = Some e -> load_le w view (root + SIZEOF_SDT + Z.of_nat w * Z.of_nat j) = e
}.

Definition root_frames (root : Z) (u : uacpi) (es : list Z) : nat :=
  (frames_for root SIZEOF_SDT + (frames_for root (table_length view root) + entries_frames u es))%nat.

Lemma initialize_from_rxsdt_fw d w root es u m k : root_ok w root es -> room u -> fw m -> entries_ok u es ->
  enough (root_frames root u es + k) (memmap_arr m) ->
  exists m', initialize_from_rxsdt hhdm_offset pml4 call_handler (S (S d)) root (Z.of_nat w) (Ust u (Pst m None)) =
      Ok (UACPI_STATUS_OK, Ust (fold_left (add_entry view) es u) (Pst m' None)) /\ later m m'.
Proof.
  intros [Hw He Hlen Hc Hes] Hu Hf Hok Hen. pose proof (readable_nonzero _ He) as Hn. destruct He as [Hwi Hl36].
  unfold root_frames in Hen. rewrite <- !Nat.add_assoc in Hen. pose proof (within_sub _ _ _ Hwi Hl36) as Hwi'.
  destruct (kernel_map_fw u m root SIZEOF_SDT _ Hf Hwi' ltac:(done) Hen) as (m1 & E1 & L1 & N1 & M1).
  destruct (kernel_map_fw u m1 root (table_length view root) _ (la_fw _ _ L1) Hwi ltac:(unfold SIZEOF_SDT in *; lia) N1) as (m2 & E2 & L2 & N2 & M2).
  pose proof (fw_shows _ _ _ (la_fw _ _ L1) Hwi' M1) as S1. pose proof (fw_shows _ _ _ (la_fw _ _ L2) Hwi M2) as S2.
  assert (0 < Z.of_nat w /\ (0 < w)%nat) as [Hw0 Hw1] by (destruct Hw as [-> | ->]; lia).
  destruct (install_entries_fw d root w _ es Hw1 Hwi 0 u m2 k) as (m3 & E3 & L3 & _); try done; [apply L2| | |].
  { rewrite Hc. pose proof (Z.mul_div_le (table_length view root - SIZEOF_SDT) (Z.of_nat w) Hw0). lia. }
  { intros j e Hj. rewrite Z.add_0_r. by apply Hes. }
  exists m3. split; [|by eapply later_trans; [|eapply later_trans]].
  unfold initialize_from_rxsdt. rewrite E1. cbn [mbind outcome_bind]. destruct (Z.eqb_spec root NULL); [done|].
  pose proof S1 as (A1 & A2 & _). unfold SIZEOF_SDT in *. unfold umem, pmem. cbn [up ms uc].
  rewrite (rd_bytes_shows 4 (mm m1)) by (eapply shows_sub; [exact S1|lia|lia]). cbn [mbind outcome_bind].
  rewrite check_signature_ok, is_ok_true by done. cbn [negb]. rewrite (wrap64_small (root + SDT_LENGTH)) by (unfold SDT_LENGTH; lia).
  rewrite (rd_shows _ _ 4 (mm m1) view) by (eapply shows_sub; [exact S1|unfold SDT_LENGTH; lia|unfold SDT_LENGTH; lia]). cbn [mbind outcome_bind].
  rewrite kernel_unmap_ok by done. cbn [mbind outcome_bind]. change (load_le 4 view (root + SDT_LENGTH)) with (table_length view root).
  destruct (Z.ltb_spec (table_length view root) (36 + Z.of_nat w)); [lia|]. rewrite E2. cbn [mbind outcome_bind].
  destruct (Z.eqb_spec root NULL); [done|]. unfold uacpi_verify_table_checksum, umem, pmem. cbn [up ms uc].
  destruct (checksum_shows hhdm_offset pml4 (Z.to_nat (table_length view root)) (mm m2) view root 0) as [c ->]; [by rewrite Z2Nat.id by lia|].
  cbn [mbind outcome_bind]. rewrite no_flag by (done || apply Hu). rewrite andb_false_r, is_ok_true.
  rewrite entry_bytes_div; [|unfold is_u64; destruct Hwi as (? & ? & _); unfold PHYS_LIMIT in *; lia|destruct Hw as [-> | ->]; auto].
  rewrite <- Hc, Nat2Z.id, E3. cbn [mbind outcome_bind]. unfold error_out. cbn [fst snd]. by rewrite kernel_unmap_ok.
Qed.

(** Which table of tables the root pointer gives, and the size of its entries. *)
Definition the_root : Z * nat :=
  if (1 <? view (rsdp_address + RSDP_REVISION)) && negb (load64 view (rsdp_address + XSDP_XSDT) =? 0)
  then (load64 view (rsdp_address + XSDP_XSDT), 8%nat) else (load32 view (rsdp_address + RSDP_RSDT), 4%nat).

(** The state set-up starts to install in. *)
Definition started (ts size : Z) : uacpi := set_is_rev1 true (set_storage ts (size / SIZEOF_INSTALLED_TABLE) true uacpi_zero).

Lemma started_room ts size : 0 <= size < 2 ^ 64 -> room (started ts size).
Proof.
  intros Hs. unfold started, SIZEOF_INSTALLED_TABLE. assert (0 <= size / 64 < 2 ^ 63) by (Z.to_euclidean_division_equations; lia).
  split; [done|]. split; [|done]. unfold table_array_size, UACPI_STATIC_TABLE_ARRAY_LEN. cbn. lia.
Qed.

(** Without a FADT the tables are the entries. *)
Lemma plain_tables_from es : forall u, early_table_access u = true -> 0 <= dynamic_capacity u ->
  (forall e, e ∈ es -> uacpi_signatures_match (header view e) sig_facp = false) ->
  table_array_size u + Z.of_nat (length es) <= 16 + dynamic_capacity u ->
  phys_addr <$> tables (fold_left (add_entry view) es u) = (phys_addr <$> tables u) ++ filter (fun e => e <> 0) es.
Proof.
  induction es as [|e es IH]; intros u Hu Hc Hs Hn; cbn [fold_left]; [by rewrite app_nil_r|]. cbn [length] in Hn.
  assert (uacpi_signatures_match (header view e) sig_facp = false) as He by (apply Hs; by left).
  unfold add_entry at 2. rewrite He. rewrite filter_cons. destruct (Z.eqb_spec e 0) as [-> |Hz].
  - rewrite decide_False by auto. apply IH; try done; [intros; apply Hs; by right|lia].
  - rewrite decide_True by done. unfold add_plain, add_table.
    set (u' := if uacpi_signatures_match (header view e) sig_dsdt then _ else u).
    assert (tables u' = tables u /\ dynamic_capacity u' = dynamic_capacity u /\ early_table_access u' = true) as (E1 & E2 & E3)
      by (unfold u'; by destruct (uacpi_signatures_match _ sig_dsdt)).
    unfold full, table_array_size, UACPI_STATIC_TABLE_ARRAY_LEN in *. rewrite E1, E2.
    destruct (Z.eqb_spec (Z.of_nat (length (tables u))) (16 + dynamic_capacity u)); [lia|].
    rewrite IH; [cbn; by rewrite fmap_app, <- app_assoc|done|by rewrite <- E2 in Hc|intros; apply Hs; by right|].
    cbn. rewrite length_app, E2. cbn. lia.
Qed.

Lemma plain_tables ts size es : 0 <= size -> (forall e, e ∈ es -> uacpi_signatures_match (header view e) sig_facp = false) ->
  Z.of_nat (length es) <= 16 + size / SIZEOF_INSTALLED_TABLE ->
  phys_addr <$> tables (fold_left (add_entry view) es (started ts size)) = filter (fun e => e <> 0) es.
Proof. intros Hs He Hl. rewrite plain_tables_from; try done. cbn. by apply Z.div_pos. Qed.

Lemma initialize_from_rsdp_fw d es u m k : within rsdp_address (Z.of_nat SIZEOF_XSDP) -> root_ok the_root.2 the_root.1 es ->
  room (set_is_rev1 true u) -> fw m -> entries_ok (set_is_rev1 true u) es ->
  enough (frames_for rsdp_address (Z.of_nat SIZEOF_XSDP) + (root_frames the_root.1 (set_is_rev1 true u) es + k)) (memmap_arr m) ->
  exists m', initialize_from_rsdp hhdm_offset pml4 rsdp_address call_handler (S (S d)) (Ust u (Pst m None)) =
      Ok (UACPI_STATUS_OK, Ust (fold_left (add_entry view) es (set_is_rev1 true u)) (Pst m' None)) /\ later m m'.
Proof.
  intros Hr Hroot Hu Hf Hok Hen. set (u1 := set_is_rev1 true u) in *.
  destruct (kernel_map_fw u1 m rsdp_address (Z.of_nat SIZEOF_XSDP) _ Hf Hr ltac:(lia) Hen) as (m1 & E1 & L1 & N1 & M1).
  destruct (initialize_from_rxsdt_fw d the_root.2 the_root.1 es u1 m1 k Hroot Hu (la_fw _ _ L1) Hok N1) as (m2 & E2 & L2).
  pose proof (fw_shows _ _ _ (la_fw _ _ L1) Hr M1) as S1. exists m2. split; [|by eapply later_trans].
  unfold initialize_from_rsdp, on_uc. cbn [uc up uacpi_kernel_get_rsdp]. fold u1. rewrite is_ok_true. cbn [negb]. rewrite E1. cbn [mbind outcome_bind].
  assert (rsdp_address <> NULL) as Hn by (unfold NULL; destruct Hr; lia). destruct (Z.eqb_spec rsdp_address NULL); [done|].
  pose proof S1 as (A1 & A2 & _). unfold SIZEOF_XSDP, RSDP_REVISION, XSDP_XSDT, RSDP_RSDT in *. rewrite !wrap64_small by lia.
  unfold umem, pmem. cbn [up ms uc]. rewrite (rd_shows _ _ 1 (mm m1) view), (rd_shows _ _ 8 (mm m1) view), (rd_shows _ _ 4 (mm m1) view)
    by (eapply shows_sub; [exact S1|lia|lia]). cbn [mbind outcome_bind load_le]. rewrite Z.mul_0_r, Z.add_0_r.
  rewrite no_flag by (done || apply Hu). cbn [negb]. rewrite andb_true_r.
  pose proof (readable_nonzero _ (ro_readable _ _ _ Hroot)) as Hrn. revert E2 Hrn. change (load_le 8 view) with (load64 view). change (load_le 4 view) with (load32 view).
  unfold the_root. unfold RSDP_REVISION, XSDP_XSDT, RSDP_RSDT. destruct (_ && negb _); cbn [fst snd]; intros E2 Hrn;
    rewrite kernel_unmap_ok by done; cbn [mbind outcome_bind]; (rewrite (proj2 (Z.eqb_neq _ 0)) by done; exact E2).
Qed.


End Setup.

(** ** A firmware *)

(** The root pointer, an XSDT with a FADT, an empty entry, a MADT and a HPET table, and the DSDT; the checksums are 0
    and wrong. *)
Definition firmware_base : Z := 0xE0000.
Definition firmware_header (signature : list Z) (length revision : Z) : list Z := signature ++ le_bytes 4 length ++ [revision] ++ replicate 27 0.
Definition firmware : list Z :=
  replicate 15 0 ++ [2] ++ replicate 8 0 ++ le_bytes 8 0xE0040 ++ replicate 32 0 ++
  firmware_header sig_xsdt 68 1 ++ le_bytes 8 0xE0100 ++ le_bytes 8 0 ++ le_bytes 8 0xE0240 ++ le_bytes 8 0xE0280 ++ replicate 124 0 ++
  firmware_header sig_facp 244 3 ++ replicate 104 0 ++ le_bytes 8 0xE0200 ++ replicate 96 0 ++ replicate 12 0 ++
  firmware_header sig_dsdt 36 2 ++ replicate 28 0 ++
  firmware_header sig_apic 44 4 ++ le_bytes 8 0xFEE00000 ++ replicate 20 0 ++
  firmware_header sig_hpet 56 1 ++ replicate 8 0 ++ le_bytes 8 0xFED00000 ++ replicate 4 0.
Definition firmware_size : Z := Z.of_nat (length firmware).

Definition firmware_view : mem := fun v =>
  if between firmware_base v (firmware_base + firmware_size) then nth (Z.to_nat (v - firmware_base)) firmware 0 else 0.
Definition firmware_area (v : Z) : Prop := firmware_base <= v < firmware_base + firmware_size.
Definition firmware_state : mst := set_mm (fun x => firmware_view (x - sample_hhdm)) boot_state.
Definition firmware_entries : list Z := [0xE0100; 0; 0xE0240; 0xE0280].

Lemma firmware_size_eq : firmware_size = 0x2B8.
Proof. reflexivity. Qed.

Lemma firmware_view_ok : mem_ok firmware_view.
Proof.
  intros v. unfold firmware_view. destruct (between_spec firmware_base v (firmware_base + firmware_size)); [|lia].
  assert (Forall (fun b => 0 <= b < 256) firmware) as Hb by (apply (bool_decide_unpack _); vm_compute; exact I).
  rewrite List.Forall_forall in Hb. destruct (nth_in_or_default (Z.to_nat (v - firmware_base)) firmware 0) as [Hn| ->]; [by apply Hb|lia].
Qed.

(** A top-level table of zeroes has no tables below it. *)
Lemma root_zero m p a : (forall x, sample_pml4 <= x < sample_pml4 + 4096 -> m x = 0) -> path_ok (fun _ => True) p ->
  table_at sample_hhdm m sample_pml4 p = Some a -> p = [] /\ a = sample_pml4.
Proof.
  intros Hz [Hp _]. destruct p as [|i p]; cbn [table_at]; [by intros [= <-]|]. inv Hp. unfold index_ok in *.
  unfold entry, load64. rewrite load_le_zero; [done|]. intros x Hx. apply Hz. lia.
Qed.

Lemma firmware_fw : fw sample_hhdm sample_pml4 (fun _ => True) firmware_view firmware_area firmware_state.
Proof.
  assert (forall x, sample_pml4 <= x < sample_pml4 + 4096 -> mm firmware_state x = 0) as Hz.
  { intros x Hx. unfold firmware_state, firmware_view. cbn [mm set_mm].
    destruct (between_spec firmware_base (x - sample_hhdm) (firmware_base + firmware_size)) as [H|]; [|done].
    unfold firmware_base, sample_pml4 in *. lia. }
  assert (forall f, frame_free (memmap_arr boot_state) f -> 0x100000 <= f) as Hfree.
  { intros f (r & i & Hr & _ & Hi & Ha & _). apply list_elem_of_singleton in Hr as ->. cbn in Ha. lia. }
  split; [split|].
  - intros p q a Hp1 Hq1 _ _ Hp Hq. apply root_zero in Hp as [-> _], Hq as [-> _]; done.
  - intros p a Hp1 _ Hp. apply root_zero in Hp as [_ ->]; [|done|done]. exists 0x1000.
    split_and!; [done|lia|vm_compute; discriminate|done|]. intros H%Hfree. lia.
  - exact boot_regions_ok.
  - intros x. apply firmware_view_ok.
  - intros v [H1 H2]. rewrite firmware_size_eq in H2. unfold firmware_base in *. split; [split|].
    + intros f Hf%Hfree. lia.
    + intros q b Hq _ [_ ->]%root_zero; [|done|done]. unfold sample_pml4. lia.
    + cbn. by rewrite Z.add_simpl_r.
Qed.

Local Abbreviation firmware_readable := (readable firmware_view firmware_area).

Lemma firmware_readable_in e : let n := table_length firmware_view e in
  (firmware_base <=? e) && (36 <=? n) && (e + n <=? firmware_base + firmware_size) = true -> firmware_readable e.
Proof.
  intros n. rewrite !andb_true_iff, !Z.leb_le. intros [[H1 H2] H3]. unfold firmware_base in *. rewrite firmware_size_eq in H3.
  split; [|done]. split_and!; [lia|fold n; unfold PHYS_LIMIT; lia|]. intros v Hv. fold n in Hv. unfold firmware_area, firmware_base. rewrite firmware_size_eq. lia.
Qed.

Lemma firmware_entries_ok ts : entries_ok firmware_view firmware_area (started ts 4096) firmware_entries.
Proof.
  cbn [entries_ok firmware_entries].
  split; [right; split; [by apply firmware_readable_in|intros _; right; split; [by apply firmware_readable_in|by vm_compute]]|].
  split; [by left|]. split; [right; split; [by apply firmware_readable_in|intros Hs; vm_compute in Hs; discriminate Hs]|].
  split; [right; split; [by apply firmware_readable_in|intros Hs; vm_compute in Hs; discriminate Hs]|done].
Qed.

