(* ===== verification/UacpiFadt.v ===== *)
(** * The copy of the FADT

    What [initialize_fadt] of K/uacpi/uacpi_src/tables.c makes of the FADT of the firmware: a revision that fits the
    length, the fields older revisions do not have cleared, and every register as a generic address. *)

From S2P Require Import Prelude Memory Machine Frames Heap Paging Loader LoadImage Tmpfs HeapInit KernelApi Acpi UacpiTables UacpiSetup.

Local Open Scope list_scope.

(** ** Registers *)

Definition gas_byte (d : register_description) (x : Z) : Prop := r_xoffset d <= x < r_xoffset d + 12.

Lemma gas_init_outside g a n f x : ~ (g <= x < g + 12) -> gas_init_system_io g a n f x = f x.
Proof. intros Hx. unfold gas_init_system_io, GAS_ADDRESS. by frame_byte. Qed.

Lemma convert_outside f d x : ~ gas_byte d x -> convert_register f d x = f x.
Proof. intros Hx. unfold convert_register. destruct (_ =? 0); [|done]. by apply gas_init_outside. Qed.

Lemma convert_all_outside l : forall f x, Forall (fun d => ~ gas_byte d x) l -> fold_left convert_register l f x = f x.
Proof.
  induction l as [|d l IH]; intros f x Hx; [done|]. inv Hx. cbn [fold_left]. rewrite IH by done. by apply convert_outside.
Qed.

(** The bytes a register's address is made from: the legacy address, the length, and its own. *)
Definition read_byte (d : register_description) (x : Z) : Prop :=
  r_offset d <= x < r_offset d + 4 \/ x = r_length_offset d \/ gas_byte d x.

Lemma convert_ext f f' d x : (forall y, read_byte d y -> f' y = f y) ->
  gas_byte d x -> convert_register f' d x = convert_register f d x.
Proof.
  intros Hf Hx. unfold convert_register, read_byte, gas_byte in *.
  rewrite (load_le_ext 8 f f') by (intros y Hy; apply Hf; unfold GAS_ADDRESS in Hy; lia).
  rewrite (load_le_ext 4 f f') by (intros y Hy; apply Hf; lia). rewrite (Hf (r_length_offset d)) by lia.
  change (load_le 8 f) with (load64 f). change (load_le 4 f) with (load32 f).
  destruct (load64 f (r_xoffset d + GAS_ADDRESS) =? 0); [|apply Hf; lia].
  assert (forall g a n x, g <= x < g + 12 -> gas_init_system_io g a n f' x = gas_init_system_io g a n f x) as H; [|by apply H].
  clear. intros g a n x Hx. unfold gas_init_system_io, GAS_ADDRESS.
  repeat (match goal with |- store8 _ ?b _ _ = _ => destruct (decide (x = b)) as [-> |]; [by rewrite !store8_eq|]; rewrite !(store8_ne _ b) by done end).
  unfold store64. assert (forall k m m' b v, b <= x < b + Z.of_nat k -> store_le k m b v x = store_le k m' b v x) as H.
  { induction k as [|k IH]; intros m m' b v Hb; [lia|]. cbn [store_le]. destruct (decide (x = b)) as [-> |]; [by rewrite !store8_eq|].
    rewrite !store8_ne by done. apply IH. lia. }
  apply H. lia.
Qed.

(** The registers are apart. *)
Lemma registers_apart d d' x : d ∈ fadt_registers -> d' ∈ fadt_registers -> d <> d' -> gas_byte d x -> ~ gas_byte d' x.
Proof.
  intros H H' Hne Hx. unfold fadt_registers, gas_byte in *. rewrite !elem_of_cons, elem_of_nil in H, H'.
  repeat (destruct H as [-> |H]); try done; cbn in Hx; repeat (destruct H' as [-> |H']); try done; cbn; lia.
Qed.

Lemma registers_low d : d ∈ fadt_registers -> 56 <= r_offset d <= 84 /\ 88 <= r_length_offset d <= 93 /\ 148 <= r_xoffset d <= 232.
Proof.
  intros H. unfold fadt_registers in H. rewrite !elem_of_cons, elem_of_nil in H. repeat (destruct H as [-> |H]); try done; cbn; lia.
Qed.

Lemma registers_nodup : NoDup fadt_registers.
Proof. repeat constructor; rewrite ?elem_of_cons, ?elem_of_nil; intuition congruence. Qed.

Lemma convert_all_inside f d x : d ∈ fadt_registers -> gas_byte d x -> convert_registers_to_gas f x = convert_register f d x.
Proof.
  intros Hd Hx. unfold convert_registers_to_gas. destruct (registers_low d Hd) as (L1 & L2 & L3).
  apply list_elem_of_split in Hd as Hs. destruct Hs as (l1 & l2 & E). pose proof registers_nodup as Hn. rewrite E in Hn.
  apply list.NoDup_app in Hn as (_ & Hn1 & Hn2). apply list.NoDup_cons in Hn2 as [Hn2 _].
  assert (Forall (fun d' => forall y, gas_byte d y -> ~ gas_byte d' y) l1) as H1.
  { apply Forall_forall. intros d' Hd'%list_elem_of_In y. apply registers_apart; [done|rewrite E; apply elem_of_app; by left|]. intros ->. apply (Hn1 d'); [done|]. left. }
  assert (Forall (fun d' => forall y, gas_byte d y -> ~ gas_byte d' y) l2) as H2.
  { apply Forall_forall. intros d' Hd'%list_elem_of_In y. apply registers_apart; [done|rewrite E; apply elem_of_app; right; by right|]. by intros ->. }
  rewrite E, fold_left_app. cbn [fold_left]. rewrite convert_all_outside by (eapply Forall_impl; [|exact H2]; cbn; auto).
  apply convert_ext; try done. intros y Hy. apply convert_all_outside.
  destruct (decide (y < 148)).
  - apply Forall_forall. intros d' Hd'%list_elem_of_In [Hb _]. destruct (registers_low d') as (_ & _ & Hlow); [rewrite E; apply elem_of_app; by left|]. lia.
  - assert (gas_byte d y) by (unfold read_byte in Hy; intuition lia). eapply Forall_impl; [|exact H1]. cbn. auto.
Qed.

(** ** The revision *)

Lemma find_revision_spec sizes n : forall r, let k := find_revision sizes n r in
  r <= k <= r + Z.of_nat (length sizes) /\
  (forall i x, r <= i < k -> sizes !! Z.to_nat (i - r) = Some x -> x < n) /\
  (forall x, sizes !! Z.to_nat (k - r) = Some x -> n <= x).
Proof.
  induction sizes as [|y l IH]; intros r; cbn [find_revision length]; [split; [lia|]; split; [lia|]; intros x Hx; by rewrite lookup_nil in Hx|].
  destruct (Z.leb_spec n y); cbn zeta.
  - split; [lia|]. split; [lia|]. intros x. rewrite Z.sub_diag. cbn. by intros [= <-].
  - destruct (IH (r + 1)) as (B & Hlt & Hge). split; [lia|]. split.
    + intros i x Hi Hx. destruct (decide (i = r)) as [-> |]; [rewrite Z.sub_diag in Hx; cbn in Hx; injection Hx as <-; lia|].
      replace (Z.to_nat (i - r)) with (S (Z.to_nat (i - (r + 1)))) in Hx by lia. apply (Hlt i x); [lia|done].
    + intros x Hx. replace (Z.to_nat (find_revision l n (r + 1) - r)) with (S (Z.to_nat (find_revision l n (r + 1) - (r + 1)))) in Hx by lia.
      by apply Hge.
Qed.

(** The revision the code settles on for a length. *)
Definition fits (n rev : Z) : Prop :=
  1 <= rev <= 6 /\
  (forall size, fadt_version_sizes !! Z.to_nat (rev - 1) = Some size -> n <= 276 -> n <= size) /\
  (forall i size own, fadt_version_sizes !! i = Some size -> fadt_version_sizes !! Z.to_nat (rev - 1) = Some own -> size < own -> size < n).

Lemma sizes_increase i j x y : fadt_version_sizes !! i = Some x -> fadt_version_sizes !! j = Some y -> x < y -> (i < j)%nat.
Proof.
  intros Hi Hj Hxy. unfold fadt_version_sizes in *.
  do 7 (destruct i as [|i]; [do 7 (destruct j as [|j]; [cbn in Hi, Hj; simplify_eq; lia|]); done|]). done.
Qed.

Lemma revision_fits f : fits (load32 f FADT_LENGTH) (fadt_ensure_correct_revision f FADT_REVISION).
Proof.
  unfold fadt_ensure_correct_revision. set (n := load32 f FADT_LENGTH).
  destruct (find_revision_spec fadt_version_sizes n 0) as (B & Hlt & Hge). set (k := find_revision _ _ _) in *. cbn [length fadt_version_sizes] in B.
  change (Z.of_nat (length fadt_version_sizes)) with 6 in B.
  assert (forall rev, rev = Z.min (k + 1) 6 \/ rev = 4 /\ k = 2 -> fits n rev) as Hfits.
  { intros rev Hr. split; [lia|]. split.
    - intros size Hs Hn. destruct (decide (k = 6)) as [E|].
      + specialize (Hlt 5 276 ltac:(lia) eq_refl). lia.
      + destruct Hr as [-> |[-> E]]; [|rewrite E in Hge; specialize (Hge 244 eq_refl); by injection Hs as <-].
        apply Hge. by replace (k - 0) with (Z.min (k + 1) 6 - 1) by lia.
    - intros i size own Hi Ho Hlto. pose proof (sizes_increase _ _ _ _ Hi Ho Hlto) as Hlti.
      apply (Hlt (Z.of_nat i)); [|by replace (Z.to_nat (Z.of_nat i - 0)) with i by lia].
      split; [lia|]. destruct Hr as [-> |[-> E]]; [lia|]. rewrite E. destruct (decide (i = 2%nat)) as [-> |]; [|lia].
      injection Hi as <-. injection Ho as <-. lia. }
  apply Hfits. destruct (Z.eqb_spec k 6) as [E|]; [rewrite store8_eq, wrap8_small; lia|].
  destruct (Z.eqb_spec (f FADT_REVISION) (k + 1)) as [E|]; cbn [negb andb]; [lia|].
  destruct (Z.eqb_spec (k + 1) 3), (Z.eqb_spec (f FADT_REVISION) 4); cbn [negb andb]; rewrite ?store8_eq, ?wrap8_small; lia.
Qed.

(** ** The other fields *)

Definition reserved_byte (x : Z) : Prop := x = 45 \/ x = 55 \/ x = 95 \/ x = 109 \/ x = 110.

Lemma revision_outside f x : x <> FADT_REVISION -> fadt_ensure_correct_revision f x = f x.
Proof. intros Hx. unfold fadt_ensure_correct_revision. repeat case_match; rewrite ?store8_ne; done. Qed.

(** The copy once the reserved fields are cleared. *)
Definition cleared (f : mem) : mem :=
  if f FADT_REVISION <=? 2
  then store16 (store8 (store8 (store8 f FADT_PREFERRED_PM_PROFILE 0) FADT_PSTATE_CNT 0) FADT_CST_CNT 0) FADT_IAPC_BOOT_ARCH 0
  else f.

Lemma cleared_outside f x : ~ reserved_byte x -> cleared f x = f x.
Proof.
  unfold reserved_byte, cleared, FADT_PREFERRED_PM_PROFILE, FADT_PSTATE_CNT, FADT_CST_CNT, FADT_IAPC_BOOT_ARCH. intros Hx. case_match; [|done]. by frame_byte.
Qed.

Lemma cleared_reserved f x : reserved_byte x -> cleared f x = if f FADT_REVISION <=? 2 then 0 else f x.
Proof.
  unfold reserved_byte, cleared, FADT_PREFERRED_PM_PROFILE, FADT_PSTATE_CNT, FADT_CST_CNT, FADT_IAPC_BOOT_ARCH. intros Hx. case_match; [|done].
  unfold store16. cbn [store_le]. destruct Hx as [-> |[-> |[-> |[-> | ->]]]];
    repeat first [rewrite store8_eq; done|rewrite store8_ne by lia].
Qed.

Lemma prepare_eq f : fadt_prepare f =
  let f' := cleared (fadt_ensure_correct_revision f) in
  if load64 f' FADT_X_DSDT =? 0 then store64 f' FADT_X_DSDT (load32 f' FADT_DSDT) else f'.
Proof. reflexivity. Qed.

Lemma prepare_outside f x : ~ (140 <= x < 148) -> fadt_prepare f x = cleared (fadt_ensure_correct_revision f) x.
Proof. intros Hx. rewrite prepare_eq. cbn zeta. case_match; [|done]. unfold FADT_X_DSDT. by frame_byte. Qed.

(** A field of [n] bytes the preparation leaves alone. *)
Lemma prepare_field n f a : (forall x, a <= x < a + Z.of_nat n -> x <> 8 /\ ~ reserved_byte x) ->
  load_le n (cleared (fadt_ensure_correct_revision f)) a = load_le n f a.
Proof.
  intros H. apply load_le_ext. intros x Hx. destruct (H x Hx). rewrite cleared_outside, revision_outside; done.
Qed.

Lemma load32_is_u64 f a : mem_ok f -> is_u64 (load32 f a).
Proof. intros Hf. pose proof (load_le_range 4 f a Hf) as H. change (256 ^ Z.of_nat 4) with (2 ^ 32) in H. unfold is_u64, load32. lia. Qed.

Lemma prepare_dsdt f : mem_ok f ->
  load64 (fadt_prepare f) FADT_X_DSDT = if load64 f FADT_X_DSDT =? 0 then load32 f FADT_DSDT else load64 f FADT_X_DSDT.
Proof.
  intros Hf. rewrite prepare_eq. cbn zeta. unfold load64 at 2 4, load32 at 1.
  assert (load_le 8 (cleared (fadt_ensure_correct_revision f)) FADT_X_DSDT = load64 f FADT_X_DSDT) as E.
  { apply prepare_field. unfold FADT_X_DSDT, reserved_byte. lia. }
  rewrite !E, (prepare_field 4) by (unfold FADT_DSDT, reserved_byte; lia). case_match; [|exact E].
  by apply load64_store64_eq, load32_is_u64.
Qed.

Lemma finish_outside f x : ~ (132 <= x < 140) -> Forall (fun d => ~ gas_byte d x) fadt_registers -> fadt_finish false f x = f x.
Proof.
  intros Hx Hd. unfold fadt_finish, convert_registers_to_gas. rewrite convert_all_outside by done.
  case_match; [done|]. unfold FADT_X_FIRMWARE_CTRL. by frame_byte.
Qed.

Lemma mem_ok_prepare f : mem_ok f -> mem_ok (fadt_prepare f).
Proof.
  intros Hf. unfold fadt_prepare, fadt_ensure_correct_revision. repeat case_match; repeat first [apply store64_ok|apply store16_ok|apply store8_ok|done].
Qed.

Lemma not_register x : x < 148 \/ 244 <= x -> Forall (fun d => ~ gas_byte d x) fadt_registers.
Proof. intros Hx. unfold fadt_registers, gas_byte. repeat constructor; cbn; lia. Qed.

Lemma finish_facs f : mem_ok f -> load64 (fadt_finish false f) FADT_X_FIRMWARE_CTRL =
  if load32 f FADT_FIRMWARE_CTRL =? 0 then load64 f FADT_X_FIRMWARE_CTRL else load32 f FADT_FIRMWARE_CTRL.
Proof.
  intros Hf. unfold fadt_finish, convert_registers_to_gas. unfold load64 at 1.
  rewrite (load_le_ext 8 _ _) by (intros x Hx; apply convert_all_outside, not_register; unfold FADT_X_FIRMWARE_CTRL in Hx; lia).
  case_match; [done|]. by apply load64_store64_eq, load32_is_u64.
Qed.

(** ** The specification *)

(** The generic address of a register after the conversion: the one the firmware gave, or the legacy port. *)
Definition gas_spec (f g : mem) (d : register_description) : Prop :=
  if load64 f (r_xoffset d + GAS_ADDRESS) =? 0
  then g (r_xoffset d) = 1 /\ g (r_xoffset d + 1) = Z.min 255 (8 * f (r_length_offset d)) /\ g (r_xoffset d + 2) = 0 /\ g (r_xoffset d + 3) = 0 /\
       load64 g (r_xoffset d + GAS_ADDRESS) = load32 f (r_offset d)
  else forall x, gas_byte d x -> g x = f x.

(** [g] is what the code keeps of the table [f]. *)
Record sanitised (f g : mem) : Prop := {
  san_revision : fits (load32 f FADT_LENGTH) (g FADT_REVISION);
  san_reserved x : reserved_byte x -> g x = if g FADT_REVISION <=? 2 then 0 else f x;
  san_dsdt : load64 g FADT_X_DSDT = if load64 f FADT_X_DSDT =? 0 then load32 f FADT_DSDT else load64 f FADT_X_DSDT;
  san_facs : load64 g FADT_X_FIRMWARE_CTRL = if load32 f FADT_FIRMWARE_CTRL =? 0 then load64 f FADT_X_FIRMWARE_CTRL else load32 f FADT_FIRMWARE_CTRL;
  san_registers d : d ∈ fadt_registers -> gas_spec f g d;
  san_rest x : x <> FADT_REVISION -> ~ reserved_byte x -> ~ (132 <= x < 244) -> g x = f x
}.

Lemma convert_gas f d : mem_ok f -> 0 <= r_xoffset d -> gas_spec f (convert_register f d) d.
Proof.
  intros Hf Hd. unfold gas_spec, convert_register. destruct (_ =? 0); [|done]. unfold gas_init_system_io.
  pose proof (Hf (r_length_offset d)) as Hl.
  repeat split; repeat first [rewrite store8_eq|rewrite store8_ne by lia]; try done; [rewrite wrap8_small; lia|].
  unfold GAS_ADDRESS, load64. rewrite (load_le_ext 8 (store64 f (r_xoffset d + 4) (load32 f (r_offset d)))) by (intros x Hx; rewrite !store8_ne by lia; done).
  by apply load64_store64_eq, load32_is_u64.
Qed.

Lemma gas_spec_ext f f' g g' d : (forall y, read_byte d y -> f' y = f y) -> (forall y, gas_byte d y -> g' y = g y) -> gas_spec f g d -> gas_spec f' g' d.
Proof.
  unfold gas_spec, read_byte, gas_byte, GAS_ADDRESS. intros Hf Hg.
  unfold load64, load32. rewrite (load_le_ext 8 f f') by (intros y Hy; apply Hf; lia). rewrite (load_le_ext 8 g g') by (intros y Hy; apply Hg; lia).
  rewrite (load_le_ext 4 f f') by (intros y Hy; apply Hf; lia). rewrite (Hf (r_length_offset d)), !Hg by lia.
  case_match; [done|]. intros H1 x Hx. rewrite Hg by lia. rewrite H1 by done. symmetry. apply Hf. lia.
Qed.

Lemma sanitised_finish f : mem_ok f -> sanitised f (fadt_finish false (fadt_prepare f)).
Proof.
  intros Hf. pose proof (mem_ok_prepare f Hf) as Hp.
  assert (forall x, x < 132 \/ 140 <= x < 148 \/ 244 <= x -> fadt_finish false (fadt_prepare f) x = fadt_prepare f x) as Hfin.
  { intros x Hx. apply finish_outside; [lia|]. apply not_register. lia. }
  assert (fadt_finish false (fadt_prepare f) FADT_REVISION = fadt_ensure_correct_revision f FADT_REVISION) as Hr.
  { rewrite Hfin, prepare_outside, cleared_outside; unfold reserved_byte, FADT_REVISION; try done; lia. }
  assert (forall x, x < 132 \/ 148 <= x -> x <> FADT_REVISION -> ~ reserved_byte x -> fadt_prepare f x = f x) as Hprep.
  { intros x Hx Hx1 Hx2. rewrite prepare_outside, cleared_outside, revision_outside by (done || lia). done. }
  split.
  - rewrite Hr. apply revision_fits.
  - intros x Hx. rewrite Hr, Hfin, prepare_outside, cleared_reserved by (done || unfold reserved_byte in Hx; lia).
    rewrite (revision_outside f x) by (unfold reserved_byte, FADT_REVISION in *; lia). done.
  - rewrite <- prepare_dsdt by done. apply load64_ext. intros x Hx. apply Hfin. unfold FADT_X_DSDT in Hx. lia.
  - rewrite finish_facs by done. unfold load32, load64, FADT_FIRMWARE_CTRL, FADT_X_FIRMWARE_CTRL.
    rewrite (load_le_ext 4 f), (load_le_ext 8 f); [done|..]; intros x Hx.
    + rewrite prepare_outside, cleared_outside, revision_outside; unfold FADT_REVISION, reserved_byte; try done; lia.
    + apply Hprep; unfold FADT_REVISION, reserved_byte; lia.
  - intros d Hd. destruct (registers_low d Hd) as (L1 & L2 & L3). set (p := fadt_prepare f) in *.
    set (q := if load32 p FADT_FIRMWARE_CTRL =? 0 then p else store64 p FADT_X_FIRMWARE_CTRL (load32 p FADT_FIRMWARE_CTRL)).
    assert (mem_ok q) by (unfold q; case_match; auto using store64_ok).
    apply (gas_spec_ext q _ (convert_register q d)); [| |apply convert_gas; [done|lia]].
    + intros y Hy. unfold read_byte, gas_byte in Hy. transitivity (p y); [symmetry; apply Hprep; unfold FADT_REVISION, reserved_byte; lia|].
      unfold q, FADT_X_FIRMWARE_CTRL. case_match; [done|]. rewrite store64_out by lia. done.
    + intros y Hy. by apply convert_all_inside.
  - intros x Hx Hx1 Hx2. rewrite Hfin by lia. apply Hprep; try done. lia.
Qed.

(** ** Initialisation *)

Section Initialise.
Context (hhdm_offset pml4 : Z) (view : mem) (Hview : mem_ok view).
Context (install : Z -> ust -> outcome (uacpi_status * ust)).

(** The installation of the DSDT returns, and leaves the copy alone. *)
Definition installs : Prop := forall a s, exists ret s', install a s = Ok (ret, s') /\
  (ret = UACPI_STATUS_OK \/ ret = UACPI_STATUS_OVERRIDDEN) /\ fadt (uc s') = fadt (uc s) /\ is_hardware_reduced (uc s') = is_hardware_reduced (uc s).

End Initialise.

