(* ===== verification/Path.v ===== *)
(** * Paths: strtok_r and vfs_resolve_path

    [vfs_resolve_path] copies the path to the heap, cuts it into components
    with [strtok_r] and looks each of them up in the directory of the
    previous one. [strtok_r_spec] is the specification of the tokenizer, and
    [vfs_resolve_path_walks] shows that the walk follows the tree of names of the file
    system: strings, heap, tmpfs and vnodes together. *)

From Stdlib Require Import String.
From S2P Require Import Prelude Memory Machine Heap Arena Paging OaHash Mutex Scheduler Strings StrSearch Tmpfs Vfs.

Local Open Scope list_scope.

(** ** Tokens *)

(** The maximal runs of characters that are not delimiters; [acc] is the run being read. *)
Fixpoint tokens (d : Z -> bool) (acc l : list Z) : list (list Z) :=
  match l with
  | [] => if decide (acc = []) then [] else [acc]
  | c :: l' =>
      if d c then (if decide (acc = []) then tokens d [] l' else acc :: tokens d [] l')
      else tokens d (acc ++ [c]) l'
  end.

(** The components of a path. *)
Definition components (path : list Z) : list (list Z) := tokens (among [47]) [] path.

(** After a run of characters that are not delimiters. *)
Lemma tokens_scan (d : Z -> bool) t : forall acc l, forallb (fun c => negb (d c)) t = true -> tokens d acc (t ++ l) = tokens d (acc ++ t) l.
Proof.
  induction t as [|c t IH]; intros acc l Ht; [by rewrite app_nil_r|]. cbn [forallb] in Ht. apply andb_prop in Ht as [Hc Ht].
  cbn [app tokens]. destruct (d c); [done|]. rewrite IH by done. by rewrite <- app_assoc.
Qed.

(** The first run of a string and what follows it. *)
Lemma split_run (d : Z -> bool) l : exists t r, l = t ++ r /\ forallb (fun c => negb (d c)) t = true /\ match r with [] => True | c :: _ => d c = true end.
Proof.
  induction l as [|c l (t & r & -> & Ht & Hr)]; [by exists [], []|]. destruct (d c) eqn:Hc.
  - by exists [], (c :: t ++ r).
  - exists (c :: t), r. split_and!; [done| |done]. cbn [forallb]. by rewrite Hc.
Qed.

(** There are at most as many tokens as characters. *)
Lemma tokens_length (d : Z -> bool) l : forall acc, (length (tokens d acc l) <= length l + (if decide (acc = []) then 0 else 1))%nat.
Proof.
  induction l as [|c l IH]; intros acc; cbn [tokens length]; [by destruct (decide (acc = []))|]. destruct (d c).
  - destruct (decide (acc = [])); [|cbn [length]]; specialize (IH []); destruct (decide (@nil Z = [])); [lia|done|lia|done].
  - specialize (IH (acc ++ [c])). destruct (decide (acc ++ [c] = [])), (decide (acc = [])); lia.
Qed.

Section Tokenizer.
Context (m : mem) (delim : Z) (set : list Z) (Hd : cstr m delim set).

Lemma tok_scan_spec fuel : forall a t r,
  cstr m a (t ++ r) -> forallb (fun c => negb (among set c)) t = true -> match r with [] => True | c :: _ => among set c = true end ->
  0 ∉ set -> (length t + length set + 1 < fuel)%nat ->
  tok_scan fuel m delim a = Ok (match r with [] => (m, NULL) | _ => (store8 m (a + Z.of_nat (length t)) 0, a + Z.of_nat (length t) + 1) end).
Proof.
  induction fuel as [|fuel IH]; intros a t r Hs Ht Hr H0 Hf; [lia|]. cbn [tok_scan]. rewrite (in_delims_spec _ m delim set) by (done || lia).
  cbn [mbind outcome_bind]. destruct t as [|c t]; cbn [app length forallb] in *.
  - rewrite !Z.add_0_r. destruct r as [|c r]; cbn [cstr] in Hs.
    + rewrite Hs. unfold among. rewrite bool_decide_eq_false_2 by done. done.
    + destruct Hs as (-> & _ & _). by rewrite Hr.
  - apply andb_prop in Ht as [Hc Ht]. destruct Hs as (-> & Hnz & Hs). destruct (among set c); [done|].
    destruct (Z.eqb_spec c 0); [done|]. rewrite (IH (a + 1) t r) by (done || lia). destruct r; [done|]. do 3 f_equal; lia.
Qed.

Lemma tok_skip_spec fuel : forall a l,
  cstr m a l -> 0 ∉ set -> (length l + length set + 1 < fuel)%nat ->
  (tokens (among set) [] l = [] /\ tok_skip fuel m delim a = Ok (0, a + Z.of_nat (length l) + 1)) \/
  exists i c l', l = take i l ++ c :: l' /\ (i + 1 + length l' = length l)%nat /\ among set c = false /\
    tok_skip fuel m delim a = Ok (c, a + Z.of_nat i + 1) /\ tokens (among set) [] l = tokens (among set) [] (c :: l').
Proof.
  induction fuel as [|fuel IH]; intros a l Hs H0 Hf; [lia|]. cbn [tok_skip]. rewrite (in_delims_spec _ m delim set) by (done || lia).
  cbn [mbind outcome_bind]. destruct l as [|c l]; cbn [cstr length] in *.
  - left. split; [done|]. rewrite Hs. unfold among. rewrite bool_decide_eq_false_2 by done. by rewrite Z.add_0_r.
  - destruct Hs as (-> & Hnz & Hs). destruct (among set c) eqn:Hc.
    + destruct (IH (a + 1) l Hs H0 ltac:(lia)) as [[Ht ->]|(i & c' & l' & El & Hl & Hc' & -> & Ht)].
      * left. cbn [tokens]. rewrite Hc. split; [done|]. do 2 f_equal. lia.
      * right. exists (S i), c', l'. cbn [take app tokens]. rewrite Hc. split_and!; [by rewrite <- El|lia|done| |done]. do 2 f_equal. lia.
    + right. exists O, c, l. split_and!; [done|lia|done| |done]. by rewrite Z.add_0_r.
Qed.

Lemma delims_nonzero : 0 ∉ set.
Proof.
  intros (i & Hi)%list_elem_of_lookup. pose proof (lookup_lt_Some _ _ _ Hi). apply (cstr_nonzero m delim set (Z.of_nat i) Hd); [lia|].
  by eapply cstr_lookup.
Qed.

(** The result of [strtok_r] on the string [l] at [a]: the first token [t], or none; the
    memory; and where the remaining string [rest] is. *)
Definition next_token (a : Z) (l : list Z) (tok : Z) (m' : mem) (last' : Z) : Prop :=
  match tokens (among set) [] l with
  | [] => tok = NULL /\ m' = m /\ last' = NULL
  | t :: ts => exists i rest, 0 <= i /\ tok = a + i /\ cstr m' tok t /\ tokens (among set) [] rest = ts /\
      i + Z.of_nat (length t) <= Z.of_nat (length l) /\
      (last' = NULL /\ rest = [] /\ m' = m \/
       last' = tok + Z.of_nat (length t) + 1 /\ cstr m' last' rest /\ m' = store8 m (tok + Z.of_nat (length t)) 0 /\
       i + Z.of_nat (length t) + 1 + Z.of_nat (length rest) <= Z.of_nat (length l))
  end.

Lemma cstr_app_take a t r m' : cstr m a (t ++ r) -> (forall x, a <= x < a + Z.of_nat (length t) -> m' x = m x) ->
  m' (a + Z.of_nat (length t)) = 0 -> cstr m' a t.
Proof.
  revert a. induction t as [|c t IH]; intros a Hs E H0; cbn [app length cstr] in *; [by rewrite Z.add_0_r in H0|].
  destruct Hs as (Hc & Hnz & Hs). split_and!; [by rewrite E by lia|done|]. apply IH; [done|intros x Hx; apply E; lia|].
  by replace (a + 1 + Z.of_nat (length t)) with (a + Z.of_nat (S (length t))) by lia.
Qed.

Lemma strtok_r_spec fuel s a last l :
  cstr m a l -> (length l + length set + 1 < fuel)%nat -> (if s =? NULL then last else s) = a -> a <> NULL ->
  exists tok m' last', strtok_r fuel m s delim last = Ok (tok, m', last') /\ next_token a l tok m' last'.
Proof.
  intros Hs Hf Ea Ha. pose proof delims_nonzero as H0. unfold strtok_r. rewrite Ea. destruct (Z.eqb_spec a NULL); [done|]. unfold next_token.
  destruct (tok_skip_spec fuel a l Hs H0 Hf) as [[Ht ->]|(i & c & l' & El & Hl & Hc & -> & Ht)]; cbn [mbind outcome_bind].
  { rewrite Ht. eexists _, _, _. split; [done|]. done. }
  assert (i = length (take i l)) as Hi by (rewrite length_take; lia).
  assert (cstr m (a + Z.of_nat i) (c :: l')) as Hc1.
  { replace (c :: l') with (drop i l); [apply cstr_drop; [done|lia]|]. rewrite El at 1. rewrite Hi at 1. by rewrite drop_app_length. }
  destruct (split_run (among set) l') as (t & r & -> & Htr & Hr). pose proof Hc1 as (Hm & Hnz & Hs').
  destruct (Z.eqb_spec c 0); [done|]. rewrite length_app in Hl. rewrite (tok_scan_spec fuel _ t r Hs') by (done || lia).
  rewrite Ht. change (c :: t ++ r) with ((c :: t) ++ r). rewrite (tokens_scan (among set) (c :: t) [] r) by (cbn [forallb]; by rewrite Hc). cbn [app].
  replace (a + Z.of_nat i + 1 - 1) with (a + Z.of_nat i) by lia. destruct r as [|c' r]; cbn [mbind outcome_bind tokens].
  - eexists _, _, _. split; [done|]. destruct (decide _); [done|]. exists (Z.of_nat i), []. rewrite app_nil_r in Hc1.
    split_and!; [lia|done|done|done| |by left]. cbn [length] in *. lia.
  - rewrite Hr. eexists _, _, _. split; [done|]. destruct (decide _); [done|]. exists (Z.of_nat i), r. cbn [length] in *.
    split_and!; [lia|done| |done|lia|].
    + apply (cstr_app_take _ (c :: t) (c' :: r)); [done|intros x Hx; apply store8_ne; cbn [length] in Hx; lia|].
      cbn [length]. replace (a + Z.of_nat i + Z.of_nat (S (length t))) with (a + Z.of_nat i + 1 + Z.of_nat (length t)) by lia. apply store8_eq.
    + right. split; [lia|]. split; [|split; [f_equal; lia|lia]]. apply (cstr_ext m).
      * intros x Hx. apply store8_ne. lia.
      * replace (a + Z.of_nat i + 1 + Z.of_nat (length t) + 1) with (a + Z.of_nat i + Z.of_nat (length (c :: t) + 1)) by (cbn [length]; lia).
        replace r with (drop (length (c :: t) + 1) (c :: t ++ c' :: r)); [apply cstr_drop; [done|cbn [length]; rewrite length_app; cbn [length]; lia]|].
        change (c :: t ++ c' :: r) with ((c :: t) ++ [c'] ++ r). rewrite app_assoc. by rewrite drop_app_length' by (rewrite length_app; done).
Qed.

End Tokenizer.

Section Path.
Context (lit : string -> Z) (addr : fn -> Z) (fuel : nat) (vfs_tmpfs tmpfs_root : Z).

(** The part of the heap not yet handed out is zero, as the frames it is made of were. *)
Definition blank (s : mst) (k : nat) : Prop :=
  forall x, node_addr k <= x < node_addr (length (heap_page_head s)) -> mm s x = 0.

Lemma nodes_vnode : nodes SIZEOF_VNODE = 1%nat.
Proof. done. Qed.

Lemma nodes_ops : nodes SIZEOF_VNODE_OPS = 2%nat.
Proof. done. Qed.

(** The operations of a vnode of a regular file, in the nodes after it. *)
Definition file_ops_at (m : mem) (v : Z) : Prop :=
  load64 m (v + V_OPS) = v + 64 /\
  (is_u64 (addr VNODE_TMPFS_READ_FROM_FILE) -> load64 m (v + 64 + OP_RD) = addr VNODE_TMPFS_READ_FROM_FILE) /\
  (is_u64 (addr VNODE_TMPFS_WRITE_TO_FILE) -> load64 m (v + 64 + OP_WR) = addr VNODE_TMPFS_WRITE_TO_FILE).

Lemma file_ops_keep m m' v : (forall x, v <= x < v + 192 -> m' x = m x) -> file_ops_at m v -> file_ops_at m' v.
Proof.
  intros E. unfold file_ops_at, V_OPS, OP_RD, OP_WR.
  by rewrite (load64_ext m m' (v + 16)), (load64_ext m m' (v + 64 + 0)), (load64_ext m m' (v + 64 + 8)) by (intros x Hx; apply E; lia).
Qed.

(** A vnode of type [t] for [e]. *)
Record linked_vnode (s : mst) (k : nat) (e : Z) (t : vtype) (s' : mst) : Prop := {
  lv_arena : arena s' (k + 3);
  lv_len : length (heap_page_head s') = length (heap_page_head s);
  lv_ok : mem_ok (mm s');
  lv_frame : forall x, ~ (node_addr k <= x < node_addr (k + 3)) -> mm s' x = mm s x;
  lv_blocks : forall q l, block (heap_page_head s) q l -> block (heap_page_head s') q l;
  lv_data : load64 (mm s') (node_addr k + V_DATA) = e;
  lv_mounted : load64 (mm s') (node_addr k + V_MOUNTED_VFS) = NULL;
  lv_ops : t = VREG -> file_ops_at (mm s') (node_addr k)
}.

Lemma tmpfs_link_vnode_spec s k e t :
  arena s k -> blank s k -> (k + 3 <= length (heap_page_head s))%nat -> mem_ok (mm s) -> is_u64 e -> t = VREG \/ t = VDIR ->
  exists s', tmpfs_link_vnode addr vfs_tmpfs e t s = Ok (node_addr k, s') /\ linked_vnode s k e t s'.
Proof.
  intros Har Hbl Hroom Hok He Ht. unfold tmpfs_link_vnode.
  destruct (kmalloc_byte_arena SIZEOF_VNODE s k) as (s1 & -> & Hmm1 & _ & Har1 & Hl1 & _ & Hbs1);
    [done|done|unfold room; rewrite nodes_vnode; lia|]. rewrite nodes_vnode in Har1. cbn [mbind outcome_bind].
  destruct (Z.eqb_spec (node_addr k) NULL) as [E|_]; [by destruct (node_addr_nonnull s k Har)|].
  set (m1 := store32 _ _ _).
  destruct (kmalloc_byte_arena SIZEOF_VNODE_OPS (set_mm m1 s1) (k + 1)) as (s2 & -> & Hmm2 & _ & Har2 & Hl2 & _ & Hbs2);
    [done|auto with willow|unfold room; rewrite nodes_ops; cbn [heap_page_head set_mm]; rewrite Hl1; lia|].
  rewrite nodes_ops in Har2. replace (k + 1 + 2)%nat with (k + 3)%nat in Har2 by lia. cbn [mbind outcome_bind].
  assert (node_addr (k + 1) <> NULL) as Hn1 by (by apply (node_addr_nonnull s1)).
  pose proof (node_addr_add k 1) as A1. pose proof (node_addr_add k 3) as A3. unfold assign64.
  destruct (Z.eqb_spec (node_addr (k + 1)) NULL) as [|_]; [done|]. cbn [mm set_mm] in Hmm2. rewrite Hmm2.
  assert (forall x, ~ (node_addr k <= x < node_addr k + 64 + 128) -> m1 x = mm s x) as E1.
  { intros x Hx. unfold m1, store32, V_TYPE. rewrite store_le_outside by lia. by rewrite Hmm1. }
  assert (mem_ok m1) as Hok1 by (apply store32_ok; by rewrite Hmm1).
  assert (forall x, node_addr k + 48 <= x < node_addr k + 56 -> m1 x = 0) as E2.
  { intros x Hx. unfold m1, store32, V_TYPE. rewrite store_le_outside by lia. rewrite Hmm1. apply Hbl.
    replace (length (heap_page_head s)) with (k + (length (heap_page_head s) - k))%nat by lia. rewrite node_addr_add. lia. }
  clearbody m1. unfold OP_RD, OP_WR, OP_CREATE, OP_REMOVE, OP_MKDIR, OP_RMDIR, OP_RMDIR_NO_ORPHAN, OP_LOOKUP, V_OPS, V_VFSMOUNTEDHERE, V_DATA, V_MOUNTED_VFS in *.
  destruct Ht as [-> | ->]; cbn [mbind outcome_bind]; (eexists; split; [done|]);
    (split; cbn [mm set_mm heap_page_head];
      [by apply arena_set_mm|by rewrite Hl2|auto 20 using store64_ok| | |by apply load64_store64_eq| |]).
  1,5: intros x Hx; rewrite A3 in Hx; rewrite !store64_out by lia; apply E1; lia.
  1,4: intros q l Hb; by apply Hbs2, Hbs1.
  1,3: unfold V_MOUNTED_VFS; rewrite (load64_ext (fun _ => 0)); [done|]; intros x Hx; rewrite !store64_out by lia; apply E2; lia.
  - intros _. pose proof (node_addr_range s1 (k + 1) Har1). unfold HEAP_START_VIRT_DEFINED, file_ops_at, V_OPS, OP_RD, OP_WR in *. rewrite A1.
    split_and!; [|intros Hu..]; repeat (rewrite load64_store64_ne by lia); apply load64_store64_eq; (done || unfold is_u64; lia).
  - done.
Qed.

(** ** The tree of names *)

Context (s0 : mst) (k0 : nat).

(** The bytes that are not in the free part of the heap. *)
Definition old_range (a n : Z) : Prop := a + n <= node_addr k0 \/ node_addr (length (heap_page_head s0)) <= a.
Definition agrees_old (m : mem) : Prop := forall x, old_range x 1 -> m x = mm s0 x.

Lemma agrees_load m a : agrees_old m -> old_range a 8 -> load64 m a = load64 (mm s0) a.
Proof. intros H Ha. apply load64_ext. intros x Hx. apply H. unfold old_range in *. lia. Qed.

Lemma agrees_cstr m a l : agrees_old m -> old_range a (Z.of_nat (length l) + 1) -> cstr (mm s0) a l -> cstr m a l.
Proof. intros H Ha. apply cstr_ext. intros x Hx. apply H. unfold old_range in *. lia. Qed.

(** Where a path leads: to an entry; to no entry of the last directory; or through a name that is
    not there. *)
Inductive walk_result : Type :=
| Found (e : Z)
| Absent
| Broken.

(** The path with components [cs] leads from the directory [dir] to [r]. *)
Fixpoint walks (cs : list (list Z)) (dir : Z) (r : walk_result) : Prop :=
  match cs with
  | [] => r = Found dir
  | c :: cs' =>
      dir_wf fuel s0 k0 dir /\
      (misses (mm s0) dir c /\ r = (if decide (cs' = []) then Absent else Broken) \/
       exists e, finds (mm s0) dir c e /\
         (type_of (mm s0) e = 0 /\ cs' = [] /\ r = Found e \/ type_of (mm s0) e = 1 /\ walks cs' e r))
  end.

(** An entry and its name do not change while the free part of the heap does. *)
Lemma old_entry m dir i :
  agrees_old m -> dir_wf fuel s0 k0 dir -> 0 <= i < max_files (mm s0) dir ->
  max_files m dir = max_files (mm s0) dir /\ slot m dir i = slot (mm s0) dir i /\
  (slot m dir i <> NULL -> type_of m (slot m dir i) = type_of (mm s0) (slot m dir i) /\
     (exists nm, named m (slot m dir i) nm /\ (length nm < fuel)%nat) /\
     forall c, named m (slot m dir i) c <-> named (mm s0) (slot m dir i) c).
Proof.
  intros Ha Hwf Hi. pose proof (dw_dir _ _ _ _ Hwf) as [_ Hd]. pose proof (aw_live _ _ _ (dw_array _ _ _ _ Hwf)) as [_ Hl]. layout.
  assert (max_files m dir = max_files (mm s0) dir) as Em by (apply agrees_load; [done|left; layout; lia]).
  assert (slot m dir i = slot (mm s0) dir i) as Es.
  { unfold slot, entry_at. rewrite (agrees_load m (dir + D_FILES)) by (done || left; layout; lia).
    fold (dir_files (mm s0) dir). apply agrees_load; [done|]. left. lia. }
  split; [done|]. split; [done|]. intros Hne. rewrite Es in *.
  destruct (dw_entries _ _ _ _ Hwf i Hi Hne) as ([_ He] & _ & _ & _ & nm & Hn & Hf & H128). layout. unfold named in *.
  assert (cstr m (slot (mm s0) dir i + H_NAME) nm) as Hn'.
  { apply agrees_cstr; [done| |done]. left. layout. lia. }
  split_and!; [apply Ha; left; layout; lia|by exists nm|]. intros c. split; intros Hc.
  - by rewrite (cstr_unique _ _ _ _ Hc Hn').
  - by rewrite (cstr_unique _ _ _ _ Hc Hn).
Qed.

Context (Har0 : arena s0 k0).

Lemma old_finds m dir c e : agrees_old m -> dir_wf fuel s0 k0 dir -> finds (mm s0) dir c e ->
  finds m dir c e /\ type_of m e = type_of (mm s0) e /\ is_u64 e.
Proof.
  intros Ha Hwf (i & Hi & <- & Hne & Hn & Hlt). destruct (old_entry m dir i Ha Hwf Hi) as (Em & Es & He). rewrite Es in He.
  destruct (He Hne) as (Et & _ & Hnm). split; [|split; [done|]].
  - exists i. rewrite Em. split_and!; [lia|lia|done|done|by apply Hnm|]. intros j Hj. destruct (old_entry m dir j Ha Hwf ltac:(lia)) as (_ & Ej & Hej).
    destruct (Hlt j Hj) as [Hz|Hz]; [left; congruence|]. destruct (Z.eq_dec (slot m dir j) NULL) as [|Hnj]; [by left|]. right.
    rewrite (proj2 (proj2 (Hej Hnj))). by rewrite Ej.
  - destruct (dw_entries _ _ _ _ Hwf i Hi Hne) as ([H1 H2] & _). layout. pose proof (node_addr_range s0 k0 Har0). unfold is_u64, HEAP_START_VIRT_DEFINED in *. lia.
Qed.

Lemma old_misses m dir c : agrees_old m -> dir_wf fuel s0 k0 dir -> misses (mm s0) dir c -> misses m dir c.
Proof.
  intros Ha Hwf Hm j Hj. assert (max_files m dir = max_files (mm s0) dir) as Em.
  { pose proof (dw_dir _ _ _ _ Hwf) as [_ Hd]. apply agrees_load; [done|]. left. layout. lia. }
  rewrite Em in Hj. destruct (old_entry m dir j Ha Hwf Hj) as (_ & Ej & Hej).
  destruct (Hm j Hj) as [Hz|Hz]; [left; congruence|]. destruct (Z.eq_dec (slot m dir j) NULL) as [|Hnj]; [by left|]. right.
  rewrite (proj2 (proj2 (Hej Hnj))). by rewrite Ej.
Qed.

Lemma old_names m dir : agrees_old m -> dir_wf fuel s0 k0 dir -> names_ok fuel m dir.
Proof.
  intros Ha Hwf j Hj Hne. assert (max_files m dir = max_files (mm s0) dir) as Em.
  { pose proof (dw_dir _ _ _ _ Hwf) as [_ Hd]. apply agrees_load; [done|]. left. layout. lia. }
  rewrite Em in Hj. destruct (old_entry m dir j Ha Hwf Hj) as (_ & Ej & Hej). by destruct (Hej Hne) as (_ & Hn & _).
Qed.

(** ** The state during the walk *)

(** The copy of a path of [L] characters is at node [k0]; vnodes come after it. *)
Context (L : nat).
Definition path_nodes : nat := nodes (Z.of_nat L + 1).
Definition path_end : Z := node_addr k0 + Z.of_nat L + 1.

Record walking (s : mst) (k : nat) : Prop := {
  wk_arena : arena s k;
  wk_len : length (heap_page_head s) = length (heap_page_head s0);
  wk_blank : blank s k;
  wk_ok : mem_ok (mm s);
  wk_old : agrees_old (mm s);
  wk_block : block (heap_page_head s) k0 (chunks (Z.of_nat L + 1));
  wk_k : (k0 + path_nodes <= k)%nat
}.

(** A vnode of the directory or file [e]: an old one, or one made during the walk. *)
Record vnode_at (s : mst) (k : nat) (v e : Z) : Prop := {
  va_nonnull : v <> NULL;
  va_place : old_range v SIZEOF_VNODE \/
    node_addr (k0 + path_nodes) <= v /\ v + 192 <= node_addr k /\ (type_of (mm s0) e = 0 -> file_ops_at (mm s) v);
  va_mounted : load64 (mm s) (v + V_MOUNTED_VFS) = NULL;
  va_data : load64 (mm s) (v + V_DATA) = e
}.

Lemma path_end_nodes : path_end <= node_addr (k0 + path_nodes).
Proof.
  unfold path_end, path_nodes, nodes. rewrite node_addr_add. pose proof (chunks_bytes (Z.of_nat L + 1) ltac:(lia)). lia.
Qed.

Lemma walking_heap_end s k : walking s k -> node_addr k <= node_addr (length (heap_page_head s0)).
Proof. intros [Har Hl _ _ _ _ _]. rewrite <- Hl. pose proof (ar_k _ _ Har). unfold node_addr. lia. Qed.

(** A vnode survives changes to the path and to the free part of the heap. *)
Lemma vnode_at_keep s k s' k' v e :
  (k0 + path_nodes <= k <= length (heap_page_head s0))%nat -> (k <= k')%nat ->
  (forall x, ~ (node_addr k0 <= x < path_end) -> ~ (node_addr k <= x < node_addr (length (heap_page_head s0))) -> mm s' x = mm s x) ->
  vnode_at s k v e -> vnode_at s' k' v e.
Proof.
  intros Hw Hk E [H1 H2 H3 H4]. pose proof path_end_nodes. assert (node_addr k <= node_addr (length (heap_page_head s0))) by (unfold node_addr; lia).
  assert (node_addr k <= node_addr k') by (unfold node_addr; lia). assert (node_addr k0 <= node_addr (k0 + path_nodes) <= node_addr k).
  { unfold node_addr. lia. }
  assert (forall off, 0 <= off <= 48 -> load64 (mm s') (v + off) = load64 (mm s) (v + off)) as El.
  { intros off Hoff. apply load64_ext. intros x Hx. unfold old_range, SIZEOF_VNODE in H2. apply E; lia. }
  split; [done| |by rewrite El by (unfold V_MOUNTED_VFS; lia)|by rewrite El by (unfold V_DATA; lia)].
  destruct H2 as [|(P1 & P2 & P3)]; [by left|right]. split_and!; [lia|lia|]. intros Ht. apply (file_ops_keep (mm s)); [|by apply P3].
  intros x Hx. apply E; lia.
Qed.

(** The type of the vnode of an entry. *)
Definition vnode_type (e : Z) : vtype := if type_of (mm s0) e =? 0 then VREG else VDIR.

Lemma walking_link s k e s' :
  walking s k -> (k + 3 <= length (heap_page_head s0))%nat -> linked_vnode s k e (vnode_type e) s' ->
  walking s' (k + 3) /\ vnode_at s' (k + 3) (node_addr k) e.
Proof.
  intros Hw Hroom [L1 L2 L3 L4 L5 L6 L7 L8]. pose proof (walking_heap_end s k Hw) as Hend. destruct Hw as [W1 W2 W3 W4 W5 W6 W7].
  assert (node_addr k0 <= node_addr k) by (unfold node_addr; lia).
  assert (node_addr (k + 3) <= node_addr (length (heap_page_head s0))) by (unfold node_addr; lia).
  assert (node_addr k <= node_addr (k + 3)) by (unfold node_addr; lia).
  split; split; try done.
  - by rewrite L2.
  - intros x Hx. rewrite L2, W2 in Hx. rewrite L4 by lia. apply W3. rewrite W2. lia.
  - intros x Hx. unfold old_range in Hx. rewrite L4 by lia. by apply W5.
  - by apply L5.
  - lia.
  - by apply (node_addr_nonnull s).
  - right. split_and!; [unfold node_addr; lia|rewrite node_addr_add; lia|]. intros Ht. apply L8. unfold vnode_type. by rewrite Ht.
Qed.

(** One lookup. *)
Lemma vnode_lookup_step s k v dir name c :
  walking s k -> vnode_at s k v dir -> dir_wf fuel s0 k0 dir -> cstr (mm s) name c -> (k + 3 <= length (heap_page_head s0))%nat ->
  (misses (mm s0) dir c -> vnode_tmpfs_lookup addr fuel vfs_tmpfs v name s = Ok (NULL, s)) /\
  (forall e, finds (mm s0) dir c e -> type_of (mm s0) e = 0 \/ type_of (mm s0) e = 1 ->
     exists s', vnode_tmpfs_lookup addr fuel vfs_tmpfs v name s = Ok (node_addr k, s') /\ linked_vnode s k e (vnode_type e) s').
Proof.
  intros Hw [V1 _ V3 V4] Hwf Hn Hroom. pose proof (wk_old _ _ Hw) as Ho. unfold vnode_tmpfs_lookup, deref64.
  destruct (Z.eqb_spec v NULL); [done|]. cbn [mbind outcome_bind]. rewrite V3. cbn [Z.eqb mbind outcome_bind]. rewrite V4.
  destruct (tmpfs_lookup_spec fuel dir name c s (dir_wf_nonnull _ _ _ _ Hwf) (old_names _ _ Ho Hwf) Hn) as (e & -> & He). cbn [mbind outcome_bind].
  split.
  - intros Hm%(old_misses _ _ _ Ho Hwf). destruct He as [[_ (i & Hi & <- & Hne & Hnm & _)]|[-> _]]; [|done]. by destruct (Hm i Hi).
  - intros e' Hf Ht. destruct (old_finds _ _ _ _ Ho Hwf Hf) as (Hf' & Et & Hu). destruct He as [[Hne He]|[_ Hm]].
    2: { destruct Hf' as (i & Hi & <- & Hne & Hnm & _). by destruct (Hm i Hi). }
    rewrite (finds_unique _ _ _ _ _ He Hf') in *. destruct (Z.eqb_spec e' NULL); [done|]. unfold vnode_type. rewrite Et.
    destruct Ht as [-> | ->]; cbn [Z.eqb]; (apply tmpfs_link_vnode_spec; [apply Hw|apply Hw|rewrite (wk_len _ _ Hw); lia|apply Hw|done|auto]).
Qed.

(** ** The components *)

Definition in_path (a : Z) (l : list Z) : Prop := node_addr k0 <= a /\ a + Z.of_nat (length l) < path_end.

(** The string [rest] that is still to be cut is at [save], or nothing is left. *)
Definition remaining (s : mst) (save : Z) (cs : list (list Z)) : Prop :=
  save = NULL /\ cs = [] \/
  exists rest, in_path save rest /\ cstr (mm s) save rest /\ tokens (among [47]) [] rest = cs.

(** The token [tok] is the first of the components [cs], the others are to be cut at [save]. *)
Definition pending (s : mst) (tok save : Z) (cs : list (list Z)) : Prop :=
  match cs with
  | [] => tok = NULL
  | c :: cs' => in_path tok c /\ cstr (mm s) tok c /\ remaining s save cs'
  end.

Lemma remaining_ext s s' save cs : (forall x, node_addr k0 <= x < path_end -> mm s' x = mm s x) -> remaining s save cs -> remaining s' save cs.
Proof.
  intros E [[-> ->]|(rest & Hp & Hc & Ht)]; [by left|right]. exists rest. split_and!; [done| |done].
  apply (cstr_ext (mm s)); [|done]. intros x Hx. unfold in_path in Hp. apply E. lia.
Qed.

Lemma walking_store s k x : walking s k -> node_addr k0 <= x < path_end -> walking (set_mm (store8 (mm s) x 0) s) k.
Proof.
  intros Hw Hx. pose proof path_end_nodes. pose proof (walking_heap_end s k Hw). destruct Hw as [W1 W2 W3 W4 W5 W6 W7].
  assert (node_addr (k0 + path_nodes) <= node_addr k) by (unfold node_addr; lia). split; try done; cbn [mm set_mm].
  - by apply arena_set_mm.
  - intros y Hy. cbn [mm set_mm heap_page_head] in *. rewrite store8_ne by lia. by apply W3.
  - by apply store8_ok.
  - intros y Hy. unfold old_range in Hy. rewrite store8_ne by lia. by apply W5.
Qed.

Context (Hlit : cstr (mm s0) (lit "/") [47]) (Hlit_old : old_range (lit "/") 2) (Hfuel : (L + 2 < fuel)%nat).

Lemma path_nonnull : node_addr k0 <> NULL.
Proof. by apply (node_addr_nonnull s0). Qed.

Lemma strtok_step s k p a last rest :
  walking s k -> in_path a rest -> cstr (mm s) a rest -> (if p =? NULL then last else p) = a ->
  exists tok m' save, strtok_r fuel (mm s) p (lit "/") last = Ok (tok, m', save) /\ walking (set_mm m' s) k /\
    pending (set_mm m' s) tok save (tokens (among [47]) [] rest) /\ (forall x, ~ (node_addr k0 <= x < path_end) -> m' x = mm s x).
Proof.
  intros Hw [P1 P2] Hc Ea. assert (cstr (mm s) (lit "/") [47]) as Hl by (apply agrees_cstr; [apply Hw|done|done]).
  assert (a <> NULL) as Ha by (pose proof (node_addr_range s0 k0 Har0); unfold HEAP_START_VIRT_DEFINED, NULL in *; lia).
  unfold path_end in P2. destruct (strtok_r_spec (mm s) (lit "/") [47] Hl fuel p a last rest) as (tok & m' & save & E & Hn); [done|cbn [length]; lia|done|done|].
  exists tok, m', save. split; [done|]. unfold next_token in Hn. unfold pending.
  destruct (tokens (among [47]) [] rest) as [|t ts]; [destruct Hn as (-> & -> & _); by destruct s|].
  destruct Hn as (i & r & Hi & -> & Ht & Hts & Hlen & Hcase).
  assert (in_path (a + i) t) as Hin by (unfold in_path, path_end; lia).
  destruct Hcase as [(-> & -> & ->)|(-> & Hr & -> & Hlen')].
  - assert (set_mm (mm s) s = s) as -> by (by destruct s). split_and!; [done|done|done| |done]. left. by rewrite <- Hts.
  - split_and!; [apply walking_store; [done|unfold path_end; lia]|done|done| |].
    + right. exists r. split_and!; [unfold in_path, path_end; lia|done|done].
    + intros x Hx. unfold path_end in Hx. apply store8_ne. lia.
Qed.

(** The next component after a lookup. *)
Lemma strtok_next s k save cs :
  walking s k -> remaining s save cs ->
  exists tok m' save', strtok_r fuel (mm s) NULL (lit "/") save = Ok (tok, m', save') /\ walking (set_mm m' s) k /\
    pending (set_mm m' s) tok save' cs /\ (forall x, ~ (node_addr k0 <= x < path_end) -> m' x = mm s x).
Proof.
  intros Hw [[-> ->]|(rest & Hp & Hc & <-)]; [|by apply (strtok_step s k NULL save save)].
  exists NULL, (mm s), NULL. split_and!; [done| |done|done]. by destruct s.
Qed.

(** ** The walk *)

(** The vnode the walk starts from, a tmpfs directory on which nothing is mounted. *)
Record start_vnode (root dir : Z) : Prop := {
  sv_nonnull : root <> NULL;
  sv_old : old_range root SIZEOF_VNODE;
  sv_mounted : load64 (mm s0) (root + V_MOUNTED_VFS) = NULL;
  sv_data : load64 (mm s0) (root + V_DATA) = dir;
  sv_ops : load64 (mm s0) (root + V_OPS) <> NULL;
  sv_ops_old : old_range (load64 (mm s0) (root + V_OPS)) SIZEOF_VNODE_OPS;
  sv_lookup : load64 (mm s0) (load64 (mm s0) (root + V_OPS) + OP_LOOKUP) = addr VNODE_TMPFS_LOOKUP
}.

Lemma root_lookup m root dir : agrees_old m -> start_vnode root dir -> vnode_op m root OP_LOOKUP = Ok (addr VNODE_TMPFS_LOOKUP).
Proof.
  intros Ha [H1 H2 _ _ H5 H6 H7]. unfold vnode_op, deref64. destruct (Z.eqb_spec root NULL); [done|]. cbn [mbind outcome_bind].
  unfold old_range, SIZEOF_VNODE, SIZEOF_VNODE_OPS, V_OPS, OP_LOOKUP in *. rewrite (agrees_load m (root + 16)) by (done || unfold old_range; lia).
  destruct (Z.eqb_spec (load64 (mm s0) (root + 16)) NULL); [done|]. rewrite agrees_load by (done || unfold old_range; lia). by rewrite H7.
Qed.

Lemma start_vnode_at s k root dir : agrees_old (mm s) -> start_vnode root dir -> vnode_at s k root dir.
Proof.
  intros Ha [H1 H2 H3 H4 _ _ _]. unfold old_range, SIZEOF_VNODE in H2. split; [done|by left| |].
  - rewrite agrees_load; [done|done|unfold old_range, V_MOUNTED_VFS; lia].
  - rewrite agrees_load; [done|done|unfold old_range, V_DATA; lia].
Qed.

(** What a walk along [cs] from the vnode [ret] to [r] returns. *)
Definition walk_ends (k : nat) (cs : list (list Z)) (ret : Z) (r : walk_result) (o : outcome (Z * mst)) : Prop :=
  match r with
  | Found e => exists v s' k', o = Ok (v, s') /\ walking s' k' /\ (k' <= k + 3 * length cs)%nat /\ vnode_at s' k' v e /\
      (cs = [] -> v = ret) /\ (cs <> [] -> ~ old_range v SIZEOF_VNODE)
  | Absent => exists s' k', o = Ok (NULL, s') /\ walking s' k'
  | Broken => o = Err NullDeref
  end.

Lemma walk_path_spec root dir0 : start_vnode root dir0 -> forall cs n s k ret tok save dir r,
  walking s k -> vnode_at s k ret dir -> pending s tok save cs -> walks cs dir r ->
  (length cs < n)%nat -> (k + 3 * length cs <= length (heap_page_head s0))%nat ->
  walk_ends k cs ret r (walk_path lit addr fuel vfs_tmpfs n root ret tok save s).
Proof.
  intros Hroot. induction cs as [|c cs IH]; intros [|n] s k ret tok save dir r Hw Hv Hp Hr Hn Hroom; cbn [length] in *; try lia; cbn [walk_path].
  { cbn [walks pending] in *. subst r tok. cbn [Z.eqb]. exists ret, s, k. split_and!; [done|done|cbn; lia|done|done|done]. }
  destruct Hp as (Hin & Hc & Hrem). destruct Hr as [Hwf Hr].
  assert (tok <> NULL) as Htok.
  { unfold in_path in Hin. pose proof (node_addr_range s0 k0 Har0). unfold HEAP_START_VIRT_DEFINED, NULL in *. lia. }
  destruct (Z.eqb_spec tok NULL); [done|]. rewrite (root_lookup _ root dir0 (wk_old _ _ Hw) Hroot). cbn [mbind outcome_bind].
  unfold call_lookup at 1. rewrite Z.eqb_refl.
  destruct (vnode_lookup_step s k ret dir tok c Hw Hv Hwf Hc ltac:(lia)) as [Hmiss Hfind].
  destruct Hr as [[Hm ->]|(e & Hf & Hr)].
  - rewrite (Hmiss Hm). cbn [mbind outcome_bind]. destruct (strtok_next s k save cs Hw Hrem) as (tok' & m' & save' & -> & Hw' & Hp' & _).
    cbn [mbind outcome_bind]. destruct n as [|n]; [lia|]. cbn [walk_path]. destruct cs as [|c' cs].
    + cbn [pending] in Hp'. subst tok'. destruct (decide _); [|done]. cbn [Z.eqb]. by exists (set_mm m' s), k.
    + destruct (decide _); [done|]. destruct Hp' as ([Hin' _] & _). destruct (Z.eqb_spec tok' NULL) as [->|_].
      { pose proof (node_addr_range s0 k0 Har0). unfold HEAP_START_VIRT_DEFINED, NULL in *. lia. }
      rewrite (root_lookup _ root dir0 (wk_old _ _ Hw') Hroot). cbn [mbind outcome_bind]. unfold call_lookup. by rewrite Z.eqb_refl.
  - destruct (Hfind e Hf) as (s' & -> & Hlv); [tauto|]. cbn [mbind outcome_bind].
    destruct (walking_link s k e s' Hw ltac:(lia) Hlv) as [Hw1 Hv1]. pose proof path_end_nodes as Hpe.
    assert (remaining s' save cs) as Hrem1.
    { apply (remaining_ext s); [|done]. intros x Hx. apply (lv_frame _ _ _ _ _ Hlv). pose proof (wk_k _ _ Hw). unfold node_addr in *. lia. }
    destruct (strtok_next s' (k + 3) save cs Hw1 Hrem1) as (tok' & m' & save' & -> & Hw2 & Hp2 & Hout). cbn [mbind outcome_bind].
    assert (vnode_at (set_mm m' s') (k + 3) (node_addr k) e) as Hv2.
    { apply (vnode_at_keep s' (k + 3)); [pose proof (wk_k _ _ Hw); lia|lia| |done]. intros x Hx _. by apply Hout. }
    assert (walks cs e r) as Hr' by (destruct Hr as [(_ & -> & ->)|[_ Hr]]; done).
    specialize (IH n (set_mm m' s') (k + 3)%nat (node_addr k) tok' save' e r Hw2 Hv2 Hp2 Hr' ltac:(lia) ltac:(lia)).
    destruct r as [e'| |]; cbn [walk_ends] in *; [|done|done]. destruct IH as (v & s2 & k2 & -> & H1 & Hk2 & H2 & H3 & H4). exists v, s2, k2. split_and!; [done|done|cbn [length]; lia|done|done|intros _].
    destruct (decide (cs = [])) as [E|E]; [|by apply H4]. rewrite (H3 E). pose proof (wk_k _ _ Hw). unfold old_range, SIZEOF_VNODE, node_addr. lia.
Qed.

(** ** The copy of the path *)

Lemma strdup_walking path l :
  length l = L -> cstr (mm s0) path l -> old_range path (Z.of_nat L + 1) -> mem_ok (mm s0) -> blank s0 k0 ->
  (k0 + path_nodes <= length (heap_page_head s0))%nat ->
  exists s1, strdup fuel path s0 = Ok (node_addr k0, s1) /\ walking s1 (k0 + path_nodes) /\ cstr (mm s1) (node_addr k0) l.
Proof.
  intros HL Hc Hold Hok Hbl Hroom. unfold strdup. rewrite (strlen_spec fuel (mm s0) path l) by (done || lia). cbn [mbind outcome_bind]. rewrite HL.
  destruct (kmalloc_byte_arena (Z.of_nat L + 1) s0 k0) as (s1 & -> & Hmm & _ & Har1 & Hl1 & Hb & _); [lia|done|done|].
  cbn [mbind outcome_bind]. destruct (Z.eqb_spec (node_addr k0) NULL); [by destruct path_nonnull|]. rewrite Hmm.
  pose proof (ar_k _ _ Har0) as Hk0. pose proof path_end_nodes as Hpe. unfold path_end in Hpe.
  assert (node_addr (k0 + path_nodes) <= node_addr (length (heap_page_head s0))) as Hend by (unfold node_addr; lia).
  destruct (memcpy_spec (mm s0) (node_addr k0) path (Z.of_nat L + 1)) as [Hin Hout]; [lia|done|unfold old_range in Hold; lia|].
  eexists. split; [done|]. split.
  - split; cbn [mm set_mm heap_page_head]; [by apply arena_set_mm|done| | | |done|lia].
    + intros x Hx. cbn [mm set_mm heap_page_head] in *. rewrite Hl1 in Hx. rewrite Hout by lia. apply Hbl. pose proof (node_addr_add k0 path_nodes). lia.
    + by apply memcpy_loop_ok.
    + intros x Hx. unfold old_range in Hx. apply Hout. lia.
  - cbn [mm set_mm]. apply (cstr_move (mm s0) _ path); [|done]. intros i Hi. apply Hin. lia.
Qed.

(** ** vfs_resolve_path *)

(** The state after the walk, the copy of the path freed: the heap is handed out up to [k']. *)
Record resolved (s' : mst) (k' : nat) : Prop := {
  rs_arena : arena s' k';
  rs_len : length (heap_page_head s') = length (heap_page_head s0);
  rs_ok : mem_ok (mm s');
  rs_old : agrees_old (mm s');
  rs_k : (k0 + path_nodes <= k')%nat
}.

Lemma walking_free s k : (1 <= k0)%nat -> walking s k ->
  exists s', kfree (node_addr k0) s = Ok s' /\ mm s' = mm s /\ resolved s' k.
Proof.
  intros Hk [W1 W2 W3 W4 W5 W6 W7]. destruct (kfree_arena s k k0 _ W1 W6 Hk) as (s' & E & Hm & _ & Ha & Hl & _).
  exists s'. split_and!; [done|done|]. split; rewrite ?Hm; (done || congruence || lia).
Qed.

End Path.

(** What resolving the path gives: a vnode of the entry, NULL, or a null dereference. *)
Definition resolve_ends (addr : fn -> Z) (s : mst) (k : nat) (l : list Z) (start : Z) (r : walk_result) (o : outcome (Z * mst)) : Prop :=
  match r with
  | Found e => exists v s' k', o = Ok (v, s') /\ resolved s k (length l) s' k' /\
      (k' <= k + path_nodes (length l) + 3 * length (components l))%nat /\ vnode_at addr s k (length l) s' k' v e /\
      (components l = [] -> v = start) /\ (components l <> [] -> ~ old_range s k v SIZEOF_VNODE)
  | Absent => exists s' k', o = Ok (NULL, s') /\ resolved s k (length l) s' k'
  | Broken => o = Err NullDeref
  end.

Section Resolve.
Context (lit : string -> Z) (addr : fn -> Z) (fuel : nat) (vfs_tmpfs tmpfs_root : Z).

(** A path in memory, a heap with a blank free part, and the vnode the walk starts from. *)
Record path_ready (s : mst) (k : nat) (path : Z) (l : list Z) (start dir : Z) : Prop := {
  pr_arena : arena s k;
  pr_k : (1 <= k)%nat;
  pr_ok : mem_ok (mm s);
  pr_blank : blank s k;
  pr_path : cstr (mm s) path l;
  pr_nonnull : path <> NULL;
  pr_path_old : old_range s k path (Z.of_nat (length l) + 1);
  pr_slash : cstr (mm s) (lit "/"%string) [47];
  pr_slash_old : old_range s k (lit "/"%string) 2;
  pr_fuel : (length l + 2 < fuel)%nat;
  pr_start : start_vnode addr s k start dir
}.

Lemma resolve_path_spec s k root_dir path l dir r :
  let start := if mm s path =? 47 then tmpfs_root else root_dir in
  path_ready s k path l start dir -> (k + path_nodes (length l) + 3 * length (components l) <= length (heap_page_head s))%nat ->
  walks fuel s k (components l) dir r ->
  resolve_ends addr s k l start r (vfs_resolve_path lit addr fuel vfs_tmpfs tmpfs_root root_dir path s).
Proof.
  intros start [Har Hk Hok Hbl Hpath Hpath0 Hpath_old Hlit Hlit_old Hfuel Hroot] Hroom Hwalk.
  unfold resolve_ends, components, vfs_resolve_path in *. destruct (Z.eqb_spec path NULL); [done|]. cbn [negb c_assert mbind outcome_bind]. fold start.
  destruct (strdup_walking fuel s k Har (length l) Hfuel path l) as (s1 & -> & Hw1 & Hc1); [done..|lia|]. cbn [mbind outcome_bind].
  destruct (strtok_step lit fuel s k Har (length l) Hlit Hlit_old Hfuel s1 _ (node_addr k) (node_addr k) NULL l Hw1) as (tok & m' & save & -> & Hw2 & Hp2 & _);
    [unfold in_path, path_end; lia|done| |].
  { destruct (Z.eqb_spec (node_addr k) NULL); [|done]. by destruct (node_addr_nonnull s k Har). }
  cbn [mbind outcome_bind].
  assert (length (tokens (among [47%Z]) [] l) <= length l)%nat as Hcount.
  { pose proof (tokens_length (among [47]) l []) as Ht. by rewrite decide_True, Nat.add_0_r in Ht by done. }
  assert (vnode_at addr s k (length l) (set_mm m' s1) (k + path_nodes (length l)) start dir) as Hv.
  { eapply start_vnode_at; [exact Hfuel|apply Hw2|done]. }
  pose proof (walk_path_spec lit addr fuel vfs_tmpfs s k Har (length l) Hlit Hlit_old Hfuel start dir Hroot
    (tokens (among [47]) [] l) fuel (set_mm m' s1) _ start tok save dir r Hw2 Hv Hp2 Hwalk ltac:(lia) ltac:(lia)) as He.
  destruct r as [e| |]; cbn [walk_ends] in He.
  - destruct He as (v & s2 & k2 & -> & Hw3 & Hk2 & Hv' & Hnil & Hnew). cbn [mbind outcome_bind].
    destruct (walking_free s k (length l) s2 k2 Hk Hw3) as (s3 & -> & Em & Hres).
    cbn [mbind outcome_bind]. exists v, s3, k2. split_and!; [done|done|lia| |done|done]. destruct Hv' as [V1 V2 V3 V4]. split; rewrite ?Em; done.
  - destruct He as (s2 & k2 & -> & Hw3). cbn [mbind outcome_bind].
    destruct (walking_free s k (length l) s2 k2 Hk Hw3) as (s3 & -> & Em & Hres). cbn [mbind outcome_bind]. by exists s3, k2.
  - by rewrite He.
Qed.

End Resolve.

(** C4: [vfs_resolve_path] refines the walk along the tree of names. For a path in a file
    system of well-formed directories, with room in a heap whose free part is blank, the components are
    the maximal runs without a slash; a path that starts with a slash is walked from the
    root, any other from the given directory. If every component is found, the
    result is a vnode of the entry the path leads to (the starting vnode itself when there are no
    components); if only the last one is missing, it is NULL; if an earlier one is missing, the lookup of the next
    component dereferences NULL. Nothing outside the free part of the heap changes. *)
Theorem vfs_resolve_path_walks (lit : string -> Z) (addr : fn -> Z) (fuel : nat) (vfs_tmpfs tmpfs_root : Z)
    (s : mst) (k : nat) (root_dir path dir : Z) (l : list Z) (r : walk_result)
    (Hready : path_ready lit addr fuel s k path l (if mm s path =? 47 then tmpfs_root else root_dir) dir)
    (Hroom : (k + path_nodes (length l) + 3 * length (components l) <= length (heap_page_head s))%nat)
    (Hwalk : walks fuel s k (components l) dir r) :
  let o := vfs_resolve_path lit addr fuel vfs_tmpfs tmpfs_root root_dir path s in
  match r with
  | Found e => exists v s', o = Ok (v, s') /\ v <> NULL /\ load64 (mm s') (v + V_DATA) = e /\ agrees_old s k (mm s') /\
      (components l = [] -> v = if mm s path =? 47 then tmpfs_root else root_dir)
  | Absent => exists s', o = Ok (NULL, s') /\ agrees_old s k (mm s')
  | Broken => o = Err NullDeref
  end.
Proof.
  pose proof (resolve_path_spec lit addr fuel vfs_tmpfs tmpfs_root s k root_dir path l dir r Hready Hroom Hwalk) as H.
  destruct r as [e| |]; cbn [resolve_ends] in H; [|destruct H as (s' & k' & -> & H); exists s'; split; [done|apply H]|done].
  destruct H as (v & s' & k' & -> & Hs & _ & [V1 _ _ V4] & Hnil & _). exists v, s'. split_and!; [done|done|done|apply Hs|done].
Qed.

(** ** Witness *)

(** The strings "a" and "/", the path "/a", and the root vnode with its operations below the heap. *)
Definition path_lit : string -> Z := fun _ => 0xffff900000002000.
Definition path_addr : fn -> Z := fun _ => 0xffff900000007000.
Definition path_root : Z := 0xffff900000005000.
Definition path_mem : mem :=
  store64 (store64 (store64 (fun x => if x =? 0xffff900000001000 then 97 else if x =? 0xffff900000002000 then 47 else if x =? 0xffff900000003000 then 47 else if x =? 0xffff900000003001 then 97 else 0)
    (path_root + V_OPS) 0xffff900000006000) (path_root + V_DATA) (node_addr 0)) (0xffff900000006000 + OP_LOOKUP) 0xffff900000007000.
Definition path_fs : mst := set_mm path_mem sample_names.

(** The root directory with the file "a". *)
Definition path_setup (s : mst) : outcome (Z * mst) :=
  '(dir, s) ← root_dir_pointer s;
  '(_, s) ← tmpfs_create_file 8 dir 0xffff900000001000 10 s;
  Ok (dir, s).

Lemma path_setup_steps s dir s1 p s2 :
  root_dir_pointer s = Ok (dir, s1) -> tmpfs_create_file 8 dir 0xffff900000001000 10 s1 = Ok (p, s2) -> path_setup s = Ok (dir, s2).
Proof. intros H1 H2. unfold path_setup. by rewrite H1, bind_step, H2, bind_step. Qed.

(** Where the new file is: its mutex at node 42 and its data at node 43. *)
Definition path_file (s : mst) : option Z * option Z * (Z * Z * Z) :=
  (Machine.status <$> heap_page_head s !! 100%nat, Machine.status <$> heap_page_head s !! 43%nat,
   (file_mutex (mm s) (node_addr 22), file_data (mm s) (node_addr 22), file_size (mm s) (node_addr 22))).

Lemma path_setup_file dir s p s' :
  root_dir_pointer path_fs = Ok (dir, s) -> tmpfs_create_file 8 dir 0xffff900000001000 10 s = Ok (p, s') ->
  path_file s' = (Some 0, Some 1, (node_addr 42, node_addr 43, 10)).
Proof.
  intros H1 H2. assert (('(_, s) ← path_setup path_fs; Ok (path_file s)) = Ok (Some 0, Some 1, (node_addr 42, node_addr 43, 10))) as Hp.
  { vm_compute. reflexivity. }
  rewrite (path_setup_steps _ _ _ _ _ H1 H2), bind_step in Hp. congruence.
Qed.

Lemma path_mem_ok : mem_ok path_mem.
Proof. unfold path_mem. repeat apply store64_ok. intros x. cbn. repeat destr_cmp; lia. Qed.

Lemma path_state :
  exists s k, path_setup path_fs = Ok (node_addr 0, s) /\ arena s k /\ (1 <= k <= 100)%nat /\ length (heap_page_head s) = 256%nat /\
    mem_ok (mm s) /\ blank s k /\ dir_wf 8 s k (node_addr 0) /\ finds (mm s) (node_addr 0) [97] (node_addr 22) /\
    type_of (mm s) (node_addr 22) = 0 /\ readable (mm s) k (node_addr 22) /\ file_size (mm s) (node_addr 22) = 10 /\
    forall x, x < HEAP_START_VIRT_DEFINED -> mm s x = path_mem x.
Proof.
  destruct (root_dir_pointer_spec 8 path_fs 0) as (s & Hr & _ & Hok & Hl & Har & Hwf & Hmx & Hs & Hfr);
    [by apply arena_set_mm, sample_arena|exact path_mem_ok|vm_compute; lia|].
  change (0 + nodes SIZEOF_OBJECT + 2)%nat with 22%nat in *.
  assert (forall x, x < HEAP_START_VIRT_DEFINED -> mm s x = path_mem x) as Hlow.
  { intros x Hx. rewrite Hfr; [done|]. unfold node_addr. lia. }
  assert (good_name 8 s 0xffff900000001000 [97]) as Hg.
  { unfold good_name, outside_heap, apart. cbn [length cstr]. rewrite !Hlow by done. split_and!; try done; try lia. right. vm_compute. discriminate. }
  destruct (tmpfs_create_file_effect 8 (node_addr 0) 0xffff900000001000 [97] 10 s 22 Har Hok Hwf Hg) as (s' & k' & fi & Hc & Hcr & Hty & _);
    [lia|unfold create_room; rewrite Hmx, Hl; vm_compute; lia|].
  pose proof (path_setup_file _ _ _ _ Hr Hc) as Hp. injection Hp as Hp100 Hp43 Emx Eda Esz.
  pose proof (cr_arena _ _ _ _ _ _ _ _ Hcr) as Har'. pose proof (cr_k _ _ _ _ _ _ _ _ Hcr) as Hk'.
  assert (forall x, x < HEAP_START_VIRT_DEFINED \/ node_addr k' <= x -> mm s' x = path_mem x) as Hkeep.
  { intros x Hx. destruct (cr_fi _ _ _ _ _ _ _ _ Hcr) as [Hfi _]. destruct Hwf as [Hdir [_ Hlv _ _ _] (Hml & _) _].
    assert (node_addr 22 <= node_addr k') by (unfold node_addr; lia). assert (HEAP_START_VIRT_DEFINED <= node_addr 22) by (unfold node_addr; lia).
    unfold live in *. layout. rewrite (cr_frame _ _ _ _ _ _ _ _ Hcr) by (layout; lia). apply Hfr. unfold node_addr in *. lia. }
  exists s', k'. split; [exact (path_setup_steps _ _ _ _ _ Hr Hc)|]. split; [done|]. split_and!.
  - lia.
  - apply fmap_Some in Hp100 as (nd & Hn & Hs0). pose proof (ar_dense _ _ Har' _ _ Hn) as Hd. case_bool_decide; lia.
  - rewrite (cr_len _ _ _ _ _ _ _ _ Hcr), Hl. done.
  - apply (cr_ok _ _ _ _ _ _ _ _ Hcr).
  - intros x [Hx _]. rewrite Hkeep by auto. assert (HEAP_START_VIRT_DEFINED <= node_addr k') by (unfold node_addr; lia).
    unfold path_mem, path_root, V_OPS, V_DATA, OP_LOOKUP, HEAP_START_VIRT_DEFINED in *. rewrite !store64_out by lia. repeat destr_cmp; lia.
  - apply (created_wf 8 s 22 s' k' _ fi [97]); [done..|cbn; lia].
  - apply (created_finds_new 8 s 22 s' k' _ fi [97]); [done..|]. intros j Hj. left. apply Hs. lia.
  - done.
  - apply fmap_Some in Hp43 as (nd & Hn & Hs1). pose proof (ar_dense _ _ Har' _ _ Hn) as Hd. case_bool_decide; [|lia].
    split; rewrite ?Emx, ?Eda, ?Esz; unfold live, apart, node_addr; layout; lia.
  - done.
  - intros x Hx. apply Hkeep. by left.
Qed.

(** The path "/a" in such a state. *)
Lemma path_state_ready s k :
  arena s k -> (1 <= k)%nat -> mem_ok (mm s) -> blank s k -> (forall x, x < HEAP_START_VIRT_DEFINED -> mm s x = path_mem x) ->
  path_ready path_lit path_addr 8 s k 0xffff900000003000 [47; 97] path_root (node_addr 0).
Proof.
  intros Har Hk Hok Hbl Hlow.
  assert (forall a, a < HEAP_START_VIRT_DEFINED - 8 -> load64 (mm s) a = load64 path_mem a) as Hld.
  { intros a Ha. apply load64_ext. intros x Hx. apply Hlow. lia. }
  assert (HEAP_START_VIRT_DEFINED <= node_addr k) as Hnk by (unfold node_addr; lia).
  assert (forall a n, a + n <= HEAP_START_VIRT_DEFINED -> old_range s k a n) as Hold by (intros a n Ha; left; lia).
  assert (load64 (mm s) (path_root + V_OPS) = 0xffff900000006000) as Eo by (rewrite Hld by reflexivity; vm_compute; reflexivity).
  split; [done|done|done|done| |done| | | |cbn; lia|].
  1,3: cbn [cstr]; rewrite !Hlow by reflexivity; repeat split; vm_compute; (reflexivity || discriminate).
  1,2: apply Hold; vm_compute; discriminate.
  split; rewrite ?Eo; try discriminate; try (apply Hold; vm_compute; discriminate); rewrite Hld by reflexivity; vm_compute; reflexivity.
Qed.

Lemma vfs_resolve_path_walks_witness :
  exists s v s', path_setup path_fs = Ok (node_addr 0, s) /\
    vfs_resolve_path path_lit path_addr 8 0 path_root NULL 0xffff900000003000 s = Ok (v, s') /\ tmpfs_lookup 8 (node_addr 0) 0xffff900000001000 s = Ok (load64 (mm s') (v + V_DATA)).
Proof.
  destruct path_state as (s & k & E & Har & Hk & Hlen & Hok & Hbl & Hwf & Hf & Hty & _ & _ & Hlow).
  destruct (vfs_resolve_path_walks path_lit path_addr 8 0 path_root s k NULL 0xffff900000003000 (node_addr 0) [47; 97] (Found (node_addr 22)))
    as (v & s' & H1 & _ & H2 & _).
  - rewrite Hlow by reflexivity. apply path_state_ready; [exact Har|lia|exact Hok|exact Hbl|exact Hlow].
  - rewrite Hlen. change (path_nodes (length [47; 97])) with 1%nat. change (length (components [47; 97])) with 1%nat. lia.
  - split; [exact Hwf|]. right. exists (node_addr 22). split; [exact Hf|]. left. split; [exact Hty|]. split; reflexivity.
  - exists s, v, s'. split; [exact E|]. split; [exact H1|]. rewrite H2. eapply tmpfs_lookup_finds; [exact Hwf| |exact Hf].
    cbn [cstr]. rewrite !Hlow by reflexivity. repeat split; vm_compute; (reflexivity || discriminate).
Defined.
