(* ===== verification/Open.v ===== *)
(** * Opening and reading a file: the path, descriptor and file layers together

    [vfs_fdopen] walks the path ([Path]), makes the record of the open file and enters
    it into the descriptor table of the running thread ([Vfs], [OaHash]);
    [fd_pread] goes from the number back to the record, to the vnode and through its
    function pointer to the file of [Tmpfs]. *)

From Stdlib Require Import String.
From S2P Require Import Prelude Memory Machine Heap Arena Paging OaHash Mutex Scheduler Strings Tmpfs Vfs Path.

Local Open Scope list_scope.

Section Open.
Context (lit : string -> Z) (addr : fn -> Z) (fuel : nat) (vfs_tmpfs tmpfs_root : Z) (dec : Z -> list Z).

(** A running thread with a table that takes one more descriptor and is not due for a
    rehash, and an absolute path. *)
Record open_ready (s : sst) (k : nat) (t : thread_context) (ht : oa_hash) (path : Z) (l : list Z) (dir : Z) : Prop := {
  or_started : scheduling_started s = true;
  or_thread : threads s !! running_thread s = Some t;
  or_table : fd_tables s !! fd_table t = Some ht;
  or_length : ht_length ht <> 33;
  or_fds : fd_table_ready dec (mm (sm s)) k ht;
  or_path : path_ready lit addr fuel (sm s) k path l tmpfs_root dir;
  or_absolute : mm (sm s) path = 47;
  or_root : is_u64 tmpfs_root;
  or_room : (k + path_nodes (length l) + 3 * length (components l) + 4 <= length (heap_page_head (sm s)))%nat
}.

(** The state after a file was opened: record [file] under the number of entries, for the vnode [v] of [e]. *)
Record opened (s : sst) (k : nat) (t : thread_context) (ht : oa_hash) (l : list Z) (flags mode e v file : Z) (k' : nat) (s' : sst) : Prop := {
  op_arena : arena (sm s') k';
  op_ok : mem_ok (mm (sm s'));
  op_len : length (heap_page_head (sm s')) = length (heap_page_head (sm s));
  op_k : (k + path_nodes (length l) <= k' < length (heap_page_head (sm s)))%nat;
  op_thread : threads s' !! running_thread s' = Some t;
  op_table : exists ht', fd_tables s' !! fd_table t = Some ht' /\ oa_inv (mm (sm s')) ht' /\ keys_live k' ht' /\
    binds (mm (sm s')) ht' (dec (ht_length ht)) file;
  op_file : file_at (mm (sm s')) file v flags mode;
  op_place : node_addr k <= file /\ file + 64 <= node_addr k';
  op_vnode : vnode_at addr (sm s) k (length l) (sm s') k' v e;
  op_new : components l <> [] -> ~ old_range (sm s) k v SIZEOF_VNODE;
  op_old : agrees_old (sm s) k (mm (sm s'))
}.

(** Where the walk of an opened path ends. *)
Lemma open_vnode_ends s k t ht path l dir r :
  open_ready s k t ht path l dir -> walks fuel (sm s) k (components l) dir r ->
  resolve_ends addr (sm s) k l tmpfs_root r
    (vfs_resolve_path lit addr fuel vfs_tmpfs tmpfs_root tmpfs_root path (sm s)) /\
  open_vnode lit addr fuel vfs_tmpfs tmpfs_root path s =
    '(v, m) ← vfs_resolve_path lit addr fuel vfs_tmpfs tmpfs_root tmpfs_root path (sm s); Ok (v, set_sm m s).
Proof.
  intros [_ _ _ _ _ Hp Ha _ Hroom] Hw. split; [|unfold open_vnode; by rewrite Ha].
  pose proof (resolve_path_spec lit addr fuel vfs_tmpfs tmpfs_root (sm s) k tmpfs_root path l dir r) as H.
  cbv zeta in H. rewrite Ha in H. apply H; [done|lia|done].
Qed.

(** The vnode a path leads to is a 64-bit address. *)
Lemma vnode_at_u64 s k t ht path l dir s1 k1 v e :
  open_ready s k t ht path l dir -> arena s1 k1 -> vnode_at addr (sm s) k (length l) s1 k1 v e ->
  (components l = [] -> v = tmpfs_root) -> (components l <> [] -> ~ old_range (sm s) k v SIZEOF_VNODE) -> is_u64 v.
Proof.
  intros Hr Har [_ Hp _ _] Hnil Hnew. destruct (decide (components l = [])) as [E|E]; [rewrite (Hnil E); apply Hr|].
  destruct Hp as [Hp|(H1 & H2 & _)]; [by destruct (Hnew E)|]. pose proof (node_addr_range s1 k1 Har).
  unfold is_u64, node_addr, HEAP_START_VIRT_DEFINED in *. lia.
Qed.

(** The record of the new file and its entry in the table, in a state the walk has ended in. *)
Lemma fdopen_found s k t ht path l dir flags mode e :
  open_ready s k t ht path l dir -> walks fuel (sm s) k (components l) dir (Found e) ->
  exists s' v file k', vfs_fdopen lit addr fuel vfs_tmpfs tmpfs_root dec path flags mode s = Ok (ht_length ht, s') /\
    opened s k t ht l flags mode e v file k' s'.
Proof.
  intros Hr Hw. destruct (open_vnode_ends s k t ht path l dir _ Hr Hw) as [(v & m1 & k1 & Hres & R & Hk1 & Hv & Hnil & Hnew) Hopen].
  pose proof (vnode_at_u64 _ _ _ _ _ _ _ _ _ _ _ Hr (rs_arena _ _ _ _ _ R) Hv Hnil Hnew) as Hu.
  destruct R as [Har1 Hl1 Hok1 Hold1 Hkk]. pose proof Hr as [Hst Ht Hht H33 Hfds Hpath _ _ Hroom].
  unfold vfs_fdopen. rewrite Hst. cbn [negb]. rewrite Hopen, Hres. cbn [mbind outcome_bind].
  unfold c_assert. destruct (Z.eqb_spec v NULL) as [E|_]; [by destruct (va_nonnull _ _ _ _ _ _ _ _ Hv)|]. cbn [negb mbind outcome_bind sm set_sm].
  destruct (new_vfs_file_spec v flags mode m1 k1 Har1 Hok1 ltac:(lia) Hu) as (m2 & -> & Har2 & Hok2 & Hl2 & Hf2 & Hfr2). cbn [mbind outcome_bind].
  unfold fd_table_of, get_current_thread. rewrite (get_thread_ok (set_sm m1 s) (running_thread (set_sm m1 s)) t Ht). cbn [mbind outcome_bind].
  change (fd_tables (set_sm m1 s)) with (fd_tables s). rewrite Hht. cbn [checked mbind outcome_bind].
  unfold rehash_fd_table. destruct (Z.eqb_spec (ht_length ht) 33); [done|]. cbn [mbind outcome_bind].
  assert (node_addr k <= node_addr k1 /\ node_addr (k1 + 3) <= node_addr (length (heap_page_head (sm s)))) as [Hn1 Hn3] by (unfold node_addr; lia).
  pose proof (node_addr_add k1 1) as A1. pose proof (node_addr_add k1 2) as A2. pose proof (node_addr_add k1 3) as A3.
  assert (fd_table_ready dec (mm m2) (k1 + 2) ht) as Hfds2.
  { apply (fd_table_ready_keep _ (mm (sm s)) _ k); [done|lia|]. intros x Hx. rewrite Hfr2 by lia. apply Hold1. left. lia. }
  destruct (install_fd_spec dec m2 (k1 + 2) ht (node_addr k1) Har2 Hok2 ltac:(lia) Hfds2) as (ht' & m3 & -> & [I1 I2 I3 I4 I5 I6 I7 _]).
  cbn [mbind outcome_bind]. replace (k1 + 2 + 1)%nat with (k1 + 3)%nat in * by lia.
  eexists _, v, (node_addr k1), (k1 + 3)%nat. split; [done|].
  split; cbn [sm set_sm set_fd_tables threads running_thread fd_tables]; [done|done|congruence|lia|done| | |lia| |done|].
  - exists ht'. by rewrite lookup_insert_eq.
  - apply (file_at_keep (mm m2)); [|done]. intros x Hx. apply I6. unfold SIZEOF_FILE in Hx. lia.
  - apply (vnode_at_keep addr (sm s) k (length l) m1 k1); [lia|lia| |done]. intros x _ Hx. rewrite I6, Hfr2 by lia. done.
  - intros x Hx. unfold old_range in Hx. rewrite I6, Hfr2 by lia. apply Hold1. unfold old_range. lia.
Qed.

(** The number resolves to the record; only the buffer of the key is written. *)
Lemma opened_resolves s k t ht l flags mode e v file k' s' :
  opened s k t ht l flags mode e v file k' s' -> fd_table_ready dec (mm (sm s)) k ht -> (1 <= k)%nat ->
  exists s2, vfs_int_fd_to_vfs_file dec (ht_length ht) s' = Ok (file, s2) /\
    arena (sm s2) (k' + 1) /\ mem_ok (mm (sm s2)) /\ length (heap_page_head (sm s2)) = length (heap_page_head (sm s)) /\
    file_at (mm (sm s2)) file v flags mode /\ vnode_at addr (sm s) k (length l) (sm s2) (k' + 1) v e /\ agrees_old (sm s) k (mm (sm s2)).
Proof.
  intros [O1 O2 O3 O4 O5 (ht' & O6 & O7 & O8 & O9) O10 O11 O12 _ O13] Hfds Hk. assert (file <> NULL) as Hfile.
  { unfold node_addr, HEAP_START_VIRT_DEFINED, NULL in *. lia. }
  destruct (int_fd_bound dec s' k' t ht' (ht_length ht) file) as (s2 & E & _ & Har2 & Hok2 & Hl2 & _ & Hfr2);
    [done|done|done|done|lia|lia|done|done|apply Hfds|done|done|].
  assert (node_addr k <= node_addr k' /\ node_addr (k' + 1) <= node_addr (length (heap_page_head (sm s)))) as [Hn1 Hn2] by (unfold node_addr; lia).
  exists s2. split_and!; [done|done|done|congruence| | |].
  - apply (file_at_keep (mm (sm s'))); [|done]. intros x Hx. apply Hfr2. unfold SIZEOF_FILE in Hx. lia.
  - apply (vnode_at_keep addr (sm s) k (length l) (sm s') k'); [lia|lia| |done]. intros x _ Hx. apply Hfr2. lia.
  - intros x Hx. unfold old_range in Hx. rewrite Hfr2 by lia. apply O13. done.
Qed.

(** Reading through the number gives the bytes of the file. *)
Lemma opened_reads s k t ht l flags mode e v file k' s' buf size off :
  let count := Z.min size (file_size (mm (sm s)) e - off) in
  opened s k t ht l flags mode e v file k' s' -> fd_table_ready dec (mm (sm s)) k ht -> (1 <= k)%nat ->
  is_u64 (addr VNODE_TMPFS_READ_FROM_FILE) -> components l <> [] -> type_of (mm (sm s)) e = 0 -> readable (mm (sm s)) k e ->
  0 <= off < file_size (mm (sm s)) e -> 0 <= size -> outside_heap (sm s) buf count ->
  exists s2, fd_pread addr dec (ht_length ht) buf size off s' = Ok (count, s2) /\
    forall j, 0 <= j < count -> mm (sm s2) (buf + j) = file_byte (mm (sm s)) e (off + j).
Proof.
  intros count Hop Hfds Hk Hu Hcs Hty Hrd Hoff Hsize Hbuf. pose proof (op_new _ _ _ _ _ _ _ _ _ _ _ _ Hop Hcs) as Hnew.
  pose proof (op_k _ _ _ _ _ _ _ _ _ _ _ _ Hop) as Hk'. pose proof (op_place _ _ _ _ _ _ _ _ _ _ _ _ Hop) as Hpl.
  destruct (opened_resolves _ _ _ _ _ _ _ _ _ _ _ _ Hop Hfds Hk) as (s2 & Hi & Har & Hok & Hl & Hf & [V1 V2 _ V4] & Hold).
  destruct V2 as [|(H1 & H2 & Hops)]; [done|]. destruct (Hops Hty) as (Eo & Erd & _).
  assert (HEAP_START_VIRT_DEFINED <= node_addr k <= node_addr (k + path_nodes (length l))) as Hn by (unfold node_addr; lia).
  unfold fd_pread. rewrite Hi. cbn [mbind outcome_bind]. unfold pread, vnode_op, deref64, NULL, HEAP_START_VIRT_DEFINED in *.
  destruct (Z.eqb_spec file 0); [lia|]. cbn [mbind outcome_bind]. rewrite (fa_vnode _ _ _ _ _ Hf).
  destruct (Z.eqb_spec v 0); [lia|]. cbn [mbind outcome_bind]. rewrite Eo. destruct (Z.eqb_spec (v + 64) 0); [lia|]. cbn [mbind outcome_bind].
  rewrite (Erd Hu). unfold call_rd, vnode_tmpfs_read_from_file. rewrite Z.eqb_refl, V4.
  destruct (readable_keep (mm (sm s)) (mm (sm s2)) k (k' + 1) e Hrd) as (Hrd2 & Esz & Eb); [lia|intros x Hx; apply Hold; left; lia|].
  destruct (tmpfs_read_spec (sm s2) (k' + 1) e buf size off Har Hok Hrd2) as (s3 & -> & _ & Hb); [lia|lia| |].
  - rewrite Esz. unfold outside_heap. by rewrite Hl.
  - cbn [mbind outcome_bind]. rewrite Esz in *. fold count in Hb |- *. eexists. split; [done|]. cbn [sm set_sm]. intros j Hj. rewrite Hb by done.
    apply Eb. lia.
Qed.

End Open.

(** C17: opening a file and reading it: with scheduling started, a table that takes one
    more descriptor and an absolute path that leads to [e], [vfs_fdopen] returns the
    number of entries, under which [vfs_int_fd_to_vfs_file] finds a new record with
    the given flags and mode, position 0 and a vnode of [e]; nothing outside the free part of the heap changes.
    If [e] is a regular file, [fd_pread] of that number
    copies the bytes of the file, up to its end, into the caller's buffer. If the last
    component of the path does not exist, the assertion on the vnode fails; if an earlier one does
    not, NULL is dereferenced. *)
Theorem vfs_fdopen_reads (lit : string -> Z) (addr : fn -> Z) (fuel : nat) (vfs_tmpfs tmpfs_root : Z) (dec : Z -> list Z)
    (s : sst) (k : nat) (t : thread_context) (ht : oa_hash) (path : Z) (l : list Z) (dir flags mode : Z) (r : walk_result)
    (Hready : open_ready lit addr fuel tmpfs_root dec s k t ht path l dir)
    (Hwalk : walks fuel (sm s) k (components l) dir r) (Haddr : is_u64 (addr VNODE_TMPFS_READ_FROM_FILE)) :
  let o := vfs_fdopen lit addr fuel vfs_tmpfs tmpfs_root dec path flags mode s in
  match r with
  | Found e => exists s' file v s2, o = Ok (ht_length ht, s') /\
      vfs_int_fd_to_vfs_file dec (ht_length ht) s' = Ok (file, s2) /\ file_at (mm (sm s2)) file v flags mode /\
      load64 (mm (sm s2)) (v + V_DATA) = e /\ agrees_old (sm s) k (mm (sm s2)) /\
      (type_of (mm (sm s)) e = 0 -> components l <> [] -> readable (mm (sm s)) k e ->
       forall buf size off, 0 <= off < file_size (mm (sm s)) e -> 0 <= size ->
         let count := Z.min size (file_size (mm (sm s)) e - off) in
         outside_heap (sm s) buf count ->
         exists s3, fd_pread addr dec (ht_length ht) buf size off s' = Ok (count, s3) /\
           forall j, 0 <= j < count -> mm (sm s3) (buf + j) = file_byte (mm (sm s)) e (off + j))
  | Absent => o = Err AssertFailed
  | Broken => o = Err NullDeref
  end.
Proof.
  pose proof (pr_k _ _ _ _ _ _ _ _ _ (or_path _ _ _ _ _ _ _ _ _ _ _ _ Hready)) as Hk.
  pose proof (or_fds _ _ _ _ _ _ _ _ _ _ _ _ Hready) as Hfds. destruct r as [e| |].
  - destruct (fdopen_found lit addr fuel vfs_tmpfs tmpfs_root dec s k t ht path l dir flags mode e Hready Hwalk) as (s' & v & file & k' & -> & Hop).
    destruct (opened_resolves addr dec _ _ _ _ _ _ _ _ _ _ _ _ Hop Hfds Hk) as (s2 & Hi & _ & _ & _ & Hf & [_ _ _ V4] & Hold).
    exists s', file, v, s2. split_and!; [done|done|done|done|done|]. intros Hty Hcs Hrd buf size off Hoff Hsize count Hbuf.
    exact (opened_reads addr dec _ _ _ _ _ _ _ _ _ _ _ _ _ _ _ Hop Hfds Hk Haddr Hcs Hty Hrd Hoff Hsize Hbuf).
  - destruct (open_vnode_ends lit addr fuel vfs_tmpfs tmpfs_root dec s k t ht path l dir _ Hready Hwalk) as [(m1 & k1 & Hres & _) Hopen].
    unfold vfs_fdopen. rewrite (or_started _ _ _ _ _ _ _ _ _ _ _ _ Hready). cbn [negb]. rewrite Hopen, Hres. done.
  - destruct (open_vnode_ends lit addr fuel vfs_tmpfs tmpfs_root dec s k t ht path l dir _ Hready Hwalk) as [Hres Hopen].
    unfold vfs_fdopen. rewrite (or_started _ _ _ _ _ _ _ _ _ _ _ _ Hready). cbn [negb]. rewrite Hopen, Hres. done.
Qed.

(** ** Witness *)

(** A thread with an empty table of four slots. *)
Definition open_state (s : mst) : sst :=
  Sst s {[0x400 := sample_context]} {[0x500 := oa_hash_init 0x9000 4]} 0x400 0 1 true false 1 0 0 0 [].

Lemma empty_fd_table m k : fd_table_ready digit m k (oa_hash_init 0x9000 4).
Proof.
  assert (forall i e, slot_at (oa_hash_init 0x9000 4) i e -> state e = OA_HASH_ENTRY_EMPTY) as He.
  { intros i e [_ H]. cbn in H. apply lookup_replicate in H as [-> _]. done. }
  split.
  - apply oa_init_inv. lia.
  - intros i e Hi Ho. unfold occ in Ho. by rewrite (He i e Hi) in Ho.
  - cbn. lia.
  - split; [cbn; lia|]. apply Forall_singleton. by vm_compute.
  - intros v (i & e & Hi & Ho & _). unfold occ in Ho. by rewrite (He i e Hi) in Ho.
  - exists 0, empty_entry. split; [|done]. split; [cbn; lia|reflexivity].
Qed.

(** The file "/a" is opened as descriptor 0 and its last four bytes are read to 0x8000. *)
Lemma vfs_fdopen_reads_witness :
  exists s s' s3, path_setup path_fs = Ok (node_addr 0, s) /\
    vfs_fdopen path_lit path_addr 8 0 path_root digit 0xffff900000003000 2 0 (open_state s) = Ok (0, s') /\
    fd_pread path_addr digit 0 0x8000 100 6 s' = Ok (4, s3) /\ mm (sm s3) 0x8001 = file_byte (mm s) (node_addr 22) 7.
Proof.
  destruct path_state as (s & k & E & Har & Hk & Hlen & Hok & Hbl & Hwf & Hf & Hty & Hrd & Hsz & Hlow).
  destruct (vfs_fdopen_reads path_lit path_addr 8 0 path_root digit (open_state s) k sample_context (oa_hash_init 0x9000 4) 0xffff900000003000 [47; 97]
      (node_addr 0) 2 0 (Found (node_addr 22))) as (s' & file & v & s2 & H1 & _ & _ & _ & _ & H2).
  - split.
    + reflexivity.
    + reflexivity.
    + reflexivity.
    + discriminate.
    + apply empty_fd_table.
    + apply path_state_ready; [exact Har|lia|exact Hok|exact Hbl|exact Hlow].
    + exact (Hlow 0xffff900000003000 eq_refl).
    + vm_compute. split; [discriminate|reflexivity].
    + cbn [sm open_state]. rewrite Hlen. change (path_nodes (length [47; 97])) with 1%nat. change (length (components [47; 97])) with 1%nat. lia.
  - split; [exact Hwf|]. right. exists (node_addr 22). split; [exact Hf|]. left. split; [exact Hty|]. split; reflexivity.
  - vm_compute. split; [discriminate|reflexivity].
  - cbn [sm open_state] in H2. destruct (H2 Hty ltac:(discriminate) Hrd 0x8000 100 6) as (s3 & H3 & H4).
    + rewrite Hsz. lia.
    + lia.
    + rewrite Hsz. right. vm_compute. discriminate.
    + rewrite Hsz in H3, H4. exists s, s', s3. split; [exact E|]. split; [exact H1|]. split; [exact H3|]. apply (H4 1). vm_compute. split; [discriminate|reflexivity].
Defined.
