(* ===== verification/Dispatch.v ===== *)
(** * The system-call table and the user side: syscalls.asm and syscalls.c

    The [syscall] instruction puts the address of the next instruction into rcx, the entry
    code calls [syscall_array[rdi]] with the other registers as they are, and a C function
    takes its fourth argument from rcx.  The wrappers a program calls are the second half of
    syscalls.c. *)

From Stdlib Require Import String.
From S2P Require Import Prelude Memory Machine Frames Heap Arena Paging OaHash Mutex Scheduler Strings Tmpfs Vfs Descriptors Loader Threads Syscalls Path Open.

Local Open Scope list_scope.

(** The argument registers. *)
Record regs : Type := Regs {
  rdi : Z;
  rsi : Z;
  rdx : Z;
  rcx : Z;
  r8 : Z
}.

Definition set_rcx (x : Z) (r : regs) : regs := Regs (rdi r) (rsi r) (rdx r) x (r8 r).

Section Dispatch.

Context (hhdm_offset pml4_address_virt_glob now : Z).
Context (addr_scheduler_return addr_disable_preemption addr_enable_preemption : Z).
Context (addr_root_dir addr_idle_thread addr_ft_ctx_mutex : Z) (exit_fuel : nat).
Context (lit : string -> Z) (addr : fn -> Z) (fuel : nat) (vfs_tmpfs tmpfs_root : Z) (dec : Z -> list Z).

(** ** The kernel half of the memory, and the caller's half seen through its page tables *)

Definition user_view (k : kst) : mem := fun a =>
  if 2 ^ 63 <=? a then kmem k a
  else match resolve hhdm_offset (kmem k) (space hhdm_offset k) a with Ok p => kmem k p | Err _ => 0 end.

(** The scheduler's state with memory as the running program sees it. *)
Definition viewed (k : kst) : sst := on_sm (set_mm (user_view k)) (ks k).

(** What kernel code that writes only kernel addresses has done. *)
Definition unviewed (s : sst) (k : kst) : kst :=
  set_ks (on_sm (set_mm (fun a => if 2 ^ 63 <=? a then mm (sm s) a else kmem k a)) s) k.

(** Reading a string faults on the first byte that is not mapped. *)
Fixpoint ustring (n : nat) (a : Z) (k : kst) : outcome unit :=
  match n with
  | O => Err OutOfFuel
  | S n' => c ← uread hhdm_offset 1 a k; if c =? 0 then Ok tt else ustring n' (wrap64 (a + 1)) k
  end.

(** ** The remaining entries *)

Definition syscall2 (k : kst) : outcome (Z * kst) := Ok (0, k).
Definition syscall3 (k : kst) : outcome (Z * kst) := Ok (0, k).
Definition syscall4 (k : kst) : outcome (Z * kst) := Ok (0, k).
Definition syscall5 (k : kst) : outcome (Z * kst) := Ok (0, k).
Definition syscall10 (k : kst) : outcome (Z * kst) := Ok (0, k).

(** The path is the caller's; everything else [vfs_fdopen] touches is the kernel's. *)
Definition syscall19 (path flags mode fd : Z) (k : kst) : outcome (Z * kst) :=
  _ ← (if scheduling_started (ks k) then ustring fuel path k else Ok tt);
  '(n, s) ← vfs_fdopen lit addr fuel vfs_tmpfs tmpfs_root dec path flags mode (viewed k);
  k ← uwrite hhdm_offset 4 fd n (unviewed s k);
  Ok (0, k).

(** ** The table *)

(** [syscall_array] has 20 entries: the functions 20 to 23 of syscalls.c are not in it. *)
Definition syscall_array : list (regs -> kst -> outcome (Z * kst)) :=
  [ fun _ => syscall0;
    fun _ => syscall1;
    fun _ => syscall2;
    fun _ => syscall3;
    fun _ => syscall4;
    fun _ => syscall5;
    fun _ => syscall6 hhdm_offset pml4_address_virt_glob now;
    fun r => syscall7 hhdm_offset (rsi r);
    fun r => syscall8 hhdm_offset (rsi r) (rdx r);
    fun _ => syscall9 hhdm_offset pml4_address_virt_glob addr_scheduler_return addr_disable_preemption
               addr_enable_preemption addr_root_dir addr_idle_thread exit_fuel;
    fun _ => syscall10;
    fun r => syscall11 hhdm_offset (rsi r) (wrap32 (rdx r));
    fun r => syscall12 (rsi r);
    fun r => syscall13 hhdm_offset (rsi r) (rdx r);
    fun r => syscall14 (rsi r);
    fun _ => syscall15 addr_ft_ctx_mutex;
    fun r => syscall16 hhdm_offset (rsi r);
    fun _ => syscall17 addr_ft_ctx_mutex;
    fun r => syscall18 (rsi r);
    fun r => syscall19 (rsi r) (wrap32 (rdx r)) (wrap32 (rcx r)) (r8 r) ].

(** [call [syscall_array + rdi * 8]], with no test of the number: past the table the call goes
    wherever the next words lead. *)
Definition call_entry (r : regs) (k : kst) : outcome (Z * kst) :=
  if rdi r <? 0 then Err BadCall
  else match syscall_array !! Z.to_nat (rdi r) with Some f => f r k | None => Err BadCall end.

(** A call that comes back: the result and the state the program goes on in.  [rip] is the
    address after the instruction. *)
Definition syscall_insn (rip : Z) (r : regs) (k : kst) : outcome (Z * kst) :=
  do_syscall (call_entry (set_rcx rip r)) k.

(** A call that switches to another thread or ends this one: the state that thread goes on in. *)
Definition syscall_away (rip : Z) (r : regs) (k : kst) : outcome kst :=
  let rsp := cpu_rsp (ks k) in
  k ← on_ks (modify_thread (get_current_thread (ks k)) (set_user_rsp rsp)) (cli k);
  t ← current k;
  '(_, k) ← call_entry (set_rcx rip r) (set_ks (set_cpu_rsp (wrap64 (stack_base t - 24 * 8)) (ks k)) k);
  Ok k.

(** ** The wrappers *)

Section User.
(** The return address of the [syscall] instruction of the wrapper, and of the one in
    [syscall_log], and registers that hold no argument. *)
Context (rip log_rip junk : Z).

Definition syscall_log (args_struct : Z) (k : kst) : outcome (Z * kst) := syscall_insn log_rip (Regs 15 args_struct junk junk junk) k.
Definition sys_libc_log (args_struct : Z) (k : kst) : outcome kst := '(_, k) ← syscall_log args_struct k; Ok k.

Definition syscall_yield (k : kst) : outcome kst := syscall_away rip (Regs 6 junk junk junk junk) k.
Definition syscall_user_thread_exit (k : kst) : outcome kst := syscall_away rip (Regs 9 junk junk junk junk) k.
Definition sys_exit (k : kst) : outcome kst := syscall_user_thread_exit k.

Definition sys_futex_wait (pointer expected : Z) (k : kst) : outcome (Z * kst) := syscall_insn rip (Regs 11 pointer expected junk junk) k.
Definition sys_futex_wake (pointer : Z) (k : kst) : outcome (Z * kst) := syscall_insn rip (Regs 12 pointer junk junk junk) k.

Definition sys_anon_allocate (args_struct size pointer : Z) (k : kst) : outcome (Z * kst) :=
  k ← sys_libc_log args_struct k; syscall_insn rip (Regs 13 size pointer junk junk) k.
Definition sys_anon_free (pointer : Z) (k : kst) : outcome (Z * kst) := syscall_insn rip (Regs 14 pointer junk junk junk) k.

(** It ends without a [return]. *)
Definition sys_vm_unmap (pointer size : Z) (k : kst) : outcome kst :=
  '(_, k) ← syscall_insn rip (Regs 8 pointer size junk junk) k; Ok k.

Definition sys_tcb_set (args_struct pointer : Z) (k : kst) : outcome (Z * kst) :=
  '(_, k) ← syscall_log args_struct k; syscall_insn rip (Regs 18 pointer junk junk junk) k.

(** [mode] goes into rcx. *)
Definition sys_open (args_struct pathname flags mode fd : Z) (k : kst) : outcome (Z * kst) :=
  '(_, k) ← syscall_log args_struct k; syscall_insn rip (Regs 19 pathname flags mode fd) k.

(** The file is looked up and nothing is read. *)
Definition sys_read (fd : Z) (k : kst) : outcome (Z * kst) :=
  '(_, s) ← vfs_int_fd_to_vfs_file dec fd (ks k); Ok (0, set_ks s k).

Definition sys_write (args_struct : Z) (k : kst) : outcome (Z * kst) := '(_, k) ← syscall_log args_struct k; Ok (0, k).
Definition sys_seek (k : kst) : outcome (Z * kst) := Ok (0, k).
Definition sys_close (k : kst) : outcome (Z * kst) := Ok (0, k).
Definition sys_isatty (k : kst) : outcome (Z * kst) := Ok (0, k).

Definition get_current_thread_syscall (thread : Z) (k : kst) : outcome (Z * kst) := syscall_insn rip (Regs 16 thread junk junk junk) k.

End User.

(** ** The open call *)

(** Memory after the kernel part, where it was written through a kernel address. *)
Lemma unviewed_upper s k a v x :
  2 ^ 63 <= x -> ~ (a <= x < a + 4) -> mm (sm (ks (set_kmem (store_le 4 (kmem (unviewed s k)) a v) (unviewed s k)))) x = mm (sm s) x.
Proof.
  intros Hx Ha. change (mm (sm (ks (set_kmem ?m _)))) with m. rewrite store_le_outside by (simpl; lia). cbn.
  destruct (Z.leb_spec (2 ^ 63) x) as [|Hlt]; [done|]. lia.
Qed.

(** Entry 19 takes the mode from rcx. *)
Lemma open_entry rip path flags mode fd k n s :
  scheduling_started (ks k) = true -> ustring fuel path k = Ok tt -> upper fd 4 ->
  vfs_fdopen lit addr fuel vfs_tmpfs tmpfs_root dec path (wrap32 flags) (wrap32 rip) (viewed k) = Ok (n, s) ->
  call_entry (set_rcx rip (Regs 19 path flags mode fd)) k = Ok (0, set_kmem (store_le 4 (kmem (unviewed s k)) fd n) (unviewed s k)).
Proof.
  intros Hst Hus Hfd Hopen. unfold call_entry, set_rcx. cbn [rdi rsi rdx rcx r8].
  change (syscall_array !! _) with (Some (fun r => syscall19 (rsi r) (wrap32 (rdx r)) (wrap32 (rcx r)) (r8 r))).
  cbn [rsi rdx rcx r8 Z.ltb Z.compare]. unfold syscall19. rewrite Hst, Hus. cbn [mbind outcome_bind]. rewrite Hopen. cbn [mbind outcome_bind].
  by rewrite uwrite_upper.
Qed.

(** In the state the handler starts in, the path leads to the entry [e]: the call gives the next number, and the
    record under that number has the flags of the caller, but for its mode the return
    address of the instruction, whatever [mode] was asked for. *)
Lemma open_call_mode rip path flags mode fd (k : kst) kk t t' ht l dir e :
  threads (ks k) !! running_thread (ks k) = Some t ->
  open_ready lit addr fuel tmpfs_root dec (viewed (entered k t)) kk t' ht path l dir ->
  walks fuel (sm (viewed (entered k t))) kk (components l) dir (Found e) -> components l <> [] ->
  ustring fuel path (entered k t) = Ok tt -> mem_ok (kmem k) ->
  upper fd 4 -> outside_heap (sm (ks k)) fd 4 ->
  exists k' file v s2, syscall_insn rip (Regs 19 path flags mode fd) k = Ok (0, k') /\ load32 (kmem k') fd = ht_length ht /\
    vfs_int_fd_to_vfs_file dec (ht_length ht) (ks k') = Ok (file, s2) /\
    file_at (mm (sm s2)) file v (wrap32 flags) (wrap32 rip).
Proof.
  intros Ht Hr Hw Hcs Hus Hok Hfd Hout. set (k0 := entered k t) in *.
  destruct (fdopen_found lit addr fuel vfs_tmpfs tmpfs_root dec (viewed k0) kk t' ht path l dir (wrap32 flags) (wrap32 rip) e Hr Hw)
    as (s' & v & file & k' & Hopen & Hop).
  set (k1 := set_kmem (store_le 4 (kmem (unviewed s' k0)) fd (ht_length ht)) (unviewed s' k0)).
  pose proof (open_entry rip path flags mode fd k0 _ _ (or_started _ _ _ _ _ _ _ _ _ _ _ _ Hr) Hus Hfd Hopen) as Hcall. fold k1 in Hcall.
  pose proof (do_syscall_ok _ _ _ _ _ Ht Hcall) as Hs. fold (syscall_insn rip (Regs 19 path flags mode fd) k) in Hs.
  pose proof (pr_k _ _ _ _ _ _ _ _ _ (or_path _ _ _ _ _ _ _ _ _ _ _ _ Hr)) as Hkk. pose proof (or_fds _ _ _ _ _ _ _ _ _ _ _ _ Hr) as Hfds.
  destruct Hop as [O1 O2 O3 O4 O5 (ht' & O6 & O7 & O8 & O9) O10 [O11 O11'] _ _ _].
  assert (forall x, HEAP_START_VIRT_DEFINED <= x < node_addr k' -> kmem k1 x = mm (sm s') x) as Hheap.
  { intros x Hx. apply (unviewed_upper s' k0 fd); [unfold HEAP_START_VIRT_DEFINED in *; lia|].
    unfold outside_heap, apart, node_addr in *. change (heap_page_head (sm (viewed k0))) with (heap_page_head (sm (ks k))) in *. lia. }
  assert (keys_same (mm (sm s')) (kmem k1) ht') as Hks.
  { intros i e' Hi Ho. destruct (O8 i e' Hi Ho) as [H1 H2]. apply bytes_at_ext. intros x Hx. apply Hheap. lia. }
  assert (HEAP_START_VIRT_DEFINED <= node_addr kk) as Hkh by (unfold node_addr; lia).
  destruct (int_fd_bound dec (ks (resumed k k1)) k' t' ht' (ht_length ht) file) as (s2 & E & _ & _ & _ & _ & _ & Hfr).
  - exact O5.
  - exact O6.
  - by apply (arena_same_heap (sm s')).
  - change (mem_ok (kmem k1)). unfold k1. apply store_le_ok. intros x. cbn. destruct (2 ^ 63 <=? x); [apply O2|apply Hok].
  - lia.
  - change (heap_page_head (sm (ks (resumed k k1)))) with (heap_page_head (sm s')). lia.
  - change (oa_inv (kmem k1) ht'). by eapply oa_inv_keys.
  - done.
  - apply Hfds.
  - change (binds (kmem k1) ht' (dec (ht_length ht)) file). by apply (binds_keys (mm (sm s'))).
  - unfold HEAP_START_VIRT_DEFINED, NULL in *. lia.
  - exists (resumed k k1), file, v, s2. split_and!; [done| |done|].
    + change (kmem (resumed k k1)) with (store_le 4 (kmem (unviewed s' k0)) fd (ht_length ht)). rewrite (load_store_le_eq 4).
      apply Z.mod_small. pose proof (ft_small _ _ _ _ Hfds). simpl. lia.
    + apply (file_at_keep (mm (sm s'))); [|done]. intros x Hx. unfold SIZEOF_FILE in Hx. rewrite Hfr by lia. apply Hheap. lia.
Qed.

End Dispatch.
