(* ===== verification/Start.v ===== *)
(** * Starting the kernel

    The rest of [kmain] (K/main.c) after the memory test: SSE, the interrupt controllers
    and the clocks, the futex queues, the system calls, and [init_vfs] (K/vfs.c), which builds
    the root file system, looks for the archive among the loader's modules and enters the first
    thread; [initial_thread] (K/vfs.c), which starts the program of the archive. *)

From Stdlib Require Import String.
From S2P Require Import Prelude Memory Machine Frames Heap Paging OaHash Mutex Scheduler Strings Tmpfs Vfs Kutils Loader Threads Syscalls.
From S2P Require Import Devices Boot.

Local Open Scope list_scope.

(** ** State *)

(** The kernel's state, the devices, the control registers, the counter of process numbers with
    its mutex, and the globals [vfs_tmpfs], [tmpfs_root] and [tarball_ptr]. *)
Record bst : Type := Bst {
  bk : kst;
  bd : dev;
  cr0 : Z;
  cr4 : Z;
  pids : Z * mutex_t;
  g_vfs_tmpfs : Z;
  g_tmpfs_root : Z;
  tarball_ptr : Z
}.

Definition set_bk (k : kst) (b : bst) : bst :=
  Bst k (bd b) (cr0 b) (cr4 b) (pids b) (g_vfs_tmpfs b) (g_tmpfs_root b) (tarball_ptr b).
Definition set_bd (d : dev) (b : bst) : bst :=
  Bst (bk b) d (cr0 b) (cr4 b) (pids b) (g_vfs_tmpfs b) (g_tmpfs_root b) (tarball_ptr b).
Definition bm (b : bst) : mst := sm (ks (bk b)).
Definition set_bm (m : mst) (b : bst) : bst := set_bk (set_ks (set_sm m (ks (bk b))) (bk b)) b.
Definition set_bs (s : sst) (b : bst) : bst := set_bk (set_ks s (bk b)) b.

(** One module of the loader: the addresses of its path and of its contents. *)
Record limine_file : Type := Module {
  m_path : Z;
  m_address : Z
}.

Section Start.
Context (hhdm_offset pml4_address_virt_glob now : Z).
Context (addr_scheduler_return addr_disable_preemption addr_enable_preemption : Z).
Context (addr_userspace_run_elf addr_root_dir addr_initial_thread : Z).
Context (addr_syscall_handler addr_test_a addr_test_b addr_syscall_test : Z).
Context (lit : string -> Z) (addr : fn -> Z) (fuel depth : nat).
(** The answers of the devices, and the interrupts during [kpass]. *)
Context (hw : list access -> access -> Z) (early : bool) (irqs : nat -> bool).
(** [uacpi_init]: the addresses of the local APIC and of the HPET the uACPI library finds, and
    what its callbacks have done to the page tables; [Kernel] passes the one of [UacpiTables]. *)
Context (uacpi_init : pst -> outcome (Z * Z * pst)).

(** ** Processor and devices *)

(** [(cr0 & ~(1 << 2)) | (1 << 1)] and [cr4 | (3 << 9)] *)
Definition enable_sse (b : bst) : bst :=
  Bst (bk b) (bd b) (Z.lor (Z.land (cr0 b) (wrap64 (-5))) 2) (Z.lor (cr4 b) (Z.shiftl 3 9)) (pids b) (g_vfs_tmpfs b) (g_tmpfs_root b)
    (tarball_ptr b).

(** [init_bsp_lapic] after [uacpi_init], and [tsc_init]. *)
Definition start_devices (b : bst) : outcome bst :=
  let d := pic_disable (bd b) in
  '(lapic_addr, d, s) ← with_pst (fun p =>
      '(lapic_addr, hpet_address, p) ← uacpi_init p;
      '(p, d) ← init_bsp_lapic hw hhdm_offset lapic_addr hpet_address pml4_address_virt_glob p d;
      Ok (lapic_addr, d, p)) (ks (bk b));
  d ← tsc_init hw lapic_addr fuel early irqs d;
  Ok (set_bd d (set_bs s b)).

(** ** init_vfs *)

Definition call_create (vfs_tmpfs f vnode name size : Z) (s : mst) : outcome (Z * mst) :=
  if f =? addr VNODE_TMPFS_CREATE_FILE then vnode_tmpfs_create_file addr fuel vfs_tmpfs vnode name size s else Err BadCall.

(** The root file system with the file hi.txt; the results are [vfs_tmpfs] and [tmpfs_root]. *)
Definition init_root (s : mst) : outcome (Z * Z * mst) :=
  '(tmpfs, s) ← init_tmpfs lit addr fuel depth s;
  root ← deref64 (mm s) tmpfs VFS_COVERED;
  f ← vnode_op (mm s) root OP_CREATE;
  '(_, s) ← call_create tmpfs f root (lit "hi.txt") 4096 s;
  f ← vnode_op (mm s) root OP_LOOKUP;
  '(_, s) ← call_lookup addr fuel tmpfs f root (lit "hi.txt") s;
  Ok (tmpfs, root, s).

(** The loop over the modules: the contents of the first one with the path. *)
Fixpoint find_tarball (m : mem) (modules : list limine_file) : outcome (option Z) :=
  match modules with
  | [] => Ok None
  | f :: rest =>
      c ← strcmp fuel m (m_path f) (lit "/boot/tmpfs.tar");
      if c =? 0 then Ok (Some (m_address f)) else find_tarball m rest
  end.

(** [hot_create_and_push_thread(get_new_pid(), initial_thread); while (1) reschedule();]: the first
    call of [reschedule] enters the new thread and does not come back. *)
Definition enter_initial (tarball : Z) (b : bst) : outcome bst :=
  '(pid, ps) ← get_new_pid (pids b);
  s ← hot_create_and_push_thread hhdm_offset pml4_address_virt_glob addr_scheduler_return addr_disable_preemption addr_enable_preemption
        addr_root_dir pid addr_initial_thread (ks (bk b));
  s ← reschedule hhdm_offset pml4_address_virt_glob now s;
  Ok (Bst (set_ks s (bk b)) (bd b) (cr0 b) (cr4 b) ps (g_vfs_tmpfs b) (g_tmpfs_root b) tarball).

(** Whether the first thread has been entered; without the archive [init_vfs] returns. *)
Definition init_vfs (modules : list limine_file) (b : bst) : outcome (bool * bst) :=
  '(tmpfs, root, m) ← init_root (bm b);
  let b := set_bm m b in
  let b := Bst (bk b) (bd b) (cr0 b) (cr4 b) (pids b) tmpfs root (tarball_ptr b) in
  r ← find_tarball (mm m) modules;
  match r with
  | Some tarball => b ← enter_initial tarball b; Ok (true, b)
  | None => Ok (false, b)
  end.

(** ** kmain *)

(** [init_futex(); init_syscalls();] *)
Definition start_calls (b : bst) : outcome bst :=
  f ← init_futex (bm b);
  let k := Kst (set_sm (fm f) (ks (bk b))) (global_futex_array f) (global_futex_array_size f) (msr (bk b)) in
  k ← init_syscalls hhdm_offset pml4_address_virt_glob addr_syscall_handler addr_test_a addr_test_b addr_syscall_test k;
  Ok (set_bk k b).

(** The allocations after [init_vfs], when there is no archive; then [hcf]. *)
Definition kmain_end (s : mst) : outcome mst :=
  '(_, s) ← kmalloc_byte 16000 s;
  '(c, s) ← kmalloc_byte 128 s;
  '(_, s) ← kmalloc_byte 16000 s;
  '(_, s) ← kmalloc_byte 15483 s;
  s ← kfree c s;
  '(_, s) ← kmalloc_byte 12349 s;
  Ok s.

(** [kmain] from the end of [test_memory] on. *)
Definition kmain_start (modules : list limine_file) (b : bst) : outcome (bool * bst) :=
  b ← start_devices (enable_sse b);
  '(_, _, _, m) ← heap_trial (bm b);
  b ← start_calls (set_bm m b);
  '(entered, b) ← init_vfs modules b;
  if (entered : bool) then Ok (true, b) else m ← kmain_end (bm b); Ok (false, set_bm m b).

(** ** initial_thread *)

(** Up to its endless loop of [reschedule]; without the file in the archive the pointer to its data is
    not initialised ([junk]). *)
Definition initial_thread (tarball junk : Z) (s : sst) : outcome sst :=
  '(_, out) ← tar_lookup_bin fuel fuel (mm (sm s)) tarball (lit "test");
  hot_exec_elf hhdm_offset pml4_address_virt_glob addr_scheduler_return addr_disable_preemption addr_enable_preemption
    addr_userspace_run_elf addr_root_dir 480 (default junk out) s.

End Start.
