(* ===== verification/Preserve.v ===== *)
(** * What no operation of the kernel changes: the machine below the system calls

    A postcondition on [outcome]s ([post]) with a rule for each construct of the models, and
    the well-formedness of the machine ([machine_ok]): memory holds bytes, the heap keeps
    its nodes and its blocks stay apart, the frame map keeps its regions.  Every
    operation on the heap, the frames, the page tables, the strings and the files
    preserves it, whatever its arguments are; the proofs follow the code with
    the tactic [keeps]. *)

From Stdlib Require Import String.
From S2P Require Import Prelude Memory Machine Frames Heap Paging OaHash Mutex Scheduler Strings Tmpfs Vfs Loader.

Local Open Scope list_scope.

(** ** Postconditions *)

Definition post {A : Type} (Q : A -> Prop) (o : outcome A) : Prop :=
  match o with Ok a => Q a | Err _ => True end.

Lemma post_ok {A} (Q : A -> Prop) a o : post Q o -> o = Ok a -> Q a.
Proof. by intros H ->. Qed.

Lemma post_weaken {A} (P Q : A -> Prop) o : (forall a, P a -> Q a) -> post P o -> post Q o.
Proof. destruct o; cbn; auto. Qed.

Lemma post_bind {A B} (P : A -> Prop) (Q : B -> Prop) (m : outcome A) (f : A -> outcome B) :
  post P m -> (forall a, P a -> post Q (f a)) -> post Q (m ≫= f).
Proof. destruct m; cbn; auto. Qed.

Lemma post_loop_from {S} (P : S -> Prop) (f : Z -> S -> outcome S) n :
  (forall i s, P s -> post P (f i s)) -> forall i s, P s -> post P (loop_from n i f s).
Proof.
  intros Hf. induction n as [|n IH]; intros i s Hs; cbn [loop_from]; [done|].
  apply (post_bind P); [by apply Hf|]. intros a Ha. by apply IH.
Qed.

Lemma post_loop {S} (P : S -> Prop) (f : Z -> S -> outcome S) n s :
  (forall i s, P s -> post P (f i s)) -> P s -> post P (loop n f s).
Proof. intros Hf Hs. by apply post_loop_from. Qed.

(** What is asked of a value, by its type: nothing, unless it holds state. *)
Class Kept (A : Type) : Type := kept : A -> Prop.

#[export] Instance kept_any (A : Type) : Kept A | 100 := fun _ => True.
#[export] Instance kept_pair {A B : Type} `{Kept A, Kept B} : Kept (A * B) := fun p => kept p.1 /\ kept p.2.
#[export] Instance kept_mem : Kept mem := mem_ok.

Lemma kept_pair_intro {A B} `{Kept A, Kept B} (a : A) (b : B) : kept a -> kept b -> kept (a, b).
Proof. by split. Qed.

Lemma kept_bind {A B} `{Kept A, Kept B} (m : outcome A) (f : A -> outcome B) :
  post kept m -> (forall a, kept a -> post kept (f a)) -> post kept (m ≫= f).
Proof. apply post_bind. Qed.

(** A value that holds no state. *)
Lemma kept_value {A} (o : outcome A) : post (@kept A (kept_any A)) o.
Proof. by destruct o. Qed.

Lemma kept_value2 {A B} (o : outcome (A * B)) : post (@kept _ (@kept_pair A B (kept_any A) (kept_any B))) o.
Proof. by destruct o. Qed.

(** Every store leaves bytes. *)
Lemma store8_kept m a v : kept m -> kept (store8 m a v).
Proof. apply store8_ok. Qed.
Lemma store_le_kept n m a v : kept m -> kept (store_le n m a v).
Proof. apply store_le_ok. Qed.
Lemma store32_kept m a v : kept m -> kept (store32 m a v).
Proof. apply store32_ok. Qed.
Lemma store64_kept m a v : kept m -> kept (store64 m a v).
Proof. apply store64_ok. Qed.
Lemma memset_kept m a c n : kept m -> kept (memset m a c n).
Proof. apply memset_ok. Qed.
Lemma memcpy_kept m d s n : kept m -> kept (memcpy m d s n).
Proof. apply memcpy_loop_ok. Qed.
Lemma put_bytes_kept m a l : kept m -> kept (put_bytes m a l).
Proof. apply put_bytes_ok. Qed.

Create HintDb kept discriminated.
#[export] Hint Constants Opaque : kept.
#[export] Hint Resolve store8_kept store_le_kept store32_kept store64_kept memset_kept memcpy_kept put_bytes_kept : kept.
#[export] Hint Extern 1 (0 <= wrap64 _) => apply wrap64_range : kept.
#[export] Hint Extern 2 (0 <= _) => first [lia | discriminate] : kept.

(** Follows the construct at the head of the goal, and closes it with the lemmas about the
    functions called. *)
Ltac keeps_step :=
  match goal with
  | |- post _ (Ok _) => cbn [post]
  | |- post _ (Err _) => exact I
  | |- post (@kept _ (kept_any _)) _ => apply kept_value
  | |- post (@kept _ (@kept_pair _ _ (kept_any _) (kept_any _))) _ => apply kept_value2
  | |- post _ (mbind _ _) => eapply kept_bind; [|let x := fresh "x" in let H := fresh "Hx" in intros x H]
  | |- post _ (loop _ _ _) => apply (post_loop kept); [intros ? ? ?|]
  | |- post _ (let '(_, _) := ?x in _) => destruct x
  | |- post _ (match ?x with _ => _ end) => destruct x
  | |- @kept _ (kept_any _) _ => exact I
  | |- kept (_, _) => apply kept_pair_intro
  | |- kept (if ?b then _ else _) => destruct b
  | |- kept (match ?x with _ => _ end) => destruct x
  | H : kept (_, _) |- _ => destruct H as [? ?]; cbn [fst snd] in *
  | x : (_ * _)%type |- _ => destruct x
  end.
Ltac keeps := repeat (first [solve [eauto 20 with kept] | keeps_step]).

(** ** The machine *)

Section Machine.
(** The regions of the frame map and the number of nodes of the heap, fixed at boot. *)
Context (regions : list region) (nodes : nat).

Record machine_ok (s : mst) : Prop := {
  mo_bytes : mem_ok (mm s);
  mo_heap : heap_inv (heap_page_head s);
  mo_nodes : length (heap_page_head s) = nodes;
  mo_regions : Forall2 same_shape regions (memmap_arr s)
}.

#[local] Instance kept_mst : Kept mst := machine_ok.

Lemma machine_ok_set_mm m s : kept s -> kept m -> kept (set_mm m s).
Proof. intros [] ?. by split. Qed.

Lemma machine_ok_set_iflag b s : kept s -> kept (set_iflag b s).
Proof. intros []. by split. Qed.

Lemma machine_ok_irq b s : kept s -> kept (irq_restore b s).
Proof. destruct b; [apply machine_ok_set_iflag|done]. Qed.

Lemma machine_ok_mem s : kept s -> kept (mm s).
Proof. by intros []. Qed.

#[local] Hint Resolve machine_ok_set_mm machine_ok_set_iflag machine_ok_irq machine_ok_mem : kept.

(** ** The heap *)

Lemma kmalloc_kept sz s : 0 <= sz -> kept s -> post kept (kmalloc sz s).
Proof.
  intros Hsz [H1 H2 H3 H4]. destruct (kmalloc_cases sz s Hsz) as (a & s' & E & Hm & Hr & _ & Hc). rewrite E. split; [done|].
  split; cbn [snd]; rewrite ?Hm, ?Hr; [done|by eapply kmalloc_inv| |done].
  destruct Hc as [[_ ->]|(_ & p & _ & _ & _ & [Hl _])]; [done|]. by rewrite Hl.
Qed.

Lemma kmalloc_byte_kept sz s : 0 <= sz -> kept s -> post kept (kmalloc_byte sz s).
Proof.
  intros Hsz Hs. unfold kmalloc_byte. cbn [irq_disable_save]. rewrite irq_bracket. change (post kept (kmalloc_byte_interruptable sz s)).
  rewrite chunks_kmalloc. apply kmalloc_kept; [by apply chunks_nonneg|done].
Qed.

Lemma kmalloc_byte_interruptable_kept sz s : 0 <= sz -> kept s -> post kept (kmalloc_byte_interruptable sz s).
Proof. intros Hsz Hs. rewrite chunks_kmalloc. apply kmalloc_kept; [by apply chunks_nonneg|done]. Qed.

Lemma kfree_kept a s : kept s -> post kept (kfree a s).
Proof.
  intros [H1 H2 H3 H4]. destruct (kfree a s) as [s'|] eqn:E; [|done].
  pose proof (kfree_inv a s s' E H2) as Hi. destruct (heap_page_head s !! kfree_pos (heap_index a)) as [n|] eqn:Hn.
  - destruct (kfree_cases a s n H2 Hn) as (s0 & E0 & Hm & Hr & _ & [Hl _]). rewrite E in E0. injection E0 as ->.
    split; rewrite ?Hm, ?Hr, ?Hl; done.
  - unfold kfree in E. cbn [irq_disable_save] in E. change (heap_page_head (set_iflag false s)) with (heap_page_head s) in E. by rewrite Hn in E.
Qed.

Lemma kfree_interruptable_kept a s : kept s -> post kept (kfree_interruptable a s).
Proof. apply kfree_kept. Qed.

#[local] Hint Resolve kmalloc_kept kmalloc_byte_kept kmalloc_byte_interruptable_kept kfree_kept kfree_interruptable_kept : kept.

Lemma krealloc_byte_kept a sz s : 0 <= sz -> kept s -> post kept (krealloc_byte a sz s).
Proof. intros Hsz Hs. unfold krealloc_byte. cbn [irq_disable_save]. keeps.
Qed.

#[local] Hint Resolve krealloc_byte_kept : kept.

(** ** Frames *)

Lemma alloc_regions_shape rs : post (fun o => match o with Some (rs', _, _) => Forall2 same_shape rs rs' | None => True end) (alloc_regions rs).
Proof.
  induction rs as [|r rs IH]; cbn [alloc_regions]; [done|].
  destruct (scan_bitmap _ _ _) as [[i|]|]; cbn; [constructor; [done|apply same_shapes_refl]| |done].
  destruct (alloc_regions rs) as [[[[rs' i] a]|]|]; cbn in *; [by constructor|done|done].
Qed.

#[local] Instance same_shape_transitive : Transitive same_shape.
Proof. unfold same_shape. intros x y z. intuition congruence. Qed.

Lemma same_shape_trans a b c : Forall2 same_shape a b -> Forall2 same_shape b c -> Forall2 same_shape a c.
Proof. apply transitivity. Qed.

Lemma alloc_frame_kept hhdm s : kept s -> post kept (alloc_frame hhdm s).
Proof.
  intros [H1 H2 H3 H4]. unfold alloc_frame. pose proof (alloc_regions_shape (memmap_arr s)) as Hsh.
  destruct (alloc_regions (memmap_arr s)) as [[[[rs i] a]|]|]; cbn in *; [|by split|done]. split; [done|].
  split; cbn; [by apply memset_ok|done|done|by eapply same_shape_trans].
Qed.

Lemma free_regions_shape rs a : post (Forall2 same_shape rs) (free_regions rs a).
Proof.
  induction rs as [|r rs IH]; cbn [free_regions]; [constructor|].
  destruct rs as [|r' rs].
  - destruct (negb _); cbn; [done|]. constructor; [done|constructor].
  - destruct (_ && _).
    + destruct (negb _); [done|]. destruct (_ =? 0); [done|]. constructor; [done|apply same_shapes_refl].
    + destruct (_ <? a); [|done]. eapply post_bind; [exact IH|]. intros rs'' H. by constructor.
Qed.

Lemma free_frame_kept a s : kept s -> post kept (free_frame a s).
Proof.
  intros Hs. unfold free_frame. cbn [irq_disable_save]. destruct (negb _); [done|]. eapply post_bind; [apply free_regions_shape|].
  intros rs Hrs. cbn. apply machine_ok_irq. destruct Hs as [H1 H2 H3 H4]. split; cbn; [done|done|done|by eapply same_shape_trans].
Qed.

#[local] Hint Resolve alloc_frame_kept free_frame_kept : kept.

(** ** Page tables *)

#[local] Instance kept_pst : Kept pst := fun p => kept (ms p).

Lemma kept_pst_intro s c : kept s -> kept (Pst s c).
Proof. done. Qed.

Lemma kept_ms p : kept p -> kept (ms p).
Proof. done. Qed.

#[local] Hint Resolve kept_pst_intro kept_ms : kept.

Section Tables.
Context (hhdm : Z).

Lemma level_step_kept t i p s : kept s -> post kept (level_step hhdm t i p s).
Proof. intros Hs. unfold level_step. keeps. Qed.

#[local] Hint Resolve level_step_kept : kept.

Lemma map_tables_kept t a v p s : kept s -> post kept (map_tables hhdm t a v p s).
Proof. intros Hs. unfold map_tables. keeps. Qed.

Lemma clear_slots_kept n : forall i m arr, kept m -> kept (clear_slots n i m arr).
Proof. induction n as [|n IH]; intros i m arr Hm; cbn [clear_slots]; [done|]. apply IH. auto with kept. Qed.

#[local] Hint Resolve map_tables_kept clear_slots_kept : kept.

Lemma record_mapping_kept v t s : kept s -> post kept (record_mapping v t s).
Proof.
  intros Hs. unfold record_mapping. destruct (find_unused _ _ _ _); keeps.
Qed.

#[local] Hint Resolve record_mapping_kept : kept.

Lemma map_page_kept t a v perm p : kept p -> post kept (map_page hhdm t a v perm p).
Proof. intros Hp. unfold map_page. cbn [irq_disable_save]. keeps. Qed.

#[local] Hint Resolve map_page_kept : kept.

Lemma set_flag_kept r f p : kept p -> kept (set_flag r f p).
Proof. intros Hp. unfold set_flag. keeps. Qed.

#[local] Hint Resolve set_flag_kept : kept.

Lemma map_fresh_kept t v perm f p : kept p -> post kept (map_fresh hhdm t v perm f p).
Proof. intros Hp. unfold map_fresh. keeps. Qed.

#[local] Hint Resolve map_fresh_kept : kept.

Lemma map_range_kept t v perm n f p : kept p -> post kept (map_range hhdm t v perm n f p).
Proof. intros Hp. unfold map_range. keeps. Qed.

Lemma unmap_page_kept t v p : kept p -> kept (unmap_page hhdm t v p).
Proof.
  intros Hp. unfold unmap_page, forget_mapping. cbn [irq_disable_save]. destruct (cur p) as [t0|]; [destruct (find_mapping _ _ _ _ _)|]; keeps.
Qed.

Lemma change_page_map_kept t v perm s : kept s -> kept (change_page_map hhdm t v perm s).
Proof. intros Hs. unfold change_page_map, or_entry. cbn [irq_disable_save]. auto 14 with kept. Qed.

#[local] Hint Resolve unmap_page_kept change_page_map_kept : kept.

Lemma change_page_map_range_kept t v n perm s : kept s -> post kept (change_page_map_range hhdm t v n perm s).
Proof. intros Hs. unfold change_page_map_range. keeps. Qed.

Lemma copy_entries_kept n : forall i m d s, kept m -> kept (copy_entries n i m d s).
Proof. induction n as [|n IH]; intros i m d s Hm; cbn [copy_entries]; auto with kept. Qed.

Lemma zero_entries_kept n : forall i m d, kept m -> kept (zero_entries n i m d).
Proof. induction n as [|n IH]; intros i m d Hm; cbn [zero_entries]; auto with kept. Qed.

#[local] Hint Resolve copy_entries_kept zero_entries_kept : kept.

Lemma create_new_userspace_page_table_kept g s : kept s -> post kept (create_new_userspace_page_table hhdm g s).
Proof. intros Hs. unfold create_new_userspace_page_table. keeps. Qed.

(** ** The address space of a program *)

Lemma vmemset_kept sp a c n m : kept m -> post kept (vmemset hhdm sp a c n m).
Proof. intros Hm. unfold vmemset. keeps. Qed.

Lemma vmemcpy_kept sp d a n m : kept m -> post kept (vmemcpy hhdm sp d a n m).
Proof. intros Hm. unfold vmemcpy. keeps. Qed.

Lemma for_phdrs_kept {S} `{Kept S} (get : S -> mem) body sp data :
  (forall ph s, kept s -> post kept (body ph s)) -> forall n i s, kept s -> post kept (for_phdrs hhdm n get body sp data i s).
Proof.
  intros Hb. induction n as [|n IH]; intros i s Hs; cbn [for_phdrs]; [done|].
  apply (post_bind (fun _ => True)); [by destruct (read_ehdr _ _ _ _)|]. intros h _. destruct (_ <? _); [|done].
  apply (kept_bind _ _ (Hb _ _ Hs)). intros s' Hs'. by apply IH.
Qed.

Lemma unload_page_kept c v p : kept p -> post kept (unload_page hhdm c v p).
Proof. intros Hp. unfold unload_page. keeps. Qed.

#[local] Hint Resolve unload_page_kept : kept.

Lemma unload_segment_kept sp c ph p : kept p -> post kept (unload_segment hhdm sp c ph p).
Proof. intros Hp. unfold unload_segment. keeps. Qed.

Lemma unload_elf_kept sp data c p : kept p -> post kept (unload_elf hhdm sp data c p).
Proof. apply for_phdrs_kept. intros ph q. apply unload_segment_kept. Qed.

Lemma on_pmem_kept f p : (forall m, kept m -> post kept (f m)) -> kept p -> post kept (on_pmem f p).
Proof. intros Hf Hp. unfold on_pmem. eapply kept_bind; [by apply Hf, machine_ok_mem, Hp|]. intros m Hm. keeps. Qed.

#[local] Hint Resolve map_range_kept on_pmem_kept vmemset_kept vmemcpy_kept : kept.

Lemma fill_segment_kept sp data ph p : kept p -> post kept (fill_segment hhdm sp data ph p).
Proof. intros Hp. unfold fill_segment. keeps. Qed.

#[local] Hint Resolve fill_segment_kept : kept.

Lemma load_segment_kept sp data c ph p : kept p -> post kept (load_segment hhdm sp data c ph p).
Proof. intros Hp. unfold load_segment. keeps. Qed.

Lemma load_elf_kept sp data c p : kept p -> post kept (load_elf hhdm sp data c p).
Proof.
  intros Hp. unfold load_elf. eapply kept_bind; [apply for_phdrs_kept; [|done]; intros ph q; apply load_segment_kept|].
  intros q Hq. keeps.
Qed.

End Tables.

#[local] Hint Resolve map_range_kept unmap_page_kept change_page_map_kept change_page_map_range_kept create_new_userspace_page_table_kept
  vmemset_kept vmemcpy_kept unload_elf_kept : kept.

(** ** Mutexes and futexes *)

Lemma acquire_mutex_at_kept a s : kept s -> post kept (acquire_mutex_at a s).
Proof. intros Hs. unfold acquire_mutex_at. keeps. Qed.

Lemma release_mutex_at_kept a s : kept s -> post kept (release_mutex_at a s).
Proof. intros Hs. unfold release_mutex_at. keeps. Qed.

Lemma assign64_kept m p off v : kept m -> post kept (assign64 m p off v).
Proof. intros Hm. unfold assign64. keeps. Qed.

#[local] Hint Resolve acquire_mutex_at_kept release_mutex_at_kept assign64_kept : kept.

#[local] Instance kept_futex : Kept futex_state := fun f => kept (fm f).

Lemma kept_futex_intro s a n : kept s -> kept (Futex s a n).
Proof. done. Qed.

Lemma kept_fm f : kept f -> kept (fm f).
Proof. done. Qed.

#[local] Hint Resolve kept_futex_intro kept_fm : kept.

Lemma futex_find_kept p f : kept f -> post kept (futex_find p f).
Proof. intros Hf. unfold futex_find. keeps. Qed.

Lemma futex_new_kept p f : kept f -> post kept (futex_new p f).
Proof. intros Hf. unfold futex_new. keeps. Qed.

#[local] Hint Resolve futex_find_kept futex_new_kept : kept.

Lemma futex_enqueue_kept p t f : kept f -> post kept (futex_enqueue p t f).
Proof. intros Hf. unfold futex_enqueue. cbn [irq_disable_save]. keeps. Qed.

(** ** Strings *)

Lemma strncpy_words_kept n : forall m d s c, kept m -> post kept (strncpy_words n m d s c).
Proof. induction n as [|n IH]; intros m d s c Hm; cbn [strncpy_words]; keeps. Qed.

Lemma strncpy_bytes_kept n : forall m d s, kept m -> kept (strncpy_bytes n m d s).
Proof. induction n as [|n IH]; intros m d s Hm; cbn [strncpy_bytes]; keeps. Qed.

#[local] Hint Resolve strncpy_words_kept : kept.

Lemma strncpy_kept n m d s c : kept m -> post kept (strncpy n m d s c).
Proof.
  intros Hm. unfold strncpy. apply kept_bind; [keeps|]. intros [[[m1 d1] s1] c1] [[[H1 _] _] _]. cbn [fst snd] in H1.
  pose proof (strncpy_bytes_kept (Z.to_nat c1) m1 d1 s1 H1) as H2. destruct (strncpy_bytes _ _ _ _) as [[m2 d2] c2].
  destruct H2 as [[H2 _] _]. by apply memset_kept.
Qed.

Lemma strcat_kept n m d s : kept m -> post kept (strcat n m d s).
Proof. intros Hm. unfold strcat, strcpy. keeps. Qed.

Lemma tok_scan_kept n : forall m d s, kept m -> post kept (tok_scan n m d s).
Proof. induction n as [|n IH]; intros m d s Hm; cbn [tok_scan]; keeps. Qed.

#[local] Hint Resolve strncpy_kept strcat_kept tok_scan_kept : kept.

Lemma strtok_r_kept n m s d l : kept m -> post kept (strtok_r n m s d l).
Proof. intros Hm. unfold strtok_r. keeps. Qed.

#[local] Hint Resolve strtok_r_kept : kept.

(** ** Files *)

Section Files.
Context (lit : string -> Z) (addr : fn -> Z) (fuel : nat) (vfs_tmpfs tmpfs_root : Z) (dec : Z -> list Z).

Lemma store16_kept m a v : kept m -> kept (store16 m a v).
Proof. apply store16_ok. Qed.

Lemma clear_files_kept n i m f : kept m -> kept (clear_files n i m f).
Proof. apply clear_files_ok. Qed.

#[local] Hint Resolve store16_kept clear_files_kept : kept.

Lemma new_header_kept p t s : kept s -> post kept (new_header p t s).
Proof. intros Hs. unfold new_header. keeps. Qed.

Lemma stamp_and_name_kept p n s : kept s -> post kept (stamp_and_name fuel p n s).
Proof. intros Hs. unfold stamp_and_name. keeps. Qed.

Lemma grow_dir_kept d s : kept s -> post kept (grow_dir d s).
Proof. intros Hs. unfold grow_dir. keeps. Qed.

Lemma put_entry_kept d i p s : kept s -> post kept (put_entry d i p s).
Proof. intros Hs. unfold put_entry. keeps. Qed.

#[local] Hint Resolve new_header_kept stamp_and_name_kept grow_dir_kept put_entry_kept : kept.

Lemma close_entry_kept d s : kept s -> post kept (close_entry d s).
Proof. intros Hs. unfold close_entry. keeps. Qed.

Lemma build_file_kept n sz s : kept s -> post kept (build_file fuel n sz s).
Proof. intros Hs. unfold build_file. keeps. Qed.

Lemma build_directory_kept d n s : kept s -> post kept (build_directory fuel d n s).
Proof. intros Hs. unfold build_directory. keeps. Qed.

#[local] Hint Resolve close_entry_kept build_file_kept build_directory_kept : kept.

Lemma tmpfs_create_file_kept d n sz s : 0 <= sz -> kept s -> post kept (tmpfs_create_file fuel d n sz s).
Proof. intros Hsz Hs. unfold tmpfs_create_file. cbn [irq_disable_save]. keeps. Qed.

Lemma tmpfs_create_directory_kept d n s : kept s -> post kept (tmpfs_create_directory fuel d n s).
Proof. intros Hs. unfold tmpfs_create_directory. cbn [irq_disable_save]. keeps. Qed.

Lemma drop_entry_kept d i s : kept s -> post kept (drop_entry d i s).
Proof. intros Hs. unfold drop_entry. keeps. Qed.

Lemma free_file_kept e s : kept s -> post kept (free_file e s).
Proof. intros Hs. unfold free_file. keeps. Qed.

#[local] Hint Resolve drop_entry_kept free_file_kept : kept.

Lemma tmpfs_delete_file_kept d n s : kept s -> post kept (tmpfs_delete_file fuel d n s).
Proof. intros Hs. unfold tmpfs_delete_file. keeps. Qed.

Lemma tmpfs_delete_directory_kept d n s : kept s -> post kept (tmpfs_delete_directory fuel d n s).
Proof. intros Hs. unfold tmpfs_delete_directory. keeps. Qed.

Lemma tmpfs_delete_directory_no_orphan_kept k : forall d n s, kept s -> post kept (tmpfs_delete_directory_no_orphan fuel k d n s).
Proof. induction k as [|k IH]; intros d n s Hs; cbn [tmpfs_delete_directory_no_orphan]; keeps. Qed.

Lemma extend_file_kept f e s : 0 <= e -> kept s -> post kept (extend_file f e s).
Proof. intros He Hs. unfold extend_file. keeps. Qed.

#[local] Hint Resolve extend_file_kept : kept.

Lemma tmpfs_write_to_file_kept f d n off s : kept s -> post kept (tmpfs_write_to_file f d n off s).
Proof. intros Hs. unfold tmpfs_write_to_file. keeps. Qed.

Lemma tmpfs_read_from_file_kept f d n off s : kept s -> post kept (tmpfs_read_from_file f d n off s).
Proof. intros Hs. unfold tmpfs_read_from_file. keeps. Qed.

Lemma tmpfs_link_vnode_kept e t s : kept s -> post kept (tmpfs_link_vnode addr vfs_tmpfs e t s).
Proof. intros Hs. unfold tmpfs_link_vnode. keeps. Qed.

#[local] Hint Resolve tmpfs_link_vnode_kept : kept.

Lemma vnode_tmpfs_lookup_kept v n s : kept s -> post kept (vnode_tmpfs_lookup addr fuel vfs_tmpfs v n s).
Proof. intros Hs. unfold vnode_tmpfs_lookup. keeps. Qed.

#[local] Hint Resolve vnode_tmpfs_lookup_kept : kept.

(** The length of a string is not negative. *)
Lemma scan_nul_ge n : forall m a, post (fun e => a <= e) (scan_nul n m a).
Proof.
  induction n as [|n IH]; intros m a; cbn [scan_nul]; [done|]. destruct (_ =? 0); cbn; [lia|].
  eapply post_weaken; [|apply IH]. intros e; cbn; lia.
Qed.

Lemma skip_words_ge n : forall m a, post (fun e => a <= e) (skip_words n m a).
Proof.
  induction n as [|n IH]; intros m a; cbn [skip_words]; [done|]. destruct (_ =? 0); cbn; [|lia].
  eapply post_weaken; [|apply IH]. intros e; cbn; lia.
Qed.

Lemma strlen_align_ge n : forall m a, post (fun r => match r with inl e | inr e => a <= e end) (strlen_align n m a).
Proof.
  induction n as [|n IH]; intros m a; cbn [strlen_align]; [done|]. destruct (_ =? 0); cbn; [lia|]. destruct (_ =? 0); cbn; [lia|].
  eapply post_weaken; [|apply IH]. intros []; cbn; lia.
Qed.

Lemma strlen_nonneg n m a : post (fun l => 0 <= l) (strlen n m a).
Proof.
  unfold strlen. eapply post_bind; [apply strlen_align_ge|]. intros [e|e] He; [cbn; lia|].
  eapply post_bind; [apply skip_words_ge|]. intros b Hb. eapply post_bind; [apply scan_nul_ge|]. intros c Hc. cbn in *. lia.
Qed.

Lemma strdup_kept p s : kept s -> post kept (strdup fuel p s).
Proof.
  intros Hs. unfold strdup. eapply post_bind; [apply strlen_nonneg|]. intros l Hl. cbn in Hl. keeps.
Qed.

#[local] Hint Resolve strdup_kept : kept.

Lemma call_lookup_kept f v n s : kept s -> post kept (call_lookup addr fuel vfs_tmpfs f v n s).
Proof. intros Hs. unfold call_lookup. keeps. Qed.

#[local] Hint Resolve call_lookup_kept : kept.

Lemma walk_path_kept n : forall d r t v s, kept s -> post kept (walk_path lit addr fuel vfs_tmpfs n d r t v s).
Proof. induction n as [|n IH]; intros d r t v s Hs; cbn [walk_path]; keeps. Qed.

#[local] Hint Resolve walk_path_kept : kept.

Lemma vfs_resolve_path_kept d p s : kept s -> post kept (vfs_resolve_path lit addr fuel vfs_tmpfs tmpfs_root d p s).
Proof. intros Hs. unfold vfs_resolve_path. keeps. Qed.

Lemma print_int_kept b n m : kept m -> kept (print_int dec b n m).
Proof. intros Hm. unfold print_int. keeps. Qed.

Lemma new_vfs_file_kept v f md s : kept s -> post kept (new_vfs_file v f md s).
Proof. intros Hs. unfold new_vfs_file. keeps. Qed.

Lemma rehash_fd_table_kept ht s : kept s -> post kept (rehash_fd_table ht s).
Proof. intros Hs. unfold rehash_fd_table. keeps. Qed.

Lemma find_fd_kept n : forall i b f ht s, kept s -> post kept (find_fd dec n i b f ht s).
Proof. induction n as [|n IH]; intros i b f ht s Hs; cbn [find_fd print_int]; keeps. Qed.

#[local] Hint Resolve find_fd_kept : kept.

Lemma install_fd_kept f ht s : kept s -> post kept (install_fd dec f ht s).
Proof. intros Hs. unfold install_fd, print_int. keeps. Qed.

Lemma oa_hash_remove_kept ht k l s : kept s -> post kept (oa_hash_remove ht k l s).
Proof. intros Hs. unfold oa_hash_remove. keeps. Qed.

End Files.

(** ** Start-up *)

Section Startup.
Context (lit : string -> Z) (addr : fn -> Z) (fuel : nat).

#[local] Hint Resolve clear_files_kept close_entry_kept tmpfs_create_file_kept tmpfs_create_directory_kept tmpfs_delete_file_kept
  tmpfs_delete_directory_kept tmpfs_delete_directory_no_orphan_kept tmpfs_link_vnode_kept new_header_kept : kept.

Lemma root_dir_pointer_kept s : kept s -> post kept (root_dir_pointer s).
Proof. intros Hs. unfold root_dir_pointer. keeps. Qed.

Lemma tmpfs_self_test_kept depth d s : kept s -> post kept (tmpfs_self_test lit fuel depth d s).
Proof. intros Hs. unfold tmpfs_self_test. keeps. Qed.

#[local] Hint Resolve root_dir_pointer_kept tmpfs_self_test_kept : kept.

Lemma init_tmpfs_kept depth s : kept s -> post kept (init_tmpfs lit addr fuel depth s).
Proof. intros Hs. unfold init_tmpfs. keeps. Qed.

Lemma vnode_tmpfs_create_file_kept v d n sz s : 0 <= sz -> kept s -> post kept (vnode_tmpfs_create_file addr fuel v d n sz s).
Proof. intros Hsz Hs. unfold vnode_tmpfs_create_file. keeps. Qed.

Lemma init_futex_kept s : kept s -> post kept (init_futex s).
Proof. intros Hs. unfold init_futex. keeps. Qed.

End Startup.

End Machine.

(** For the layers above. *)
#[export] Hint Resolve machine_ok_set_mm machine_ok_set_iflag machine_ok_irq machine_ok_mem
  kmalloc_byte_kept kmalloc_byte_interruptable_kept kfree_kept kfree_interruptable_kept krealloc_byte_kept
  alloc_frame_kept free_frame_kept kept_pst_intro kept_ms map_page_kept map_range_kept unmap_page_kept change_page_map_kept
  change_page_map_range_kept create_new_userspace_page_table_kept vmemset_kept vmemcpy_kept unload_elf_kept load_elf_kept
  acquire_mutex_at_kept release_mutex_at_kept assign64_kept kept_futex_intro kept_fm futex_enqueue_kept
  strcat_kept vfs_resolve_path_kept strdup_kept new_vfs_file_kept rehash_fd_table_kept install_fd_kept oa_hash_remove_kept
  call_lookup_kept init_tmpfs_kept vnode_tmpfs_create_file_kept init_futex_kept : kept.
