(* ===== verification/UacpiKept.v ===== *)
(** * What the uACPI library leaves alone

    The library reaches the machine only through the callbacks of K/kernel_api.c: setting up the tables and
    searching them keeps memory, the heap and the frame map well formed, whatever the firmware holds. *)

From S2P Require Import Prelude Memory Machine Frames Heap Paging Loader KernelApi Acpi UacpiTables Preserve.

Local Open Scope list_scope.

Section Kept.
Context (regions : list region) (nodes : nat).
Context (hhdm_offset pml4 rsdp_address : Z) (call_handler : Z -> Z -> pst -> outcome (Z * Z * pst)) (depth : nat).

#[local] Hint Extern 0 (Kept mst) => exact (kept_mst regions nodes) : typeclass_instances.
#[local] Hint Extern 0 (Kept pst) => exact (kept_pst regions nodes) : typeclass_instances.
(** The only [mem] that is computed on its own is the copy of the FADT. *)
#[local] Hint Extern 0 (Kept mem) => exact (kept_any mem) : typeclass_instances.
#[local] Instance kept_ust : Kept ust := fun s => kept (up s).

Context (Hhandler : forall f a p, kept p -> post kept (call_handler f a p)).

Lemma kept_up s : kept s -> kept (up s).
Proof. done. Qed.

Lemma kept_ust_intro u p : kept p -> kept (Ust u p).
Proof. done. Qed.

Lemma kept_on_uc f s : kept s -> kept (on_uc f s).
Proof. done. Qed.

Lemma kept_store_table i t s : kept s -> kept (store_table i t s).
Proof. done. Qed.

#[local] Hint Resolve kept_up kept_ust_intro kept_on_uc kept_store_table map_page_kept : kept.

(** ** The callbacks *)

Lemma kernel_map_kept a n s : kept s -> post kept (kernel_map hhdm_offset pml4 a n s).
Proof. intros Hs. unfold kernel_map, uacpi_kernel_map. keeps. Qed.

Lemma kernel_unmap_kept a n s : kept s -> post kept (kernel_unmap a n s).
Proof. intros Hs. unfold kernel_unmap. keeps. Qed.

#[local] Hint Resolve kernel_map_kept kernel_unmap_kept : kept.

(** ** Installation *)

Lemma get_external_table_header_kept a s : kept s -> post kept (get_external_table_header hhdm_offset pml4 a s).
Proof. intros Hs. unfold get_external_table_header. keeps. Qed.

Lemma map_table_kept t s : kept s -> post kept (map_table hhdm_offset pml4 t s).
Proof. intros Hs. unfold map_table. keeps. Qed.

#[local] Hint Resolve get_external_table_header_kept map_table_kept : kept.

Lemma table_ref_unlocked_kept i s : kept s -> post kept (table_ref_unlocked hhdm_offset pml4 i s).
Proof. intros Hs. unfold table_ref_unlocked, first_reference. keeps. Qed.

Lemma initialize_fadt_kept install v s : (forall a s, kept s -> post kept (install a s)) -> kept s ->
  post kept (initialize_fadt hhdm_offset pml4 install v s).
Proof. intros Hi Hs. unfold initialize_fadt. keeps. Qed.

Lemma verify_and_install_table_kept init h p v o w s : (forall a s, kept s -> post kept (init a s)) -> kept s ->
  post kept (verify_and_install_table hhdm_offset pml4 init h p v o w s).
Proof. intros Hi Hs. unfold verify_and_install_table, verify_table. keeps. by destruct (uacpi_signatures_match h sig_dsdt). Qed.

#[local] Hint Resolve table_ref_unlocked_kept initialize_fadt_kept verify_and_install_table_kept : kept.

Lemma table_install_with_origin_kept init v o w s : (forall a s, kept s -> post kept (init a s)) -> kept s ->
  post kept (table_install_with_origin hhdm_offset pml4 init v o w s).
Proof. intros Hi Hs. unfold table_install_with_origin. keeps. Qed.

#[local] Hint Resolve table_install_with_origin_kept : kept.

Lemma table_install_physical_kept d : forall a o e w s, kept s ->
  post kept (table_install_physical hhdm_offset pml4 call_handler d a o e w s).
Proof.
  induction d as [|d IH]; intros a o e w s Hs; cbn [table_install_physical]; [done|].
  assert (forall v s, kept s -> post kept (initialize_fadt hhdm_offset pml4 (fun a s =>
    '(ret, _, s) ← table_install_physical hhdm_offset pml4 call_handler d a UACPI_TABLE_ORIGIN_FIRMWARE_PHYSICAL (Some sig_dsdt) false s; Ok (ret, s)) v s)) as Hinit.
  { intros v s1 Hs1. apply initialize_fadt_kept; [|done]. intros a1 s2 Hs2. keeps. }
  unfold install_end, dispose, override_status. keeps.
Qed.

#[local] Hint Resolve table_install_physical_kept : kept.

Lemma install_entries_kept n : forall r es i s, kept s -> post kept (install_entries hhdm_offset pml4 call_handler depth n r es i s).
Proof. induction n as [|n IH]; intros r es i s Hs; cbn [install_entries]; keeps. Qed.

#[local] Hint Resolve install_entries_kept : kept.

Lemma error_out_kept r n x : kept x -> post kept (error_out r n x).
Proof. intros Hx. destruct x, Hx. unfold error_out. cbn [fst snd] in *. keeps. Qed.

Lemma unmap_tables_kept l : forall s, kept s -> post kept (unmap_tables l s).
Proof. induction l as [|t l IH]; intros s Hs; cbn [unmap_tables]; keeps. Qed.

#[local] Hint Resolve error_out_kept unmap_tables_kept : kept.

Lemma initialize_from_rxsdt_kept a n s : kept s -> post kept (initialize_from_rxsdt hhdm_offset pml4 call_handler depth a n s).
Proof. intros Hs. unfold initialize_from_rxsdt. keeps. Qed.

#[local] Hint Resolve initialize_from_rxsdt_kept : kept.

Lemma setup_kept b n s : kept s -> post kept (uacpi_setup_early_table_access hhdm_offset pml4 rsdp_address call_handler depth b n s).
Proof. intros Hs. unfold uacpi_setup_early_table_access, initialize_from_rsdp, uacpi_deinitialize_tables. keeps. Qed.

(** ** Searching *)

Lemma for_each_table_kept id n : forall i s, kept s -> post kept (for_each_table hhdm_offset pml4 id n i s).
Proof. induction n as [|n IH]; intros i s Hs; cbn [for_each_table]; unfold do_search_tables; keeps. Qed.

#[local] Hint Resolve setup_kept for_each_table_kept : kept.

Lemma find_by_signature_kept x s : kept s -> post kept (uacpi_table_find_by_signature hhdm_offset pml4 x s).
Proof. intros Hs. unfold uacpi_table_find_by_signature, find_table, online. keeps. Qed.

#[local] Hint Resolve find_by_signature_kept : kept.

Lemma uacpi_init_kept ts jm jh s : machine_ok regions nodes (ms (up s)) ->
  post (fun r => machine_ok regions nodes (ms (up r.2))) (uacpi_init hhdm_offset pml4 rsdp_address call_handler depth ts jm jh s).
Proof.
  intros Hs. apply (post_weaken kept); [by intros r [_ Hr]|]. assert (kept s) as Hk by exact Hs. clear Hs. unfold uacpi_init. keeps.
Qed.
End Kept.
