(* ===== verification/UacpiFormat.v ===== *)
(** * Formatting and numbers of uACPI (K/uacpi/uacpi_src/stdlib.c, utilities.c)

    [uacpi_vsnprintf], which makes the lines of the log, with the writers it is made of, and
    [uacpi_string_to_integer], with which it reads widths and precisions.  A C string that is only read forwards is the
    list of its characters up to the terminator, a pointer into it the rest of the list; the buffer
    is bytes by offset, and the variable arguments are the 64-bit slots they are passed in. *)

From Stdlib Require Import String.
From S2P Require Import Prelude Memory Tmpfs KernelApi Preserve.

Local Open Scope list_scope.

(** ** Characters (utilities.c) *)

Definition CHAR_TYPE_CONTROL : Z := 1.
Definition CHAR_TYPE_SPACE : Z := 2.
Definition CHAR_TYPE_BLANK : Z := 4.
Definition CHAR_TYPE_PUNCTUATION : Z := 8.
Definition CHAR_TYPE_LOWER : Z := 16.
Definition CHAR_TYPE_UPPER : Z := 32.
Definition CHAR_TYPE_DIGIT : Z := 64.
Definition CHAR_TYPE_HEX_DIGIT : Z := 128.
Definition CHAR_TYPE_ALHEX : Z := Z.lor (Z.lor CHAR_TYPE_LOWER CHAR_TYPE_UPPER) CHAR_TYPE_HEX_DIGIT.

(** The entries from 128 on are zero. *)
Definition ascii_map : list Z :=
  replicate 9 CHAR_TYPE_CONTROL ++ [Z.lor (Z.lor CHAR_TYPE_CONTROL CHAR_TYPE_SPACE) CHAR_TYPE_BLANK] ++
  replicate 4 (Z.lor CHAR_TYPE_CONTROL CHAR_TYPE_SPACE) ++ replicate 18 CHAR_TYPE_CONTROL ++ [Z.lor CHAR_TYPE_SPACE CHAR_TYPE_BLANK] ++
  replicate 15 CHAR_TYPE_PUNCTUATION ++ replicate 10 (Z.lor CHAR_TYPE_DIGIT CHAR_TYPE_HEX_DIGIT) ++ replicate 7 CHAR_TYPE_PUNCTUATION ++
  replicate 6 (Z.lor CHAR_TYPE_UPPER CHAR_TYPE_HEX_DIGIT) ++ replicate 20 CHAR_TYPE_UPPER ++ replicate 6 CHAR_TYPE_PUNCTUATION ++
  replicate 6 (Z.lor CHAR_TYPE_LOWER CHAR_TYPE_HEX_DIGIT) ++ replicate 20 CHAR_TYPE_LOWER ++ replicate 4 CHAR_TYPE_PUNCTUATION ++
  [CHAR_TYPE_CONTROL] ++ replicate 128 0.

Definition char_types (c : Z) : Z := nth (Z.to_nat (wrap8 c)) ascii_map 0.
Definition is_char (c type : Z) : bool := Z.land (char_types c) type =? type.
Definition to_lower (c : Z) : Z := if is_char c CHAR_TYPE_UPPER then c + (97 - 65) else c.

(** ** uacpi_string_to_integer *)

Inductive uacpi_base : Type := UACPI_BASE_AUTO | UACPI_BASE_OCT | UACPI_BASE_DEC | UACPI_BASE_HEX.

Definition base_value (b : uacpi_base) : Z :=
  match b with UACPI_BASE_AUTO => 0 | UACPI_BASE_OCT => 8 | UACPI_BASE_DEC => 10 | UACPI_BASE_HEX => 16 end.

(** The strings have the [max_chars] characters that are left. *)
Fixpoint skip_spaces (str : list Z) : list Z :=
  match str with
  | c :: str' => if is_char c CHAR_TYPE_SPACE then skip_spaces str' else str
  | [] => []
  end.

Definition consume_if_equals (str : list Z) (c : Z) : option (list Z) :=
  match str with
  | c1 :: str' => if to_lower c1 =? c then Some str' else None
  | [] => None
  end.

(** The [switch]: the value of the character, [None] for [goto out]. *)
Definition digit_value (base : uacpi_base) (c : Z) : option Z :=
  let type := Z.land (char_types c) (Z.lor CHAR_TYPE_DIGIT CHAR_TYPE_ALHEX) in
  if type =? Z.lor CHAR_TYPE_DIGIT CHAR_TYPE_HEX_DIGIT then
    match base with UACPI_BASE_OCT => if 7 <? c - 48 then None else Some (c - 48) | _ => Some (c - 48) end
  else if (type =? Z.lor CHAR_TYPE_LOWER CHAR_TYPE_HEX_DIGIT) || (type =? Z.lor CHAR_TYPE_UPPER CHAR_TYPE_HEX_DIGIT) then
    match base with UACPI_BASE_HEX => Some (10 + (to_lower c - 97)) | _ => None end
  else None.

(** The loop: the value, the last character consumed and what is left.  [base] is not UACPI_BASE_AUTO here. *)
Fixpoint convert_digits (base : uacpi_base) (str : list Z) (value c : Z) : Z * Z * list Z :=
  match str with
  | [] => (value, c, [])
  | c :: str' =>
      match digit_value base c with
      | None => (value, c, str')
      | Some d =>
          let next := wrap64 (wrap64 (value * base_value base) + d) in
          if next / base_value base =? value then convert_digits base str' next c
          else (0xFFFFFFFFFFFFFFFF, c, str')
      end
  end.

Definition detect_base (base : uacpi_base) (str : list Z) : uacpi_base * list Z :=
  match base with
  | UACPI_BASE_AUTO =>
      match consume_if_equals str 48 with
      | None => (UACPI_BASE_DEC, str)
      | Some str =>
          match consume_if_equals str 120 with
          | None => (UACPI_BASE_OCT, str)
          | Some str => (UACPI_BASE_HEX, str)
          end
      end
  | _ => (base, str)
  end.

(** The status and [out_value]. *)
Definition uacpi_string_to_integer (str : list Z) (base : uacpi_base) : uacpi_status * Z :=
  let str := skip_spaces str in
  let '(negative, str) :=
    match consume_if_equals str 45 with
    | Some str => (true, str)
    | None => (false, default str (consume_if_equals str 43))
    end in
  let '(base, str) := detect_base base str in
  let '(value, c, rest) := convert_digits base str 0 0 in
  (match rest with [] => UACPI_STATUS_OK | _ => if c =? 0 then UACPI_STATUS_OK else UACPI_STATUS_INVALID_ARGUMENT end,
   if (negative : bool) then wrap64 (- value) else value).

(** ** Writers (stdlib.c) *)

Record fmt_buf_state : Type := Fb {
  buffer : mem;
  capacity : Z;
  bytes_written : Z
}.

Record fmt_spec : Type := Spec {
  is_signed : bool;
  prepend : bool;
  uppercase : bool;
  left_justify : bool;
  alternate_form : bool;
  has_precision : bool;
  pad_char : Z;
  prepend_char : Z;
  min_width : Z;
  precision : Z;
  base : Z
}.

Definition write_one (c : Z) (fb : fmt_buf_state) : fmt_buf_state :=
  Fb (if bytes_written fb <? capacity fb then store8 (buffer fb) (bytes_written fb) c else buffer fb) (capacity fb)
    (wrap64 (bytes_written fb + 1)).

Definition write_many (string : list Z) (fb : fmt_buf_state) : fmt_buf_state :=
  let count := Z.of_nat (length string) in
  Fb (if bytes_written fb <? capacity fb
      then let count_to_write := Z.min count (capacity fb - bytes_written fb) in
           put_bytes (buffer fb) (bytes_written fb) (take (Z.to_nat count_to_write) string)
      else buffer fb) (capacity fb) (wrap64 (bytes_written fb + count)).

Definition hex_char (upper : bool) (value : Z) : Z :=
  nth (Z.to_nat value) (chars (if upper then "0123456789ABCDEF" else "0123456789abcdef")) 0.

Definition write_padding (fm : fmt_spec) (repr_size : Z) (fb : fmt_buf_state) : fmt_buf_state :=
  if min_width fm <=? repr_size then fb
  else Nat.iter (Z.to_nat (min_width fm - repr_size)) (write_one (if left_justify fm then 32 else pad_char fm)) fb.

Definition REPR_BUFFER_SIZE : nat := 32.

(** [repr_buffer[--index] = c], where [repr] has the characters from [index] on. *)
Definition put_repr (c : Z) (repr : list Z) : outcome (list Z) :=
  if (length repr <? REPR_BUFFER_SIZE)%nat then Ok (c :: repr) else Err OutOfBounds.

Definition repr_char (upper : bool) (base remainder : Z) : Z :=
  if base =? 16 then hex_char upper remainder else if (base =? 8) || (base =? 10) then remainder + 48 else 63.

(** [while (value)], with more fuel than a 64-bit value has bits. *)
Fixpoint repr_digits (fuel : nat) (upper : bool) (base value : Z) (repr : list Z) : outcome (list Z) :=
  match fuel with
  | O => Err OutOfFuel
  | S fuel =>
      if value =? 0 then Ok repr
      else repr ← put_repr (repr_char upper base (value mod base)) repr; repr_digits fuel upper base (value / base) repr
  end.

Definition write_integer (fm : fmt_spec) (value : Z) (fb : fmt_buf_state) : outcome fmt_buf_state :=
  let negative := is_signed fm && (2 ^ 63 <=? value) in
  let value := if negative then wrap64 (- value) else value in
  let fb := if prepend fm || negative then write_one (if negative then 45 else prepend_char fm) fb else fb in
  repr ← repr_digits 65 (uppercase fm) (base fm) value [];
  repr ← (if (length repr =? 0)%nat then put_repr 48 repr else Ok repr);
  repr ← (if alternate_form fm then
            if base fm =? 16 then repr ← put_repr (if uppercase fm then 88 else 120) repr; put_repr 48 repr
            else if base fm =? 8 then put_repr 48 repr else Ok repr
          else Ok repr);
  let repr_size := Z.of_nat (length repr) in
  Ok (if left_justify fm then write_padding fm repr_size (write_many repr fb) else write_many repr (write_padding fm repr_size fb)).

(** ** Reading a format *)

(** [--characters == 0] on a 64-bit counter. *)
Fixpoint string_has_at_least (string : list Z) (characters : Z) : bool :=
  match string with
  | [] => false
  | _ :: string' => let characters := wrap64 (characters - 1) in if characters =? 0 then true else string_has_at_least string' characters
  end.

(** The digits and the rest of the string. *)
Fixpoint consume_digits (string : list Z) : list Z * list Z :=
  match string with
  | c :: string' =>
      if (c <? 48) || (57 <? c) then ([], string) else let '(digits, rest) := consume_digits string' in (c :: digits, rest)
  | [] => ([], [])
  end.

Inductive parse_number_mode : Type := PARSE_NUMBER_MODE_MAYBE | PARSE_NUMBER_MODE_MUST.

(** [old] is what [out_value] holds. *)
Definition parse_number (fmt : list Z) (mode : parse_number_mode) (old : Z) : option (Z * list Z) :=
  let '(digits, rest) := consume_digits fmt in
  match digits with
  | [] => match mode with PARSE_NUMBER_MODE_MUST => None | PARSE_NUMBER_MODE_MAYBE => Some (old, rest) end
  | _ =>
      let '(ret, value) := uacpi_string_to_integer digits UACPI_BASE_DEC in
      match ret with UACPI_STATUS_OK => Some (value, rest) | _ => None end
  end.

Definition consume (string : list Z) (token : list Z) : option (list Z) :=
  let token_size := length token in
  if string_has_at_least string (Z.of_nat token_size) && bool_decide (take token_size string = token)
  then Some (drop token_size string) else None.

Definition is_one_of (c : Z) (l : list Z) : bool := existsb (Z.eqb c) l.

Definition consume_one_of (string l : list Z) : option (Z * list Z) :=
  match string with
  | [] => None
  | c :: string' => if is_one_of c l then Some (c, string') else None
  end.

Definition base_from_specifier (specifier : Z) : Z :=
  if (specifier =? 120) || (specifier =? 88) then 16 else if specifier =? 111 then 8 else 10.

Definition is_uppercase_specifier (specifier : Z) : bool := specifier =? 88.

(** The characters before the next conversion, and the string from its % on. *)
Fixpoint find_next_conversion (fmt : list Z) : list Z * option (list Z) :=
  match fmt with
  | [] => ([], None)
  | c :: fmt' => if c =? 37 then ([], Some fmt) else let '(text, next) := find_next_conversion fmt' in (c :: text, next)
  end.

(** ** uacpi_vsnprintf *)

Definition set_prepend (c : Z) (fm : fmt_spec) : fmt_spec :=
  Spec (is_signed fm) true (uppercase fm) (left_justify fm) (alternate_form fm) (has_precision fm) (pad_char fm) c (min_width fm) (precision fm) (base fm).
Definition set_left_justify (fm : fmt_spec) : fmt_spec :=
  Spec (is_signed fm) (prepend fm) (uppercase fm) true (alternate_form fm) (has_precision fm) (pad_char fm) (prepend_char fm) (min_width fm)
    (precision fm) (base fm).
Definition set_pad (c : Z) (fm : fmt_spec) : fmt_spec :=
  Spec (is_signed fm) (prepend fm) (uppercase fm) (left_justify fm) (alternate_form fm) (has_precision fm) c (prepend_char fm) (min_width fm)
    (precision fm) (base fm).
Definition set_alternate_form (fm : fmt_spec) : fmt_spec :=
  Spec (is_signed fm) (prepend fm) (uppercase fm) (left_justify fm) true (has_precision fm) (pad_char fm) (prepend_char fm) (min_width fm)
    (precision fm) (base fm).
Definition set_min_width (w : Z) (fm : fmt_spec) : fmt_spec :=
  Spec (is_signed fm) (prepend fm) (uppercase fm) (left_justify fm) (alternate_form fm) (has_precision fm) (pad_char fm) (prepend_char fm) w
    (precision fm) (base fm).
Definition set_precision (p : Z) (fm : fmt_spec) : fmt_spec :=
  Spec (is_signed fm) (prepend fm) (uppercase fm) (left_justify fm) (alternate_form fm) true (pad_char fm) (prepend_char fm) (min_width fm) p (base fm).
Definition set_base (b : Z) (upper : bool) (fm : fmt_spec) : fmt_spec :=
  Spec (is_signed fm) (prepend fm) upper (left_justify fm) (alternate_form fm) (has_precision fm) (pad_char fm) (prepend_char fm) (min_width fm)
    (precision fm) b.
Definition set_signed (b : bool) (fm : fmt_spec) : fmt_spec :=
  Spec b (prepend fm) (uppercase fm) (left_justify fm) (alternate_form fm) (has_precision fm) (pad_char fm) (prepend_char fm) (min_width fm)
    (precision fm) (base fm).

Definition fmt_spec_start : fmt_spec := Spec false false false false false false 32 0 0 0 10.

Definition set_format_flag (flag : Z) (fm : fmt_spec) : fmt_spec :=
  if (flag =? 43) || (flag =? 32) then set_prepend flag fm
  else if flag =? 45 then set_left_justify fm
  else if flag =? 48 then set_pad 48 fm
  else set_alternate_form fm.

(** [while (consume_one_of(&fmt, "+- 0#", &flag))] *)
Fixpoint format_flags (fmt : list Z) (fm : fmt_spec) : fmt_spec * list Z :=
  match fmt with
  | [] => (fm, fmt)
  | c :: fmt' => if is_one_of c (chars "+- 0#") then format_flags fmt' (set_format_flag c fm) else (fm, fmt)
  end.

(** [uacpi_va_arg] of a slot. *)
Definition va_arg (args : list Z) : outcome (Z * list Z) :=
  match args with a :: args' => Ok (a, args') | [] => Err OutOfBounds end.

(** The low [n] bits as a signed number, converted to 64 bits. *)
Definition signed_arg (n a : Z) : Z := let x := a mod 2 ^ n in if x <? 2 ^ (n - 1) then x else wrap64 (x - 2 ^ n).
Definition unsigned_arg (n a : Z) : Z := a mod 2 ^ n.

(** The optional width, and the optional precision; [None] is [return -1]. *)
Definition format_width (fmt args : list Z) (fm : fmt_spec) : outcome (option (fmt_spec * list Z * list Z)) :=
  match consume fmt [42] with
  | Some fmt => '(a, args) ← va_arg args; Ok (Some (set_min_width (signed_arg 32 a) fm, fmt, args))
  | None =>
      match parse_number fmt PARSE_NUMBER_MODE_MAYBE (min_width fm) with
      | Some (w, fmt) => Ok (Some (set_min_width w fm, fmt, args))
      | None => Ok None
      end
  end.

Definition format_precision (fmt args : list Z) (fm : fmt_spec) : outcome (option (fmt_spec * list Z * list Z)) :=
  match consume fmt [46] with
  | None => Ok (Some (fm, fmt, args))
  | Some fmt =>
      match consume fmt [42] with
      | Some fmt => '(a, args) ← va_arg args; Ok (Some (set_precision (signed_arg 32 a) fm, fmt, args))
      | None =>
          match parse_number fmt PARSE_NUMBER_MODE_MUST (precision fm) with
          | Some (p, fmt) => Ok (Some (set_precision p fm, fmt, args))
          | None => Ok None
          end
      end
  end.

(** The five blocks that end in an integer differ in the width of the argument only: [d], [i] or one of [oxXu], and
    the code at [write_int]. *)
Definition integer_conversion (bits : Z) (fmt args : list Z) (fm : fmt_spec) (fb : fmt_buf_state) :
    outcome (option (list Z * list Z * fmt_buf_state)) :=
  match (match consume fmt [100] with Some fmt => Some fmt | None => consume fmt [105] end) with
  | Some fmt =>
      '(a, args) ← va_arg args;
      fb ← write_integer (set_signed true fm) (signed_arg bits a) fb; Ok (Some (fmt, args, fb))
  | None =>
      match consume_one_of fmt (chars "oxXu") with
      | Some (flag, fmt) =>
          '(a, args) ← va_arg args;
          fb ← write_integer (set_base (base_from_specifier flag) (is_uppercase_specifier flag) fm) (unsigned_arg bits a) fb;
          Ok (Some (fmt, args, fb))
      | None => Ok None
      end
  end.

Section Format.
(** The memory the string arguments are in, and fuel for the characters of one. *)
Context (m : mem) (fuel : nat).

(** [string[i]]; a null pointer stands for the literal. *)
Definition string_char (string i : Z) : Z :=
  if string =? NULL then nth (Z.to_nat i) (chars "<null>") 0 else m (wrap64 (string + i)).

(** The first loop of the conversion s; the result has the number of characters. *)
Fixpoint write_string (fuel : nat) (string i : Z) (fm : fmt_spec) (fb : fmt_buf_state) : outcome (Z * fmt_buf_state) :=
  match fuel with
  | O => Err OutOfFuel
  | S fuel =>
      if negb (has_precision fm) || (i <? precision fm) then
        if string_char string i =? 0 then Ok (i, fb)
        else write_string fuel string (i + 1) fm (write_one (string_char string i) fb)
      else Ok (i, fb)
  end.

Definition string_conversion (string : Z) (fm : fmt_spec) (fb : fmt_buf_state) : outcome fmt_buf_state :=
  '(i, fb) ← write_string fuel string 0 fm fb;
  Ok (Nat.iter (Z.to_nat (min_width fm - i)) (write_one 32) fb).

(** A conversion after its flags, width and precision. *)
Definition conversion (fmt args : list Z) (fm : fmt_spec) (fb : fmt_buf_state) : outcome (option (list Z * list Z * fmt_buf_state)) :=
  match consume fmt (chars "c") with
  | Some fmt => '(a, args) ← va_arg args; Ok (Some (fmt, args, write_one (wrap8 a) fb))
  | None =>
  match consume fmt (chars "s") with
  | Some fmt => '(a, args) ← va_arg args; fb ← string_conversion a fm fb; Ok (Some (fmt, args, fb))
  | None =>
  match consume fmt (chars "p") with
  | Some fmt =>
      '(a, args) ← va_arg args;
      fb ← write_integer (set_pad 48 (set_min_width 16 (set_base 16 (uppercase fm) fm))) a fb; Ok (Some (fmt, args, fb))
  | None =>
  match consume fmt (chars "hh") with
  | Some fmt => integer_conversion 8 fmt args fm fb
  | None =>
  match consume fmt (chars "h") with
  | Some fmt => integer_conversion 16 fmt args fm fb
  | None =>
  match (match consume fmt (chars "ll") with Some fmt => Some fmt | None => consume fmt (chars "z") end) with
  | Some fmt => integer_conversion 64 fmt args fm fb
  | None =>
  match consume fmt (chars "l") with
  | Some fmt => integer_conversion 64 fmt args fm fb
  | None => integer_conversion 32 fmt args fm fb
  end end end end end end end.

(** One pass of the loop, from a % on. *)
Definition format_one (fmt args : list Z) (fb : fmt_buf_state) : outcome (option (list Z * list Z * fmt_buf_state)) :=
  match consume fmt (chars "%%") with
  | Some fmt => Ok (Some (fmt, args, write_one 37 fb))
  | None =>
      let '(fm, fmt) := format_flags (drop 1 fmt) fmt_spec_start in
      r ← format_width fmt args fm;
      match r with
      | None => Ok None
      | Some (fm, fmt, args) =>
          r ← format_precision fmt args fm;
          match r with
          | None => Ok None
          | Some (fm, fmt, args) => conversion fmt args fm fb
          end
      end
  end.

(** The loop, with fuel for the length of the format; [None] is [return -1]. *)
Fixpoint format_loop (n : nat) (fmt args : list Z) (fb : fmt_buf_state) : outcome (fmt_buf_state * bool) :=
  match n with
  | O => Err OutOfFuel
  | S n =>
      match fmt with
      | [] => Ok (fb, true)
      | _ =>
          let '(text, next) := find_next_conversion fmt in
          let fb := if (length text =? 0)%nat then fb else write_many text fb in
          match next with
          | None => Ok (fb, true)
          | Some fmt =>
              r ← format_one fmt args fb;
              match r with
              | None => Ok (fb, false)
              | Some (fmt, args, fb) => format_loop n fmt args fb
              end
          end
      end
  end.

(** The result and the buffer. *)
Definition uacpi_vsnprintf (buf : mem) (cap : Z) (fmt args : list Z) : outcome (Z * mem) :=
  '(fb, ok) ← format_loop (S (length fmt)) fmt args (Fb buf cap 0);
  if (ok : bool) then
    Ok (sint32 (bytes_written fb),
        if cap =? 0 then buffer fb else store8 (buffer fb) (Z.min (bytes_written fb) (cap - 1)) 0)
  else Ok (-1, buffer fb).

Definition UACPI_PLAIN_LOG_BUFFER_SIZE : Z := 128.

(** The buffer [uacpi_log] passes to [uacpi_kernel_log], [None] when the format is wrong; [buf] is what the stack holds. *)
Definition uacpi_log (buf : mem) (str args : list Z) : outcome (option mem) :=
  '(ret, buf) ← uacpi_vsnprintf buf UACPI_PLAIN_LOG_BUFFER_SIZE str args;
  Ok (if ret <? 0 then None
      else if UACPI_PLAIN_LOG_BUFFER_SIZE <=? ret
      then Some (store8 (store8 (store8 (store8 buf (UACPI_PLAIN_LOG_BUFFER_SIZE - 5) 46) (UACPI_PLAIN_LOG_BUFFER_SIZE - 4) 46)
        (UACPI_PLAIN_LOG_BUFFER_SIZE - 3) 46) (UACPI_PLAIN_LOG_BUFFER_SIZE - 2) 10)
      else Some buf).

End Format.

(** ** The buffer is not left *)

Section Bounds.
Context (cap : Z) (start : mem).

(** Outside of the buffer nothing has changed. *)
Record inside (fb : fmt_buf_state) : Prop := {
  in_capacity : capacity fb = cap;
  in_written : 0 <= bytes_written fb;
  in_outside x : ~ (0 <= x < cap) -> buffer fb x = start x
}.

#[local] Instance kept_fb : Kept fmt_buf_state := inside.

Lemma write_one_kept c fb : kept fb -> kept (write_one c fb).
Proof.
  intros [H1 H2 H3]. split; cbn [capacity bytes_written buffer write_one]; [done|apply wrap64_range|].
  intros x Hx. destruct (Z.ltb_spec (bytes_written fb) (capacity fb)); [|by apply H3]. rewrite store8_ne by lia. by apply H3.
Qed.

Lemma write_many_kept l fb : kept fb -> kept (write_many l fb).
Proof.
  intros [H1 H2 H3]. split; cbn [capacity bytes_written buffer write_many]; [done|apply wrap64_range|].
  intros x Hx. destruct (Z.ltb_spec (bytes_written fb) (capacity fb)); [|by apply H3].
  rewrite put_bytes_out; [by apply H3|]. rewrite length_take. lia.
Qed.

Lemma write_times_kept n c fb : kept fb -> kept (Nat.iter n (write_one c) fb).
Proof. intros H. induction n; [done|]. by apply write_one_kept. Qed.

#[local] Hint Resolve write_one_kept write_many_kept write_times_kept : kept.

Lemma write_padding_kept fm n fb : kept fb -> kept (write_padding fm n fb).
Proof. intros H. unfold write_padding. keeps. Qed.

#[local] Hint Resolve write_padding_kept : kept.

Lemma write_integer_kept fm v fb : kept fb -> post kept (write_integer fm v fb).
Proof. intros H. unfold write_integer. destruct (prepend fm || _); keeps. Qed.

#[local] Hint Resolve write_integer_kept : kept.

Lemma write_string_kept m n : forall p i fm fb, kept fb -> post kept (write_string m n p i fm fb).
Proof. induction n as [|n IH]; intros p i fm fb H; cbn [write_string]; keeps. Qed.

#[local] Hint Resolve write_string_kept : kept.

#[local] Instance kept_option {A : Type} `{Kept A} : Kept (option A) := fun o => match o with Some a => kept a | None => True end.

Lemma kept_some {A} `{Kept A} (a : A) : kept a -> kept (Some a).
Proof. done. Qed.
Ltac keeps_some := keeps; repeat (first [exact I | apply kept_some]; keeps).

Lemma integer_conversion_kept bits fmt args fm fb : kept fb -> post kept (integer_conversion bits fmt args fm fb).
Proof. intros H. unfold integer_conversion. keeps_some. Qed.

#[local] Hint Resolve integer_conversion_kept : kept.

Lemma conversion_kept m n fmt args fm fb : kept fb -> post kept (conversion m n fmt args fm fb).
Proof. intros H. unfold conversion, string_conversion. keeps_some. Qed.

Lemma format_width_kept fmt args fm : post kept (format_width fmt args fm).
Proof. unfold format_width. keeps_some. Qed.

Lemma format_precision_kept fmt args fm : post kept (format_precision fmt args fm).
Proof. unfold format_precision. keeps_some. Qed.

#[local] Hint Resolve conversion_kept format_width_kept format_precision_kept : kept.

Lemma format_one_kept m n fmt args fb : kept fb -> post kept (format_one m n fmt args fb).
Proof. intros H. unfold format_one. keeps_some. Qed.

#[local] Hint Resolve format_one_kept : kept.

Lemma format_loop_kept m n k : forall fmt args fb, kept fb -> post kept (format_loop m n k fmt args fb).
Proof.
  induction k as [|k IH]; intros fmt args fb H; cbn [format_loop]; [done|]. destruct fmt as [|c fmt]; [by split|].
  destruct (find_next_conversion (c :: fmt)) as [text next].
  assert (kept (if (length text =? 0)%nat then fb else write_many text fb)) as H1 by keeps. revert H1.
  generalize (if (length text =? 0)%nat then fb else write_many text fb). intros fb1 H1. destruct next as [fmt1|]; [|by split].
  eapply kept_bind; [by apply format_one_kept|]. intros [[[fmt2 args2] fb2]|] Hr; [|by split]. apply IH. exact (proj2 Hr).
Qed.
End Bounds.



(** ** Numerals *)

(** The digits of a number, most significant first; [n] bounds their number. *)
Fixpoint to_digits (n : nat) (b v : Z) : list Z :=
  match n with
  | O => []
  | S n => if v <? b then [v] else to_digits n b (v / b) ++ [v mod b]
  end.

(** The number digits stand for. *)
Definition horner (b v : Z) (ds : list Z) : Z := fold_left (fun v d => v * b + d) ds v.

(** 22 octal digits are enough for 64 bits. *)
Definition DIGITS : nat := 22.
Definition numeral (upper : bool) (b v : Z) : list Z := map (hex_char upper) (to_digits DIGITS b v).

Lemma horner_app b v l l' : horner b v (l ++ l') = horner b (horner b v l) l'.
Proof. apply fold_left_app. Qed.

Lemma to_digits_spec b n : 2 <= b -> forall v, 0 <= v < b ^ Z.of_nat n ->
  Forall (fun d => 0 <= d < b) (to_digits n b v) /\ horner b 0 (to_digits n b v) = v.
Proof.
  intros Hb. induction n as [|n IH]; intros v Hv; cbn [to_digits]; [cbn in *; split; [constructor|lia]|].
  destruct (Z.ltb_spec v b); [split; [by repeat constructor; lia|cbn; lia]|].
  rewrite Nat2Z.inj_succ, Z.pow_succ_r in Hv by lia.
  destruct (IH (v / b)) as [H1 H2]; [split; [apply Z.div_pos; lia|apply Z.div_lt_upper_bound; lia]|].
  split.
  - apply Forall_app. split; [done|]. constructor; [|constructor]. apply Z.mod_pos_bound. lia.
  - rewrite horner_app, H2. cbn. pose proof (Z.div_mod v b ltac:(lia)). lia.
Qed.

(** A number other than 0 has no leading zero, and every number has a digit. *)
Lemma to_digits_head b n : 2 <= b -> (0 < n)%nat -> forall v, 0 <= v < b ^ Z.of_nat n ->
  exists d ds, to_digits n b v = d :: ds /\ (d = 0 -> v = 0).
Proof.
  intros Hb Hn. destruct n as [|n]; [lia|]. clear Hn. induction n as [|n IH]; intros v Hv.
  - cbn [to_digits]. destruct (Z.ltb_spec v b); [by exists v, []|cbn in Hv; lia].
  - change (to_digits (S (S n)) b v) with (if v <? b then [v] else to_digits (S n) b (v / b) ++ [v mod b]).
    destruct (Z.ltb_spec v b); [by exists v, []|]. rewrite (Nat2Z.inj_succ (S n)), Z.pow_succ_r in Hv by lia.
    destruct (IH (v / b)) as (d & ds & -> & Hd); [split; [apply Z.div_pos; lia|apply Z.div_lt_upper_bound; lia]|].
    exists d, (ds ++ [v mod b]). split; [done|]. intros E. specialize (Hd E). assert (1 <= v / b) by (apply Z.div_le_lower_bound; lia). lia.
Qed.

Lemma horner_ge b ds : 2 <= b -> Forall (fun d => 0 <= d < b) ds -> forall v, 0 <= v -> v <= horner b v ds.
Proof.
  intros Hb Hd. induction Hd as [|d ds Hd _ IH]; intros v Hv; cbn [horner fold_left]; [lia|].
  change (v <= horner b (v * b + d) ds). specialize (IH (v * b + d) ltac:(nia)). nia.
Qed.

(** ** Reading digits *)

Definition number_base (base : uacpi_base) : Prop := base <> UACPI_BASE_AUTO.

Lemma number_base_bound base : number_base base -> 8 <= base_value base <= 16.
Proof. intros H. destruct base; cbn; [done|lia..]. Qed.

Lemma digit_cases (P : Z -> Prop) : Forall P (seqZ 0 16) -> forall d, 0 <= d < 16 -> P d.
Proof. intros H d Hd. rewrite List.Forall_forall in H. apply H, list_elem_of_In, elem_of_seqZ. lia. Qed.

Lemma digit_value_char upper base d : number_base base -> 0 <= d < base_value base -> digit_value base (hex_char upper d) = Some d.
Proof.
  intros Hb. revert d. assert (forall d, 0 <= d < 16 -> (d <? base_value base) = true -> digit_value base (hex_char upper d) = Some d) as H.
  { apply (digit_cases (fun d => (d <? base_value base) = true -> digit_value base (hex_char upper d) = Some d)). destruct base; [done|..]; destruct upper; repeat constructor; vm_compute; done. }
  intros d Hd. pose proof (number_base_bound base Hb). apply H; [lia|]. apply Z.ltb_lt. lia.
Qed.

(** A step of the loop detects every overflow. *)
Lemma convert_step base v d : number_base base -> is_u64 v -> 0 <= d < base_value base ->
  let next := wrap64 (wrap64 (v * base_value base) + d) in
  (next / base_value base =? v) = (v * base_value base + d <? 2 ^ 64) /\ (v * base_value base + d < 2 ^ 64 -> next = v * base_value base + d).
Proof.
  intros Hb Hv Hd next. pose proof (number_base_bound base Hb) as Hbb. set (b := base_value base) in *. unfold is_u64 in Hv.
  assert (next = (v * b + d) mod 2 ^ 64) as E by (unfold next, wrap64; by rewrite Zplus_mod_idemp_l).
  destruct (Z.ltb_spec (v * b + d) (2 ^ 64)) as [Hlt|Hge].
  - rewrite E, Z.mod_small by nia. split; [|done]. apply Z.eqb_eq. rewrite Z.add_comm, Z.div_add by lia. rewrite Z.div_small by lia. lia.
  - split; [|lia]. apply Z.eqb_neq. intros Hq. pose proof (Z.div_mod next b ltac:(lia)) as Hdm. pose proof (Z.mod_pos_bound next b ltac:(lia)).
    pose proof (Z.div_mod (v * b + d) (2 ^ 64) ltac:(lia)) as Hdm'. rewrite <- E in Hdm'. rewrite Hq in Hdm.
    assert (1 <= (v * b + d) / 2 ^ 64) by (apply Z.div_le_lower_bound; lia). lia.
Qed.

(** The value saturates; without an overflow all characters are consumed. *)
Lemma convert_digits_spec upper base ds : number_base base -> Forall (fun d => 0 <= d < base_value base) ds -> forall v c, is_u64 v ->
  let r := convert_digits base (map (hex_char upper) ds) v c in
  r.1.1 = Z.min (2 ^ 64 - 1) (horner (base_value base) v ds) /\ (horner (base_value base) v ds < 2 ^ 64 -> r.2 = []).
Proof.
  intros Hb Hd. induction Hd as [|d ds Hd Hds IH]; intros v c Hv; cbn [map convert_digits horner fold_left].
  { unfold is_u64 in Hv. cbn. split; [lia|done]. }
  rewrite (digit_value_char upper base d Hb Hd). destruct (convert_step base v d Hb Hv Hd) as [E1 E2]. rewrite E1.
  fold (horner (base_value base) (v * base_value base + d) ds). unfold is_u64 in *. pose proof (number_base_bound base Hb).
  pose proof (horner_ge (base_value base) ds ltac:(lia) Hds (v * base_value base + d) ltac:(nia)).
  destruct (Z.ltb_spec (v * base_value base + d) (2 ^ 64)) as [Hlt|Hge].
  - rewrite E2 by done. apply IH. nia.
  - cbn. split; [lia|]. lia.
Qed.

Definition sign_text (sign : option bool) : list Z := match sign with None => [] | Some true => [45] | Some false => [43] end.
Definition signed (sign : option bool) (v : Z) : Z := match sign with Some true => wrap64 (- v) | _ => v end.
Definition base_prefix (base : uacpi_base) : list Z :=
  match base with UACPI_BASE_OCT => [48] | UACPI_BASE_HEX => [48; 120] | _ => [] end.

(** A character that starts a number. *)
Definition starts_number (c : Z) : bool := negb (is_char c CHAR_TYPE_SPACE) && negb (to_lower c =? 45) && negb (to_lower c =? 43).

Lemma digit_starts upper d : 0 <= d < 16 ->
  starts_number (hex_char upper d) = true /\ to_lower (hex_char upper d) <> 120 /\ (d <> 0 -> to_lower (hex_char upper d) <> 48).
Proof.
  apply (digit_cases (fun d => starts_number (hex_char upper d) = true /\ to_lower (hex_char upper d) <> 120 /\
    (d <> 0 -> to_lower (hex_char upper d) <> 48))). destruct upper; repeat constructor; by vm_compute.
Qed.

Lemma skip_spaces_app sp str : Forall (fun c => is_char c CHAR_TYPE_SPACE = true) sp -> skip_spaces (sp ++ str) = skip_spaces str.
Proof. induction 1 as [|c sp Hc _ IH]; cbn [app skip_spaces]; [done|]. by rewrite Hc. Qed.

(** Spaces and a sign before a number. *)
Lemma string_to_integer_front sp sign c str base : Forall (fun c => is_char c CHAR_TYPE_SPACE = true) sp -> starts_number c = true ->
  uacpi_string_to_integer (sp ++ sign_text sign ++ c :: str) base =
    let '(base, str) := detect_base base (c :: str) in
    let '(value, c, rest) := convert_digits base str 0 0 in
    (match rest with [] => UACPI_STATUS_OK | _ => if c =? 0 then UACPI_STATUS_OK else UACPI_STATUS_INVALID_ARGUMENT end, signed sign value).
Proof.
  intros Hsp Hc. unfold uacpi_string_to_integer, starts_number in *. rewrite skip_spaces_app by done.
  rewrite !andb_true_iff, !negb_true_iff in Hc. destruct Hc as [[H1 H2] H3].
  destruct sign as [[]|]; cbn [sign_text app skip_spaces]; rewrite ?H1.
  1,2: change (is_char 45 CHAR_TYPE_SPACE) with false; change (is_char 43 CHAR_TYPE_SPACE) with false; cbn [consume_if_equals].
  - done.
  - done.
  - cbn [consume_if_equals]. by rewrite H2, H3.
Qed.

Lemma numeral_digits base v : number_base base -> is_u64 v ->
  exists d ds, to_digits DIGITS (base_value base) v = d :: ds /\ Forall (fun d => 0 <= d < base_value base) (d :: ds) /\
    horner (base_value base) 0 (d :: ds) = v /\ (d = 0 -> v = 0).
Proof.
  intros Hb Hv. pose proof (number_base_bound base Hb) as Hbb.
  assert (0 <= v < base_value base ^ Z.of_nat DIGITS) as Hvd.
  { unfold is_u64 in Hv. assert (8 ^ 22 <= base_value base ^ 22) by (apply Z.pow_le_mono_l; lia).
    change (Z.of_nat DIGITS) with 22. assert (2 ^ 64 <= 8 ^ 22) by (vm_compute; congruence). lia. }
  destruct (to_digits_spec (base_value base) DIGITS ltac:(lia) v Hvd) as [Hds Eh].
  destruct (to_digits_head (base_value base) DIGITS ltac:(lia) ltac:(unfold DIGITS; lia) v Hvd) as (d & ds & E & Hz). rewrite E in *. exists d, ds. done.
Qed.

(** A list of digits, without overflow. *)
Lemma convert_number upper base ds : number_base base -> Forall (fun d => 0 <= d < base_value base) ds -> horner (base_value base) 0 ds < 2 ^ 64 ->
  exists c, convert_digits base (map (hex_char upper) ds) 0 0 = (horner (base_value base) 0 ds, c, []).
Proof.
  intros Hb Hds Hv. pose proof (convert_digits_spec upper base ds Hb Hds 0 0 ltac:(unfold is_u64; lia)) as Hc. cbn zeta in Hc.
  destruct (convert_digits base (map (hex_char upper) ds) 0 0) as [[v' c'] rest]. cbn [fst snd] in Hc. exists c'.
  destruct Hc as [-> Hr]. by rewrite Hr, Z.min_r by lia.
Qed.

Lemma read_numeral upper base sp sign v : number_base base -> Forall (fun c => is_char c CHAR_TYPE_SPACE = true) sp -> is_u64 v ->
  uacpi_string_to_integer (sp ++ sign_text sign ++ numeral upper (base_value base) v) base = (UACPI_STATUS_OK, signed sign v).
Proof.
  intros Hb Hsp Hv. destruct (numeral_digits base v Hb Hv) as (d & ds & E & Hds & Eh & _). unfold numeral. rewrite E.
  destruct (convert_number upper base (d :: ds) Hb Hds) as [c Ec]; [unfold is_u64 in Hv; lia|]. rewrite Eh in Ec.
  pose proof (number_base_bound base Hb). destruct (digit_starts upper d) as [S1 _]; [inv Hds; lia|].
  cbn [map] in *. rewrite string_to_integer_front by done.
  assert (detect_base base (hex_char upper d :: map (hex_char upper) ds) = (base, hex_char upper d :: map (hex_char upper) ds)) as -> by by destruct base.
  by rewrite Ec.
Qed.

(** C34: reading numbers. [uacpi_string_to_integer] reads back the numeral of every 64-bit number in base 8, 10 and 16, after any spaces and with or without
    a sign, a minus giving the two's complement; with UACPI_BASE_AUTO it takes the base from the prefix 0 or 0x. The
    digits of a number that does not fit into 64 bits give the largest one. *)
Theorem string_to_integer_roundtrip (upper : bool) (base : uacpi_base) (sp : list Z) (sign : option bool) (v : Z)
    (Hb : number_base base) (Hsp : Forall (fun c => is_char c CHAR_TYPE_SPACE = true) sp) (Hv : is_u64 v) :
  uacpi_string_to_integer (sp ++ sign_text sign ++ numeral upper (base_value base) v) base = (UACPI_STATUS_OK, signed sign v) /\
  uacpi_string_to_integer (sp ++ sign_text sign ++ base_prefix base ++ numeral upper (base_value base) v) UACPI_BASE_AUTO =
    (UACPI_STATUS_OK, signed sign v) /\
  forall d ds, Forall (fun d => 0 <= d < base_value base) (d :: ds) ->
    (uacpi_string_to_integer (sp ++ sign_text sign ++ map (hex_char upper) (d :: ds)) base).2 =
      signed sign (Z.min (2 ^ 64 - 1) (horner (base_value base) 0 (d :: ds))).
Proof.
  pose proof (number_base_bound base Hb) as Hbb. split; [by apply read_numeral|]. split.
  - destruct (numeral_digits base v Hb Hv) as (d & ds & E & Hds & Eh & Hz). unfold numeral. rewrite E.
    destruct (convert_number upper base (d :: ds) Hb Hds) as [c Ec]; [unfold is_u64 in Hv; lia|]. rewrite Eh in Ec.
    destruct (digit_starts upper d) as (S1 & S2 & S3); [inv Hds; lia|].
    destruct base; [done|..]; cbn [base_prefix app].
    + rewrite string_to_integer_front by done. unfold detect_base. cbn [consume_if_equals map]. change (to_lower 48 =? 48) with true.
      cbn iota. cbn [consume_if_equals]. rewrite (proj2 (Z.eqb_neq _ _) S2). cbn [map] in Ec. by rewrite Ec.
    + cbn [map] in *. rewrite string_to_integer_front by done. unfold detect_base. cbn [consume_if_equals].
      destruct (decide (d = 0)) as [->|Hd0]; [|rewrite (proj2 (Z.eqb_neq _ _) (S3 Hd0)); by rewrite Ec].
      specialize (Hz eq_refl). subst v. destruct ds as [|d' ds]; [by destruct upper|by vm_compute in E].
    + rewrite string_to_integer_front by done. unfold detect_base. cbn [consume_if_equals]. change (to_lower 48 =? 48) with true.
      cbn iota. cbn [consume_if_equals]. change (to_lower 120 =? 120) with true. cbn iota. by rewrite Ec.
  - intros e es He. inv He. destruct (digit_starts upper e ltac:(lia)) as (T1 & _ & _).
    assert (detect_base base (map (hex_char upper) (e :: es)) = (base, map (hex_char upper) (e :: es))) as Eb' by by destruct base.
    pose proof (convert_digits_spec upper base (e :: es) Hb ltac:(by constructor) 0 0 ltac:(unfold is_u64; lia)) as [Hc _].
    cbn [map] in *. rewrite string_to_integer_front by done. rewrite Eb'.
    destruct (convert_digits base (hex_char upper e :: map (hex_char upper) es) 0 0) as [[v1 c1] r1]. cbn [fst snd] in *. by rewrite Hc.
Qed.

Lemma string_to_integer_roundtrip_witness :
  uacpi_string_to_integer (chars "  -0xBEEF") UACPI_BASE_AUTO = (UACPI_STATUS_OK, 2 ^ 64 - 48879).
Proof.
  exact (proj1 (proj2 (string_to_integer_roundtrip true UACPI_BASE_HEX [32; 32] (Some true) 48879 ltac:(discriminate) ltac:(by repeat constructor)
    ltac:(split; [discriminate|reflexivity])))).
Defined.
