(* ===== verification/UacpiText.v ===== *)
(** * The text of a format

    What [uacpi_vsnprintf] of [UacpiFormat] writes: a format is a list of directives, each directive has
    a text for its arguments, and the buffer gets the texts in order, as far as they fit. *)

From Stdlib Require Import String.
From S2P Require Import Prelude Memory Tmpfs KernelApi Preserve UacpiFormat.

Local Open Scope list_scope.

(** ** Characters written *)

Definition emit (l : list Z) (fb : fmt_buf_state) : fmt_buf_state := fold_left (fun fb c => write_one c fb) l fb.

(** There is room in the counter. *)
Definition counts (l : list Z) (fb : fmt_buf_state) : Prop := 0 <= bytes_written fb /\ bytes_written fb + Z.of_nat (length l) < 2 ^ 64.

Lemma to_nat_nonpos x : x <= 0 -> Z.to_nat x = 0%nat.
Proof. lia. Qed.

Lemma emit_app l l' fb : emit (l ++ l') fb = emit l' (emit l fb).
Proof. apply fold_left_app. Qed.

Lemma emit_spec l : forall fb, counts l fb ->
  emit l fb = Fb (put_bytes (buffer fb) (bytes_written fb) (take (Z.to_nat (capacity fb - bytes_written fb)) l)) (capacity fb)
    (bytes_written fb + Z.of_nat (length l)).
Proof.
  induction l as [|c l IH]; intros fb [H1 H2]; [rewrite take_nil; cbn; rewrite Z.add_0_r; by destruct fb|]. cbn [length] in H2.
  change (emit (c :: l) fb) with (emit l (write_one c fb)).
  assert (bytes_written (write_one c fb) = bytes_written fb + 1) as Ew by (cbn; apply wrap64_small; lia).
  rewrite IH by (unfold counts; rewrite Ew; lia). rewrite Ew. cbn [capacity write_one buffer length]. f_equal; [|lia].
  destruct (Z.ltb_spec (bytes_written fb) (capacity fb)).
  - replace (Z.to_nat (capacity fb - bytes_written fb)) with (S (Z.to_nat (capacity fb - (bytes_written fb + 1)))) by lia. done.
  - rewrite !to_nat_nonpos by lia. done.
Qed.

Lemma emit_written l fb : counts l fb -> bytes_written (emit l fb) = bytes_written fb + Z.of_nat (length l).
Proof. intros H. by rewrite emit_spec. Qed.

Lemma counts_app l l' fb : counts (l ++ l') fb -> counts l fb /\ counts l' (emit l fb).
Proof.
  unfold counts. rewrite length_app. intros H. split; [lia|]. rewrite emit_written by (unfold counts; lia). lia.
Qed.

Lemma write_many_emit l fb : counts l fb -> write_many l fb = emit l fb.
Proof.
  intros H. rewrite emit_spec by done. destruct H as [H1 H2]. unfold write_many. rewrite wrap64_small by lia. f_equal.
  destruct (Z.ltb_spec (bytes_written fb) (capacity fb)); [|by rewrite to_nat_nonpos by lia].
  destruct (decide (Z.of_nat (length l) <= capacity fb - bytes_written fb)); [|f_equal; f_equal; lia].
  rewrite !take_ge by lia. done.
Qed.

Definition pad (n c : Z) : list Z := replicate (Z.to_nat n) c.

Lemma iter_emit n c : forall fb, Nat.iter n (write_one c) fb = emit (replicate n c) fb.
Proof. induction n as [|n IH]; intros fb; [done|]. rewrite Nat.iter_succ_r, IH. done. Qed.

Lemma write_padding_emit fm n fb : 0 <= n -> write_padding fm n fb = emit (pad (min_width fm - n) (if left_justify fm then 32 else pad_char fm)) fb.
Proof.
  intros Hn. unfold write_padding, pad. destruct (Z.leb_spec (min_width fm) n); [by rewrite to_nat_nonpos by lia|]. apply iter_emit.
Qed.

(** ** Integers *)

Definition alternate_text (fm : fmt_spec) : list Z :=
  if alternate_form fm then if base fm =? 16 then [48; if uppercase fm then 88 else 120] else if base fm =? 8 then [48] else [] else [].

(** The sign or the character that stands for it, which the width does not count, then the digits padded to the width. *)
Definition integer_text (fm : fmt_spec) (v : Z) : list Z :=
  let sign := if v <? 0 then [45] else if prepend fm then [prepend_char fm] else [] in
  let body := alternate_text fm ++ numeral (uppercase fm) (base fm) (Z.abs v) in
  let width := min_width fm - Z.of_nat (length body) in
  sign ++ (if left_justify fm then body ++ pad width 32 else pad width (pad_char fm) ++ body).

Definition base_ok (b : Z) : Prop := b = 8 \/ b = 10 \/ b = 16.

Lemma repr_char_digit upper b d : base_ok b -> 0 <= d < b -> repr_char upper b d = hex_char upper d.
Proof.
  intros Hb Hd. unfold repr_char. destruct Hb as [->|[->| ->]]; cbn [Z.eqb Pos.eqb orb]; [..|done];
    revert d Hd; assert (forall d, 0 <= d < 16 -> d < 10 -> d + 48 = hex_char upper d) as H; try (intros; apply H; lia);
    apply (digit_cases (fun d => d < 10 -> d + 48 = hex_char upper d)); destruct upper; repeat constructor; vm_compute; congruence.
Qed.

Lemma repr_digits_spec upper b : base_ok b -> forall n k v acc, (n < k)%nat -> 0 <= v < b ^ Z.of_nat n -> (length acc + n <= 32)%nat ->
  repr_digits k upper b v acc = Ok ((if v =? 0 then [] else map (hex_char upper) (to_digits n b v)) ++ acc).
Proof.
  intros Hb. assert (8 <= b) as Hb8 by (unfold base_ok in Hb; lia).
  induction n as [|n IH]; intros k v acc Hk Hv Hl; (destruct k as [|k]; [lia|]); cbn [repr_digits].
  { cbn in Hv. by assert (v = 0) as -> by lia. }
  destruct (Z.eqb_spec v 0); [done|]. rewrite Nat2Z.inj_succ, Z.pow_succ_r in Hv by lia.
  assert (0 <= v mod b < b) by (apply Z.mod_pos_bound; lia). unfold put_repr, REPR_BUFFER_SIZE.
  rewrite (proj2 (Nat.ltb_lt _ _)) by lia. cbn [mbind outcome_bind]. rewrite IH; [|lia| |cbn [length]; lia].
  2: { split; [apply Z.div_pos; lia|apply Z.div_lt_upper_bound; lia]. }
  rewrite repr_char_digit by done. cbn [to_digits]. destruct (Z.ltb_spec v b).
  - rewrite Z.div_small, Z.mod_small by lia. done.
  - assert (1 <= v / b) by (apply Z.div_le_lower_bound; lia). rewrite (proj2 (Z.eqb_neq _ _)) by lia. rewrite map_app, <- app_assoc. done.
Qed.

Lemma to_digits_length n : forall b v, (length (to_digits n b v) <= n)%nat.
Proof. induction n as [|n IH]; intros b v; cbn [to_digits]; [done|]. case_match; [cbn; lia|]. rewrite length_app. cbn. specialize (IH b (v / b)). lia. Qed.

Lemma numeral_zero upper b : base_ok b -> numeral upper b 0 = [48].
Proof. by intros [->|[->| ->]]; destruct upper. Qed.

(** The number the code takes a 64-bit value for. *)
Definition value_of (fm : fmt_spec) (v : Z) : Z := if is_signed fm && (2 ^ 63 <=? v) then v - 2 ^ 64 else v.

Lemma small_pow b : base_ok b -> 2 ^ 64 <= b ^ Z.of_nat DIGITS.
Proof. by intros [->|[->| ->]]; vm_compute. Qed.

(** The characters in [repr_buffer]. *)
Lemma repr_buffer_text fm v : base_ok (base fm) -> is_u64 v ->
  (repr ← repr_digits 65 (uppercase fm) (base fm) v [];
   repr ← (if (length repr =? 0)%nat then put_repr 48 repr else Ok repr);
   if alternate_form fm then
     if base fm =? 16 then repr ← put_repr (if uppercase fm then 88 else 120) repr; put_repr 48 repr
     else if base fm =? 8 then put_repr 48 repr else Ok repr
   else Ok repr) = Ok (alternate_text fm ++ numeral (uppercase fm) (base fm) v).
Proof.
  intros Hb Hv. pose proof (small_pow _ Hb). unfold is_u64 in Hv.
  rewrite (repr_digits_spec _ _ Hb DIGITS) by first [lia | unfold DIGITS; cbn [length]; lia]. rewrite app_nil_r. cbn [mbind outcome_bind].
  set (l := if v =? 0 then [] else _). assert ((if (length l =? 0)%nat then put_repr 48 l else Ok l) = Ok (numeral (uppercase fm) (base fm) v)) as ->.
  { unfold l. destruct (Z.eqb_spec v 0) as [->|Hv0]; [by rewrite numeral_zero|]. fold (numeral (uppercase fm) (base fm) v).
    destruct (numeral (uppercase fm) (base fm) v) eqn:E; [|done]. unfold numeral in E. apply map_eq_nil in E.
    destruct (to_digits_head (base fm) DIGITS ltac:(unfold base_ok in Hb; lia) ltac:(unfold DIGITS; lia) v ltac:(lia)) as (d & ds & E' & _). congruence. }
  cbn [mbind outcome_bind]. unfold alternate_text.
  assert (length (numeral (uppercase fm) (base fm) v) <= 22)%nat as Hl by (unfold numeral; rewrite length_map; apply to_digits_length).
  unfold put_repr, REPR_BUFFER_SIZE. destruct (alternate_form fm); [|done]. destruct (base fm =? 16); [|destruct (base fm =? 8); [|done]].
  - rewrite (proj2 (Nat.ltb_lt _ _)) by lia. cbn [mbind outcome_bind length]. by rewrite (proj2 (Nat.ltb_lt _ _)) by lia.
  - by rewrite (proj2 (Nat.ltb_lt _ _)) by lia.
Qed.

Lemma write_integer_text fm v fb : base_ok (base fm) -> is_u64 v -> counts (integer_text fm (value_of fm v)) fb ->
  write_integer fm v fb = Ok (emit (integer_text fm (value_of fm v)) fb).
Proof.
  intros Hb Hv Hc. unfold is_u64 in Hv. unfold write_integer. set (negative := is_signed fm && (2 ^ 63 <=? v)) in *. cbn zeta.
  set (w := if negative then wrap64 (- v) else v).
  assert (w = Z.abs (value_of fm v) /\ is_u64 w /\ (value_of fm v <? 0) = negative) as (Ew & Hw & En).
  { unfold w, value_of, is_u64. fold negative. destruct negative eqn:E; unfold negative in E.
    - apply andb_true_iff in E as [_ E%Z.leb_le]. unfold wrap64. rewrite Z.mod_opp_l_nz, Z.mod_small by (rewrite ?Z.mod_small by lia; lia).
      split_and!; lia.
    - split_and!; lia. }
  unfold integer_text in *. cbn zeta in *. rewrite En, <- Ew in *. set (body := alternate_text fm ++ numeral (uppercase fm) (base fm) w) in *.
  set (sign := if negative then [45] else if prepend fm then [prepend_char fm] else []) in *.
  assert ((if prepend fm || negative then write_one (if negative then 45 else prepend_char fm) fb else fb) = emit sign fb) as ->.
  { unfold sign. destruct negative; [by rewrite orb_true_r|]. by destruct (prepend fm). }
  pose proof (repr_buffer_text fm w Hb Hw) as Hr. fold body in Hr.
  apply bind_ok in Hr as (r1 & -> & Hr). cbn [mbind outcome_bind] in *. apply bind_ok in Hr as (r2 & -> & Hr).
  cbn [mbind outcome_bind] in *. rewrite Hr. cbn [mbind outcome_bind]. apply counts_app in Hc as [Hc1 Hc2]. rewrite emit_app. f_equal.
  destruct (left_justify fm) eqn:El; apply counts_app in Hc2 as [Hc2 Hc3]; rewrite emit_app, write_padding_emit, El by lia.
  - by rewrite write_many_emit.
  - by rewrite write_many_emit.
Qed.

(** ** Formats *)

Inductive arg_size : Type := Size_hh | Size_h | Size_int | Size_l | Size_ll | Size_z.

Definition size_text (z : arg_size) : list Z :=
  match z with Size_hh => [104; 104] | Size_h => [104] | Size_int => [] | Size_l => [108] | Size_ll => [108; 108] | Size_z => [122] end.
Definition size_bits (z : arg_size) : Z := match z with Size_hh => 8 | Size_h => 16 | Size_int => 32 | _ => 64 end.

Inductive specifier : Type :=
| Char
| Str
| Pointer
| Signed (z : arg_size) (i : bool)
| Octal (z : arg_size)
| Unsigned (z : arg_size)
| Hex (z : arg_size) (upper : bool).

Definition specifier_text (s : specifier) : list Z :=
  match s with
  | Char => [99] | Str => [115] | Pointer => [112]
  | Signed z i => size_text z ++ [if i then 105 else 100]
  | Octal z => size_text z ++ [111]
  | Unsigned z => size_text z ++ [117]
  | Hex z upper => size_text z ++ [if upper then 88 else 120]
  end.

(** A number in the format, or a star. *)
Inductive field : Type := Number (n : Z) | Star.

Definition field_text (o : option field) : list Z :=
  match o with None => [] | Some (Number n) => numeral false 10 n | Some Star => [42] end.

Record directive : Type := Directive {
  d_flags : list Z;
  d_width : option field;
  d_precision : option field;
  d_specifier : specifier
}.

Definition directive_text (d : directive) : list Z :=
  37 :: d_flags d ++ field_text (d_width d) ++ (match d_precision d with None => [] | _ => 46 :: field_text (d_precision d) end) ++
  specifier_text (d_specifier d).

(** A leading zero is a flag, not a width. *)
Record directive_ok (d : directive) : Prop := {
  do_flags : Forall (fun c => c ∈ chars "+- 0#") (d_flags d);
  do_width n : d_width d = Some (Number n) -> 0 < n < 2 ^ 64;
  do_precision n : d_precision d = Some (Number n) -> is_u64 n
}.

(** The text up to a directive or %%, [None]. *)
Definition format : Type := list (list Z * option directive) * list Z.

Definition item_text (o : option directive) : list Z := match o with None => [37; 37] | Some d => directive_text d end.
Definition format_text (f : format) : list Z := concat (map (fun i => i.1 ++ item_text i.2) f.1) ++ f.2.
Definition literal (l : list Z) : Prop := Forall (fun c => c <> 37) l.
Definition format_ok (f : format) : Prop :=
  Forall (fun i => literal i.1 /\ match i.2 with None => True | Some d => directive_ok d end) f.1 /\ literal f.2.

(** ** What a format stands for *)

(** The value of a width or a precision, and the arguments left. *)
Definition field_value (o : option field) (args : list Z) : option (Z * list Z) :=
  match o with
  | None => Some (0, args)
  | Some (Number n) => Some (n, args)
  | Some Star => match args with a :: args => Some (signed_arg 32 a, args) | [] => None end
  end.

Definition directive_spec (d : directive) (w p : Z) : fmt_spec :=
  let fm := set_min_width w (fold_left (fun fm c => set_format_flag c fm) (d_flags d) fmt_spec_start) in
  match d_precision d with None => fm | Some _ => set_precision p fm end.

(** The low bits of an argument as a signed number. *)
Definition low_signed (n a : Z) : Z := let x := a mod 2 ^ n in if x <? 2 ^ (n - 1) then x else x - 2 ^ n.

Section Meaning.
Context (m : mem).

(** [l] are the characters of the string at [a], as many as the precision allows. *)
Definition string_text (fm : fmt_spec) (a : Z) (l : list Z) : Prop :=
  Forall (fun c => c <> 0) l /\ (forall i c, l !! i = Some c -> string_char m a (Z.of_nat i) = c) /\
  (if has_precision fm
   then Z.of_nat (length l) <= precision fm /\ (Z.of_nat (length l) < precision fm -> string_char m a (Z.of_nat (length l)) = 0)
   else string_char m a (Z.of_nat (length l)) = 0).

Inductive specifier_means (fm : fmt_spec) (a : Z) : specifier -> list Z -> Prop :=
| means_char : specifier_means fm a Char [wrap8 a]
| means_string l : string_text fm a l -> specifier_means fm a Str (l ++ pad (min_width fm - Z.of_nat (length l)) 32)
| means_pointer : specifier_means fm a Pointer (integer_text (set_pad 48 (set_min_width 16 (set_base 16 false fm))) a)
| means_signed z i : specifier_means fm a (Signed z i) (integer_text fm (low_signed (size_bits z) a))
| means_octal z : specifier_means fm a (Octal z) (integer_text (set_base 8 false fm) (a mod 2 ^ size_bits z))
| means_unsigned z : specifier_means fm a (Unsigned z) (integer_text fm (a mod 2 ^ size_bits z))
| means_hex z upper : specifier_means fm a (Hex z upper) (integer_text (set_base 16 upper fm) (a mod 2 ^ size_bits z)).

(** Every directive takes an argument, after those of its stars. *)
Inductive item_means : option directive -> list Z -> list Z -> list Z -> Prop :=
| means_percent args : item_means None args [37] args
| means_directive d args w args1 p a args2 l :
    field_value (d_width d) args = Some (w, args1) -> field_value (d_precision d) args1 = Some (p, a :: args2) ->
    specifier_means (directive_spec d w p) a (d_specifier d) l -> item_means (Some d) args l args2.

Inductive format_means : format -> list Z -> list Z -> Prop :=
| means_end l args : format_means ([], l) args l
| means_item t o items l args text args' rest :
    item_means o args text args' -> format_means (items, l) args' rest -> format_means ((t, o) :: items, l) args (t ++ text ++ rest).
End Meaning.

(** ** Reading a directive *)

Lemma consume1 c s t : consume (c :: s) [t] = if c =? t then Some s else None.
Proof.
  unfold consume. cbn [length string_has_at_least]. change (wrap64 (Z.of_nat 1 - 1) =? 0) with true. cbn [andb take drop].
  destruct (Z.eqb_spec c t) as [->|]; [by rewrite bool_decide_true|]. rewrite bool_decide_false by congruence. done.
Qed.

Lemma consume2 a b s x y : consume (a :: b :: s) [x; y] = if (a =? x) && (b =? y) then Some s else None.
Proof.
  unfold consume. cbn [length string_has_at_least]. change (wrap64 (Z.of_nat 2 - 1)) with 1. change (wrap64 (1 - 1) =? 0) with true. cbn [Z.eqb andb take drop].
  destruct (Z.eqb_spec a x) as [->|], (Z.eqb_spec b y) as [->|]; cbn [andb]; [by rewrite bool_decide_true|rewrite bool_decide_false by congruence; done..].
Qed.

Lemma consume2_ne a s x y : a <> x -> consume (a :: s) [x; y] = None.
Proof. intros H. unfold consume. rewrite bool_decide_false by (cbn; congruence). by rewrite andb_false_r. Qed.

(** A character that neither continues the flags nor a number. *)
Definition plain (c : Z) : bool := negb (is_one_of c (chars "+- 0#*")) && ((c <? 48) || (57 <? c)).

Lemma plain_cases c : plain c = true -> is_one_of c (chars "+- 0#") = false /\ c <> 42 /\ (c <? 48) || (57 <? c) = true.
Proof.
  unfold plain, is_one_of. cbn [chars existsb]. rewrite andb_true_iff, negb_true_iff, !orb_false_iff, !Z.eqb_neq. intros ((H1 & H2 & H3 & H4 & H5 & H6 & _) & H).
  by split_and!.
Qed.

Lemma format_flags_app flags c s : Forall (fun c => c ∈ chars "+- 0#") flags -> is_one_of c (chars "+- 0#") = false -> forall fm,
  format_flags (flags ++ c :: s) fm = (fold_left (fun fm c => set_format_flag c fm) flags fm, c :: s).
Proof.
  intros Hf Hc. induction Hf as [|x flags Hx _ IH]; intros fm; cbn [app format_flags fold_left]; [by rewrite Hc|].
  assert (is_one_of x (chars "+- 0#") = true) as ->; [|by apply IH].
  apply existsb_exists. exists x. split; [by apply list_elem_of_In|apply Z.eqb_refl].
Qed.

Lemma decimal_char d : 0 <= d < 10 -> 48 <= hex_char false d <= 57.
Proof.
  intros Hd. assert ((10 <=? d) || (48 <=? hex_char false d) && (hex_char false d <=? 57) = true) as H; [|lia].
  apply (digit_cases (fun d => (10 <=? d) || (48 <=? hex_char false d) && (hex_char false d <=? 57) = true)); [by repeat constructor|lia].
Qed.

Lemma consume_digits_app ds c s : Forall (fun d => 0 <= d < 10) ds -> (c <? 48) || (57 <? c) = true ->
  consume_digits (map (hex_char false) ds ++ c :: s) = (map (hex_char false) ds, c :: s).
Proof.
  intros Hd Hc. induction Hd as [|d ds Hd _ IH]; cbn [map app consume_digits]; [by rewrite Hc|].
  pose proof (decimal_char d Hd). assert ((hex_char false d <? 48) || (57 <? hex_char false d) = false) as -> by lia. by rewrite IH.
Qed.

Lemma parse_number_text n c s mode old : is_u64 n -> (c <? 48) || (57 <? c) = true ->
  parse_number (numeral false 10 n ++ c :: s) mode old = Some (n, c :: s).
Proof.
  intros Hn Hc. pose proof (read_numeral false UACPI_BASE_DEC [] None n ltac:(discriminate) ltac:(constructor) Hn) as Hr. cbn [app sign_text base_value] in Hr.
  destruct (numeral_digits UACPI_BASE_DEC n ltac:(discriminate) Hn) as (d & ds & E & Hds & _). cbn [base_value] in *. unfold parse_number, numeral in *.
  rewrite E in *. rewrite consume_digits_app by done. cbn [map] in *. by rewrite Hr.
Qed.

Lemma format_width_text w c s args v args1 fm : plain c = true -> min_width fm = 0 -> (forall n, w = Some (Number n) -> 0 < n < 2 ^ 64) ->
  field_value w args = Some (v, args1) -> format_width (field_text w ++ c :: s) args fm = Ok (Some (set_min_width v fm, c :: s, args1)).
Proof.
  intros Hc Hm Hn Hv. destruct (plain_cases c Hc) as (_ & Hc2 & Hc3). unfold format_width. destruct w as [[n|]|]; cbn [field_text field_value] in *.
  - injection Hv as <- <-. specialize (Hn n eq_refl). assert (is_u64 n) as Hu by (unfold is_u64; lia).
    assert (consume (numeral false 10 n ++ c :: s) [42] = None) as ->; [|by rewrite parse_number_text].
    destruct (numeral_digits UACPI_BASE_DEC n ltac:(discriminate) Hu) as (d & ds & E & Hds & _). cbn [base_value] in *. unfold numeral. rewrite E.
    cbn [map app]. rewrite consume1. inv Hds. pose proof (decimal_char d ltac:(done)). by rewrite (proj2 (Z.eqb_neq _ _)) by lia.
  - destruct args as [|a args]; [done|]. injection Hv as <- <-. cbn [app]. by rewrite consume1.
  - injection Hv as <- <-. cbn [app]. rewrite consume1, (proj2 (Z.eqb_neq _ _)) by done. unfold parse_number. cbn [consume_digits]. by rewrite Hc3, Hm.
Qed.

Definition precision_text (o : option field) : list Z := match o with None => [] | _ => 46 :: field_text o end.

Lemma format_precision_text p c s args v args1 fm : plain c = true -> c <> 46 -> (forall n, p = Some (Number n) -> is_u64 n) ->
  field_value p args = Some (v, args1) ->
  format_precision (precision_text p ++ c :: s) args fm =
    Ok (Some (match p with None => fm | Some _ => set_precision v fm end, c :: s, args1)).
Proof.
  intros Hc Hdot Hn Hv. destruct (plain_cases c Hc) as (_ & Hc2 & Hc3). unfold format_precision. destruct p as [[n|]|]; cbn [precision_text field_text field_value app] in *.
  - injection Hv as <- <-. specialize (Hn n eq_refl). rewrite consume1, Z.eqb_refl.
    assert (consume (numeral false 10 n ++ c :: s) [42] = None) as ->; [|by rewrite parse_number_text].
    destruct (numeral_digits UACPI_BASE_DEC n ltac:(discriminate) Hn) as (d & ds & E & Hds & _). cbn [base_value] in *. unfold numeral. rewrite E.
    cbn [map app]. rewrite consume1. inv Hds. pose proof (decimal_char d ltac:(done)). by rewrite (proj2 (Z.eqb_neq _ _)) by lia.
  - destruct args as [|a args]; [done|]. injection Hv as <- <-. by rewrite consume1, Z.eqb_refl, consume1.
  - injection Hv as <- <-. by rewrite consume1, (proj2 (Z.eqb_neq _ _)).
Qed.

(** ** Writing a directive *)

Lemma signed_arg_value fm n a : 1 <= n <= 64 -> is_signed fm = true -> is_u64 (signed_arg n a) /\ value_of fm (signed_arg n a) = low_signed n a.
Proof.
  intros Hn Hs. unfold signed_arg, low_signed, value_of, is_u64. rewrite Hs. cbn zeta. pose proof (Z.mod_pos_bound a (2 ^ n) ltac:(lia)) as Hm.
  assert (2 ^ n = 2 * 2 ^ (n - 1)) as E by (rewrite <- Z.pow_succ_r by lia; f_equal; lia).
  assert (2 ^ (n - 1) <= 2 ^ 63) by (apply Z.pow_le_mono_r; lia). set (x := a mod 2 ^ n) in *. cbn [andb].
  destruct (Z.ltb_spec x (2 ^ (n - 1))).
  - rewrite (proj2 (Z.leb_gt _ _)) by lia. lia.
  - assert (wrap64 (x - 2 ^ n) = x - 2 ^ n + 2 ^ 64) as Ew.
    { unfold wrap64. rewrite <- (Z.mod_add _ 1) by lia. apply Z.mod_small. lia. }
    rewrite Ew, (proj2 (Z.leb_le _ _)) by lia. lia.
Qed.

Lemma unsigned_arg_value fm n a : 0 <= n <= 64 -> is_signed fm = false -> is_u64 (unsigned_arg n a) /\ value_of fm (unsigned_arg n a) = a mod 2 ^ n.
Proof.
  intros Hn Hs. unfold unsigned_arg, value_of, is_u64. rewrite Hs. pose proof (Z.mod_pos_bound a (2 ^ n) ltac:(lia)).
  assert (2 ^ n <= 2 ^ 64) by (apply Z.pow_le_mono_r; lia). split; [lia|done].
Qed.

(** What the flags, the width and the precision leave as it is. *)
Record fresh (fm : fmt_spec) : Prop := {
  fr_signed : is_signed fm = false;
  fr_upper : uppercase fm = false;
  fr_base : base fm = 10
}.

Lemma set_format_flag_fresh c fm : fresh fm /\ min_width fm = 0 -> fresh (set_format_flag c fm) /\ min_width (set_format_flag c fm) = 0.
Proof. intros [[H1 H2 H3] H4]. unfold set_format_flag. repeat case_match; by repeat split. Qed.

Lemma flags_fresh flags : forall fm, fresh fm /\ min_width fm = 0 ->
  let fm' := fold_left (fun fm c => set_format_flag c fm) flags fm in fresh fm' /\ min_width fm' = 0.
Proof. induction flags as [|c flags IH]; intros fm H; cbn [fold_left]; [done|]. by apply IH, set_format_flag_fresh. Qed.

Lemma directive_spec_fresh d w p : fresh (directive_spec d w p).
Proof.
  unfold directive_spec. destruct (flags_fresh (d_flags d) fmt_spec_start ltac:(by repeat split)) as [[H1 H2 H3] _].
  destruct (d_precision d); by split.
Qed.

Lemma signed_conversion bits (i : bool) rest a args fm fb : 1 <= bits <= 64 -> fresh fm -> counts (integer_text fm (low_signed bits a)) fb ->
  integer_conversion bits ((if i then 105 else 100) :: rest) (a :: args) fm fb =
    Ok (Some (rest, args, emit (integer_text fm (low_signed bits a)) fb)).
Proof.
  intros Hb [_ _ H3] Hc. unfold integer_conversion. rewrite !consume1.
  destruct (signed_arg_value (set_signed true fm) bits a Hb eq_refl) as [Hu Hv].
  assert (write_integer (set_signed true fm) (signed_arg bits a) fb = Ok (emit (integer_text fm (low_signed bits a)) fb)) as E.
  { rewrite write_integer_text; rewrite ?Hv; try done. right. left. exact H3. }
  destruct i; cbn [Z.eqb Pos.eqb va_arg mbind outcome_bind]; by rewrite E.
Qed.

Lemma unsigned_conversion bits c rest a args fm fb : 0 <= bits <= 64 -> fresh fm -> c ∈ chars "oxXu" ->
  counts (integer_text (set_base (base_from_specifier c) (is_uppercase_specifier c) fm) (a mod 2 ^ bits)) fb ->
  integer_conversion bits (c :: rest) (a :: args) fm fb =
    Ok (Some (rest, args, emit (integer_text (set_base (base_from_specifier c) (is_uppercase_specifier c) fm) (a mod 2 ^ bits)) fb)).
Proof.
  intros Hb [H1 _ _] Hin Hc. set (fm' := set_base _ _ fm) in *.
  destruct (unsigned_arg_value fm' bits a Hb H1) as [Hu Hv].
  assert (write_integer fm' (unsigned_arg bits a) fb = Ok (emit (integer_text fm' (a mod 2 ^ bits)) fb)) as E.
  { rewrite write_integer_text; rewrite ?Hv; try done. change (base_ok (base_from_specifier c)). unfold base_from_specifier, base_ok. repeat case_match; auto. }
  unfold integer_conversion. rewrite !consume1. change (chars "oxXu") with [111; 120; 88; 117] in *.
  rewrite !elem_of_cons, elem_of_nil in Hin.
  assert ((c =? 100) = false /\ (c =? 105) = false /\ is_one_of c [111; 120; 88; 117] = true) as (-> & -> & Ho).
  { by repeat (destruct Hin as [-> |Hin]). }
  cbn [consume_one_of]. rewrite Ho. cbn [va_arg mbind outcome_bind]. fold fm'. by rewrite E.
Qed.

Lemma base_ten fm v : fresh fm -> integer_text (set_base 10 false fm) v = integer_text fm v.
Proof. intros [_ H2 H3]. unfold integer_text, alternate_text. cbn. by rewrite H2, H3. Qed.

Lemma write_string_text m a fm l : Forall (fun c => c <> 0) l -> forall n i fb, (length l < n)%nat -> 
  (forall j c, l !! j = Some c -> string_char m a (i + Z.of_nat j) = c) ->
  (if has_precision fm
   then i + Z.of_nat (length l) <= precision fm /\ (i + Z.of_nat (length l) < precision fm -> string_char m a (i + Z.of_nat (length l)) = 0)
   else string_char m a (i + Z.of_nat (length l)) = 0) ->
  write_string m n a i fm fb = Ok (i + Z.of_nat (length l), emit l fb).
Proof.
  intros Hz. induction Hz as [|c l Hc _ IH]; intros n i fb Hn Hl He; (destruct n as [|n]; [cbn in Hn; lia|]); cbn [write_string].
  - cbn [length] in *. rewrite Z.add_0_r in *. destruct (has_precision fm); cbn [negb orb].
    + destruct (Z.ltb_spec i (precision fm)); [|done]. destruct He as [_ He]. by rewrite He.
    + by rewrite He.
  - cbn [length] in *. assert (string_char m a i = c) as -> by (rewrite <- (Z.add_0_r i); by apply (Hl 0%nat)).
    rewrite (proj2 (Z.eqb_neq _ _) Hc).
    assert (negb (has_precision fm) || (i <? precision fm) = true) as -> by (destruct (has_precision fm); cbn [negb orb]; [apply Z.ltb_lt; lia|done]).
    rewrite IH; [f_equal; f_equal; lia|lia| |].
    + intros j c' Hj. rewrite <- (Hl (S j) c' Hj). f_equal. lia.
    + by replace (i + 1 + Z.of_nat (length l)) with (i + Z.of_nat (S (length l))) by lia.
Qed.

Ltac reads :=
  change (chars "c") with [99]; change (chars "s") with [115]; change (chars "p") with [112]; change (chars "hh") with [104; 104];
  change (chars "h") with [104]; change (chars "ll") with [108; 108]; change (chars "z") with [122]; change (chars "l") with [108];
  repeat (first [rewrite consume1 | rewrite consume2 | rewrite consume2_ne by done]; cbn [Z.eqb Pos.eqb andb]).

Ltac letter := apply (bool_decide_unpack _); by vm_compute.

(** The sizes lead to the same conversion. *)
Lemma conversion_integer m fuel z c rest args fm fb : c ∈ chars "diouxX" ->
  conversion m fuel (size_text z ++ c :: rest) args fm fb = integer_conversion (size_bits z) (c :: rest) args fm fb.
Proof.
  intros Hc. change (chars "diouxX") with [100; 105; 111; 117; 120; 88] in Hc. rewrite !elem_of_cons, elem_of_nil in Hc.
  repeat (destruct Hc as [->|Hc]); try done; destruct z; cbn [size_text size_bits app]; unfold conversion; reads; done.
Qed.

Lemma conversion_text m fuel fm sp a args rest fb l : fresh fm -> is_u64 a -> specifier_means m fm a sp l -> counts l fb -> (length l < fuel)%nat ->
  conversion m fuel (specifier_text sp ++ rest) (a :: args) fm fb = Ok (Some (rest, args, emit l fb)).
Proof.
  intros Hf Ha Hm Hc Hl. assert (forall z, 1 <= size_bits z <= 64) as Hz by (intros []; cbn; lia).
  destruct Hm as [|l (S1 & S2 & S3)| |z i|z|z|z upper]; cbn [specifier_text app].
  - unfold conversion. by reads.
  - unfold conversion. reads. cbn [va_arg mbind outcome_bind]. unfold string_conversion.
    rewrite length_app in Hl. rewrite (write_string_text m a fm l S1) by (done || lia). rewrite Z.add_0_l. cbn [mbind outcome_bind].
    rewrite iter_emit, emit_app. done.
  - unfold conversion. reads. cbn [va_arg mbind outcome_bind]. rewrite (fr_upper _ Hf).
    assert (forall fm', is_signed fm' = false -> value_of fm' a = a) as Hv by (intros fm' E; unfold value_of; by rewrite E).
    rewrite write_integer_text; rewrite ?Hv; try done; try apply (fr_signed _ Hf). right. right. done.
  - rewrite <- app_assoc. cbn [app]. rewrite conversion_integer by (destruct i; letter). by apply signed_conversion.
  - rewrite <- app_assoc. cbn [app]. rewrite conversion_integer by letter. specialize (Hz z). apply (unsigned_conversion _ 111); [lia|done|letter|done].
  - rewrite <- app_assoc. cbn [app]. rewrite conversion_integer by letter. specialize (Hz z). rewrite <- base_ten in * by done.
    apply (unsigned_conversion _ 117); [lia|done|letter|done].
  - rewrite <- app_assoc. cbn [app]. rewrite conversion_integer by (destruct upper; letter). specialize (Hz z).
    destruct upper; [apply (unsigned_conversion _ 88)|apply (unsigned_conversion _ 120)]; first [lia|done|letter].
Qed.

(** ** A directive *)

Lemma specifier_head sp : exists c s, specifier_text sp = c :: s /\ plain c = true /\ c <> 46 /\ c <> 37.
Proof. destruct sp as [| | |[] []|[]|[]|[] []]; eexists _, _; (split; [reflexivity|]); by vm_compute. Qed.

Lemma precision_head p c s : plain c = true -> c <> 37 -> exists c' s', precision_text p ++ c :: s = c' :: s' /\ plain c' = true /\ c' <> 37.
Proof. intros H1 H2. destruct p; cbn [precision_text app]; [by eexists 46, _|by eexists c, _]. Qed.

Lemma width_head w c s : plain c = true -> c <> 37 -> (forall n, w = Some (Number n) -> 0 < n < 2 ^ 64) ->
  exists c' s', field_text w ++ c :: s = c' :: s' /\ is_one_of c' (chars "+- 0#") = false /\ c' <> 37.
Proof.
  intros H1 H2 Hw. destruct w as [[n|]|]; cbn [field_text app].
  - specialize (Hw n eq_refl). destruct (numeral_digits UACPI_BASE_DEC n ltac:(discriminate) ltac:(unfold is_u64; lia)) as (d & ds & E & Hds & _ & Hz).
    cbn [base_value] in *. unfold numeral. rewrite E. cbn [map app]. eexists _, _. split; [reflexivity|]. inv Hds.
    assert (d <> 0) as Hd0 by (intros ->; lia). pose proof (decimal_char d ltac:(done)).
    assert (hex_char false d <> 48) by (pose proof (digit_starts false d ltac:(lia)) as (_ & _ & Hs); intros E'; apply (Hs Hd0); by rewrite E').
    split; [|lia]. unfold is_one_of. change (chars "+- 0#") with [43; 45; 32; 48; 35]. cbn [existsb]. rewrite !(proj2 (Z.eqb_neq _ _)) by lia. done.
  - by eexists 42, _.
  - exists c, s. destruct (plain_cases c H1) as (H & _). done.
Qed.

Lemma field_value_args (P : Z -> Prop) o args v args' : field_value o args = Some (v, args') -> Forall P args -> Forall P args'.
Proof.
  destruct o as [[n|]|]; cbn [field_value]; [by intros [= _ <-]| |by intros [= _ <-]]. destruct args as [|a args]; [done|]. intros [= _ <-] H. by inv H.
Qed.

Lemma item_means_args m (P : Z -> Prop) o args l args' : item_means m o args l args' -> Forall P args -> Forall P args'.
Proof.
  intros Hm. destruct Hm as [|d args w args1 p a args2 l Hw Hp _]; [done|]. intros H.
  pose proof (field_value_args _ _ _ _ _ Hp (field_value_args _ _ _ _ _ Hw H)) as H'. by inv H'.
Qed.

Lemma format_one_text m fuel o args text args' rest fb :
  match o with None => True | Some d => directive_ok d end -> Forall is_u64 args -> item_means m o args text args' -> counts text fb ->
  (length text < fuel)%nat -> format_one m fuel (item_text o ++ rest) args fb = Ok (Some (rest, args', emit text fb)).
Proof.
  intros Ho Ha Hm Hc Hl. destruct Hm as [args|d args w args1 p a args2 l Hw Hp Hs]; cbn [item_text app].
  { unfold format_one. change (chars "%%") with [37; 37]. by rewrite consume2. }
  destruct Ho as [O1 O2 O3]. unfold directive_text. fold (precision_text (d_precision d)).
  destruct (specifier_head (d_specifier d)) as (c & s & Es & Pc & Nd & Np).
  rewrite <- !app_comm_cons, <- !app_assoc, Es, <- app_comm_cons.
  destruct (precision_head (d_precision d) c (s ++ rest) Pc Np) as (c1 & s1 & E1 & Pc1 & N1).
  destruct (width_head (d_width d) c1 s1 Pc1 N1 O2) as (c2 & s2 & E2 & F2 & N2).
  assert (exists c3 s3, d_flags d ++ c2 :: s2 = c3 :: s3 /\ c3 <> 37) as (c3 & s3 & E3 & N3).
  { destruct O1 as [|x flags Hx _]; [by exists c2, s2|]. exists x, (flags ++ c2 :: s2). split; [done|]. intros ->. revert Hx. letter. }
  unfold format_one. change (chars "%%") with [37; 37]. rewrite E1, E2, E3, consume2. cbn [Z.eqb Pos.eqb andb]. rewrite (proj2 (Z.eqb_neq _ _) N3).
  cbn [drop]. rewrite <- E3, format_flags_app by done. rewrite <- E2.
  destruct (flags_fresh (d_flags d) fmt_spec_start ltac:(by repeat split)) as [_ Hmw].
  rewrite (format_width_text _ _ _ _ w args1) by done. cbn [mbind outcome_bind]. rewrite <- E1.
  rewrite (format_precision_text _ _ _ _ p (a :: args2)) by done. cbn [mbind outcome_bind].
  fold (directive_spec d w p). rewrite app_comm_cons, <- Es. apply conversion_text; try done; [apply directive_spec_fresh|].
  pose proof (field_value_args _ _ _ _ _ Hp (field_value_args _ _ _ _ _ Hw Ha)) as H. by inv H.
Qed.

(** ** A format *)

Lemma next_conversion l s : literal l -> find_next_conversion (l ++ 37 :: s) = (l, Some (37 :: s)).
Proof.
  induction 1 as [|c l Hc _ IH]; [done|]. cbn [app find_next_conversion]. by rewrite (proj2 (Z.eqb_neq _ _) Hc), IH.
Qed.

Lemma no_conversion l : literal l -> find_next_conversion l = (l, None).
Proof. induction 1 as [|c l Hc _ IH]; [done|]. cbn [find_next_conversion]. by rewrite (proj2 (Z.eqb_neq _ _) Hc), IH. Qed.

Lemma write_literal l fb : counts l fb -> (if (length l =? 0)%nat then fb else write_many l fb) = emit l fb.
Proof. intros H. destruct l; [done|]. cbn [length Nat.eqb]. by apply write_many_emit. Qed.

Lemma item_text_head o : exists s, item_text o = 37 :: s.
Proof. destruct o; by eexists. Qed.

Lemma format_loop_text m fuel f args text : format_means m f args text -> format_ok f -> Forall is_u64 args -> (length text < fuel)%nat ->
  forall n fb, (length f.1 < n)%nat -> counts text fb -> format_loop m fuel n (format_text f) args fb = Ok (emit text fb, true).
Proof.
  induction 1 as [l args|t o items l args text args' rest Hi _ IH]; intros [F1 F2] Ha Hf n fb Hn Hc; (destruct n as [|n]; [cbn in Hn; lia|]);
    cbn [format_loop fst snd] in *.
  - change (format_text ([], l)) with l. destruct l as [|c l]; [done|]. rewrite no_conversion by done. cbn iota.
    by rewrite write_literal.
  - cbn [length] in Hn. inversion F1 as [|x items' [L1 L2] F1']; subst. cbn [fst snd] in *.
    change (format_text ((t, o) :: items, l)) with (((t ++ item_text o) ++ concat (map (fun i => i.1 ++ item_text i.2) items)) ++ l).
    rewrite <- !app_assoc. change (concat (map (fun i => i.1 ++ item_text i.2) items) ++ l) with (format_text (items, l)).
    destruct (item_text_head o) as [s Es]. rewrite !length_app in Hf.
    apply counts_app in Hc as [Hc1 Hc]. apply counts_app in Hc as [Hc2 Hc3].
    destruct (t ++ item_text o ++ format_text (items, l)) as [|c0 s0] eqn:E0; [rewrite Es in E0; by destruct t|]. rewrite <- E0. clear E0 c0 s0.
    rewrite Es, <- app_comm_cons, next_conversion by done. cbn iota. rewrite write_literal by done. rewrite app_comm_cons, <- Es.
    rewrite (format_one_text m fuel o args text args') by (done || lia). cbn [mbind outcome_bind].
    rewrite (IH ltac:(by split) (item_means_args _ _ _ _ _ _ Hi Ha) ltac:(lia) n _ ltac:(lia) Hc3). by rewrite !emit_app.
Qed.

Lemma items_length (f : format) : (length f.1 <= length (format_text f))%nat.
Proof.
  destruct f as [items l]. unfold format_text. cbn [fst snd]. rewrite length_app.
  assert (length items <= length (concat (map (fun i => i.1 ++ item_text i.2) items)))%nat; [|lia].
  induction items as [|[t o] items IH]; cbn [map concat length]; [done|]. rewrite !length_app. cbn [fst snd].
  destruct (item_text_head o) as [s ->]. cbn [length]. lia.
Qed.

Lemma put_bytes_lookup l : forall m a i c, l !! i = Some c -> 0 <= c < 256 -> put_bytes m a l (a + Z.of_nat i) = c.
Proof.
  induction l as [|x l IH]; intros m a i c Hi Hc; [done|]. cbn [put_bytes]. destruct i as [|i]; cbn in Hi.
  - injection Hi as ->. rewrite put_bytes_out by lia. rewrite Z.add_0_r, store8_eq. by apply wrap8_small.
  - replace (a + Z.of_nat (S i)) with (a + 1 + Z.of_nat i) by lia. by apply IH.
Qed.

(** The contract of a bounded print: as much of the text as fits, a terminator after it, and nothing else changed. *)
Definition holds (cap : Z) (text : list Z) (buf buf' : mem) : Prop :=
  let last := Z.min (Z.of_nat (length text)) (cap - 1) in
  (forall i c, text !! i = Some c -> Z.of_nat i < last -> buf' (Z.of_nat i) = c) /\ (0 < cap -> buf' last = 0) /\
  (forall x, x < 0 \/ last < x -> buf' x = buf x).

Lemma terminated cap text buf : 0 <= cap -> Forall (fun c => 0 <= c < 256) text ->
  holds cap text buf (let b := put_bytes buf 0 (take (Z.to_nat cap) text) in
    if cap =? 0 then b else store8 b (Z.min (Z.of_nat (length text)) (cap - 1)) 0).
Proof.
  intros Hcap Ht. unfold holds. cbn zeta. set (last := Z.min _ _). destruct (Z.eqb_spec cap 0) as [->|Hne].
  { cbn [Z.to_nat take put_bytes]. split_and!; [intros; lia|lia|done]. }
  split_and!.
  - intros i c Hi Hlt. rewrite store8_ne by lia. rewrite <- (Z.add_0_l (Z.of_nat i)). apply put_bytes_lookup.
    + rewrite lookup_take_lt by lia. done.
    + by apply (Forall_lookup_1 _ _ _ _ Ht Hi).
  - intros _. by rewrite store8_eq.
  - intros x Hx. rewrite store8_ne by lia. apply put_bytes_out. rewrite length_take. lia.
Qed.

(** The bytes of a log line: a text that is too long ends in three dots and a newline. *)
Definition log_line (text : list Z) : list Z :=
  if Z.of_nat (length text) <? UACPI_PLAIN_LOG_BUFFER_SIZE then text else take 123 text ++ [46; 46; 46; 10].

(** C32: [uacpi_vsnprintf] renders formats. For every format made of text, %% and directives with flags, a width, a precision and one of its conversions,
    and enough arguments, the result is the length of the text the format stands for, whatever the capacity; the buffer gets as much of the text as
    fits and a terminator, and nothing else changes. In particular a log line of [uacpi_log] is the text, or its first 123 characters,
    three dots and a newline when it has 128 characters or more. *)
Theorem vsnprintf_renders (m : mem) (fuel : nat) (f : format) (args text : list Z) (buf : mem) (cap : Z)
    (Hf : format_ok f) (Ha : Forall is_u64 args) (Hm : format_means m f args text) (Hb : Forall (fun c => 0 <= c < 256) text)
    (Hl : Z.of_nat (length text) < 2 ^ 31) (Hfuel : (length text < fuel)%nat) (Hcap : 0 <= cap) :
  (exists buf', uacpi_vsnprintf m fuel buf cap (format_text f) args = Ok (Z.of_nat (length text), buf') /\ holds cap text buf buf') /\
  (exists buf', uacpi_log m fuel buf (format_text f) args = Ok (Some buf') /\
     forall i c, (log_line text ++ [0]) !! i = Some c -> buf' (Z.of_nat i) = c).
Proof.
  assert (forall cap, 0 <= cap -> exists buf', uacpi_vsnprintf m fuel buf cap (format_text f) args = Ok (Z.of_nat (length text), buf') /\ holds cap text buf buf') as H.
  { clear cap Hcap. intros cap Hcap. unfold uacpi_vsnprintf. assert (counts text (Fb buf cap 0)) as Hc by (unfold counts; cbn; lia).
    rewrite (format_loop_text m fuel f args text Hm Hf Ha Hfuel) by (done || pose proof (items_length f); lia). cbn [mbind outcome_bind].
    rewrite emit_spec by done. cbn [bytes_written buffer capacity]. rewrite Z.add_0_l, Z.sub_0_r. eexists. split; [|by apply terminated].
    unfold sint32. rewrite wrap32_small by lia. by rewrite (proj2 (Z.ltb_lt _ _)). }
  split; [by apply H|]. destruct (H UACPI_PLAIN_LOG_BUFFER_SIZE ltac:(unfold UACPI_PLAIN_LOG_BUFFER_SIZE; lia)) as (b & E & H1 & H2 & H3).
  unfold uacpi_log. rewrite E. cbn [mbind outcome_bind]. rewrite (proj2 (Z.ltb_ge _ _)) by lia. unfold log_line, UACPI_PLAIN_LOG_BUFFER_SIZE in *.
  destruct (Z.ltb_spec (Z.of_nat (length text)) 128) as [Hlt|Hge].
  - rewrite (proj2 (Z.leb_gt _ _)) by lia. rewrite Z.min_l in * by lia. eexists. split; [done|]. intros i c Hi.
    apply lookup_app_Some in Hi as [Hi|[Hi1 Hi]].
    + apply H1; [done|]. apply lookup_lt_Some in Hi. lia.
    + apply list_lookup_singleton_Some in Hi as [Hi <-]. replace i with (length text) by lia. apply H2. lia.
  - rewrite (proj2 (Z.leb_le _ _)) by lia. rewrite Z.min_r in * by lia. eexists. split; [done|]. intros i c Hi. rewrite <- app_assoc in Hi.
    apply lookup_app_Some in Hi as [Hi|[Hi1 Hi]].
    + apply lookup_take_Some in Hi as [Hi Hi']. rewrite !store8_ne by lia. apply H1; [done|lia].
    + rewrite length_take, Nat.min_l in * by lia. assert (i = 123 \/ i = 124 \/ i = 125 \/ i = 126 \/ i = 127)%nat as Hi'.
      { apply lookup_lt_Some in Hi. cbn in Hi. lia. }
      destruct Hi' as [->|[->|[->|[->| ->]]]]; injection Hi as <-; repeat first [rewrite store8_eq; done|rewrite store8_ne by lia].
      apply (H2 ltac:(lia)).
Qed.

(** A name with a precision, a padded number and a pointer, as in the lines the table code logs. *)
Definition sample_format : format :=
  ([([39], Some (Directive [] None (Some (Number 4)) Str)); ([39; 32], Some (Directive [45] (Some (Number 6)) None (Hex Size_ll true)));
    ([124], Some (Directive [43] (Some Star) None (Signed Size_int false)))], [10]).
Definition sample_args : list Z := [0x1000; 0xBEEF; 4; 2 ^ 32 - 7].
Definition sample_strings : mem := fun a => if a =? 0x1000 then 70 else if a =? 0x1001 then 65 else if a =? 0x1002 then 67 else if a =? 0x1003 then 80 else 33.

Definition sample_text : list Z := chars "'FACP' BEEF  |-   7" ++ [10].

Lemma sample_means : format_means sample_strings sample_format sample_args sample_text.
Proof.
  change sample_text with ([39] ++ ([70; 65; 67; 80] ++ []) ++ [39; 32] ++ chars "BEEF  " ++ [124] ++ chars "-   7" ++ [10]).
  eapply (means_item _ [39] _ _ _ _ _ [0xBEEF; 4; 2 ^ 32 - 7]).
  { eapply (means_directive _ (Directive [] None (Some (Number 4)) Str) _ 0 _ 4 0x1000); [done..|].
    refine (means_string sample_strings (directive_spec (Directive [] None (Some (Number 4)) Str) 0 4) 0x1000 [70; 65; 67; 80] _). split_and!; [by repeat constructor| |by split].
    intros i c Hi. do 4 (destruct i as [|i]; [by injection Hi as <-|]). done. }
  eapply (means_item _ [39; 32] _ _ _ _ _ [4; 2 ^ 32 - 7]).
  { eapply (means_directive _ (Directive [45] (Some (Number 6)) None (Hex Size_ll true)) _ 6 _ 0 0xBEEF); [done..|].
    exact (means_hex _ (directive_spec (Directive [45] (Some (Number 6)) None (Hex Size_ll true)) 6 0) 0xBEEF Size_ll true). }
  eapply (means_item _ [124] _ _ _ _ _ []).
  { eapply (means_directive _ (Directive [43] (Some Star) None (Signed Size_int false)) _ 4 [2 ^ 32 - 7] 0 (2 ^ 32 - 7)); [done..|].
    exact (means_signed _ (directive_spec (Directive [43] (Some Star) None (Signed Size_int false)) 4 0) (2 ^ 32 - 7) Size_int false). }
  apply means_end.
Qed.

Lemma sample_ok : format_ok sample_format.
Proof.
  split; [|by repeat constructor]. apply List.Forall_cons; [|apply List.Forall_cons; [|apply List.Forall_cons; [|apply List.Forall_nil]]];
    (split; [by repeat constructor|]); split; cbn [d_flags d_width d_precision]; try (intros n E; discriminate E);
    try (intros n E; injection E as <-; split; [lia|reflexivity]); repeat (apply List.Forall_cons; [letter|]); apply List.Forall_nil.
Qed.

Lemma vsnprintf_renders_witness :
  exists buf', uacpi_vsnprintf sample_strings 100 (fun _ => 7) 16 (chars "'%.4s' %-6llX|%+*d" ++ [10]) sample_args = Ok (20, buf') /\
    buf' 8 = 69 /\ buf' 14 = 45 /\ buf' 15 = 0 /\ buf' 16 = 7.
Proof.
  destruct (vsnprintf_renders sample_strings 100 sample_format sample_args sample_text (fun _ => 7) 16) as [(buf' & E & H1 & H2 & H3) _].
  - exact sample_ok.
  - repeat constructor; vm_compute; congruence.
  - exact sample_means.
  - repeat constructor; vm_compute; congruence.
  - reflexivity.
  - cbn. lia.
  - lia.
  - exists buf'. split; [exact E|]. split; [exact (H1 8%nat 69 eq_refl eq_refl)|]. split; [exact (H1 14%nat 45 eq_refl eq_refl)|].
    split; [exact (H2 eq_refl)|]. apply H3. right. reflexivity.
Defined.
