(* ===== verification/Kernel.v ===== *)
(** * The kernel as a state machine

    [start] is [kmain] after the memory test.  What can happen once it has entered the first thread:
    a program writes to its own memory, makes a system call with any registers, the timer interrupts
    it, the first thread starts the program of the archive, and the idle loop gives way.  The well-formedness of
    [Preserve], extended to the processor's registers, is an invariant of every
    history of such steps. *)

From Stdlib Require Import String.
From S2P Require Import Prelude Memory Machine Frames Heap Paging OaHash Mutex Scheduler Strings Tmpfs Vfs Loader Threads Syscalls.
From S2P Require Import Devices Boot UacpiTables Dispatch Start Preserve UacpiKept.

Local Open Scope list_scope.

(** ** The system

    What the linker and the loader fix: addresses of functions and globals, of string literals and of
    the functions of a vnode, the printing of numbers, and the bounds of the loops over strings
    and directories. *)
Record layout : Type := Layout {
  l_hhdm_offset : Z;
  l_pml4 : Z;
  l_scheduler_return : Z;
  l_disable_preemption : Z;
  l_enable_preemption : Z;
  l_userspace_run_elf : Z;
  l_root_dir : Z;
  l_idle_thread : Z;
  l_initial_thread : Z;
  l_ft_ctx_mutex : Z;
  l_syscall_handler : Z;
  l_test_a : Z;
  l_test_b : Z;
  l_syscall_test : Z;
  l_lit : string -> Z;
  l_addr : fn -> Z;
  l_dec : Z -> list Z;
  l_fuel : nat;
  l_depth : nat
}.

(** What the devices answer during start-up, the physical address of the root pointer of the ACPI tables, and of
    the stack of [uacpi_init]: the address of the buffer, and what is left where the two tables are stored. *)
Record hardware : Type := Hardware {
  h_read : list access -> access -> Z;
  h_early : bool;
  h_irqs : nat -> bool;
  h_rsdp : Z;
  h_ts : Z;
  h_madt : Z;
  h_hpet : Z
}.

(** The context of the library starts with zeroes, and nothing sets an installation handler. *)
Definition no_handler (f a : Z) (p : pst) : outcome (Z * Z * pst) := Err BadCall.

Section System.
Context (L : layout).

Definition find_devices (H : hardware) (p : pst) : outcome (Z * Z * pst) :=
  '(_, lapic_addr, hpet_address, s) ← uacpi_init (l_hhdm_offset L) (l_pml4 L) (h_rsdp H) no_handler (l_depth L) (h_ts H) (h_madt H) (h_hpet H)
    (Ust uacpi_zero p);
  Ok (lapic_addr, hpet_address, up s).

Definition start (now : Z) (H : hardware) (modules : list limine_file) (b : bst) : outcome (bool * bst) :=
  kmain_start (l_hhdm_offset L) (l_pml4 L) now (l_scheduler_return L) (l_disable_preemption L) (l_enable_preemption L) (l_root_dir L)
    (l_initial_thread L) (l_syscall_handler L) (l_test_a L) (l_test_b L) (l_syscall_test L) (l_lit L) (l_addr L) (l_fuel L) (l_depth L)
    (h_read H) (h_early H) (h_irqs H) (find_devices H) modules b.

(** [g] has the globals that [init_vfs] has set. *)
Definition insn (g : bst) (now rip : Z) (r : regs) (k : kst) : outcome (Z * kst) :=
  syscall_insn (l_hhdm_offset L) (l_pml4 L) now (l_scheduler_return L) (l_disable_preemption L) (l_enable_preemption L) (l_root_dir L)
    (l_idle_thread L) (l_ft_ctx_mutex L) (l_fuel L) (l_lit L) (l_addr L) (l_fuel L) (g_vfs_tmpfs g) (g_tmpfs_root g) (l_dec L) rip r k.
Definition away (g : bst) (now rip : Z) (r : regs) (k : kst) : outcome kst :=
  syscall_away (l_hhdm_offset L) (l_pml4 L) now (l_scheduler_return L) (l_disable_preemption L) (l_enable_preemption L) (l_root_dir L)
    (l_idle_thread L) (l_ft_ctx_mutex L) (l_fuel L) (l_lit L) (l_addr L) (l_fuel L) (g_vfs_tmpfs g) (g_tmpfs_root g) (l_dec L) rip r k.
Definition run_initial (g : bst) (junk : Z) (s : sst) : outcome sst :=
  initial_thread (l_hhdm_offset L) (l_pml4 L) (l_scheduler_return L) (l_disable_preemption L) (l_enable_preemption L)
    (l_userspace_run_elf L) (l_root_dir L) (l_lit L) (l_fuel L) (tarball_ptr g) junk s.

Record regs_ok (r : regs) : Prop := {
  ro_rdi : is_u64 (rdi r);
  ro_rsi : is_u64 (rsi r);
  ro_rdx : is_u64 (rdx r);
  ro_r8 : is_u64 (r8 r)
}.

(** What happens after start-up: a store of the running program to an address of its half; a system
    call, after which the program goes on or another thread does; the timer; the first thread starts
    the program of the archive and then calls [reschedule] for ever.  The clock [now] is read anew in
    every step. *)
Inductive kernel_step (g : bst) : kst -> kst -> Prop :=
| step_store n a v k k' : a < 2 ^ 63 -> uwrite (l_hhdm_offset L) n a v k = Ok k' -> kernel_step g k k'
| step_call now rip r ret k k' : regs_ok r -> insn g now rip r k = Ok (ret, k') -> kernel_step g k k'
| step_away now rip r k k' : regs_ok r -> away g now rip r k = Ok k' -> kernel_step g k k'
| step_timer now k k' : on_ks (thread_interrupter_handler (l_hhdm_offset L) (l_pml4 L) now) k = Ok k' -> kernel_step g k k'
| step_initial junk k k' : on_ks (run_initial g junk) k = Ok k' -> kernel_step g k k'
| step_loop now k k' : on_ks (reschedule (l_hhdm_offset L) (l_pml4 L) now) k = Ok k' -> kernel_step g k k'.

End System.

Section Kernel.
Context (regions : list region) (nodes : nat).

#[local] Hint Extern 0 (Kept mst) => exact (kept_mst regions nodes) : typeclass_instances.
#[local] Hint Extern 0 (Kept pst) => exact (kept_pst regions nodes) : typeclass_instances.
#[local] Hint Extern 0 (Kept futex_state) => exact (kept_futex regions nodes) : typeclass_instances.

(** ** The scheduler's state *)

Record sst_ok (s : sst) : Prop := {
  so_machine : machine_ok regions nodes (sm s);
  so_cr3 : is_u64 (cpu_cr3 s);
  so_rsp : is_u64 (cpu_rsp s)
}.

#[local] Instance kept_sst : Kept sst := sst_ok.

Lemma kept_sm s : kept s -> kept (sm s).
Proof. by intros []. Qed.

Lemma kept_set_sm m s : kept m -> kept s -> kept (set_sm m s).
Proof. intros ? []. by split. Qed.

Lemma kept_set_threads x s : kept s -> kept (set_threads x s).
Proof. intros []. by split. Qed.

Lemma kept_set_fd_tables x s : kept s -> kept (set_fd_tables x s).
Proof. intros []. by split. Qed.

Lemma kept_set_running_thread x s : kept s -> kept (set_running_thread x s).
Proof. intros []. by split. Qed.

Lemma kept_set_num_threads x s : kept s -> kept (set_num_threads x s).
Proof. intros []. by split. Qed.

Lemma kept_set_scheduling_started x s : kept s -> kept (set_scheduling_started x s).
Proof. intros []. by split. Qed.

Lemma kept_set_first_thread x s : kept s -> kept (set_first_thread x s).
Proof. intros []. by split. Qed.

Lemma kept_set_first x s : kept s -> kept (set_first x s).
Proof. intros []. by split. Qed.

Lemma kept_set_cpu_sse x s : kept s -> kept (set_cpu_sse x s).
Proof. intros []. by split. Qed.

Lemma kept_set_cpu_rsp x s : is_u64 x -> kept s -> kept (set_cpu_rsp x s).
Proof. intros ? []. by split. Qed.

Lemma kept_load_cr3 h x s : kept s -> kept (load_cr3 h x s).
Proof. intros []. split; [done|apply wrap64_range|done]. Qed.

Lemma kept_emit e s : kept s -> kept (emit e s).
Proof. intros []. by split. Qed.

Lemma kept_arm_timer s : kept s -> kept (arm_timer s).
Proof. apply kept_emit. Qed.

Lemma kept_on_irq b s : kept s -> kept (on_sm (irq_restore b) s).
Proof. intros Hs. apply kept_set_sm; [|done]. by apply machine_ok_irq, kept_sm. Qed.

Lemma kept_on_iflag b s : kept s -> kept (on_sm (set_iflag b) s).
Proof. intros Hs. apply kept_set_sm; [|done]. by apply machine_ok_set_iflag, kept_sm. Qed.

#[local] Hint Extern 1 (is_u64 (wrap64 _)) => apply wrap64_range : kept.
#[local] Hint Resolve kept_sm kept_set_sm kept_set_threads kept_set_fd_tables kept_set_running_thread kept_set_num_threads
  kept_set_scheduling_started kept_set_first_thread kept_set_first kept_set_cpu_sse kept_set_cpu_rsp kept_load_cr3 kept_emit
  kept_arm_timer kept_on_irq kept_on_iflag : kept.

(** ** Threads *)

Lemma modify_thread_kept a f s : kept s -> post kept (modify_thread a f s).
Proof. intros Hs. unfold modify_thread. keeps. Qed.

#[local] Hint Resolve modify_thread_kept : kept.

Lemma insert_thread_kept l n r s : kept s -> post kept (insert_thread l n r s).
Proof. intros Hs. unfold insert_thread. keeps. Qed.

Lemma discard_thread_kept a s : kept s -> post kept (discard_thread a s).
Proof. intros Hs. unfold discard_thread. keeps. Qed.

Lemma switch_thread_kept o r s : kept s -> post kept (switch_thread o r s).
Proof. intros Hs. unfold switch_thread. keeps. Qed.

#[local] Hint Resolve insert_thread_kept discard_thread_kept switch_thread_kept : kept.

Lemma push_thread_kept a s : kept s -> post kept (push_thread a s).
Proof. intros Hs. unfold push_thread. keeps. Qed.

Lemma reschedule_kept h g now s : kept s -> post kept (reschedule h g now s).
Proof. intros Hs. unfold reschedule, reschedule_first, reschedule_next. keeps. Qed.

#[local] Hint Resolve push_thread_kept reschedule_kept : kept.

Lemma yield_thread_kept h g now s : kept s -> post kept (yield_thread h g now s).
Proof. intros Hs. unfold yield_thread. cbn [irq_disable_save]. keeps. Qed.

Lemma thread_interrupter_handler_kept h g now s : kept s -> post kept (thread_interrupter_handler h g now s).
Proof. intros Hs. unfold thread_interrupter_handler. keeps. Qed.

Lemma init_slots_kept n : forall i m arr, kept m -> kept (init_slots n i m arr).
Proof. induction n as [|n IH]; intros i m arr Hm; cbn [init_slots]; auto with kept. Qed.

#[local] Hint Resolve init_slots_kept : kept.

Lemma create_thread_kept a b c d p e s : kept s -> post kept (create_thread a b c d p e s).
Proof. intros Hs. unfold create_thread, start_thread. cbn [irq_disable_save]. keeps. Qed.

#[local] Hint Resolve create_thread_kept : kept.

Lemma hot_create_and_push_thread_kept h g a b c d p e s : kept s -> post kept (hot_create_and_push_thread h g a b c d p e s).
Proof. intros Hs. unfold hot_create_and_push_thread. cbn [irq_disable_save]. keeps. Qed.

#[local] Hint Resolve hot_create_and_push_thread_kept : kept.

Lemma to_pst_kept s : kept s -> post kept (to_pst s).
Proof. intros Hs. unfold to_pst. keeps. Qed.

Lemma of_pst_kept p s : kept p -> kept s -> post kept (of_pst p s).
Proof. intros Hp Hs. unfold of_pst. keeps. Qed.

#[local] Hint Resolve to_pst_kept of_pst_kept : kept.

Lemma with_pst_kept {A} `{Kept A} (f : pst -> outcome (A * pst)) s :
  (forall p, kept p -> post kept (f p)) -> kept s -> post kept (with_pst f s).
Proof.
  intros Hf Hs. unfold with_pst. eapply kept_bind; [by apply to_pst_kept|]. intros p Hp.
  eapply kept_bind; [by apply Hf|]. intros [a q] [Ha Hq]. keeps.
Qed.

Lemma lift_m_kept f s : (forall m, kept m -> post kept (f m)) -> kept s -> post kept (lift_m f s).
Proof. intros Hf Hs. unfold lift_m. eapply kept_bind; [by apply Hf, kept_sm|]. intros m Hm. keeps. Qed.

Lemma unmap_slots_kept h n : forall i arr c p, kept p -> kept (unmap_slots h n i arr c p).
Proof. induction n as [|n IH]; intros i arr c p Hp; cbn [unmap_slots]; [done|]. apply IH. keeps. Qed.

#[local] Hint Resolve unmap_slots_kept : kept.

(** ** Ending a thread *)

(** A part of the state in the middle of a computation. *)
Ltac keeps_part :=
  repeat (first [solve [eauto 20 with kept] | keeps_step
                | apply with_pst_kept; [intros ? ?|] | apply lift_m_kept; [intros ? ?|]]).

Lemma release_space_kept h g a s : kept s -> post kept (release_space h g a s).
Proof. intros Hs. unfold release_space. keeps_part. Qed.

Lemma release_thread_kept h a b s : kept s -> post kept (release_thread h a b s).
Proof. intros Hs. unfold release_thread. keeps_part. Qed.

#[local] Hint Resolve release_space_kept release_thread_kept : kept.

Lemma enter_thread_kept h a s : kept s -> post kept (enter_thread h a s).
Proof. intros Hs. unfold enter_thread. keeps. Qed.

#[local] Hint Resolve enter_thread_kept : kept.

Lemma scheduler_return_kept h g a b c d e n s : kept s -> post kept (scheduler_return h g a b c d e n s).
Proof. intros Hs. unfold scheduler_return, kill_and_switch_to_idle. keeps. Qed.

Lemma kept_restore_cr3 s0 s : kept s0 -> kept s -> kept (set_cpu_cr3 (cpu_cr3 s0) s).
Proof. intros [] []. by split. Qed.

Lemma hot_exec_elf_kept h g a b c u d p file s : kept s -> post kept (hot_exec_elf h g a b c u d p file s).
Proof.
  intros Hs. unfold hot_exec_elf. cbn [irq_disable_save]. pose proof kept_restore_cr3 s as Hc. keeps_part.
Qed.

#[local] Hint Resolve yield_thread_kept scheduler_return_kept hot_exec_elf_kept : kept.

(** ** Descriptors *)

Section Descriptors.
Context (lit : string -> Z) (addr : fn -> Z) (fuel : nat) (vfs_tmpfs tmpfs_root : Z) (dec : Z -> list Z).

Lemma key_of_fd_kept n s : kept s -> post kept (key_of_fd dec n s).
Proof. intros Hs. unfold key_of_fd, print_int. keeps. Qed.

#[local] Hint Resolve key_of_fd_kept : kept.

Lemma vfs_int_fd_to_vfs_file_kept n s : kept s -> post kept (vfs_int_fd_to_vfs_file dec n s).
Proof. intros Hs. unfold vfs_int_fd_to_vfs_file. keeps. Qed.

Lemma open_vnode_kept p s : kept s -> post kept (open_vnode lit addr fuel vfs_tmpfs tmpfs_root p s).
Proof. intros Hs. unfold open_vnode. keeps. Qed.

#[local] Hint Resolve open_vnode_kept : kept.

Lemma vfs_fdopen_kept p f m s : kept s -> post kept (vfs_fdopen lit addr fuel vfs_tmpfs tmpfs_root dec p f m s).
Proof. intros Hs. unfold vfs_fdopen. keeps. Qed.

Lemma vfs_fdclose_kept n s : kept s -> post kept (vfs_fdclose dec n s).
Proof. intros Hs. unfold vfs_fdclose. keeps. Qed.

End Descriptors.

#[local] Hint Resolve vfs_int_fd_to_vfs_file_kept vfs_fdopen_kept vfs_fdclose_kept : kept.

(** ** The kernel's state *)

Record kst_ok (k : kst) : Prop := {
  ko_sched : sst_ok (ks k);
  ko_msr : forall r, is_u64 (msr k r)
}.

#[local] Instance kept_kst : Kept kst := kst_ok.

Lemma kept_ks k : kept k -> kept (ks k).
Proof. by intros []. Qed.

Lemma kept_set_ks s k : kept s -> kept k -> kept (set_ks s k).
Proof. intros ? []. by split. Qed.

Lemma kept_futexes s a n k : kept s -> kept k -> kept (Kst s a n (msr k)).
Proof. intros ? []. by split. Qed.

Lemma kept_kmem k : kept k -> kept (kmem k).
Proof. intros Hk. by apply machine_ok_mem with (regions := regions) (nodes := nodes), kept_sm, kept_ks. Qed.

Lemma kept_set_kmem m k : kept m -> kept k -> kept (set_kmem m k).
Proof. intros Hm Hk. apply kept_set_ks; [|done]. unfold on_sm. auto using kept_ks with kept. Qed.

Lemma kept_wrmsr r v k : kept k -> kept (wrmsr r v k).
Proof.
  intros [H1 H2]. split; [done|]. intros r'. cbn. unfold upd. destruct (r' =? r); [apply wrap64_range|apply H2].
Qed.

Lemma kept_cli k : kept k -> kept (cli k).
Proof. intros Hk. apply kept_set_ks; [|done]. by apply kept_on_iflag, kept_ks. Qed.

Lemma kept_k_restore b k : kept k -> kept (k_restore b k).
Proof. intros Hk. apply kept_set_ks; [|done]. by apply kept_on_irq, kept_ks. Qed.

Lemma on_ks_kept f k : (forall s, kept s -> post kept (f s)) -> kept k -> post kept (on_ks f k).
Proof. intros Hf Hk. unfold on_ks. eapply kept_bind; [by apply Hf, kept_ks|]. intros s Hs. by apply kept_set_ks. Qed.

#[local] Hint Resolve kept_ks kept_set_ks kept_futexes kept_kmem kept_set_kmem kept_wrmsr kept_cli kept_k_restore : kept.

Ltac keeps_call :=
  repeat (first [solve [eauto 20 with kept] | keeps_step | apply on_ks_kept; [intros ? ?|]
                | apply with_pst_kept; [intros ? ?|] | apply lift_m_kept; [intros ? ?|]]).

(** ** The system calls *)

Section Calls.
Context (hhdm_offset : Z).

Lemma vwrite_kept n : forall sp a v m, kept m -> post kept (vwrite hhdm_offset n sp a v m).
Proof. induction n as [|n IH]; intros sp a v m Hm; cbn [vwrite]; keeps. Qed.

#[local] Hint Resolve vwrite_kept : kept.

Lemma uwrite_kept n a v k : kept k -> post kept (uwrite hhdm_offset n a v k).
Proof. intros Hk. unfold uwrite. keeps. Qed.

Lemma umemset_kept a c n k : kept k -> post kept (umemset hhdm_offset a c n k).
Proof. intros Hk. unfold umemset. keeps. Qed.

#[local] Hint Resolve uwrite_kept umemset_kept : kept.

Lemma syscall7_kept a k : kept k -> post kept (syscall7 hhdm_offset a k).
Proof. intros Hk. unfold syscall7. keeps_call. Qed.

Lemma syscall8_kept p n k : kept k -> post kept (syscall8 hhdm_offset p n k).
Proof. intros Hk. unfold syscall8. keeps_call. Qed.

Lemma syscall11_kept p e k : kept k -> post kept (syscall11 hhdm_offset p e k).
Proof. intros Hk. unfold syscall11. keeps_call. Qed.

Lemma syscall12_kept p k : kept k -> post kept (syscall12 p k).
Proof. intros Hk. unfold syscall12. keeps_call. Qed.

Lemma syscall13_kept n p k : 0 <= n -> kept k -> post kept (syscall13 hhdm_offset n p k).
Proof. intros Hn Hk. unfold syscall13. keeps_call. Qed.

Lemma syscall14_kept p k : kept k -> post kept (syscall14 p k).
Proof. intros Hk. unfold syscall14. keeps_call. Qed.

Lemma syscall17_kept a k : kept k -> post kept (syscall17 a k).
Proof. intros Hk. unfold syscall17. keeps_call. Qed.

End Calls.

#[local] Hint Resolve uwrite_kept syscall7_kept syscall8_kept syscall11_kept syscall12_kept syscall13_kept syscall14_kept syscall17_kept : kept.

(** Registers hold 64-bit words. *)

Lemma regs_ok_rsi r : regs_ok r -> 0 <= rsi r.
Proof. intros [_ [H _] _ _]. done. Qed.

Section Steps.
Context (hhdm_offset pml4_address_virt_glob : Z).
Context (addr_scheduler_return addr_disable_preemption addr_enable_preemption : Z).
Context (addr_root_dir addr_idle_thread addr_ft_ctx_mutex : Z) (exit_fuel : nat).
Context (lit : string -> Z) (addr : fn -> Z) (fuel : nat) (vfs_tmpfs tmpfs_root : Z) (dec : Z -> list Z).

Local Abbreviation table now := (syscall_array hhdm_offset pml4_address_virt_glob now addr_scheduler_return addr_disable_preemption
  addr_enable_preemption addr_root_dir addr_idle_thread addr_ft_ctx_mutex exit_fuel lit addr fuel vfs_tmpfs tmpfs_root dec).
Local Abbreviation insn now := (syscall_insn hhdm_offset pml4_address_virt_glob now addr_scheduler_return addr_disable_preemption
  addr_enable_preemption addr_root_dir addr_idle_thread addr_ft_ctx_mutex exit_fuel lit addr fuel vfs_tmpfs tmpfs_root dec).
Local Abbreviation away now := (syscall_away hhdm_offset pml4_address_virt_glob now addr_scheduler_return addr_disable_preemption
  addr_enable_preemption addr_root_dir addr_idle_thread addr_ft_ctx_mutex exit_fuel lit addr fuel vfs_tmpfs tmpfs_root dec).
Local Abbreviation entry now := (call_entry hhdm_offset pml4_address_virt_glob now addr_scheduler_return addr_disable_preemption
  addr_enable_preemption addr_root_dir addr_idle_thread addr_ft_ctx_mutex exit_fuel lit addr fuel vfs_tmpfs tmpfs_root dec).

(** The caller's view of memory holds bytes too. *)
Lemma kept_viewed k : kept k -> kept (viewed hhdm_offset k).
Proof.
  intros Hk. unfold viewed, on_sm. apply kept_set_sm; [|by apply kept_ks]. apply machine_ok_set_mm; [by apply kept_sm, kept_ks|].
  pose proof (kept_kmem k Hk) as Hm. intros a. unfold user_view. destruct (_ <=? _); [apply Hm|]. destruct (resolve _ _ _ _); [apply Hm|lia].
Qed.

Lemma kept_unviewed s k : kept s -> kept k -> kept (unviewed s k).
Proof.
  intros Hs Hk. apply kept_set_ks; [|done]. unfold on_sm. apply kept_set_sm; [|done]. apply machine_ok_set_mm; [by apply kept_sm|].
  pose proof (kept_kmem k Hk) as Hm. pose proof (machine_ok_mem _ _ _ (kept_sm _ Hs)) as Hm'.
  intros a. destruct (_ <=? _); [apply Hm'|apply Hm].
Qed.

#[local] Hint Resolve kept_viewed kept_unviewed : kept.

Lemma syscall19_kept p f m d k : kept k -> post kept (syscall19 hhdm_offset lit addr fuel vfs_tmpfs tmpfs_root dec p f m d k).
Proof. intros Hk. unfold syscall19. keeps_call. Qed.

#[local] Hint Resolve syscall19_kept regs_ok_rsi : kept.

(** Every entry of the table. *)
Lemma table_kept now r k : regs_ok r -> kept k -> Forall (fun f => post kept (f r k)) (table now).
Proof.
  intros Hr Hk. unfold syscall_array.
  repeat (apply List.Forall_cons; [solve [unfold syscall0, syscall1, syscall2, syscall3, syscall4, syscall5, syscall6, syscall9, syscall10,
    syscall15, syscall16, syscall18; keeps_call]|]). apply List.Forall_nil.
Qed.

Lemma call_entry_kept now r k : regs_ok r -> kept k -> post kept (entry now r k).
Proof.
  intros Hr Hk. unfold call_entry. destruct (_ <? 0); [done|]. destruct (table now !! _) as [f|] eqn:E; [|done].
  apply list_elem_of_lookup_2, list_elem_of_In in E. exact (proj1 (List.Forall_forall _ _) (table_kept now r k Hr Hk) f E).
Qed.

Lemma regs_ok_rcx rip r : regs_ok r -> regs_ok (set_rcx rip r).
Proof. intros []. by split. Qed.

#[local] Hint Resolve call_entry_kept regs_ok_rcx : kept.

Lemma syscall_insn_kept now rip r k : regs_ok r -> kept k -> post kept (insn now rip r k).
Proof.
  intros Hr Hk. unfold syscall_insn, do_syscall. pose proof (so_rsp _ (ko_sched _ Hk)) as Hrsp. keeps_call.
Qed.

Lemma syscall_away_kept now rip r k : regs_ok r -> kept k -> post kept (away now rip r k).
Proof. intros Hr Hk. unfold syscall_away. keeps_call. Qed.

End Steps.

(** ** Start-up *)

#[local] Instance kept_bst : Kept bst := fun b => kept (bk b).

Lemma kept_bst_intro k d c0 c4 ps v r t : kept k -> kept (Bst k d c0 c4 ps v r t).
Proof. done. Qed.

Lemma kept_bk b : kept b -> kept (bk b).
Proof. done. Qed.

Lemma kept_bm b : kept b -> kept (bm b).
Proof. intros Hb. by apply kept_sm, kept_ks. Qed.

Lemma kept_set_bd d b : kept b -> kept (set_bd d b).
Proof. done. Qed.

Lemma kept_set_bk k b : kept k -> kept (set_bk k b).
Proof. done. Qed.

Lemma kept_set_bs s b : kept s -> kept b -> kept (set_bs s b).
Proof. intros Hs Hb. apply kept_set_bk, kept_set_ks; [done|by apply kept_bk]. Qed.

Lemma kept_set_bm m b : kept m -> kept b -> kept (set_bm m b).
Proof. intros Hm Hb. apply kept_set_bs; [|done]. apply kept_set_sm; [done|]. by apply kept_ks, kept_bk. Qed.

Lemma kept_enable_sse b : kept b -> kept (enable_sse b).
Proof. done. Qed.

#[local] Hint Resolve kept_bst_intro kept_bk kept_bm kept_set_bd kept_set_bk kept_set_bs kept_set_bm kept_enable_sse : kept.

Section Startup.
Context (hhdm_offset pml4_address_virt_glob : Z).
Context (addr_scheduler_return addr_disable_preemption addr_enable_preemption : Z).
Context (addr_userspace_run_elf addr_root_dir addr_initial_thread : Z).
Context (addr_syscall_handler addr_test_a addr_test_b addr_syscall_test : Z).
Context (lit : string -> Z) (addr : fn -> Z) (fuel depth : nat).

(** The devices: of the machine they change only the page tables. *)
Lemma enable_lapic_kept hw lapic_addr pml4 p d : kept p -> post kept (enable_lapic hw hhdm_offset lapic_addr pml4 p d).
Proof. intros Hp. unfold enable_lapic. cbn [read32]. keeps. Qed.

Lemma hpet_init_kept a pml4 p d : kept p -> post kept (hpet_init hhdm_offset a pml4 p d).
Proof. intros Hp. unfold hpet_init, hpet_setup. keeps. Qed.

#[local] Hint Resolve enable_lapic_kept hpet_init_kept : kept.

Lemma init_bsp_lapic_kept hw lapic_addr a pml4 p d : kept p -> post kept (init_bsp_lapic hw hhdm_offset lapic_addr a pml4 p d).
Proof. intros Hp. unfold init_bsp_lapic. keeps. Qed.

Lemma heap_trial_kept s : kept s -> post kept (heap_trial s).
Proof. intros Hs. unfold heap_trial. keeps. Qed.

Lemma kmain_end_kept s : kept s -> post kept (kmain_end s).
Proof. intros Hs. unfold kmain_end. keeps. Qed.

Lemma init_root_kept s : kept s -> post kept (init_root lit addr fuel depth s).
Proof. intros Hs. unfold init_root, call_create. keeps. Qed.

Lemma share_pages_kept l : forall m, kept m -> kept (share_pages hhdm_offset pml4_address_virt_glob l m).
Proof. induction l as [|a l IH]; intros m Hm; [done|]. apply IH. auto with kept. Qed.

#[local] Hint Resolve init_bsp_lapic_kept heap_trial_kept kmain_end_kept init_root_kept share_pages_kept : kept.

Lemma init_syscalls_kept k :
  kept k -> post kept (init_syscalls hhdm_offset pml4_address_virt_glob addr_syscall_handler addr_test_a addr_test_b addr_syscall_test k).
Proof. intros Hk. unfold init_syscalls. keeps_call. eauto 80 with kept. Qed.

#[local] Hint Resolve init_syscalls_kept : kept.

Lemma start_calls_kept b :
  kept b -> post kept (start_calls hhdm_offset pml4_address_virt_glob addr_syscall_handler addr_test_a addr_test_b addr_syscall_test b).
Proof. intros Hb. unfold start_calls. keeps_call. Qed.

Lemma get_new_pid_kept ps : post kept (get_new_pid ps).
Proof. unfold get_new_pid. keeps. Qed.

#[local] Hint Resolve get_new_pid_kept : kept.

Lemma enter_initial_kept now tarball b : kept b -> post kept (enter_initial hhdm_offset pml4_address_virt_glob now addr_scheduler_return
  addr_disable_preemption addr_enable_preemption addr_root_dir addr_initial_thread tarball b).
Proof. intros Hb. unfold enter_initial. keeps_call. Qed.

#[local] Hint Resolve start_calls_kept enter_initial_kept : kept.

Lemma init_vfs_kept now modules b : kept b -> post kept (init_vfs hhdm_offset pml4_address_virt_glob now addr_scheduler_return
  addr_disable_preemption addr_enable_preemption addr_root_dir addr_initial_thread lit addr fuel depth modules b).
Proof. intros Hb. unfold init_vfs. keeps_call. Qed.

#[local] Hint Resolve init_vfs_kept : kept.

(** What the uACPI library does to the machine, it does through the callbacks of K/kernel_api.c. *)
Context (uacpi_init : pst -> outcome (Z * Z * pst)) (Huacpi : forall p, kept p -> post kept (uacpi_init p)).

Lemma start_devices_kept hw early irqs b :
  kept b -> post kept (start_devices hhdm_offset pml4_address_virt_glob fuel hw early irqs uacpi_init b).
Proof. intros Hb. unfold start_devices. keeps_call. Qed.

#[local] Hint Resolve start_devices_kept : kept.

Lemma kmain_start_kept now hw early irqs modules b : kept b -> post kept (kmain_start hhdm_offset pml4_address_virt_glob now
  addr_scheduler_return addr_disable_preemption addr_enable_preemption addr_root_dir addr_initial_thread addr_syscall_handler
  addr_test_a addr_test_b addr_syscall_test lit addr fuel depth hw early irqs uacpi_init modules b).
Proof. intros Hb. unfold kmain_start. keeps_call. Qed.

Lemma initial_thread_kept tarball junk s : kept s -> post kept (initial_thread hhdm_offset pml4_address_virt_glob addr_scheduler_return
  addr_disable_preemption addr_enable_preemption addr_userspace_run_elf addr_root_dir lit fuel tarball junk s).
Proof. intros Hs. unfold initial_thread. keeps. Qed.

End Startup.

Lemma start_ok L now H modules b e b' :
  kst_ok (bk b) -> start L now H modules b = Ok (e, b') -> kst_ok (bk b').
Proof.
  intros Hb E. refine (proj2 (post_ok kept (e, b') _ _ E)). unfold start. apply kmain_start_kept; [|done].
  intros p Hp. unfold find_devices. eapply post_bind; [by apply (uacpi_init_kept regions nodes)|].
  intros [[[x y] z] u] Hu. split; [by split|exact Hu].
Qed.

Lemma kernel_step_ok L g k k' : kst_ok k -> kernel_step L g k k' -> kst_ok k'.
Proof.
  intros Hk Hstep. destruct Hstep as [n a v k k' _ E|now rip r ret k k' Hr E|now rip r k k' Hr E|now k k' E|junk k k' E|now k k' E].
  - exact (post_ok kept k' _ (uwrite_kept _ n a v k Hk) E).
  - exact (proj2 (post_ok kept (ret, k') _ (syscall_insn_kept _ _ _ _ _ _ _ _ _ _ _ _ _ _ _ _ _ _ _ Hr Hk) E)).
  - exact (post_ok kept k' _ (syscall_away_kept _ _ _ _ _ _ _ _ _ _ _ _ _ _ _ _ _ _ _ Hr Hk) E).
  - refine (post_ok kept k' _ (on_ks_kept _ k _ Hk) E). intros s. apply thread_interrupter_handler_kept.
  - refine (post_ok kept k' _ (on_ks_kept _ k _ Hk) E). intros s. apply initial_thread_kept.
  - refine (post_ok kept k' _ (on_ks_kept _ k _ Hk) E). intros s. apply reschedule_kept.
Qed.

Lemma kernel_steps_ok L g k k' : kst_ok k -> rtc (kernel_step L g) k k' -> kst_ok k'.
Proof. intros Hk Hs. induction Hs as [k|k k1 k' Hstep _ IH]; [done|]. apply IH. by eapply kernel_step_ok. Qed.

(** The order and bounds of the regions depend on their shapes only. *)
Lemma same_shapes_ok rs rs' : Forall2 same_shape rs rs' -> regions_ok rs -> regions_ok rs'.
Proof.
  intros Hsh [Hok Hs]. split.
  - revert Hok. clear Hs. induction Hsh as [|r r' rs rs' (Eb & El & Et) _ IH]; intros Hok; [constructor|]. inv Hok. constructor; [|by apply IH].
    unfold region_ok, frames_of in *. by rewrite <- Eb, <- El, <- Et.
  - clear Hok. induction Hsh as [|r r' rs rs' (Eb & El & Et) Hsh IH]; [done|]. destruct Hs as [Hb Hs]. split; [|by apply IH].
    clear -Hb Hsh Eb El. induction Hsh as [|x y l l' (Exb & _) _ IH]; [constructor|]. inv Hb. constructor; [|by apply IH].
    unfold below in *. by rewrite <- Eb, <- El, <- Exb.
Qed.

End Kernel.

