(* ===== verification/System.v ===== *)
(** * The system from start-up on

    The composition of [Boot], [Start] and [Kernel]: the state [kmain] has after the memory test
    satisfies the invariant of [Kernel], start-up keeps it, and so does everything the running
    kernel does.  A complete run, from the memory test to a system call of the program
    in the archive, shows that the hypotheses can be met. *)

From Stdlib Require Import String Ascii.
From S2P Require Import Prelude Memory Machine Frames Heap Paging OaHash Mutex Scheduler Strings Tmpfs Vfs Kutils Loader LoadImage Threads.
From S2P Require Import Syscalls Descriptors HeapInit Devices Boot UacpiSetup Dispatch Start Preserve Kernel.

Local Open Scope list_scope.

(** ** The state kmain leaves *)

Lemma tested_heap_inv n : heap_inv (tested ++ fresh_heap n).
Proof.
  apply no_blocks_inv. unfold tested, fresh_heap. rewrite !Forall_app.
  split_and!; [apply Forall_replicate|by repeat constructor; right|apply Forall_replicate]; split; by try left.
Qed.

(** The regions and the number of nodes the invariant refers to are those of the frame map
    and of the heap [kmain] has built. *)
Lemma booted_kst_ok hhdm gdt gdtr idt stubs es cr3 m0 pml4 tss s c (k : kst) :
  booted hhdm gdt gdtr idt stubs es cr3 m0 pml4 tss s c -> sm (ks k) = s ->
  is_u64 (cpu_cr3 (ks k)) -> is_u64 (cpu_rsp (ks k)) -> (forall r, is_u64 (msr k r)) ->
  kst_ok (memmap_arr s) (Z.to_nat HEAP_NODES) k /\ regions_ok (memmap_arr s).
Proof.
  intros B <- H1 H2 H3. split; [|exact (pi_regions _ _ _ _ (bt_inv _ _ _ _ _ _ _ _ _ _ _ _ B))].
  split; [|done]. split; [|done|done]. split.
  - exact (pi_mem _ _ _ _ (bt_inv _ _ _ _ _ _ _ _ _ _ _ _ B)).
  - rewrite (bt_heap _ _ _ _ _ _ _ _ _ _ _ _ B). apply tested_heap_inv.
  - rewrite (bt_heap _ _ _ _ _ _ _ _ _ _ _ _ B), length_app. unfold fresh_heap; rewrite length_replicate.
    change (length tested) with 10%nat. pose proof heap_nodes_many. lia.
  - apply same_shapes_refl.
Qed.

(** The states of the running kernel: [kmain] from [b0] on has entered the first thread in [b]. *)
Definition reachable (L : layout) (now : Z) (H : hardware) (modules : list limine_file) (b0 : bst) (k : kst) : Prop :=
  exists b, start L now H modules b0 = Ok (true, b) /\ rtc (kernel_step L b) (bk b) k.


(** ** A complete run *)

(** The literals of the code, 32 bytes each, an archive with the sample image as its only
    member, and the ACPI tables of [UacpiSetup]. *)
Definition literals : list string :=
  ["TMPFS_ROOT"; "test file"; "test dir"; "test dir 1"; "test file 1"; "test dir 2"; "test file 2"; "hi.txt"; "/boot/tmpfs.tar";
   "test"; "/"]%string.
Definition literal_base : Z := 0xFFFFFFFF80100000.
Definition archive_base : Z := 0xFFFFFFFF80300000.
Fixpoint index_of (l : list string) (x : string) (i : Z) : Z :=
  match l with [] => i | y :: l => if String.eqb x y then i else index_of l x (i + 1) end.
Definition run_lit (x : string) : Z := literal_base + 32 * index_of literals x 0.
Definition fn_index (f : fn) : Z :=
  match f with
  | VNODE_TMPFS_CREATE_FILE => 0 | VNODE_TMPFS_DELETE_FILE => 1 | VNODE_TMPFS_CREATE_DIRECTORY => 2
  | VNODE_TMPFS_DELETE_DIRECTORY => 3 | VNODE_TMPFS_DELETE_DIRECTORY_NO_ORPHAN => 4 | VNODE_TMPFS_LOOKUP => 5
  | VNODE_TMPFS_READ_FROM_FILE => 6 | VNODE_TMPFS_WRITE_TO_FILE => 7 | VNODE_MOUNT_VFS => 8
  end.
Definition archive_bytes : list Z :=
  chars "test" ++ replicate 120 0 ++ replicate 8 48 ++ [50; 54; 51] ++ replicate 122 0 ++ ustar ++ replicate 250 0 ++ sample_image.
Definition run_mem : mem := fun a =>
  let o := a - literal_base in
  if (0 <=? o) && (o <? 0x1000) then nth (Z.to_nat (o mod 32)) (chars (nth (Z.to_nat (o / 32)) literals EmptyString)) 0
  else
    let o := a - archive_base in
    if (0 <=? o) && (o <? 0x1000) then nth (Z.to_nat o) archive_bytes 0 else firmware_view (a - sample_hhdm).

Definition run_layout : layout :=
  Layout sample_hhdm (sample_hhdm + 0x10000) 0xFFFFFFFF80000100 0xFFFFFFFF80000200 0xFFFFFFFF80000300 0xFFFFFFFF80000400 0xFFFFFFFF80200000
    0xFFFFFFFF80000500 0xFFFFFFFF80000600 0xFFFFFFFF80200100 0xFFFFFFFF80000700 0xFFFFFFFF80000800 0xFFFFFFFF80000900 0xFFFFFFFF80000A00
    run_lit (fun f => 0xFFFFFFFF80000B00 + 16 * fn_index f) (fun n => [48 + n]) 200 4.

(** Counters that advance with every access, a core with number 0, and timer interrupts that come. *)
Definition run_hardware : hardware :=
  Hardware (fun trace a =>
      match a with
      | Read64 _ => 2 ^ 32 * 1000000 + 1000 * Z.of_nat (length trace)
      | Read32 a => if a =? 0xfee00390 then 2 ^ 32 - Z.of_nat (length trace) else 0
      | Rdtsc => 1000 * Z.of_nat (length trace)
      | _ => 0
      end)
    false (fun _ => true) firmware_base 0x7000 0 0.

Definition run_region : region := region_of (Entry 0x100000 0x40000 0).
Definition run_kst : kst :=
  Kst (Sst (Mst run_mem true [run_region] 0 (tested ++ fresh_heap 2000)) ∅ ∅ NULL NULL 0 false false 0 0x100000 0 0 []) 0 0 (fun _ => 0).
Definition run_bst : bst := Bst run_kst (Dev [] (fun _ => 0) (fun _ => 0) 0 0) 0 0 (0, Mutex false 0) 0 0 0.
Definition run_modules : list limine_file := [Module (run_lit "test") 5; Module (run_lit "/boot/tmpfs.tar") archive_base].

(** Start-up; the first thread starts the program and yields to it; the program makes a system
    call. *)
Definition first_call (L : layout) (H : hardware) (modules : list limine_file) (b0 : bst) (r : regs) : outcome (bool * bst * kst) :=
  '(e, b) ← start L 77 H modules b0;
  k1 ← on_ks (run_initial L b 0) (bk b);
  k2 ← on_ks (reschedule (l_hhdm_offset L) (l_pml4 L) 78) k1;
  '(ret, k3) ← insn L b 79 0x400082 r k2;
  Ok (e, b, k3).

Lemma first_call_steps L H modules b0 r e b k : regs_ok r ->
  first_call L H modules b0 r = Ok (e, b, k) -> start L 77 H modules b0 = Ok (e, b) /\ rtc (kernel_step L b) (bk b) k.
Proof.
  intros Hr E. unfold first_call in E. apply bind_ok in E as ([e' b'] & E1 & E). apply bind_ok in E as (k1 & E2 & E).
  apply bind_ok in E as (k2 & E3 & E). apply bind_ok in E as ([ret k3] & E4 & E). injection E as -> -> ->.
  split; [exact E1|]. eapply rtc_l; [exact (step_initial _ _ _ _ _ E2)|]. eapply rtc_l; [exact (step_loop _ _ _ _ _ E3)|].
  apply rtc_once. exact (step_call _ _ _ _ _ _ _ _ Hr E4).
Qed.

(** The program sets its thread pointer. *)
Definition run_regs : regs := Regs 18 0x7000 0 0 0.

(** The program runs as process 480. *)
Definition run_check (r : outcome (bool * bst * kst)) : bool :=
  match r with
  | Ok (e, b, k) =>
      e && (msr k MSR_FS_BASE =? 0x7000) &&
      match threads (ks k) !! running_thread (ks k) with Some t => pid t =? 480 | None => false end
  | Err _ => false
  end.

Lemma run_finishes : run_check (first_call run_layout run_hardware run_modules run_bst run_regs) = true.
Proof. vm_cast_no_check (eq_refl true). Qed.

Lemma run_check_ok r : run_check r = true ->
  exists b k t, r = Ok (true, b, k) /\ msr k MSR_FS_BASE = 0x7000 /\ threads (ks k) !! running_thread (ks k) = Some t /\ pid t = 480.
Proof.
  destruct r as [[[e b] k]|]; [|done]. cbn [run_check].
  destruct (threads (ks k) !! running_thread (ks k)) as [t|] eqn:Et; [|by rewrite andb_false_r].
  intros [[-> Fm]%andb_prop Fp]%andb_prop. exists b, k, t. split_and!; [done|by apply Z.eqb_eq|done|by apply Z.eqb_eq].
Qed.

Lemma run_regs_ok : regs_ok run_regs.
Proof. by split. Qed.

Lemma chars_bytes l : Forall (fun b => 0 <= b < 256) (chars l).
Proof. induction l as [|c l IH]; constructor; [|done]. pose proof (N_ascii_bounded c). lia. Qed.

Lemma run_mem_ok : mem_ok run_mem.
Proof.
  assert (forall n l, Forall (fun b => 0 <= b < 256) l -> 0 <= nth n l 0 < 256) as Hn.
  { intros n l Hl. destruct (nth_in_or_default n l 0) as [Hin| ->]; [|lia]. rewrite List.Forall_forall in Hl. by apply Hl. }
  intros a. unfold run_mem. destruct (_ && _); [|destruct (_ && _); [|apply firmware_view_ok]]; apply Hn.
  - apply chars_bytes.
  - unfold archive_bytes. rewrite !Forall_app. split_and!; try (apply Forall_replicate; lia);
      try apply sample_image_bytes; by repeat constructor.
Qed.

Lemma run_kst_ok : kst_ok [run_region] 2010 run_kst.
Proof.
  split; [|by vm_compute]. split; [|by vm_compute|by vm_compute]. split.
  - exact run_mem_ok.
  - apply tested_heap_inv.
  - reflexivity.
  - apply same_shapes_refl.
Qed.

Lemma run_region_ok : regions_ok [run_region].
Proof.
  split.
  - constructor; [|done]. apply region_of_ok. repeat split; vm_compute; congruence.
  - by repeat constructor.
Qed.

