(* ===== verification/Smp.v ===== *)
(** * Starting the other processors (K/apic.c, K/main.c)

    [init_mp] writes the entry address of every processor in turn and waits until [smp_ticket] equals the
    index of the processor; [start_ap] ends with [smp_ticket++], a load and a store, and waits for
    [smp_init].  The steps of the processors interleave.  Memory, the heap and the console are
    shared, so the start must be one processor at a time. *)

From S2P Require Import Prelude.
From stdpp Require Import functions relations.

Local Open Scope Z_scope.

(** ** State *)

(** A processor that waits for its entry address, that runs [start_ap] up to the increment, that has
    loaded [smp_ticket], and that has stored it and waits for [smp_init]. *)
Inductive ap_state : Type :=
| Parked
| Booting
| Loaded (v : Z)
| Waiting.

#[export] Instance ap_state_eq_dec : EqDecision ap_state.
Proof. solve_decision. Defined.

(** The loop of [init_mp]: its index, and whether the entry address of this processor is written; the
    global, and the processors. *)
Record smp : Type := Smp {
  mp_i : nat;
  mp_started : bool;
  smp_ticket : Z;
  cpus : nat -> ap_state
}.

Definition smp_start : smp := Smp 0 false 0 (fun _ => Parked).

(** ** Steps *)

Section Smp.
(** The number of processors and the index of the one that runs [init_mp], which ignores its own entry
    address. *)
Context (cpu_count bsp : nat).

Inductive smp_step : smp -> smp -> Prop :=
| init_mp_goto i t c : (i < cpu_count)%nat ->
    smp_step (Smp i false t c) (Smp i true t (if decide (i = bsp) then c else <[i := Booting]> c))
| init_mp_next i t c : t = Z.of_nat i -> smp_step (Smp i true t c) (Smp (S i) false t c)
| start_ap_load j i b t c : c j = Booting -> smp_step (Smp i b t c) (Smp i b t (<[j := Loaded t]> c))
| start_ap_store j v i b t c : c j = Loaded v -> smp_step (Smp i b t c) (Smp i b (wrap64 (v + 1)) (<[j := Waiting]> c)).

(** [start_ap] before the end of the increment. *)
Definition starting (x : ap_state) : bool := match x with Booting | Loaded _ => true | _ => false end.

End Smp.

(** ** With the first processor in charge *)

Section First.
Context (cpu_count : nat) (Hcount : (1 <= cpu_count)%nat) (Hsmall : Z.of_nat cpu_count < 2 ^ 64).

(** The processors below the index have started, those above wait, and the ticket counts. *)
Record serial (s : smp) : Prop := {
  se_range : (mp_i s < cpu_count \/ mp_i s = cpu_count /\ mp_started s = false)%nat;
  se_first : cpus s 0 = Parked;
  se_below : forall j, (0 < j < mp_i s)%nat -> cpus s j = Waiting;
  se_above : forall j, (mp_i s < j)%nat -> cpus s j = Parked;
  se_here : (0 < mp_i s)%nat ->
    match cpus s (mp_i s) with
    | Parked => mp_started s = false /\ smp_ticket s = Z.of_nat (mp_i s) - 1
    | Booting => mp_started s = true /\ smp_ticket s = Z.of_nat (mp_i s) - 1
    | Loaded v => mp_started s = true /\ smp_ticket s = Z.of_nat (mp_i s) - 1 /\ v = smp_ticket s
    | Waiting => mp_started s = true /\ smp_ticket s = Z.of_nat (mp_i s)
    end;
  se_zero : mp_i s = 0%nat -> smp_ticket s = 0
}.

Lemma serial_start : serial smp_start.
Proof. split; cbn; try done; lia. Qed.

(** A processor that starts is the one of the index. *)
Lemma serial_starting s j : serial s -> starting (cpus s j) = true -> j = mp_i s /\ (0 < j)%nat.
Proof.
  intros [_ H0 Hb Ha _ _] Hj. assert (j <> 0)%nat by (intros ->; by rewrite H0 in Hj).
  destruct (Nat.lt_trichotomy j (mp_i s)) as [Hlt|[->|Hgt]]; [|lia|].
  - by rewrite Hb in Hj by lia.
  - by rewrite Ha in Hj.
Qed.

Lemma serial_goto i t c : serial (Smp i false t c) -> (i < cpu_count)%nat ->
  serial (Smp i true t (if decide (i = 0%nat) then c else <[i := Booting]> c)).
Proof.
  intros [Hr H0 Hb Ha Hh Hz] Hi. cbn in *. destruct (decide (i = 0%nat)) as [->|Hne].
  - split; cbn; try done; lia.
  - specialize (Hh ltac:(lia)). assert (t = Z.of_nat i - 1) as Ht by (destruct (c i); by destruct_and?).
    split; cbn; [by left|by rewrite fn_lookup_insert_ne by lia|intros j Hj; rewrite fn_lookup_insert_ne by lia; by apply Hb
      |intros j Hj; rewrite fn_lookup_insert_ne by lia; by apply Ha|by rewrite fn_lookup_insert|lia].
Qed.

Lemma serial_next i c : serial (Smp i true (Z.of_nat i) c) -> serial (Smp (S i) false (Z.of_nat i) c).
Proof.
  intros [Hr H0 Hb Ha Hh Hz]. cbn in *. destruct Hr as [Hi|[_ ?]]; [|done].
  split; cbn; [lia|done| |intros j Hj; apply Ha; lia| |lia].
  - intros j Hj. destruct (decide (j = i)) as [->|]; [|apply Hb; lia]. specialize (Hh ltac:(lia)). destruct (c i); destruct_and?; (done || lia).
  - intros _. rewrite Ha by lia. split; [done|lia].
Qed.

(** A step of the processor of the index. *)
Lemma serial_here i b t c x t' : serial (Smp i b t c) -> (0 < i)%nat -> starting (c i) = true ->
  match x with
  | Loaded v => c i = Booting /\ v = t /\ t' = t
  | Waiting => t' = t + 1
  | _ => False
  end -> serial (Smp i b t' (<[i := x]> c)).
Proof.
  intros [Hr H0 Hb Ha Hh Hz] Hi Hst Hx. cbn in *. specialize (Hh Hi).
  split; cbn; [done|by rewrite fn_lookup_insert_ne by lia|intros j Hj; rewrite fn_lookup_insert_ne by lia; by apply Hb
    |intros j Hj; rewrite fn_lookup_insert_ne by lia; by apply Ha| |lia].
  intros _. rewrite fn_lookup_insert. destruct (c i); cbn in Hst; try done; destruct x; destruct_and?; try done; simplify_eq; split_and!; (done || lia).
Qed.

Lemma serial_step s s' : serial s -> smp_step cpu_count 0 s s' -> serial s'.
Proof.
  intros Hs Hstep. destruct Hstep as [i t c Hi|i t c ->|j i b t c Hj|j v i b t c Hj].
  - by apply serial_goto.
  - by apply serial_next.
  - destruct (serial_starting _ j Hs) as [E Hj0]; [by cbn; rewrite Hj|]. cbn in E. subst j. apply (serial_here _ _ t); (done || by rewrite Hj).
  - destruct (serial_starting _ j Hs) as [E Hj0]; [by cbn; rewrite Hj|]. cbn in E. subst j.
    pose proof (se_here _ Hs Hj0) as Hh. cbn in Hh. rewrite Hj in Hh. destruct Hh as (Hbt & Ht & ->).
    destruct (se_range _ Hs) as [Hr|[_ Hr]]; cbn in Hr, Hbt; [|congruence].
    rewrite wrap64_small by lia. apply (serial_here _ _ t); (done || by rewrite Hj).
Qed.

Lemma serial_reachable s : rtc (smp_step cpu_count 0) smp_start s -> serial s.
Proof.
  intros H. pose proof serial_start as Hs. induction H as [s|s s1 s' Hstep _ IH]; [done|]. apply IH. by eapply serial_step.
Qed.

(** ** Progress *)

Lemma serial_progress s : serial s -> (mp_i s < cpu_count)%nat -> exists s', smp_step cpu_count 0 s s'.
Proof.
  intros Hs Hi. destruct s as [i b t c]. cbn in Hi. destruct b; [|eexists; by apply init_mp_goto].
  destruct i as [|i]; [exists (Smp 1 false t c); apply init_mp_next; exact (se_zero _ Hs eq_refl)|].
  pose proof (se_here _ Hs ltac:(cbn; lia)) as Hh. cbn in Hh. destruct (c (S i)) as [| |v|] eqn:E.
  - by destruct Hh.
  - eexists. by apply (start_ap_load _ _ (S i)).
  - eexists. by apply (start_ap_store _ _ (S i) v).
  - destruct Hh as [_ ->]. eexists. by apply init_mp_next.
Qed.

(** Every step uses up one of four per processor. *)
Definition progress (s : smp) : Z :=
  5 * Z.of_nat (mp_i s) + (if mp_started s then 1 else 0) +
  match cpus s (mp_i s) with Parked => 0 | Booting => 1 | Loaded _ => 2 | Waiting => 3 end.

Lemma progress_step s s' : serial s -> smp_step cpu_count 0 s s' -> progress s < progress s'.
Proof.
  intros Hs Hstep. destruct Hstep as [i t c Hi|i t c ->|j i b t c Hj|j v i b t c Hj].
  - unfold progress. cbn. pose proof (se_here _ Hs) as Hh. cbn in Hh. destruct (decide (i = 0%nat)) as [->|Hne]; [lia|].
    rewrite fn_lookup_insert. specialize (Hh ltac:(lia)). destruct (c i); destruct_and?; (done || lia).
  - unfold progress. cbn [mp_i mp_started cpus]. pose proof (se_above _ Hs (S i)) as Ha. cbn in Ha. rewrite Ha by lia.
    destruct (c i); lia.
  - destruct (serial_starting _ j Hs) as [E Hj0]; [by cbn; rewrite Hj|]. cbn in E. subst j. unfold progress. cbn.
    rewrite fn_lookup_insert, Hj. lia.
  - destruct (serial_starting _ j Hs) as [E Hj0]; [by cbn; rewrite Hj|]. cbn in E. subst j. unfold progress. cbn.
    rewrite fn_lookup_insert, Hj. lia.
Qed.

Lemma progress_bound s : serial s -> 0 <= progress s <= 5 * Z.of_nat cpu_count + 4.
Proof.
  intros [Hr _ _ _ _ _]. unfold progress. destruct Hr as [Hr|[-> ->]]; destruct (cpus s _); destruct (mp_started s); lia.
Qed.

Lemma steps_bound k : forall s s', serial s -> nsteps (smp_step cpu_count 0) k s s' -> Z.of_nat k <= progress s' - progress s /\ serial s'.
Proof.
  induction k as [|k IH]; intros s s' Hs Hn; [inv Hn; split; [lia|done]|]. inv Hn as [|? ? s1 ? Hstep Hrest].
  pose proof (progress_step _ _ Hs Hstep). destruct (IH s1 s' (serial_step _ _ Hs Hstep) Hrest) as [Hk Hs']. split; [lia|done].
Qed.

End First.

(** ** With the third processor in charge *)

(** Entry addresses of the processors 0 and 1 are written one after the other, since the ticket is 0 when the
    index is 0; both load the ticket before one stores it. *)
Definition both_starting : smp := Smp 1 true 0 (<[1%nat := Booting]> (<[0%nat := Booting]> (fun _ => Parked))).
Definition ticket_lost : smp :=
  Smp 2 true 1 (<[1%nat := Waiting]> (<[0%nat := Waiting]> (<[1%nat := Loaded 0]> (<[0%nat := Loaded 0]> (cpus both_starting))))).

Lemma both_starting_reachable : rtc (smp_step 3 2) smp_start both_starting.
Proof.
  eapply rtc_l; [apply init_mp_goto; lia|]. eapply rtc_l; [by apply init_mp_next|]. apply rtc_once. apply (init_mp_goto 3 2 1); lia.
Qed.

Lemma ticket_lost_reachable : rtc (smp_step 3 2) smp_start ticket_lost.
Proof.
  apply (rtc_trans _ _ _ both_starting_reachable).
  eapply rtc_l; [by apply (start_ap_load _ _ 0)|]. eapply rtc_l; [by apply (start_ap_load _ _ 1)|].
  eapply rtc_l; [by apply (start_ap_store _ _ 0 0)|]. eapply rtc_l; [by apply (start_ap_store _ _ 1 0)|].
  eapply rtc_l; [by apply init_mp_next|]. apply rtc_once. apply (init_mp_goto 3 2 2). lia.
Qed.

Lemma ticket_lost_stuck s : ~ smp_step 3 2 ticket_lost s.
Proof.
  intros H. remember ticket_lost as s0 eqn:E. destruct H as [i t c _|i t c Ht|j i b t c Hj|j v i b t c Hj]; try discriminate E; injection E; intros; simplify_eq; try done.
  all: destruct j as [|[|j]]; vm_compute in Hj; discriminate.
Qed.

(** C37: the start of the processors is one at a time when the processor that runs [init_mp] is the first of
    the loader's list: whatever the interleaving, at most one processor is between its entry and the
    end of [smp_ticket++], no state before the end of the loop is stuck and no run is longer than
    five steps per processor, so [init_mp] returns, and then every other processor has started. The
    code does not ensure this order of the list: with the third processor of three in charge, two
    processors can start at the same time, and when both load the ticket before one stores it,
    [init_mp] waits for ever. *)
Theorem init_mp_serial (cpu_count : nat) (s : smp) (Hcount : (1 <= cpu_count)%nat) (Hsmall : Z.of_nat cpu_count < 2 ^ 64)
    (Hreach : rtc (smp_step cpu_count 0) smp_start s) :
  (forall j k, starting (cpus s j) = true -> starting (cpus s k) = true -> j = k) /\
  (mp_i s = cpu_count -> smp_ticket s = Z.of_nat cpu_count - 1 /\ forall j, (0 < j < cpu_count)%nat -> cpus s j = Waiting) /\
  ((mp_i s < cpu_count)%nat -> exists s', smp_step cpu_count 0 s s') /\
  (forall k s', nsteps (smp_step cpu_count 0) k s s' -> Z.of_nat k <= 5 * Z.of_nat cpu_count + 4) /\
  (exists s2, rtc (smp_step 3 2) smp_start s2 /\ starting (cpus s2 0) = true /\ starting (cpus s2 1) = true) /\
  (exists s3, rtc (smp_step 3 2) smp_start s3 /\ (mp_i s3 < 3)%nat /\ forall s', ~ smp_step 3 2 s3 s').
Proof.
  pose proof (serial_reachable cpu_count Hcount Hsmall s Hreach) as Hs. split_and!.
  - intros j k Hj Hk. destruct (serial_starting cpu_count Hcount s j Hs Hj), (serial_starting cpu_count Hcount s k Hs Hk). congruence.
  - intros E. split; [|intros j Hj; apply (se_below _ _ Hs); lia]. pose proof (se_here _ _ Hs ltac:(lia)) as Hh.
    destruct (se_range _ _ Hs) as [?|[_ Hf]]; [lia|]. rewrite E in Hh. destruct (cpus s cpu_count); destruct_and?; (done || congruence).
  - intros Hi. by apply serial_progress.
  - intros k s' Hn. destruct (steps_bound cpu_count Hcount Hsmall k s s' Hs Hn) as [Hk Hs'].
    pose proof (progress_bound _ Hcount _ Hs). pose proof (progress_bound _ Hcount _ Hs'). lia.
  - exists both_starting. split; [exact both_starting_reachable|by vm_compute].
  - exists ticket_lost. split; [exact ticket_lost_reachable|]. split; [by vm_compute|exact ticket_lost_stuck].
Qed.

(** Two processors, after the second has loaded the ticket. *)
Lemma init_mp_serial_witness :
  let s := Smp 1 true 0 (<[1%nat := Loaded 0]> (<[1%nat := Booting]> (fun _ => Parked))) in
  starting (cpus s 1) = true /\ exists s', smp_step 2 0 s s'.
Proof.
  intros s. split; [reflexivity|].
  destruct (init_mp_serial 2 s) as (_ & _ & H & _).
  - lia.
  - lia.
  - eapply rtc_l; [apply init_mp_goto; lia|]. eapply rtc_l; [by apply init_mp_next|]. eapply rtc_l; [apply (init_mp_goto 2 0 1); lia|].
    apply rtc_once. by apply (start_ap_load _ _ 1).
  - apply H. cbn. lia.
Defined.
